(* ===== verification/_CoqProject ===== *)
-Q . S2P
Prelude.v
Go.v
GoStd.v
Strconv.v
Base64.v
Types.v
Config.v
Kube.v
Credentials.v
Resources.v
Controller.v
GarbageCollection.v
Metrics.v
RegistryConfig.v
BuildJob.v
Reference.v
SolveRequest.v
Driver.v
Publisher.v
FullJob.v
JobInterleaving.v
Filepath.v
Archive.v
Regexp.v
Cloud.v
AuthProvider.v
Clientset.v
Scheme.v
ClientConfig.v
FakeClient.v
Flags.v
Cmd.v
Setup.v
Handshake.v
Process.v
Crd.v
DeepCopy.v
Launch.v
Interleaving.v
Manager.v
RootCmd.v
EndToEnd.v
Lifecycle.v
