(* ===== verification/Prelude.v ===== *)
(** * Forge: verification of the image build system

    Forge builds container images inside a Kubernetes cluster.  A user creates a
    [ContainerImageBuild] resource; a controller notices it and creates a
    service account, a role, a role binding, a secret with cloud credentials and
    a job; the job fetches the build context, prepares it with plugins, builds
    the image with an embedded BuildKit, checks its size, pushes it to every
    registry of the build, and keeps the status of the resource and a message
    queue informed.  A garbage collector removes old finished builds.

    This library is a shallow embedding of the Go code: a pure function is a
    function, a method that reads and writes state is a computation of the
    monad [M S A] of [Go], whose outcome is a value, an error or a panic and
    whose state is defined in every case.  Code outside of the repository (the
    API server, BuildKit and containerd, the AMQP client, the operating system,
    the cloud providers) is a type class of operations, with a second class for
    what its documentation promises; each has an instance in memory, on which
    the theorems are applied to concrete inputs.

    ** Files

    - [Go]: errors of [pkg/errors], outcomes, the monad, [defer], and the frame
      rule [always].
    - [GoStd], [Strconv], [Filepath], [Base64]: the parts of the standard library
      in use (strings, strconv, [time.ParseDuration], encoding/csv,
      path/filepath, encoding/base64, integer conversions).
    - [Types]: [api/forge/v1alpha1], the resource and its validation.
    - [Config]: [internal/config], [internal/message/options.go] and the broker
      flags of [cmd/root.go].
    - [Kube]: Kubernetes objects, owner references, and the API server as the
      classes [KubeClient], [KubeServer], [FreshReads] and [KubeProgress].  A
      deletion that is accepted removes a build or marks it until the objects it
      owns are gone, as foreground propagation has it.
    - [Credentials]: [internal/credentials], the Docker configuration document.
    - [Resources], [Controller], [GarbageCollection]: [controllers/], the
      objects of a build, [Reconcile] and [RunGC].
    - [Metrics]: the collectors of the controller, their registration and what a
      scrape shows.
    - [Interleaving]: [Reconcile] and [RunGC] among the writes of others to a
      server whose reads may be out of date.
    - [RegistryConfig], [BuildJob]: [internal/buildjob], the registry
      configuration and the run of a job with its status updates.
    - [Reference], [SolveRequest], [Driver]: [internal/builder/embedded], image
      names, the build request, and the driver with its BuildKit client.
    - [Publisher]: [internal/message], the AMQP producer.
    - [FullJob]: the job on the driver and the publisher, which implement the
      interfaces [BuildJob] is stated with.
    - [JobInterleaving]: the run of a job among the writes of others, with the
      resource versions of the API server.
    - [Archive]: [internal/archive], download and extraction of the context.
    - [Regexp], [Cloud]: [internal/cloud], regular expressions with their
      languages, the choice of a provider, the challenge of a login server and
      the three providers.
    - [AuthProvider]: [bkimage/authprovider.go], the registry credentials and
      token authorities the builder asks for.
    - [Clientset]: [internal/clientset], the requests of the typed client, with
      the request builder of client-go and the access rules of the role.
    - [Scheme], [ClientConfig]: [groupversion_info.go] and the schemes, and the
      constructors of the client set with their rate limiters.
    - [FakeClient]: [internal/clientset/fake] and [typed/.../fake], the client set
      for tests on the object tracker of client-go.
    - [Flags]: the flags of pflag with their values, the parser of arguments, and
      cobra's search for a command.
    - [Cmd], [Process]: [cmd/build.go], the arguments of a build job read back
      by the command, and its process with signals as a step relation.
    - [RootCmd]: [cmd/root.go], [cmd/crd.go] and [cmd/version.go], from the
      arguments of the process to what it runs.
    - [Setup]: [buildjob.New] and [Cleanup], [plugins/preparer], the
      construction of the driver and of its BuildKit client.
    - [Handshake]: the handshake of [plugins/preparer/preparer.go] with the plugin
      of [docs/example].
    - [Manager]: [controllers/start.go] and the root command, the running
      controller as a transition system.
    - [Crd]: [internal/crd], installation of the resource definition.
    - [Launch]: the goroutines of a build in [driver.go], [bkimage/solve.go] and
      [util.go], with their channels and error groups, as a step relation, and the
      writer of the log ([bkimage/logadapter.go]).
    - [DeepCopy]: [zz_generated.deepcopy.go], copies over a heap.
    - [EndToEnd]: the path of cloud credentials and of the command line of the
      controller through all of them.
    - [Lifecycle]: a build from its submission to its end, through the controller,
      the command line of the job, its construction and its run.

    ** What the theorems show

    - Controller: a reconciliation installs exactly the objects of the build,
      the job last; it never changes what exists; retries converge; credentials
      of one build never reach the job of another; on a healthy cluster it
      succeeds.  The collector deletes only finished builds beyond the
      retention count, oldest first, and all of them when the cluster answers.
      These theorems read through a client that is up to date ([FreshReads]); the
      manager of the source reads from a cache.  Among the writes of others and
      with reads out of date, a reconciliation only creates objects of its build
      under free names, and a collection only deletes names of builds that were
      finished ([Interleaving]).
    - Job: the stored versions of a resource are a path of the build state
      machine, and its messages a prefix of them; a run reaches a final state
      when the server answers.  With the driver and the publisher in place of their
      interfaces, a build that a run completed was pushed to each of its registries,
      under the names in its status, with the size that was looked up for this
      image and is within its limit, and the publications to the broker carry the
      stored versions in order ([FullJob]).
      Among the writes of others, a run only writes the status of its own build,
      and only over the version it has seen ([JobInterleaving]).  The loops over Go
      maps implement the documented precedence of credentials, whatever the order
      of iteration.
    - Driver: which calls a successful build makes, that nothing is pushed
      before the size of the image was looked up in the store or after a failure,
      that the host configuration is always reset, and what a build request
      contains.  Its goroutines neither deadlock nor use a closed channel, as long
      as a cancelled solve returns; every status is displayed, and the joined
      result is an error when one of them failed.
    - Publisher and archive: bounded retries, how long a jittered backoff sleeps
      and what ends it, what a message is published to, what is extracted where
      while the archive is read.
    - Cloud registries: which provider serves which server name; the headers of
      a challenge are read back; a verified token authority is the one that was
      announced.
    - Composition: the credentials the driver uses for a dynamic registry are
      the ones the cloud returned to the controller ([EndToEnd]); the command
      line the controller writes is the configuration the job starts with
      ([Cmd]), and what it carries is what the command line of the controller
      said ([EndToEnd]); a build that is submitted to a healthy cluster ends
      completed or failed ([Lifecycle]); the role the controller creates grants
      exactly the requests the job makes ([Clientset]); along any interleaving of the controller's activities the
      job configuration stays the one of the command line and a build is only
      deleted when it is finished and enough newer ones remain ([Manager]).
    - Command line: every configuration can be written as arguments and is read
      back; whatever the arguments, a process that starts has a valid broker and
      numbers of their width.
    - Clients: the clients of a client set share one rate limiter; the fake is a
      store of single builds by name; a plugin starts exactly when the variables of the
      handshake are set.
    - Resources: the plugin processes of a job have ended when its process ends,
      also on a signal, and its producer is closed when the main goroutine returns
      ([Process], where the job may do anything while it runs); a copy shares no memory with its original; an installation
      of the definition loses no concurrent change.
    - Some theorems show behaviour that is not intended: a signal of a closed
      connection that is lost, a nil channel, a build that a lost message or the
      edit of somebody else strands, cleanups of the wrong plugin, metrics that
      count failures as successes, extraction outside of the directory or without
      truncation, a queue name whose commands the shell of the job runs, a token
      sent to a server that only resembles a registry, a collection that deletes a new build
      of an old name, a retention count that takes the controller down, a gauge
      that is never exported, a fake that loses the objects it is made with.

    ** Bounds and fuel

    The recursions are structural, but for these loops.  [Archive.backoff_loop]
    runs with as many rounds as the backoff has steps, and each round that
    continues uses a step.  [Archive.extract_loop] reads an archive that grows or
    shrinks while it is unpacked, so it has no bound of its own: it panics when its
    fuel is used up, and any fuel above the number of entries is enough when the
    archive is left alone ([Archive.extract_loop_fuel]).  [Publisher.connect_loop] runs with the retry limit
    of the source.  [Flags.parse_args] runs with the number of its arguments and
    [Flags.parseShortArg] with the length of its argument, of which each round
    takes at least one ([Flags.parse_args_fuel]).  [Strconv.duration_loop] runs
    with the length of its text, of which each term has a byte at least
    ([Strconv.ParseDuration_total]); [Regexp.find_all] does with that of its text,
    and [Cloud.retry_loop] with the number of attempts of the source.  Integers
    are [Z]; the conversions and products that can wrap are written with their
    width, and floating point is [SpecFloat] at the precision of binary64.

    ** Not modelled

    Logging, the rendering of progress, and the texts of help are output without
    decisions.  The fakes of discovery
    and of the REST client have no operations, and [tools/tools.go] has no code.
    Time is an oracle; [Driver] runs the goroutines of a build one after the
    other, up to the error they are joined with, and [Launch] interleaves them;
    the activities of the running manager are atomic in [Manager], and
    [Interleaving] lets others write inside of them.  A slice refers to an array
    of its length.  File systems have no links. *)
From stdpp Require Import gmap strings list fin_maps sorting.
From Stdlib Require Import Lia.

Declare Scope forge_scope.
Delimit Scope forge_scope with forge.
Open Scope forge_scope.

Create HintDb forge.

(** ** Tactics *)

(** Splits every hypothesis that is a conjunction or an existential. *)
Ltac unpack :=
  repeat match goal with
  | H : _ ∧ _ |- _ => destruct H
  | H : ∃ _, _ |- _ => destruct H
  end.

(** Closes a goal by the usual congruence reasoning on constructors. *)
Ltac crush := simplify_eq/=; try done; try congruence; try lia.

(** Case analysis on the first [match] or [if] of the goal, equation kept. *)
Ltac case_goal :=
  match goal with
  | |- context [match ?x with _ => _ end] =>
      let E := fresh "E" in destruct x eqn:E
  end.

(** ** Lists *)

Section lists.
Context {A : Type}.
Implicit Types l k : list A.

(** A prefix of a list sorted by [R] is below the rest of it. *)
Lemma StronglySorted_take_drop (R : relation A) n l x y :
  StronglySorted R l → x ∈ take n l → y ∈ drop n l → R x y.
Proof.
  intros Hs. revert n. induction Hs as [|a l Hs IH Hall]; intros [|n]; simpl.
  - intros Hx. by apply not_elem_of_nil in Hx.
  - intros Hx. by apply not_elem_of_nil in Hx.
  - intros Hx. by apply not_elem_of_nil in Hx.
  - rewrite elem_of_cons. intros [->|Hx] Hy; [|by eapply IH].
    rewrite Forall_forall in Hall. apply Hall.
    rewrite <- (take_drop n l). apply elem_of_app. by right.
Qed.

Lemma Sorted_weaken (R R' : relation A) l :
  (∀ x y, R x y → R' x y) → Sorted R l → Sorted R' l.
Proof.
  intros HR. induction 1 as [|a l Hs IH Hd]; constructor; [done|].
  destruct Hd; constructor; auto.
Qed.

(** A prefix of an append ends in the first part or covers it. *)
Lemma prefix_app_cases l k1 k2 :
  l `prefix_of` k1 ++ k2 → l `prefix_of` k1 ∨ ∃ q, l = k1 ++ q.
Proof.
  revert l. induction k1 as [|x k1 IH]; intros l Hl; [right; by exists l|].
  destruct l as [|y l]; [left; apply prefix_nil|].
  apply prefix_cons_inv_1 in Hl as Hxy. apply prefix_cons_inv_2 in Hl as Hl'. subst.
  destruct (IH _ Hl') as [?|[q ->]]; [left; by apply prefix_cons|right; by exists q].
Qed.

Lemma list_filter_app_split (P : A → bool) l :
  Permutation l (List.filter P l ++ List.filter (λ x, negb (P x)) l).
Proof.
  induction l as [|a l IH]; simpl; [done|].
  destruct (P a); simpl; [by constructor|].
  etrans; [by constructor|]. apply Permutation_middle.
Qed.

#[export] Instance filter_bool_Permutation (P : A → bool) :
  Proper (Permutation ==> Permutation) (List.filter P).
Proof.
  induction 1 as [|x l k _ IH|x y l|l k m _ IH1 _ IH2]; simpl; [done|..|by etrans].
  - by destruct (P x); [constructor|].
  - destruct (P x), (P y); try done. apply Permutation_swap.
Qed.

Lemma forallb_ext (f g : A → bool) l : (∀ x, f x = g x) → forallb f l = forallb g l.
Proof. intros H. induction l as [|x l IH]; simpl; [done|]. by rewrite H, IH. Qed.

Lemma filter_bool_all (P : A → bool) l :
  (∀ x, x ∈ l → P x = true) → List.filter P l = l.
Proof.
  induction l as [|x l IH]; intros H; simpl; [done|].
  rewrite H, IH by set_solver. done.
Qed.
End lists.
