(* ===== verification/Go.v ===== *)
(** * Go: error values, call outcomes and effectful calls

    The part of the Go language and of [pkg/errors] that every component of
    forge relies on: error chains ([Wrap], [Unwrap], [Cause]), the three ways a
    call can end (a value, an error, a panic), and the state-passing monad in
    which the effectful methods are written, with the [defer] construct. *)
From stdpp Require Import gmap strings list.
From S2P Require Import Prelude.

(** ** Error values *)

(** Reason of a Kubernetes API status error. *)
Inductive StatusReason :=
| StatusReasonNotFound
| StatusReasonAlreadyExists
| StatusReasonConflict
| StatusReasonBadRequest
| StatusReasonUnknown.

#[export] Instance StatusReason_eq_dec : EqDecision StatusReason.
Proof. solve_decision. Defined.

(** A Go error value.  [fundamental] is a leaf made by [errors.New],
    [errors.Errorf] or [fmt.Errorf] without a %w verb; [wrapError] is made by
    [fmt.Errorf] with a trailing %w; [withMessage] and [withStack] are the two
    layers of [pkg/errors]; [StatusError] is the error of a Kubernetes call. *)
Inductive error :=
| fundamental (msg : string)
| wrapError (msg : string) (err : error)
| withMessage (cause : error) (msg : string)
| withStack (err : error)
| StatusError (reason : StatusReason) (msg : string).

#[export] Instance error_eq_dec : EqDecision error.
Proof. solve_decision. Defined.

(** The [Error] method. *)
Fixpoint Error (e : error) : string :=
  match e with
  | fundamental msg => msg
  | wrapError msg err => msg +:+ ": " +:+ Error err
  | withMessage cause msg => msg +:+ ": " +:+ Error cause
  | withStack err => Error err
  | StatusError _ msg => msg
  end.

(** [errors.New]. *)
Definition New (msg : string) : error := fundamental msg.

(** [errors.Wrap] on a non-nil error. *)
Definition wrap (err : error) (msg : string) : error :=
  withStack (withMessage err msg).

(** [errors.Wrap]: nil stays nil. *)
Definition Wrap (err : option error) (msg : string) : option error :=
  match err with
  | None => None
  | Some e => Some (wrap e msg)
  end.

(** [errors.Unwrap]: one layer of the chain, nil when there is none. *)
Definition Unwrap (e : error) : option error :=
  match e with
  | withStack err => Some err
  | withMessage cause _ => Some cause
  | wrapError _ err => Some err
  | _ => None
  end.

(** [errors.Cause]: follows the [Cause] methods, which only the two layers of
    [pkg/errors] have. *)
Fixpoint Cause (e : error) : error :=
  match e with
  | withStack err => Cause err
  | withMessage cause _ => Cause cause
  | _ => e
  end.

(** [apierrors.ReasonForError]: the first status error of the chain. *)
Fixpoint ReasonForError (e : error) : StatusReason :=
  match e with
  | StatusError r _ => r
  | withStack err => ReasonForError err
  | withMessage cause _ => ReasonForError cause
  | wrapError _ err => ReasonForError err
  | fundamental _ => StatusReasonUnknown
  end.

(** [apierrors.IsNotFound]. *)
Definition IsNotFound (e : error) : bool :=
  bool_decide (ReasonForError e = StatusReasonNotFound).

(** ** Outcome of a call *)

(** A call returns a value and a nil error, returns a non-nil error, or
    panics. *)
Inductive outcome (A : Type) :=
| Ok (a : A)
| Err (e : error)
| Panic (msg : string).
Arguments Ok {A} a.
Arguments Err {A} e.
Arguments Panic {A} msg.

Definition obind {A B} (c : outcome A) (k : A → outcome B) : outcome B :=
  match c with
  | Ok a => k a
  | Err e => Err e
  | Panic m => Panic m
  end.

Notation "'let?' x := c 'in' k" := (obind c (λ x, k))
  (at level 10, x pattern, c at level 100, k at level 200)
  : forge_scope.

(** [return nil, errors.Wrap(err, msg)] when the call failed. *)
Definition wrap_err {A} (msg : string) (c : outcome A) : outcome A :=
  match c with
  | Err e => Err (wrap e msg)
  | _ => c
  end.

Definition is_Ok {A} (c : outcome A) : bool :=
  match c with Ok _ => true | _ => false end.

(** The call returns, with a value or an error. *)
Definition no_panic {A} (c : outcome A) : Prop := ∀ m, c ≠ Panic m.

Lemma no_panic_Ok {A} (a : A) : no_panic (Ok a).
Proof. done. Qed.
Lemma no_panic_Err {A} e : no_panic (Err (A:=A) e).
Proof. done. Qed.
Lemma no_panic_obind {A B} (c : outcome A) (k : A → outcome B) :
  no_panic c → (∀ a, no_panic (k a)) → no_panic (obind c k).
Proof. intros Hc Hk. destruct c as [a|e|m]; [apply Hk|done|by destruct (Hc m)]. Qed.
Lemma no_panic_wrap_err {A} msg (c : outcome A) : no_panic c → no_panic (wrap_err msg c).
Proof. by destruct c. Qed.
#[export] Hint Resolve no_panic_Ok no_panic_Err no_panic_obind no_panic_wrap_err : forge.

(** The [err != nil] view of a call that returns only an error. *)
Definition of_err (e : option error) : outcome unit :=
  match e with
  | None => Ok tt
  | Some e => Err e
  end.

(** ** Effectful calls *)

(** A call that reads and writes a state [S].  The state it leaves is defined
    whatever the outcome: an error or a panic does not undo effects. *)
Definition M (S A : Type) : Type := S → outcome A * S.

Section monad.
Context {S : Type}.

Definition ret {A} (a : A) : M S A := λ s, (Ok a, s).
Definition throw {A} (e : error) : M S A := λ s, (Err e, s).
Definition panic {A} (msg : string) : M S A := λ s, (Panic msg, s).
Definition lift_outcome {A} (o : outcome A) : M S A := λ s, (o, s).
Definition get : M S S := λ s, (Ok s, s).
Definition modify (f : S → S) : M S unit := λ s, (Ok tt, f s).

Definition bind {A B} (c : M S A) (k : A → M S B) : M S B := λ s,
  match c s with
  | (Ok a, s') => k a s'
  | (Err e, s') => (Err e, s')
  | (Panic m, s') => (Panic m, s')
  end.

(** [if _, err := c; err != nil { h(err) }]: the error is a value, only a
    panic leaves the function. *)
Definition try {A} (c : M S A) : M S (error + A) := λ s,
  match c s with
  | (Ok a, s') => (Ok (inr a), s')
  | (Err e, s') => (Ok (inl e), s')
  | (Panic m, s') => (Panic m, s')
  end.

(** The error of a call, wrapped before it is returned. *)
Definition wrapping {A} (msg : string) (c : M S A) : M S A := λ s,
  let '(o, s') := c s in (wrap_err msg o, s').

(** [defer d; c]: [d] runs when [c] returns, fails or panics. *)
Definition deferred {A} (d : S → S) (c : M S A) : M S A := λ s,
  let '(o, s') := c s in (o, d s').
End monad.

Notation "'let!' x := c 'in' k" := (bind c (λ x, k))
  (at level 10, x pattern, c at level 100, k at level 200)
  : forge_scope.
Notation "'do!' c 'in' k" := (bind c (λ _, k))
  (at level 10, c at level 100, k at level 200)
  : forge_scope.

(** [for _, x := range l { f x }], left at the first error. *)
Fixpoint for_each {S A} (f : A → M S unit) (l : list A) : M S unit :=
  match l with
  | [] => ret tt
  | x :: l' => do! f x in for_each f l'
  end.

(** A call on a component of a larger state. *)
Definition zoom {S T A} (view : T → S) (set : S → T → T) (c : M S A) : M T A :=
  λ t, let '(o, s') := c (view t) in (o, set s' t).

(** ** Reasoning about calls *)

Lemma bind_inv {S A B} (c : M S A) (k : A → M S B) s o s' :
  bind c k s = (o, s') →
  (∃ a s1, c s = (Ok a, s1) ∧ k a s1 = (o, s')) ∨
  (∃ e, c s = (Err e, s') ∧ o = Err e) ∨
  (∃ m, c s = (Panic m, s') ∧ o = Panic m).
Proof.
  unfold bind. destruct (c s) as [[a|e|m] s1]; intros H; simplify_eq; eauto 8.
Qed.

Lemma bind_Ok_inv {S A B} (c : M S A) (k : A → M S B) s b s' :
  bind c k s = (Ok b, s') → ∃ a s1, c s = (Ok a, s1) ∧ k a s1 = (Ok b, s').
Proof. intros H%bind_inv. naive_solver. Qed.

Lemma bind_run {S A B} (c : M S A) (k : A → M S B) s a s1 :
  c s = (Ok a, s1) → bind c k s = k a s1.
Proof. unfold bind. by intros ->. Qed.

Lemma bind_assoc {S A B C} (c : M S A) (k : A → M S B) (h : B → M S C) s :
  bind (bind c k) h s = bind c (λ a, bind (k a) h) s.
Proof. unfold bind. by destruct (c s) as [[a|e|m] s1]. Qed.

Lemma try_inv {S A} (c : M S A) s o s' :
  try c s = (o, s') →
  (∃ a, c s = (Ok a, s') ∧ o = Ok (inr a)) ∨
  (∃ e, c s = (Err e, s') ∧ o = Ok (inl e)) ∨
  (∃ m, c s = (Panic m, s') ∧ o = Panic m).
Proof. unfold try. destruct (c s) as [[a|e|m] s1]; naive_solver. Qed.

Lemma run_split {S A} (c : M S A) s o : fst (c s) = o → c s = (o, snd (c s)).
Proof. intros <-. by destruct (c s). Qed.

(** [always R c]: whatever the outcome of [c], the states before and after
    are related by [R].  With a pre-order [R] it composes along the control
    flow, so that a frame property or an invariant of a whole handler follows
    from the ones of the calls it makes. *)
Definition always {S A} (R : relation S) (c : M S A) : Prop :=
  ∀ s o s', c s = (o, s') → R s s'.

Section always.
Context {S : Type} (R : relation S) `{!PreOrder R}.

Lemma always_ret {A} (a : A) : always R (ret a).
Proof. intros s o s' [= <- <-]. done. Qed.

Lemma always_throw {A} e : always R (throw (A:=A) e).
Proof. intros s o s' [= <- <-]. done. Qed.

Lemma always_panic {A} m : always R (panic (A:=A) m).
Proof. intros s o s' [= <- <-]. done. Qed.

Lemma always_lift_outcome {A} (o : outcome A) : always R (lift_outcome o).
Proof. intros s o' s' [= <- <-]. done. Qed.

Lemma always_get : always R get.
Proof. intros s o s' [= <- <-]. done. Qed.

Lemma always_modify f : (∀ s, R s (f s)) → always R (modify f).
Proof. intros Hf s o s' [= <- <-]. done. Qed.

Lemma always_bind {A B} (c : M S A) (k : A → M S B) :
  always R c → (∀ a, always R (k a)) → always R (bind c k).
Proof.
  intros Hc Hk s o s' [(a & s1 & H1 & H2)|[(e & H1 & _)|(m & H1 & _)]]%bind_inv;
    [etrans; [by eapply Hc|by eapply Hk]|by eapply Hc..].
Qed.

Lemma always_try {A} (c : M S A) : always R c → always R (try c).
Proof. intros Hc s o s' H%try_inv. destruct H as [?|[?|?]]; unpack; by eapply Hc. Qed.

Lemma always_wrapping {A} m (c : M S A) : always R c → always R (wrapping m c).
Proof.
  intros Hc s o s'. unfold wrapping. destruct (c s) eqn:E.
  intros [= <- <-]. by eapply Hc.
Qed.

Lemma always_deferred {A} d (c : M S A) :
  always R c → (∀ s, R s (d s)) → always R (deferred d c).
Proof.
  intros Hc Hd s o s'. unfold deferred. destruct (c s) eqn:E.
  intros [= <- <-]. etrans; [by eapply Hc|done].
Qed.

Lemma always_for_each {A} (f : A → M S unit) l :
  (∀ x, always R (f x)) → always R (for_each f l).
Proof.
  intros Hf. induction l as [|x l IH]; [apply always_ret|].
  apply always_bind; [apply Hf|]. intros _. apply IH.
Qed.
End always.

#[export] Hint Resolve always_ret always_throw always_panic always_lift_outcome
  always_get always_bind always_try always_wrapping always_for_each : forge.
#[export] Hint Extern 0 (PreOrder _) => apply _ : forge.

(** A deferred call that always restores a field: the field is restored on
    every path. *)
Lemma deferred_post {S A} (P : S → Prop) d (c : M S A) s o s' :
  (∀ s, P (d s)) → deferred d c s = (o, s') → P s'.
Proof.
  intros Hd. unfold deferred. destruct (c s) as [o1 s1].
  intros [= <- <-]. apply Hd.
Qed.

(** ** Facts on error chains *)

Lemma Error_wrap e msg : Error (wrap e msg) = msg +:+ ": " +:+ Error e.
Proof. done. Qed.

(** Wrapping never hides the reason of an API error. *)
Lemma ReasonForError_wrap e msg : ReasonForError (wrap e msg) = ReasonForError e.
Proof. done. Qed.

Lemma Cause_wrap e msg : Cause (wrap e msg) = Cause e.
Proof. done. Qed.

Lemma Cause_idemp e : Cause (Cause e) = Cause e.
Proof. by induction e. Qed.
