(* ===== verification/GoStd.v ===== *)
(** * GoStd: the parts of the Go standard library the program uses

    String functions of package [strings], the lexical path functions of
    [path/filepath] (Unix separator), conversions between integer types, and
    JSON documents as trees (the concrete syntax of JSON is not modelled: an
    encoded document is identified with its tree). *)
From stdpp Require Import gmap strings list.
From Stdlib Require Import ZArith Ascii.
From S2P Require Import Prelude.

(** ** Package strings *)

(** [strings.Join]. *)
Fixpoint strings_Join (elems : list string) (sep : string) : string :=
  match elems with
  | [] => ""
  | [e] => e
  | e :: rest => e +:+ sep +:+ strings_Join rest sep
  end.

(** [strings.HasPrefix]. *)
Definition HasPrefix (s prefix : string) : bool := String.prefix prefix s.

(** [strings.TrimSuffix]. *)
Fixpoint TrimSuffix (s suffix : string) : string :=
  if bool_decide (s = suffix) then "" else
  match s with
  | EmptyString => ""
  | String a s' => String a (TrimSuffix s' suffix)
  end.

(** [strings.Split] on a one-byte separator. *)
Fixpoint Split (s : string) (c : ascii) : list string :=
  match s with
  | EmptyString => [""]
  | String a s' =>
      if bool_decide (a = c) then "" :: Split s' c
      else match Split s' c with
           | h :: t => String a h :: t
           | [] => [String a ""]
           end
  end.

(** The two sides of the first occurrence of a byte, when there is one. *)
Fixpoint Cut (s : string) (c : ascii) : option (string * string) :=
  match s with
  | EmptyString => None
  | String a s' =>
      if bool_decide (a = c) then Some ("", s')
      else match Cut s' c with
           | Some (l, r) => Some (String a l, r)
           | None => None
           end
  end.

(** [strings.SplitN] with a one-byte separator and at most two pieces. *)
Definition SplitN2 (s : string) (c : ascii) : list string :=
  match Cut s c with
  | Some (l, r) => [l; r]
  | None => [s]
  end.

(** [strings.Repeat]. *)
Fixpoint Repeat (s : string) (n : nat) : string :=
  match n with
  | O => ""
  | S n' => s +:+ Repeat s n'
  end.

(** [strings.ToLower] and [strings.EqualFold] on ASCII text. *)
Definition to_lower_byte (a : ascii) : ascii :=
  let n := N_of_ascii a in
  if ((65 <=? n) && (n <=? 90))%N then ascii_of_N (n + 32) else a.

Fixpoint ToLower (s : string) : string :=
  match s with
  | EmptyString => ""
  | String a s' => String (to_lower_byte a) (ToLower s')
  end.

Definition EqualFold (s t : string) : bool := bool_decide (ToLower s = ToLower t).

(** The double quote, which the source writes escaped. *)
Definition dquote : string := String (ascii_of_nat 34) "".

(** The line feed. *)
Definition newline : string := String (ascii_of_nat 10) "".

(** [%t] of package fmt. *)
Definition fmt_bool (b : bool) : string := if b then "true" else "false".

(** [strconv.ParseBool]. *)
Definition ParseBool (s : string) : option bool :=
  if bool_decide (s ∈ ["1"; "t"; "T"; "true"; "TRUE"; "True"]) then Some true
  else if bool_decide (s ∈ ["0"; "f"; "F"; "false"; "FALSE"; "False"]) then Some false
  else None.

(** [%q] of package fmt, on text without characters to escape. *)
Definition fmt_q (s : string) : string := dquote +:+ s +:+ dquote.

(** ** Package path/filepath (Unix) *)

Definition slash : ascii := "/"%char.

(** The lexical processing of [filepath.Clean]: empty and "." components are
    dropped, ".." removes the component before it, and a ".." that has nothing
    to remove is dropped at the root and kept in a relative path.  [stack] is
    the output so far, last component first. *)
Fixpoint clean_components (rooted : bool) (stack comps : list string)
    : list string :=
  match comps with
  | [] => rev stack
  | c :: rest =>
      if bool_decide (c = "" ∨ c = ".") then clean_components rooted stack rest
      else if bool_decide (c = "..") then
        match stack with
        | [] => clean_components rooted (if rooted then [] else [".."]) rest
        | top :: stack' =>
            if bool_decide (top = "..")
            then clean_components rooted (".." :: stack) rest
            else clean_components rooted stack' rest
        end
      else clean_components rooted (c :: stack) rest
  end.

(** [filepath.IsAbs]. *)
Definition IsAbs (p : string) : bool :=
  match p with
  | String a _ => bool_decide (a = slash)
  | EmptyString => false
  end.

(** [filepath.Clean]. *)
Definition Clean (p : string) : string :=
  let rooted := IsAbs p in
  let comps := clean_components rooted [] (Split p slash) in
  if rooted then "/" +:+ strings_Join comps "/"
  else match comps with
       | [] => "."
       | _ => strings_Join comps "/"
       end.

(** [filepath.Join]: the path of the first non-empty element on. *)
Fixpoint filepath_Join (elem : list string) : string :=
  match elem with
  | [] => ""
  | e :: rest =>
      if bool_decide (e = "") then filepath_Join rest
      else Clean (strings_Join elem "/")
  end.

(** ** Integer conversions *)

(** [uint64(x)] of an [int64]: two's complement reinterpretation. *)
Definition uint64_of (x : Z) : Z := x mod 2 ^ 64.

(** Values of an unsigned type of [w] bits. *)
Definition in_uint (w : Z) (x : Z) : bool := ((0 <=? x) && (x <? 2 ^ w))%Z.

(** Values of a signed type of 64 bits. *)
Definition in_int64 (x : Z) : bool := ((- 2 ^ 63 <=? x) && (x <? 2 ^ 63))%Z.

(** Signed 64-bit product, with its wrap-around. *)
Definition mul_int64 (x y : Z) : Z := ((x * y + 2 ^ 63) mod 2 ^ 64 - 2 ^ 63)%Z.

(** [time.Second], in nanoseconds. *)
Definition Second : Z := 1000000000.

(** ** JSON documents *)

Inductive json :=
| JNull
| JBool (b : bool)
| JNum (n : Z)
| JStr (s : string)
| JArr (l : list json)
| JObj (fields : list (string * json)).

(** The value of a field of an object. *)
Definition json_field (k : string) (j : json) : option json :=
  match j with
  | JObj fields =>
      match List.find (λ f, bool_decide (f.1 = k)) fields with
      | Some f => Some f.2
      | None => None
      end
  | _ => None
  end.

(** A string field of an encoded struct with the [omitempty] option. *)
Definition omitempty (k v : string) : list (string * json) :=
  if bool_decide (v = "") then [] else [(k, JStr v)].

(** Bytes read as JSON: nothing, a document, or something else. *)
Inductive document :=
| NoDocument
| Document (j : json)
| Malformed.

(** ** Examples from the packages' documentation *)

Example Clean_dots : Clean "/a/../../b/./c//d" = "/b/c/d".
Proof. reflexivity. Qed.

Example Clean_relative : Clean "a/../../b" = "../b".
Proof. reflexivity. Qed.

Example filepath_Join_ex : filepath_Join [""; "a"; "b/../../../xyz"] = "../xyz".
Proof. reflexivity. Qed.

Example TrimSuffix_ex : TrimSuffix "/apis/x/status" "/status" = "/apis/x".
Proof. reflexivity. Qed.

Example Split_ex : Split "a,b,,c" ","%char = ["a"; "b"; ""; "c"].
Proof. reflexivity. Qed.

(** ** Strings as lists of characters *)

Lemma string_app_assoc (s t u : string) : (s +:+ t) +:+ u = s +:+ (t +:+ u).
Proof. unfold String.app. induction s as [|a s IH]; cbn; [done|by rewrite IH]. Qed.

Lemma string_app_nil_r (s : string) : s +:+ "" = s.
Proof. unfold String.app. induction s as [|a s IH]; cbn; [done|by rewrite IH]. Qed.

Lemma string_app_inj_l (s t u : string) : s +:+ t = s +:+ u → t = u.
Proof.
  unfold String.app. induction s as [|a s IH]; cbn; [done|].
  intros [= H]. by apply IH.
Qed.

Lemma string_app_cons a (s t : string) : String a s +:+ t = String a (s +:+ t).
Proof. done. Qed.

Lemma substring_whole s : String.substring 0 (String.length s) s = s.
Proof. induction s as [|a s IH]; [done|]. simpl. by rewrite IH. Qed.

(** The bytes of a string. *)
Fixpoint chars (s : string) : list ascii :=
  match s with
  | EmptyString => []
  | String a s' => a :: chars s'
  end.

Lemma chars_app s t : chars (s +:+ t) = chars s ++ chars t.
Proof. unfold String.app. induction s as [|a s IH]; cbn; [done|by rewrite IH]. Qed.

(** A string without the byte [c] splits into itself. *)
Lemma Split_no_sep s c : c ∉ chars s → Split s c = [s].
Proof.
  induction s as [|a s IH]; simpl; [done|].
  intros Hc. rewrite bool_decide_eq_false_2 by set_solver.
  rewrite IH by set_solver. done.
Qed.

(** Splitting undoes a join with the separator. *)
Lemma Split_cons s c t :
  c ∉ chars s → Split (s +:+ String c t) c = s :: Split t c.
Proof.
  induction s as [|a s IH]; intros Hc.
  - change ("" +:+ String c t) with (String c t). simpl.
    by rewrite bool_decide_eq_true_2.
  - rewrite string_app_cons. simpl in *.
    rewrite bool_decide_eq_false_2 by set_solver.
    rewrite IH by set_solver. done.
Qed.

Lemma Split_not_nil s c : Split s c ≠ [].
Proof. destruct s as [|a s]; simpl; [done|]. case_bool_decide; [done|]. by destruct (Split s c). Qed.

Lemma Split_app s c t : Split (s +:+ String c t) c = Split s c ++ Split t c.
Proof.
  induction s as [|a s IH].
  - change ("" +:+ String c t) with (String c t). simpl. by rewrite bool_decide_eq_true_2.
  - rewrite string_app_cons. simpl. case_bool_decide; [by rewrite IH|].
    rewrite IH. by destruct (Split s c) eqn:E; [apply Split_not_nil in E|].
Qed.

Lemma Split_Join l c :
  l ≠ [] → Forall (λ s, c ∉ chars s) l →
  Split (strings_Join l (String c "")) c = l.
Proof.
  induction l as [|s l IH]; [done|]. intros _ Hl.
  inversion Hl as [|? ? Hs Hl' E1]; subst.
  destruct l as [|s' l].
  - simpl. by rewrite Split_no_sep.
  - change (strings_Join (s :: s' :: l) (String c ""))
      with (s +:+ String c (strings_Join (s' :: l) (String c ""))).
    rewrite Split_cons by done. by rewrite IH.
Qed.

Lemma Cut_app s c t : c ∉ chars s → Cut (s +:+ String c t) c = Some (s, t).
Proof.
  induction s as [|a s IH]; intros Hc.
  - change ("" +:+ String c t) with (String c t). simpl.
    by rewrite bool_decide_eq_true_2.
  - rewrite string_app_cons. simpl in *.
    rewrite bool_decide_eq_false_2 by set_solver.
    rewrite IH by set_solver. done.
Qed.

Lemma Cut_None s c : c ∉ chars s → Cut s c = None.
Proof.
  induction s as [|a s IH]; simpl; [done|].
  intros Hc. rewrite bool_decide_eq_false_2 by set_solver.
  rewrite IH by set_solver. done.
Qed.

Lemma Cut_None_inv s c : Cut s c = None → c ∉ chars s.
Proof.
  induction s as [|a s IH]; simpl; [set_solver|]. case_bool_decide; [done|].
  destruct (Cut s c) as [[l r]|]; [done|]. set_solver.
Qed.

Lemma Cut_spec s c l r :
  Cut s c = Some (l, r) → s = l +:+ String c r ∧ c ∉ chars l.
Proof.
  revert l r. induction s as [|a s IH]; intros l r; simpl; [done|].
  case_bool_decide as Ha.
  - intros [= <- <-]. subst. split; [done|]. simpl. set_solver.
  - destruct (Cut s c) as [[l' r']|]; [|done]. intros [= <- <-].
    destruct (IH l' r' eq_refl) as [-> Hl]. split; [done|]. simpl. set_solver.
Qed.

(** A prefix without the separator stays in the first part. *)
Lemma Cut_prefix p s c :
  c ∉ chars p →
  Cut (p +:+ s) c = match Cut s c with Some (l, r) => Some (p +:+ l, r) | None => None end.
Proof.
  induction p as [|a p IH]; intros Hc.
  - change ("" +:+ s) with s. by destruct (Cut s c) as [[l r]|].
  - rewrite string_app_cons. simpl in *. rewrite bool_decide_eq_false_2 by set_solver.
    rewrite IH by set_solver. by destruct (Cut s c) as [[l r]|].
Qed.

Lemma has_prefix_dec (p s : string) : (∃ k, s = p +:+ k) ∨ (∀ k, s ≠ p +:+ k).
Proof.
  revert s. induction p as [|a p IH]; intros s; [left; by exists s|].
  destruct s as [|b s]; [right; by intros k|]. destruct (decide (b = a)) as [->|Hne].
  - destruct (IH s) as [[k ->]|H]; [left; by exists k|].
    right. intros k. rewrite string_app_cons. intros [= E]. by apply (H k).
  - right. intros k. rewrite string_app_cons. congruence.
Qed.

#[export] Instance string_app_inj p : Inj (=) (=) (String.app p).
Proof. intros s t H. by eapply string_app_inj_l. Qed.

(** ** Integer facts *)

Lemma uint64_of_id x : in_uint 64 x = true → uint64_of x = x.
Proof. unfold in_uint, uint64_of. intros H. apply Z.mod_small. lia. Qed.

Lemma uint64_of_range x : in_uint 64 (uint64_of x) = true.
Proof.
  unfold in_uint, uint64_of. pose proof (Z.mod_pos_bound x (2 ^ 64)). lia.
Qed.

Lemma mul_int64_exact x y :
  in_int64 (x * y) = true → mul_int64 x y = (x * y)%Z.
Proof.
  unfold in_int64, mul_int64. intros H. rewrite Z.mod_small by lia. lia.
Qed.
