(* ===== verification/Strconv.v ===== *)
(** * Strconv: the text of numbers, durations and pairs

    What the values of the controller's flags go through: [strconv.ParseInt] with
    base 0 and 64 bits, [time.ParseDuration], and the reading of one record by
    [encoding/csv].  The integers keep their width; the fractions of a duration
    are computed in binary64 arithmetic. *)
From stdpp Require Import strings list pretty.
From Stdlib Require Import ZArith Ascii SpecFloat.
From S2P Require Import Prelude Go GoStd.
#[local] Open Scope forge_scope.
#[local] Open Scope Z_scope.

(** ** Integers *)

(** Two's complement in 64 bits. *)
Definition int64_of (x : Z) : Z := (x + 2 ^ 63) mod 2 ^ 64 - 2 ^ 63.

Definition max_int64 : Z := 2 ^ 63 - 1.
Definition max_uint64 : Z := 2 ^ 64 - 1.

Definition byte_val (c : ascii) : Z := Z.of_N (N_of_ascii c).

Definition is_digit (c : ascii) : bool := (48 <=? byte_val c) && (byte_val c <=? 57).

(** The value of a digit or letter. *)
Definition digit_of (c : ascii) : option Z :=
  let l := byte_val (to_lower_byte c) in
  if is_digit c then Some (byte_val c - 48)
  else if (97 <=? l) && (l <=? 122) then Some (l - 97 + 10)
  else None.

Inductive num_error := ErrSyntax | ErrRange.

Definition num_error_text (e : num_error) : string :=
  match e with ErrSyntax => "invalid syntax" | ErrRange => "value out of range" end.

(** The loop of [ParseUint]: the value, and whether there was an underscore. *)
Fixpoint parse_digits (base n : Z) (underscores : bool) (s : string) : num_error + (Z * bool) :=
  match s with
  | ""%string => inr (n, underscores)
  | String c s' =>
      if bool_decide (c = "_"%char) then parse_digits base n true s'
      else
        match digit_of c with
        | None => inl ErrSyntax
        | Some d =>
            if base <=? d then inl ErrSyntax
            else if max_uint64 / base + 1 <=? n then inl ErrRange
            else
              let n := n * base in
              let n1 := uint64_of (n + d) in
              if n1 <? n then inl ErrRange else parse_digits base n1 underscores s'
        end
  end.

(** Underscores only between digits; a prefix counts as a digit.  [prev] is the
    kind of the byte before. *)
Inductive byte_kind := AtStart | Digit | Underscore | OtherByte.

Fixpoint underscore_loop (hex : bool) (prev : byte_kind) (s : string) : bool :=
  match s with
  | ""%string => match prev with Underscore => false | _ => true end
  | String c s' =>
      let l := byte_val (to_lower_byte c) in
      if is_digit c || (hex && (97 <=? l) && (l <=? 102)) then underscore_loop hex Digit s'
      else if bool_decide (c = "_"%char) then
        match prev with Digit => underscore_loop hex Underscore s' | _ => false end
      else
        match prev with Underscore => false | _ => underscore_loop hex OtherByte s' end
  end.

(** The base a prefix announces. *)
Definition base_letter (c : ascii) : option Z :=
  let l := to_lower_byte c in
  if bool_decide (l = "b"%char) then Some 2
  else if bool_decide (l = "o"%char) then Some 8
  else if bool_decide (l = "x"%char) then Some 16
  else None.

Definition underscoreOK (s : string) : bool :=
  match s with
  | String "0" (String c s') =>
      match base_letter c with
      | Some b => underscore_loop (b =? 16) Digit s'
      | None => underscore_loop false AtStart s
      end
  | _ => underscore_loop false AtStart s
  end.

(** The base and the digits of [s]: a prefix needs a digit after it. *)
Definition base_digits (s : string) : Z * string :=
  match s with
  | String "0" (String c (String d s')) =>
      match base_letter c with
      | Some b => (b, String d s')
      | None => (8, String c (String d s'))
      end
  | String "0" s' => (8, s')
  | _ => (10, s)
  end.

Definition ParseUint (s : string) : num_error + Z :=
  if bool_decide (s = ""%string) then inl ErrSyntax
  else
    let bd := base_digits s in
    match parse_digits bd.1 0 false bd.2 with
    | inl e => inl e
    | inr (n, underscores) =>
        if underscores && negb (underscoreOK s) then inl ErrSyntax else inr n
    end.

Definition parse_sign (s : string) : bool * string :=
  match s with
  | String "+" s' => (false, s')
  | String "-" s' => (true, s')
  | _ => (false, s)
  end.

Definition ParseInt (s : string) : outcome Z :=
  let fail e := Err (New ("strconv.ParseInt: parsing " +:+ fmt_q s +:+ ": " +:+ num_error_text e)) in
  if bool_decide (s = ""%string) then fail ErrSyntax
  else
    let sg := parse_sign s in
    match ParseUint sg.2 with
    | inl e => fail e
    | inr un =>
        let cutoff := 2 ^ 63 in
        if negb sg.1 && (cutoff <=? un) then fail ErrRange
        else if sg.1 && (cutoff <? un) then fail ErrRange
        else Ok (if sg.1 then int64_of (- int64_of un) else int64_of un)
    end.

(** ** Durations *)

Definition float64_of (x : Z) : spec_float := binary_normalize 53 1024 x 0 false.
Definition float64_mul : spec_float → spec_float → spec_float := SFmul 53 1024.
Definition float64_div : spec_float → spec_float → spec_float := SFdiv 53 1024.

(** The integer part. *)
Definition float64_trunc (f : spec_float) : Z :=
  match f with
  | S754_finite s m e =>
      let a := if 0 <=? e then Zpos m * 2 ^ e else Zpos m / 2 ^ (- e) in
      if s then - a else a
  | _ => 0
  end.

Definition hex_digit (n : N) : ascii :=
  if (n <? 10)%N then ascii_of_N (48 + n) else ascii_of_N (87 + n).

(** [time.quote]. *)
Fixpoint quote_body (s : string) : string :=
  match s with
  | ""%string => ""
  | String c s' =>
      let n := N_of_ascii c in
      (if (128 <=? n)%N || (n <? 32)%N then
         String "\" (String "x" (String (hex_digit (n / 16)) (String (hex_digit (n mod 16)) "")))
       else if (n =? 34)%N || (n =? 92)%N then String "\" (String c "")
       else String c "") +:+ quote_body s'
  end.

Definition quote (s : string) : string := dquote +:+ quote_body s +:+ dquote.

Fixpoint leadingInt (x : Z) (s : string) : option (Z * string) :=
  match s with
  | ""%string => Some (x, s)
  | String c s' =>
      if is_digit c then
        if max_int64 / 10 <? x then None
        else
          let x := int64_of (x * 10 + (byte_val c - 48)) in
          if x <? 0 then None else leadingInt x s'
      else Some (x, s)
  end.

(** Digits that do not fit are skipped. *)
Fixpoint leadingFraction (x : Z) (scale : spec_float) (overflow : bool) (s : string)
    : Z * spec_float * string :=
  match s with
  | ""%string => (x, scale, s)
  | String c s' =>
      if is_digit c then
        if overflow then leadingFraction x scale true s'
        else if max_int64 / 10 <? x then leadingFraction x scale true s'
        else
          let y := int64_of (x * 10 + (byte_val c - 48)) in
          if y <? 0 then leadingFraction x scale true s'
          else leadingFraction y (float64_mul scale (float64_of 10)) false s'
      else (x, scale, s)
  end.

(** The text up to a period or digit, and the rest. *)
Fixpoint leadingUnit (s : string) : string * string :=
  match s with
  | ""%string => (""%string, ""%string)
  | String c s' =>
      if bool_decide (c = "."%char) || is_digit c then (""%string, s)
      else let r := leadingUnit s' in (String c r.1, r.2)
  end.

Definition micro_sign : string := String (ascii_of_nat 194) (String (ascii_of_nat 181) "s").
Definition greek_mu : string := String (ascii_of_nat 206) (String (ascii_of_nat 188) "s").

Definition unitMap : list (string * Z) :=
  [("ns"%string, 1); ("us"%string, 1000); (micro_sign, 1000); (greek_mu, 1000);
   ("ms"%string, 1000000); ("s"%string, Second); ("m"%string, 60 * Second);
   ("h"%string, 3600 * Second)].

Definition unit_of (u : string) : option Z :=
  (λ p, p.2.2) <$> list_find (λ p, p.1 = u) unitMap.

(** The fraction, if a period begins one: its digits and their scale, the rest of
    the text, and whether there were digits. *)
Definition duration_fraction (s : string) : Z * spec_float * string * bool :=
  match s with
  | String c s' =>
      if bool_decide (c = "."%char) then
        let '(f, scale, s2) := leadingFraction 0 (float64_of 1) false s' in
        (f, scale, s2, negb (String.length s' =? String.length s2)%nat)
      else (0, float64_of 1, s, false)
  | ""%string => (0, float64_of 1, s, false)
  end.

(** One number with its unit: what it adds, and the rest of the text. *)
Definition duration_term (orig s : string) : outcome (Z * string) :=
  let invalid := Err (New ("time: invalid duration " +:+ quote orig)) in
  match s with
  | ""%string => invalid
  | String c _ =>
      if negb (bool_decide (c = "."%char) || is_digit c) then invalid
      else
        match leadingInt 0 s with
        | None => invalid
        | Some (v, s1) =>
            let pre := negb (String.length s =? String.length s1)%nat in
            let '(f, scale, s2, post) := duration_fraction s1 in
            if negb pre && negb post then invalid
            else
              let us := leadingUnit s2 in
              if bool_decide (us.1 = ""%string) then
                Err (New ("time: missing unit in duration " +:+ quote orig))
              else
                match unit_of us.1 with
                | None =>
                    Err (New ("time: unknown unit " +:+ quote us.1 +:+ " in duration " +:+ quote orig))
                | Some unit =>
                    if max_int64 / unit <? v then invalid
                    else
                      let v := v * unit in
                      if 0 <? f then
                        let v := int64_of (v + float64_trunc
                                   (float64_mul (float64_of f) (float64_div (float64_of unit) scale))) in
                        if v <? 0 then invalid else Ok (v, us.2)
                      else Ok (v, us.2)
                end
        end
  end.

(** [fuel] bounds the terms; a term has a unit, so the length of the text is
    enough. *)
Fixpoint duration_loop (fuel : nat) (orig : string) (d : Z) (s : string) : outcome Z :=
  if bool_decide (s = ""%string) then Ok d
  else
    match fuel with
    | O => Panic "out of fuel"
    | S fuel' =>
        let? t := duration_term orig s in
        let d := int64_of (d + t.1) in
        if d <? 0 then Err (New ("time: invalid duration " +:+ quote orig))
        else duration_loop fuel' orig d t.2
    end.

Definition ParseDuration (s : string) : outcome Z :=
  let sg := parse_sign s in
  if bool_decide (sg.2 = "0"%string) then Ok 0
  else if bool_decide (sg.2 = ""%string) then Err (New ("time: invalid duration " +:+ quote s))
  else
    let? d := duration_loop (String.length sg.2) s 0 sg.2 in
    Ok (if sg.1 then int64_of (- d) else d).

(** ** One record of comma-separated values *)

Definition comma : ascii := ","%char.
Definition quote_mark : ascii := ascii_of_nat 34.
Definition line_feed : ascii := ascii_of_nat 10.
Definition carriage_return : ascii := ascii_of_nat 13.

(** [readLine]: line ends become line feeds, and a carriage return before the
    end of the text is dropped. *)
Fixpoint csv_normalise (s : string) : string :=
  match s with
  | ""%string => ""
  | String c s' =>
      if bool_decide (c = carriage_return) then
        match s' with
        | ""%string => ""
        | String c' _ => if bool_decide (c' = line_feed) then csv_normalise s'
                         else String c (csv_normalise s')
        end
      else String c (csv_normalise s')
  end.

(** Empty lines before a record are skipped; the number of the record's line. *)
Fixpoint csv_skip (line : Z) (s : string) : Z * string :=
  match s with
  | ""%string => (line, s)
  | String c s' => if bool_decide (c = line_feed) then csv_skip (line + 1) s' else (line, s)
  end.

Definition csv_error (recLine line col : Z) (text : string) : error :=
  New ((if bool_decide (recLine = line) then ""
        else "record on line " +:+ pretty recLine +:+ "; ")
       +:+ "parse error on line " +:+ pretty line +:+ ", column " +:+ pretty col +:+ ": " +:+ text).

Definition ErrBareQuote : string := "bare " +:+ dquote +:+ " in non-quoted-field".
Definition ErrQuote : string := "extraneous or missing " +:+ dquote +:+ " in quoted-field".

Inductive csv_state := FieldStart | BareField | QuotedField | QuoteSeen.

(** [readRecord] from a byte on, with the fields before it. *)
Fixpoint csv_record (st : csv_state) (recLine line col : Z) (fields : list string) (field : string)
    (s : string) : outcome (list string) :=
  match s with
  | ""%string =>
      match st with
      | QuotedField => Err (csv_error recLine line col ErrQuote)
      | _ => Ok (fields ++ [field])
      end
  | String c s' =>
      match st with
      | FieldStart | BareField =>
          if bool_decide (c = quote_mark) then
            match st with
            | FieldStart => csv_record QuotedField recLine line (col + 1) fields "" s'
            | _ => Err (csv_error recLine line col ErrBareQuote)
            end
          else if bool_decide (c = comma) then
            csv_record FieldStart recLine line (col + 1) (fields ++ [field]) "" s'
          else if bool_decide (c = line_feed) then Ok (fields ++ [field])
          else csv_record BareField recLine line (col + 1) fields (field +:+ String c "") s'
      | QuotedField =>
          if bool_decide (c = quote_mark) then
            csv_record QuoteSeen recLine line (col + 1) fields field s'
          else if bool_decide (c = line_feed) && negb (bool_decide (s' = ""%string)) then
            csv_record QuotedField recLine (line + 1) 1 fields (field +:+ String c "") s'
          else csv_record QuotedField recLine line (col + 1) fields (field +:+ String c "") s'
      | QuoteSeen =>
          if bool_decide (c = quote_mark) then
            csv_record QuotedField recLine line (col + 1) fields (field +:+ String c "") s'
          else if bool_decide (c = comma) then
            csv_record FieldStart recLine line (col + 1) (fields ++ [field]) "" s'
          else if bool_decide (c = line_feed) then Ok (fields ++ [field])
          else Err (csv_error recLine line (col - 1) ErrQuote)
      end
  end.

(** [Reader.Read]: the first record of a text. *)
Definition csv_Read (s : string) : outcome (list string) :=
  let '(line, s) := csv_skip 1 (csv_normalise s) in
  if bool_decide (s = ""%string) then Err (New "EOF")
  else csv_record FieldStart line line 1 [] "" s.

Example numbers :
  (ParseInt "-0x1F", ParseInt "1_000", ParseInt "017", ParseInt "9223372036854775808")
  = (Ok (-31), Ok 1000, Ok 15,
     Err (New ("strconv.ParseInt: parsing " +:+ fmt_q "9223372036854775808" +:+ ": value out of range"))).
Proof. vm_compute. reflexivity. Qed.

Example durations :
  (ParseDuration "30m", ParseDuration "1.5h", ParseDuration "-1h0.000000001s", ParseDuration "30")
  = (Ok (1800 * Second), Ok (5400 * Second), Ok (- (3600 * Second + 1)),
     Err (New ("time: missing unit in duration " +:+ fmt_q "30"))).
Proof. vm_compute. reflexivity. Qed.

Example record :
  csv_Read ("a=1," +:+ fmt_q "b=2,3" +:+ newline +:+ "c=4") = Ok ["a=1"; "b=2,3"]%string
  ∧ csv_Read ("a" +:+ fmt_q "b") = Err (csv_error 1 1 2 ErrBareQuote).
Proof. vm_compute. by split. Qed.

(** ** Widths *)

Lemma int64_of_range x : in_int64 (int64_of x) = true.
Proof. unfold in_int64, int64_of. pose proof (Z.mod_pos_bound (x + 2 ^ 63) (2 ^ 64)). lia. Qed.

Lemma int64_of_id x : in_int64 x = true → int64_of x = x.
Proof.
  unfold in_int64, int64_of. intros H. rewrite Z.mod_small; lia.
Qed.

(** A sum of two non-negative integers of the width wraps below zero exactly
    when it is too large. *)
Lemma int64_of_add x y :
  0 ≤ x ≤ max_int64 → 0 ≤ y ≤ max_int64 →
  (int64_of (x + y) <? 0) = (max_int64 <? x + y) ∧ (x + y ≤ max_int64 → int64_of (x + y) = x + y).
Proof.
  unfold max_int64. intros Hx Hy. destruct (Z.le_gt_cases (x + y) (2 ^ 63 - 1)) as [H|H].
  - rewrite int64_of_id by (unfold in_int64; lia). split; [|done]. lia.
  - split; [|lia]. unfold int64_of.
    replace (x + y + 2 ^ 63) with (x + y - 2 ^ 63 + 1 * 2 ^ 64) by lia.
    rewrite Z.mod_add, Z.mod_small by lia. lia.
Qed.

(** An integer flag that parses has a value of the width. *)
Lemma ParseInt_range s z : ParseInt s = Ok z → in_int64 z = true.
Proof.
  unfold ParseInt. case_bool_decide; [done|]. destruct (ParseUint _); [done|].
  do 2 (case_match; [done|]). intros [= <-]. case_match; apply int64_of_range.
Qed.

Lemma duration_loop_range fuel orig d s r :
  0 ≤ d ≤ max_int64 → duration_loop fuel orig d s = Ok r → 0 ≤ r ≤ max_int64.
Proof.
  revert d s. induction fuel as [|fuel IH]; intros d s Hd; simpl; (case_bool_decide; [by intros [= <-]|]);
    [done|].
  destruct (duration_term orig s) as [[v rest]| |]; [|done..]. cbn [obind fst snd].
  destruct (_ <? 0) eqn:E; [done|]. apply IH.
  pose proof (int64_of_range (d + v)) as Hr. unfold in_int64, max_int64 in *. lia.
Qed.

(** A duration that parses has a value of the width; the least integer is none. *)
Lemma ParseDuration_range s d : ParseDuration s = Ok d → - max_int64 ≤ d ≤ max_int64.
Proof.
  unfold ParseDuration. case_bool_decide; [intros [= <-]; unfold max_int64; lia|].
  case_bool_decide; [done|]. destruct (duration_loop _ _ _ _) as [r| |] eqn:E; [|done..].
  apply duration_loop_range in E; [|unfold max_int64; lia]. cbn [obind]. intros [= <-].
  destruct (parse_sign s).1; [|lia]. rewrite int64_of_id; unfold in_int64, max_int64 in *; lia.
Qed.

(** ** Decimal text *)

Definition digits (s : string) : bool := forallb is_digit (chars s).

(** The number a text of digits continues [x] to. *)
Fixpoint dec_val (x : Z) (s : string) : Z :=
  match s with
  | ""%string => x
  | String c s' => dec_val (x * 10 + (byte_val c - 48)) s'
  end.

Lemma digit_val c : is_digit c = true → 0 ≤ byte_val c - 48 ≤ 9.
Proof. unfold is_digit. lia. Qed.

Lemma dec_val_mono x s : 0 ≤ x → digits s = true → x ≤ dec_val x s.
Proof.
  revert x. induction s as [|c s IH]; intros x Hx; [simpl; lia|].
  unfold digits. cbn [chars forallb dec_val]. intros [Hc Hs]%andb_true_iff.
  pose proof (digit_val c Hc).
  specialize (IH (x * 10 + (byte_val c - 48)) ltac:(lia) Hs). lia.
Qed.

Lemma pretty_char_digit n : (n < 10)%N →
  is_digit (pretty_N_char n) = true ∧ byte_val (pretty_N_char n) - 48 = Z.of_N n.
Proof.
  intros H. assert (n = 0 ∨ n = 1 ∨ n = 2 ∨ n = 3 ∨ n = 4 ∨ n = 5 ∨ n = 6 ∨ n = 7 ∨ n = 8 ∨ n = 9)%N
    as Hn by lia. destruct_or! Hn; subst n; by vm_compute.
Qed.

Lemma pretty_go_digits n s :
  (digits s = true → digits (pretty_N_go n s) = true) ∧
  dec_val 0 (pretty_N_go n s) = dec_val (Z.of_N n) s.
Proof.
  revert s. induction (N.lt_wf_0 n) as [n _ IH]. intros s.
  destruct (decide (n = 0%N)) as [->|Hn]; [by rewrite pretty_N_go_0|].
  rewrite pretty_N_go_step by lia.
  destruct (pretty_char_digit (n mod 10)) as [Hd Hv]; [by apply N.mod_lt|].
  destruct (IH (n / 10)%N ltac:(apply N.div_lt; lia) (String (pretty_N_char (n mod 10)) s)) as [H1 H2].
  split.
  - intros Hs. apply H1. unfold digits. cbn [chars forallb]. by rewrite Hd.
  - rewrite H2. cbn [dec_val]. f_equal. rewrite Hv. pose proof (N.div_mod n 10). lia.
Qed.

Lemma pretty_digits (n : N) : digits (pretty n) = true ∧ dec_val 0 (pretty n) = Z.of_N n.
Proof.
  unfold pretty, pretty_N. case_decide; [by subst|]. destruct (pretty_go_digits n "") as [H1 H2].
  split; [by apply H1|exact H2].
Qed.

(** A decimal numeral has no leading zero. *)
Lemma pretty_go_head n s c t :
  (0 < n)%N → pretty_N_go n s = String c t → c ≠ "0"%char.
Proof.
  revert s. induction (N.lt_wf_0 n) as [n _ IH]. intros s Hn. rewrite pretty_N_go_step by lia.
  destruct (decide (n / 10 = 0)%N) as [E|E].
  - rewrite E, pretty_N_go_0. intros [= <- _].
    assert (n < 10)%N by (pose proof (N.div_mod n 10); pose proof (N.mod_lt n 10); lia).
    assert (n = 1 ∨ n = 2 ∨ n = 3 ∨ n = 4 ∨ n = 5 ∨ n = 6 ∨ n = 7 ∨ n = 8 ∨ n = 9)%N
      as Hc by lia. destruct_or! Hc; subst n; by vm_compute.
  - apply IH; [apply N.div_lt; lia|by apply N.neq_0_lt_0].
Qed.

Lemma pretty_head (n : N) c t :
  pretty n = String c t → is_digit c = true ∧ (c = "0"%char → n = 0%N).
Proof.
  intros H. pose proof (pretty_digits n) as [Hd _]. rewrite H in Hd.
  split; [unfold digits in Hd; cbn [chars forallb] in Hd; by apply andb_true_iff in Hd as [? _]|].
  intros ->. unfold pretty, pretty_N in H. case_decide; [done|].
  by apply pretty_go_head in H; [|lia].
Qed.

Lemma pretty_cons (n : N) : ∃ c t, pretty n = String c t.
Proof.
  destruct (pretty n) as [|c t] eqn:E; [|eauto]. pose proof (pretty_digits n) as [_ H].
  rewrite E in H. simpl in H. assert (n = 0%N) as -> by lia. done.
Qed.

Lemma digit_not c a : is_digit c = true → is_digit a = false → c ≠ a.
Proof. by intros H H' ->; congruence. Qed.

Lemma parse_digits_dec x us s :
  0 ≤ x → digits s = true → dec_val x s ≤ max_uint64 →
  parse_digits 10 x us s = inr (dec_val x s, us).
Proof.
  revert x. induction s as [|c s IH]; intros x Hx; [done|].
  unfold digits. cbn [chars forallb dec_val parse_digits]. intros [Hc Hs]%andb_true_iff Hv.
  rewrite bool_decide_eq_false_2 by (by apply digit_not).
  unfold digit_of. rewrite Hc. pose proof (digit_val c Hc) as Hd.
  rewrite (proj2 (Z.leb_gt _ _)) by lia.
  pose proof (dec_val_mono (x * 10 + (byte_val c - 48)) s ltac:(lia) Hs) as Hm.
  change (max_uint64 / 10 + 1) with 1844674407370955162. unfold max_uint64 in *.
  rewrite (proj2 (Z.leb_gt _ _)) by lia. unfold uint64_of. rewrite Z.mod_small by lia.
  rewrite (proj2 (Z.ltb_ge _ _)) by lia. apply IH; [lia|done|lia].
Qed.

Lemma base_digits_decimal c t :
  c ≠ "0"%char → base_digits (String c t) = (10, String c t).
Proof. destruct c as [[] [] [] [] [] [] [] []]; done. Qed.

Lemma ParseUint_pretty (n : N) : Z.of_N n ≤ max_uint64 → ParseUint (pretty n) = inr (Z.of_N n).
Proof.
  intros Hn. destruct (decide (n = 0%N)) as [->|H0]; [done|].
  destruct (pretty_cons n) as (c & t & E). destruct (pretty_digits n) as [Hd Hv].
  unfold ParseUint. rewrite bool_decide_eq_false_2 by (by rewrite E).
  assert (base_digits (pretty n) = (10, pretty n)) as ->.
  { rewrite E. apply base_digits_decimal. intros ->.
    apply pretty_head in E as [_ E]. exact (H0 (E eq_refl)). }
  cbn [fst snd]. by rewrite parse_digits_dec, Hv by (done || lia).
Qed.

Lemma parse_sign_digit c t : is_digit c = true → parse_sign (String c t) = (false, String c t).
Proof. intros H. by destruct c as [[] [] [] [] [] [] [] []]. Qed.

(** An integer is read back from its decimal text. *)
Lemma ParseInt_pretty z : in_int64 z = true → ParseInt (pretty z) = Ok z.
Proof.
  unfold in_int64. intros Hz.
  assert (∀ n : N, Z.of_N n ≤ max_int64 → ParseInt (pretty n) = Ok (Z.of_N n)) as Hpos.
  { intros n Hn. destruct (pretty_cons n) as (c & t & E). unfold ParseInt.
    rewrite bool_decide_eq_false_2 by (by rewrite E).
    assert (parse_sign (pretty n) = (false, pretty n)) as ->
      by (rewrite E; apply parse_sign_digit; by apply pretty_head in E as [? _]).
    cbn [fst snd]. unfold max_int64 in Hn. rewrite ParseUint_pretty by (unfold max_uint64; lia).
    cbn [negb andb]. rewrite (proj2 (Z.leb_gt _ _)) by lia.
    by rewrite int64_of_id by (unfold in_int64; lia). }
  destruct z as [|p|p]; [done|apply (Hpos (Npos p)); unfold max_int64; lia|].
  change (ParseInt (pretty (Z.neg p))) with (ParseInt (String "-" (pretty (N.pos p)))).
  unfold ParseInt. cbn [parse_sign fst snd]. rewrite bool_decide_eq_false_2 by done.
  assert (Zpos p ≤ 2 ^ 63) as Hp
    by (change (Z.neg p) with (- Zpos p) in Hz; lia).
  rewrite (ParseUint_pretty (Npos p)) by (unfold max_uint64; cbn [Z.of_N]; lia).
  cbn [negb andb Z.of_N]. rewrite (proj2 (Z.ltb_ge _ _)) by lia.
  destruct (decide (Zpos p = 2 ^ 63)) as [E|E]; [by rewrite E; injection E as ->|].
  rewrite (int64_of_id (Zpos p)) by (unfold in_int64; lia).
  by rewrite int64_of_id by (unfold in_int64; lia).
Qed.

(** ** Sums of durations *)

(** A digit string before something else is read whole, unless it is too large. *)
Lemma leadingInt_dec x s rest :
  0 ≤ x ≤ max_int64 → digits s = true →
  (∀ c t, rest = String c t → is_digit c = false) →
  leadingInt x (s +:+ rest) =
  if max_int64 <? dec_val x s then None else Some (dec_val x s, rest).
Proof.
  intros Hx Hs Hr. revert x Hx Hs. induction s as [|c s IH]; intros x Hx.
  - intros _. change ("" +:+ rest) with rest. cbn [dec_val]. rewrite (proj2 (Z.ltb_ge _ _)) by lia.
    destruct rest as [|c t]; [done|]. simpl. by rewrite (Hr c t).
  - unfold digits. cbn [chars forallb]. intros [Hc Hs]%andb_true_iff.
    rewrite string_app_cons. cbn [leadingInt dec_val]. rewrite Hc.
    pose proof (digit_val c Hc) as Hd.
    pose proof (dec_val_mono (x * 10 + (byte_val c - 48)) s ltac:(lia) Hs) as Hm.
    unfold max_int64 in *. change ((2 ^ 63 - 1) / 10) with 922337203685477580.
    destruct (922337203685477580 <? x) eqn:E1.
    { by rewrite (proj2 (Z.ltb_lt _ _)) by lia. }
    destruct (int64_of_add (x * 10) (byte_val c - 48)) as [Ew Ei]; [unfold max_int64; lia..|].
    unfold max_int64 in *. rewrite Ew.
    destruct (2 ^ 63 - 1 <? x * 10 + (byte_val c - 48)) eqn:E2.
    { by rewrite (proj2 (Z.ltb_lt _ _)) by lia. }
    rewrite Ei by lia. apply IH; [lia|done].
Qed.

(** The text of a number of units. *)
Definition term_text (t : N * string) : string := pretty t.1 +:+ t.2.

Definition term_val (t : N * string) : Z := Z.of_N t.1 * default 0 (unit_of t.2).

Lemma unit_of_spec u x : unit_of u = Some x → (u, x) ∈ unitMap.
Proof.
  unfold unit_of. destruct (list_find (λ p : string * Z, p.1 = u) unitMap) as [[i [u' x']]|] eqn:E;
    [|done]. intros [= <-]. apply list_find_Some in E as (Hl & Hu & _). cbn [fst snd] in *. subst u'.
  by eapply list_elem_of_lookup_2.
Qed.

(** Units have no digits and no periods. *)
Definition unit_byte (c : ascii) : bool := negb (bool_decide (c = "."%char) || is_digit c).

Lemma unit_bytes u x : unit_of u = Some x → forallb unit_byte (chars u) = true ∧ u ≠ ""%string ∧ 0 < x.
Proof.
  intros Hu%unit_of_spec%list_elem_of_In. simpl in Hu.
  destruct_or! Hu; try done; injection Hu as <- <-; by vm_compute.
Qed.

Lemma leadingUnit_bytes u rest :
  forallb unit_byte (chars u) = true → (∀ c t, rest = String c t → is_digit c = true) →
  leadingUnit (u +:+ rest) = (u, rest).
Proof.
  intros Hu Hr. revert Hu. induction u as [|c u IH]; cbn [chars forallb].
  - intros _. change ("" +:+ rest) with rest. destruct rest as [|c t]; [done|].
    simpl. by rewrite (Hr c t), orb_true_r.
  - intros [Hc Hu]%andb_true_iff. rewrite string_app_cons. cbn [leadingUnit].
    unfold unit_byte in Hc. apply negb_true_iff in Hc. by rewrite Hc, IH.
Qed.

Lemma string_length_app (s t : string) :
  String.length (s +:+ t) = (String.length s + String.length t)%nat.
Proof. induction s as [|c s IH]; [done|]. rewrite string_app_cons. simpl. by rewrite IH. Qed.

(** One term, before another or at the end. *)
Lemma duration_term_val orig n u x rest :
  unit_of u = Some x → (∀ c t, rest = String c t → is_digit c = true) →
  duration_term orig (pretty n +:+ u +:+ rest) =
  if max_int64 <? Z.of_N n * x then Err (New ("time: invalid duration " +:+ quote orig))
  else Ok (Z.of_N n * x, rest).
Proof.
  intros Hu Hr. destruct (unit_bytes u x Hu) as (Hb & Hne & Hx).
  destruct u as [|a u]; [done|]. pose proof Hb as Ha. cbn [chars forallb] in Ha.
  apply andb_true_iff in Ha as [Ha _].
  unfold unit_byte in Ha. apply negb_true_iff, orb_false_iff in Ha as [Hp Ha].
  destruct (pretty_cons n) as (c & t & E). destruct (pretty_head n c t E) as [Hc _].
  pose proof (leadingInt_dec 0 (pretty n) (String a u +:+ rest)) as Hl.
  pose proof (string_length_app (pretty n) (String a u +:+ rest)) as Hlen.
  destruct (pretty_digits n) as [Hd Hv]. rewrite Hv in Hl.
  assert (pretty n +:+ String a u +:+ rest = String c (t +:+ String a u +:+ rest)) as Es by (by rewrite E).
  unfold duration_term. rewrite Es in *. rewrite Hc, orb_true_r. cbn [negb].
  rewrite Hl; [|unfold max_int64; lia|done|by intros ? ? [= <- _]].
  destruct (max_int64 <? Z.of_N n) eqn:En.
  { rewrite (proj2 (Z.ltb_lt _ _)) by nia. done. }
  rewrite (proj2 (Nat.eqb_neq _ _)) by (rewrite Hlen, E; simpl; lia). cbn [negb andb].
  assert (duration_fraction (String a u +:+ rest) = (0, float64_of 1, String a u +:+ rest, false)) as ->
    by (rewrite string_app_cons; cbn [duration_fraction]; by rewrite Hp).
  rewrite leadingUnit_bytes by done. cbn [fst snd]. rewrite Hu.
  rewrite bool_decide_eq_false_2 by done. rewrite (Z.ltb_irrefl 0).
  assert ((max_int64 / x <? Z.of_N n) = (max_int64 <? Z.of_N n * x)) as ->; [|done].
  pose proof (Z.mul_div_le max_int64 x Hx). pose proof (Z.mul_succ_div_gt max_int64 x Hx).
  apply eq_true_iff_eq. rewrite !Z.ltb_lt. nia.
Qed.

Definition terms_text (l : list (N * string)) : string := foldr (λ t s, term_text t +:+ s) ""%string l.
Definition terms_val (l : list (N * string)) : Z := foldr (λ t r, term_val t + r) 0 l.

Definition known_units (l : list (N * string)) : Prop := Forall (λ t, is_Some (unit_of t.2)) l.

Lemma terms_text_head l c t : terms_text l = String c t → is_digit c = true.
Proof.
  destruct l as [|[n u] l]; [done|]. cbn [terms_text foldr]. unfold term_text at 1. cbn [fst snd].
  destruct (pretty_cons n) as (c' & t' & E). rewrite E, !string_app_cons. intros [= <- _].
  by apply pretty_head in E as [? _].
Qed.

Lemma terms_val_pos l : known_units l → 0 ≤ terms_val l.
Proof.
  induction 1 as [|[n u] l [x Hu] _ IH]; [done|]. cbn [terms_val foldr]. fold (terms_val l).
  unfold term_val. cbn [fst snd] in *. rewrite Hu. change (default 0 (Some x)) with x. apply unit_bytes in Hu as (_ & _ & Hx). nia.
Qed.

(** The terms add up, unless the sum is too large for the width. *)
Lemma duration_loop_sum orig l fuel d :
  known_units l → 0 ≤ d ≤ max_int64 → (length l ≤ fuel)%nat →
  duration_loop fuel orig d (terms_text l) =
  if max_int64 <? d + terms_val l then Err (New ("time: invalid duration " +:+ quote orig))
  else Ok (d + terms_val l).
Proof.
  intros Hl. revert fuel d. induction Hl as [|[n u] l [x Hu] Hl IH]; intros fuel d Hd Hf.
  { cbn [terms_val foldr]. rewrite Z.add_0_r, (proj2 (Z.ltb_ge _ _)) by lia. by destruct fuel. }
  destruct fuel as [|fuel]; [simpl in Hf; lia|]. pose proof (terms_val_pos l Hl) as Hv.
  cbn [duration_loop terms_text terms_val foldr]. fold (terms_text l) (terms_val l).
  unfold term_text, term_val. cbn [fst snd] in *. rewrite Hu. change (default 0 (Some x)) with x.
  pose proof (unit_bytes u x Hu) as (_ & _ & Hx).
  rewrite bool_decide_eq_false_2
    by (destruct (pretty_cons n) as (c & t & ->); by rewrite !string_app_cons).
  rewrite string_app_assoc, (duration_term_val _ _ _ x); [|done|by apply terms_text_head].
  destruct (max_int64 <? Z.of_N n * x) eqn:E1.
  { by rewrite (proj2 (Z.ltb_lt _ _)) by lia. }
  cbn [obind fst snd]. destruct (int64_of_add d (Z.of_N n * x)) as [Ew Ei]; [lia|nia|].
  rewrite Ew. destruct (max_int64 <? d + Z.of_N n * x) eqn:E2.
  { by rewrite (proj2 (Z.ltb_lt _ _)) by lia. }
  rewrite Ei by lia. rewrite IH by (simpl in Hf; lia). by rewrite Z.add_assoc.
Qed.

Lemma terms_text_length l : known_units l → (length l ≤ String.length (terms_text l))%nat.
Proof.
  induction 1 as [|[n u] l _ _ IH]; [done|]. cbn [terms_text foldr]. fold (terms_text l).
  unfold term_text. cbn [fst snd]. destruct (pretty_cons n) as (c & t & ->).
  rewrite !string_length_app. simpl. lia.
Qed.

Definition sign_text (neg : bool) : string := if neg then "-"%string else ""%string.

Lemma parse_sign_terms neg l :
  l ≠ [] → parse_sign (sign_text neg +:+ terms_text l) = (neg, terms_text l).
Proof.
  intros Hl. destruct neg; [done|]. change (sign_text false +:+ terms_text l) with (terms_text l).
  destruct (terms_text l) as [|c t] eqn:E.
  - destruct l as [|[n u] l]; [done|]. revert E. cbn [terms_text foldr]. unfold term_text. cbn [fst].
    destruct (pretty_cons n) as (c & t & ->). done.
  - apply parse_sign_digit. by eapply terms_text_head.
Qed.

(** A duration written as numbers with units is their sum; it is refused when
    the sum does not fit in the width. *)
Lemma ParseDuration_terms neg l :
  l ≠ [] → known_units l →
  ParseDuration (sign_text neg +:+ terms_text l) =
  if max_int64 <? terms_val l
  then Err (New ("time: invalid duration " +:+ quote (sign_text neg +:+ terms_text l)))
  else Ok (if neg then - terms_val l else terms_val l).
Proof.
  intros Hne Hl. unfold ParseDuration. rewrite parse_sign_terms by done. cbn [fst snd].
  pose proof (terms_text_length l Hl) as Hlen. pose proof (terms_val_pos l Hl) as Hpos.
  destruct l as [|[n u] l]; [done|].
  assert (2 ≤ String.length (terms_text ((n, u) :: l)))%nat as H2.
  { cbn [terms_text foldr]. unfold term_text. cbn [fst snd]. rewrite !string_length_app.
    destruct (pretty_cons n) as (c & t & ->). inversion Hl as [|? ? [x (_ & Hu & _)%unit_bytes] _].
    cbn [snd] in Hu. destruct u; [done|]. simpl. lia. }
  rewrite !bool_decide_eq_false_2 by (intros E; rewrite E in H2; simpl in H2; lia).
  rewrite duration_loop_sum by (done || unfold max_int64; lia). rewrite Z.add_0_l.
  destruct (max_int64 <? _) eqn:E; [done|]. cbn [obind]. destruct neg; [|done].
  rewrite int64_of_id; [done|]. unfold in_int64, max_int64 in *. lia.
Qed.

(** ** Fuel *)

Lemma leadingInt_length x s v r : leadingInt x s = Some (v, r) → (String.length r ≤ String.length s)%nat.
Proof.
  revert x. induction s as [|c s IH]; intros x; simpl; [by intros [= <- <-]|].
  destruct (is_digit c); [|by intros [= <- <-]].
  do 2 (case_match; [done|]). intros Hr%IH. lia.
Qed.

Lemma leadingFraction_length x sc o s :
  (String.length (leadingFraction x sc o s).2 ≤ String.length s)%nat.
Proof.
  revert x sc o. induction s as [|c s IH]; intros x sc o; [done|]. cbn [leadingFraction].
  destruct (is_digit c); [|done]. cbn [String.length].
  repeat case_match; (etrans; [apply IH|lia]).
Qed.

Lemma leadingUnit_length s :
  String.length s = (String.length (leadingUnit s).1 + String.length (leadingUnit s).2)%nat.
Proof.
  induction s as [|c s IH]; [done|]. cbn [leadingUnit]. case_match; [done|]. cbn [fst snd String.length]. lia.
Qed.

Lemma duration_term_shorter orig s v r :
  duration_term orig s = Ok (v, r) → (String.length r < String.length s)%nat.
Proof.
  unfold duration_term. destruct s as [|c s]; [done|]. destruct (negb _); [done|].
  destruct (leadingInt 0 (String c s)) as [[x s1]|] eqn:E; [|done].
  apply leadingInt_length in E.
  assert (String.length (duration_fraction s1).1.2 ≤ String.length s1)%nat as Hf.
  { destruct s1 as [|a s1]; [done|]. cbn [duration_fraction]. destruct (bool_decide (a = "."%char)); [|cbn [fst snd]; lia].
    pose proof (leadingFraction_length 0 (float64_of 1) false s1) as H'.
    destruct (leadingFraction _ _ _ _) as [[? ?] ?]. cbn [fst snd String.length] in *. lia. }
  destruct (duration_fraction s1) as [[[f sc] s2] post]. cbn [fst snd] in Hf.
  destruct (negb _ && negb _); [done|]. case_bool_decide as Hu; [done|].
  pose proof (leadingUnit_length s2) as Hl. destruct (leadingUnit s2) as [u rest]. cbn [fst snd] in *.
  assert (0 < String.length u)%nat by (destruct u; [done|simpl; lia]).
  destruct (unit_of u); [|done]. repeat (case_match; try done); intros [= _ <-]; lia.
Qed.

Lemma duration_loop_fuel fuel orig d s :
  (String.length s ≤ fuel)%nat → no_panic (duration_loop fuel orig d s).
Proof.
  revert d s. induction fuel as [|fuel IH]; intros d s Hs; cbn [duration_loop]; case_bool_decide as H0;
    try apply no_panic_Ok; [destruct s; [done|simpl in Hs; lia]|].
  destruct (duration_term orig s) as [[v r]|e|m] eqn:E; cbn [obind fst snd].
  - case_match; [apply no_panic_Err|]. apply IH. apply duration_term_shorter in E. lia.
  - apply no_panic_Err.
  - exfalso. revert E. unfold duration_term. repeat (case_match; try done).
Qed.

(** The fuel is enough: a text is a duration or an error. *)
Lemma ParseDuration_total s : no_panic (ParseDuration s).
Proof.
  unfold ParseDuration. do 2 (case_bool_decide; [done|]).
  apply no_panic_obind; [by apply duration_loop_fuel|]. intros d. apply no_panic_Ok.
Qed.

(** ** Records of plain fields *)

Definition csv_plain (c : ascii) : bool :=
  negb (bool_decide (c ∈ [quote_mark; comma; line_feed; carriage_return])).

Lemma csv_record_bare st recLine line col fields field f s :
  st = FieldStart ∨ st = BareField → forallb csv_plain (chars f) = true →
  ∃ st' col', (st' = FieldStart ∨ st' = BareField) ∧
    csv_record st recLine line col fields field (f +:+ s) =
    csv_record st' recLine line col' fields (field +:+ f) s.
Proof.
  revert st col field. induction f as [|c f IH]; intros st col field Hst; cbn [chars forallb].
  { intros _. exists st, col. by rewrite string_app_nil_r. }
  intros [Hc Hf]%andb_true_iff. unfold csv_plain in Hc. apply negb_true_iff, bool_decide_eq_false in Hc.
  rewrite string_app_cons. cbn [csv_record].
  rewrite !bool_decide_eq_false_2 by (intros ->; by apply Hc, (bool_decide_unpack _)).
  destruct (IH BareField (col + 1) (field +:+ String c "")) as (st' & col' & H' & E); [by right|done|].
  exists st', col'. split; [done|]. rewrite string_app_assoc in E. change (String c "" +:+ f) with (String c f) in E.
  by destruct Hst as [->| ->].
Qed.

Lemma csv_record_join recLine line col fields l :
  l ≠ [] → Forall (λ f, forallb csv_plain (chars f) = true) l →
  csv_record FieldStart recLine line col fields "" (strings_Join l (String comma "")) = Ok (fields ++ l).
Proof.
  revert col fields. induction l as [|f l IH]; intros col fields Hl; [done|].
  intros [Hf Hp]%Forall_cons. destruct l as [|g l].
  - cbn [strings_Join]. rewrite <- (string_app_nil_r f) at 1.
    destruct (csv_record_bare FieldStart recLine line col fields "" f "") as (st & c' & [-> | ->] & ->);
      try done; by left.
  - change (strings_Join (f :: g :: l) ?sep) with (f +:+ sep +:+ strings_Join (g :: l) sep).
    destruct (csv_record_bare FieldStart recLine line col fields "" f
                (String comma "" +:+ strings_Join (g :: l) (String comma ""))) as (st & c' & Hst & ->);
      [by left|done|].
    change (String comma "" +:+ ?x) with (String comma x). cbn [csv_record].
    rewrite (bool_decide_eq_false_2 (comma = quote_mark)), (bool_decide_eq_true_2 (comma = comma)) by done.
    change ("" +:+ f) with f. destruct Hst as [-> | ->]; rewrite IH by done; by rewrite <- app_assoc.
Qed.

Lemma csv_normalise_id s : carriage_return ∉ chars s → csv_normalise s = s.
Proof.
  induction s as [|c s IH]; [done|]. cbn [chars csv_normalise]. intros [Hc Hs]%not_elem_of_cons.
  rewrite bool_decide_eq_false_2 by (by intros ->). by rewrite IH.
Qed.

Lemma Join_elem c l sep :
  c ∈ chars (strings_Join l sep) → c ∈ chars sep ∨ ∃ f, f ∈ l ∧ c ∈ chars f.
Proof.
  induction l as [|f l IH]; [by intros ?%elem_of_nil|]. destruct l as [|g l].
  - cbn [strings_Join]. intros H. right. exists f. by rewrite list_elem_of_singleton.
  - change (strings_Join (f :: g :: l) ?sep) with (f +:+ sep +:+ strings_Join (g :: l) sep).
    rewrite !chars_app, !elem_of_app. intros [H|[H|H]].
    + right. exists f. by rewrite elem_of_cons; auto.
    + by left.
    + destruct (IH H) as [?|(x & ? & ?)]; [by left|]. right. exists x. by rewrite elem_of_cons; auto.
Qed.

(** Plain fields that are not all there is of an empty line are read back. *)
Lemma csv_Read_join l :
  strings_Join l (String comma "") ≠ ""%string → Forall (λ f, forallb csv_plain (chars f) = true) l →
  csv_Read (strings_Join l (String comma "")) = Ok l.
Proof.
  intros Hne Hp. assert (∀ c, c ∈ [line_feed; carriage_return] → c ∉ chars (strings_Join l (String comma ""))) as Hc.
  { intros c Hc [H|(f & Hf & H)]%Join_elem.
    - apply list_elem_of_singleton in H as ->. revert Hc. by apply (bool_decide_unpack _).
    - rewrite Forall_forall in Hp. apply Hp in Hf. rewrite forallb_forall in Hf.
      apply list_elem_of_In, Hf in H. unfold csv_plain in H. apply negb_true_iff, bool_decide_eq_false in H.
      apply H. rewrite !elem_of_cons in *. tauto. }
  unfold csv_Read. rewrite csv_normalise_id by (apply Hc; by apply (bool_decide_unpack _)).
  assert (csv_skip 1 (strings_Join l (String comma "")) = (1, strings_Join l (String comma ""))) as ->.
  { destruct (strings_Join l (String comma "")) as [|c s]; [done|]. cbn [csv_skip].
    rewrite bool_decide_eq_false_2; [done|]. intros ->.
    apply (Hc line_feed); [by apply (bool_decide_unpack _)|]. cbn [chars]. apply elem_of_cons. by left. }
  rewrite bool_decide_eq_false_2 by done. rewrite csv_record_join; [done|by intros ->|done].
Qed.
