(* ===== verification/Base64.v ===== *)
(** * Base64: the standard encoding of [encoding/base64]

    Docker configuration files and ECR tokens carry a user and a password as
    the standard base64 encoding (padded, alphabet of RFC 4648) of "user:pass".
    The decoder follows Go's: line breaks are skipped, the length must be a
    multiple of four, and padding may only end the text. *)
From stdpp Require Import gmap strings list.
From Stdlib Require Import ZArith Ascii.
From S2P Require Import Prelude GoStd.

Local Open Scope N_scope.

#[local] Ltac Zify.zify_post_hook ::= Z.to_euclidean_division_equations.

Definition alphabet : string :=
  "ABCDEFGHIJKLMNOPQRSTUVWXYZabcdefghijklmnopqrstuvwxyz0123456789+/".

(** The character of a six-bit value. *)
Definition enc_char (n : N) : ascii :=
  default "A"%char (chars alphabet !! N.to_nat n).

(** The six-bit value of a character. *)
Definition dec_char (a : ascii) : option N :=
  let n := N_of_ascii a in
  if (65 <=? n) && (n <=? 90) then Some (n - 65)
  else if (97 <=? n) && (n <=? 122) then Some (n - 71)
  else if (48 <=? n) && (n <=? 57) then Some (n + 4)
  else if n =? 43 then Some 62
  else if n =? 47 then Some 63
  else None.

Definition pad : ascii := "="%char.

Fixpoint encode_bytes (l : list N) : list ascii :=
  match l with
  | [] => []
  | [a] => [enc_char (a / 4); enc_char (a mod 4 * 16); pad; pad]
  | [a; b] => [enc_char (a / 4); enc_char (a mod 4 * 16 + b / 16);
               enc_char (b mod 16 * 4); pad]
  | a :: b :: c :: rest =>
      enc_char (a / 4) :: enc_char (a mod 4 * 16 + b / 16)
      :: enc_char (b mod 16 * 4 + c / 64) :: enc_char (c mod 64)
      :: encode_bytes rest
  end.

(** One group of four characters; [last] tells whether text follows. *)
Fixpoint decode_chars (l : list ascii) : option (list N) :=
  match l with
  | [] => Some []
  | a :: b :: c :: d :: rest =>
      match dec_char a, dec_char b with
      | Some va, Some vb =>
          if bool_decide (c = pad) then
            if bool_decide (d = pad ∧ rest = []) then Some [va * 4 + vb / 16]
            else None
          else match dec_char c with
          | Some vc =>
              if bool_decide (d = pad) then
                if bool_decide (rest = []) then
                  Some [va * 4 + vb / 16; vb mod 16 * 16 + vc / 4]
                else None
              else match dec_char d, decode_chars rest with
              | Some vd, Some tl =>
                  Some (va * 4 + vb / 16 :: vb mod 16 * 16 + vc / 4
                        :: vc mod 4 * 64 + vd :: tl)
              | _, _ => None
              end
          | None => None
          end
      | _, _ => None
      end
  | _ => None
  end.

Fixpoint of_chars (l : list ascii) : string :=
  match l with
  | [] => ""
  | a :: l' => String a (of_chars l')
  end.

Definition is_newline (a : ascii) : bool :=
  bool_decide (N_of_ascii a = 10 ∨ N_of_ascii a = 13).

(** [base64.StdEncoding.EncodeToString]. *)
Definition EncodeToString (s : string) : string :=
  of_chars (encode_bytes (N_of_ascii <$> chars s)).

(** [base64.StdEncoding.DecodeString]; [None] is a [CorruptInputError]. *)
Definition DecodeString (s : string) : option string :=
  match decode_chars (List.filter (λ a, negb (is_newline a)) (chars s)) with
  | Some l => Some (of_chars (ascii_of_N <$> l))
  | None => None
  end.

Example EncodeToString_ex : EncodeToString "AWS:tok" = "QVdTOnRvaw==".
Proof. reflexivity. Qed.

(** ** Decoding undoes encoding *)

(** The round trip of the alphabet, checked on its 64 values. *)
Definition char_ok (n : N) : bool :=
  bool_decide (dec_char (enc_char n) = Some n ∧ enc_char n ≠ pad ∧
               is_newline (enc_char n) = false).

Lemma dec_enc_char n : n < 64 →
  dec_char (enc_char n) = Some n ∧ enc_char n ≠ pad ∧ is_newline (enc_char n) = false.
Proof.
  intros Hn.
  assert (forallb char_ok (N.of_nat <$> seq 0 64) = true) as H by reflexivity.
  rewrite forallb_forall in H. specialize (H n).
  apply bool_decide_eq_true_1 in H; [done|].
  apply list_elem_of_In, list_elem_of_fmap. exists (N.to_nat n).
  rewrite N2Nat.id, elem_of_seq. split; [done|lia].
Qed.

Lemma list_ind3 {A} (P : list A → Prop) :
  P [] → (∀ a, P [a]) → (∀ a b, P [a; b]) →
  (∀ a b c l, P l → P (a :: b :: c :: l)) → ∀ l, P l.
Proof.
  intros H0 H1 H2 H3. fix IH 1. intros [|a [|b [|c l]]];
    [exact H0|apply H1|apply H2|]. apply H3, IH.
Qed.

(** Resolves the character tests of a group of encoded values. *)
Ltac dec_group :=
  repeat match goal with
  | |- context [dec_char (enc_char ?n)] =>
      let H := fresh in
      assert (n < 64) as H by lia; rewrite (proj1 (dec_enc_char _ H)); clear H
  | |- context [bool_decide (enc_char ?n = pad)] =>
      let H := fresh in
      assert (n < 64) as H by lia;
      rewrite (bool_decide_eq_false_2 (enc_char n = pad))
        by apply (proj2 (dec_enc_char _ H)); clear H
  end.

Lemma decode_encode_bytes l :
  Forall (λ n, n < 256) l → decode_chars (encode_bytes l) = Some l.
Proof.
  induction l as [|a|a b|a b c l IH] using list_ind3; intros Hl;
    rewrite ?Forall_cons in Hl; [done|..]; cbn [encode_bytes decode_chars]; dec_group.
  - rewrite !bool_decide_eq_true_2 by done. f_equal. f_equal. lia.
  - rewrite !bool_decide_eq_true_2 by done. repeat f_equal; lia.
  - rewrite IH by tauto. repeat f_equal; lia.
Qed.

Lemma encode_no_newline l :
  Forall (λ n, n < 256) l →
  List.filter (λ a, negb (is_newline a)) (encode_bytes l) = encode_bytes l.
Proof.
  induction l as [|a|a b|a b c l IH] using list_ind3; intros Hl;
    rewrite ?Forall_cons in Hl; [done|..]; cbn [encode_bytes List.filter];
    repeat match goal with
    | |- context [is_newline (enc_char ?n)] =>
        let H := fresh in
        assert (n < 64) as H by lia;
        rewrite (proj2 (proj2 (dec_enc_char _ H))); clear H
    end; [reflexivity|reflexivity|]. cbn [negb]. rewrite IH; tauto.
Qed.

Lemma chars_of_chars l : chars (of_chars l) = l.
Proof. induction l as [|a l IH]; simpl; congruence. Qed.

Lemma of_chars_chars s : of_chars (chars s) = s.
Proof. induction s as [|a s IH]; simpl; congruence. Qed.

Lemma DecodeString_EncodeToString s : DecodeString (EncodeToString s) = Some s.
Proof.
  unfold DecodeString, EncodeToString. rewrite chars_of_chars.
  assert (Forall (λ n, n < 256) (N_of_ascii <$> chars s)) as Hb.
  { apply Forall_fmap, Forall_forall. intros a _. apply N_ascii_bounded. }
  rewrite encode_no_newline, decode_encode_bytes by done.
  rewrite <- list_fmap_compose. f_equal. rewrite <- (of_chars_chars s) at 2. f_equal.
  rewrite <- (list_fmap_id (chars s)) at 2. apply list_fmap_ext. intros _ a _.
  apply ascii_N_embedding.
Qed.
