(* ===== verification/Types.v ===== *)
(** * Types: the ContainerImageBuild API (api/forge/v1alpha1)

    The custom resource the controller and the build job exchange: its spec,
    its status with the build-state machine, and the validation of inline and
    secret-based registry credentials. *)
From stdpp Require Import gmap strings list.
From Stdlib Require Import ZArith.
From S2P Require Import Prelude Go GoStd.

(** ** Object metadata *)

Record OwnerReference := mkOwnerReference {
  or_APIVersion : string;
  or_Kind : string;
  or_Name : string;
  or_UID : string;
  or_BlockOwnerDeletion : bool;
  or_Controller : bool;
}.

#[export] Instance OwnerReference_eq_dec : EqDecision OwnerReference.
Proof. solve_decision. Defined.

(** [metav1.ObjectMeta], the fields forge uses.  [om_Labels] is a Go map that
    can be nil; times are nanoseconds since the epoch. *)
Record ObjectMeta := mkObjectMeta {
  om_Name : string;
  om_Namespace : string;
  om_UID : string;
  om_ResourceVersion : string;
  om_SelfLink : string;
  om_Labels : option (gmap string string);
  om_Annotations : gmap string string;
  om_OwnerReferences : list OwnerReference;
  om_CreationTimestamp : Z;
  om_DeletionTimestamp : option Z;
}.

(** [metav1.ObjectMeta{Name, Namespace, Labels}]. *)
Definition new_meta (name namespace : string) (labels : option (gmap string string))
    : ObjectMeta :=
  mkObjectMeta name namespace "" "" "" labels ∅ [] 0 None.

(** ** Registry credentials *)

Record BasicAuthConfig := mkBasicAuthConfig {
  ba_Username : string;
  ba_Password : string;
  ba_SecretName : string;
  ba_SecretNamespace : string;
}.

Definition non_empty (s : string) : bool := bool_decide (s ≠ "").

Definition IsInline (auth : BasicAuthConfig) : bool :=
  non_empty (ba_Username auth) && non_empty (ba_Password auth).

Definition IsSecret (auth : BasicAuthConfig) : bool :=
  non_empty (ba_SecretName auth) && non_empty (ba_SecretNamespace auth).

Definition Validate (auth : BasicAuthConfig) : option error :=
  let user := non_empty (ba_Username auth) in
  let pass := non_empty (ba_Password auth) in
  let name := non_empty (ba_SecretName auth) in
  let ns := non_empty (ba_SecretNamespace auth) in
  if negb user && negb pass && negb name && negb ns then None
  else if (user && negb pass) || (negb user && pass) then
    Some (New "inline basic auth requires both username and password")
  else if (name && negb ns) || (negb name && ns) then
    Some (New "secret basic auth requires both secret name and namespace")
  else if (IsInline auth || IsSecret auth) && (IsInline auth && IsSecret auth) then
    Some (New "basic auth cannot be both inline and secret-based")
  else None.

Record Registry := mkRegistry {
  reg_Server : string;
  reg_NonSSL : bool;
  reg_BasicAuth : BasicAuthConfig;
  reg_DynamicCloudCredentials : bool;
}.

(** ** The spec *)

(** [resource.Quantity] as an integer number of its smallest unit. *)
Definition Quantity : Type := Z.

(** [corev1.ObjectFieldSelector]. *)
Record ObjectFieldSelector := mkObjectFieldSelector {
  ofs_APIVersion : string;
  ofs_FieldPath : string;
}.

(** [corev1.ResourceFieldSelector]. *)
Record ResourceFieldSelector := mkResourceFieldSelector {
  rfs_ContainerName : string;
  rfs_Resource : string;
  rfs_Divisor : Quantity;
}.

(** [corev1.ConfigMapKeySelector] and [corev1.SecretKeySelector]. *)
Record KeySelector := mkKeySelector {
  ks_Name : string;
  ks_Key : string;
  ks_Optional : option bool;
}.

(** [corev1.EnvVarSource]; its fields are pointers. *)
Record EnvVarSource := mkEnvVarSource {
  es_FieldRef : option ObjectFieldSelector;
  es_ResourceFieldRef : option ResourceFieldSelector;
  es_ConfigMapKeyRef : option KeySelector;
  es_SecretKeyRef : option KeySelector;
}.

(** [corev1.EnvVar]. *)
Record EnvVar := mkEnvVar {
  env_Name : string;
  env_Value : string;
  env_ValueFrom : option EnvVarSource;
}.

Record InitContainer := mkInitContainer {
  ic_Name : string;
  ic_Image : string;
  ic_Command : list string;
  ic_Args : list string;
  ic_Env : list EnvVar;
}.

(** [corev1.ResourceRequirements]; both lists are maps that can be nil. *)
Record ResourceRequirements := mkResources {
  rr_Limits : option (gmap string Quantity);
  rr_Requests : option (gmap string Quantity);
}.

Record ContainerImageBuildSpec := mkSpec {
  spec_ImageName : string;
  spec_Context : string;
  spec_ContextTimeoutSeconds : Z; (* uint16 *)
  spec_PushRegistries : list string;
  spec_Registries : list Registry;
  spec_BuildArgs : list string;
  spec_Labels : gmap string string;
  spec_CPU : string;
  spec_Memory : string;
  spec_Resources : ResourceRequirements;
  spec_TimeoutSeconds : Z; (* uint16 *)
  spec_ImageSizeLimit : Z; (* uint64 *)
  spec_PluginData : gmap string string;
  spec_DisableBuildCache : bool;
  spec_DisableLayerCacheExport : bool;
  spec_MessageQueueName : string;
  spec_InitContainers : list InitContainer;
}.

(** ** The status *)

(** [BuildState] is a string type with four named values; the empty string is
    the state of a resource no component has touched. *)
Definition BuildState : Type := string.
Definition BuildStateInitialized : BuildState := "Initialized".
Definition BuildStateBuilding : BuildState := "Building".
Definition BuildStateCompleted : BuildState := "Completed".
Definition BuildStateFailed : BuildState := "Failed".

Record ContainerImageBuildStatus := mkStatus {
  st_PreviousState : BuildState;
  st_State : BuildState;
  st_ImageURLs : list string;
  st_ImageSize : Z; (* uint64 *)
  st_ErrorMessage : string;
  st_BuildStartedAt : option Z;
  st_BuildCompletedAt : option Z;
}.

(** [ContainerImageBuildStatus.SetState]. *)
Definition SetState (s : ContainerImageBuildStatus) (state : BuildState)
    : ContainerImageBuildStatus :=
  let cur := if bool_decide (st_State s = "") then BuildStateInitialized
             else st_State s in
  mkStatus cur state (st_ImageURLs s) (st_ImageSize s) (st_ErrorMessage s)
    (st_BuildStartedAt s) (st_BuildCompletedAt s).

(** ** The resource *)

Record ContainerImageBuild := mkBuild {
  cib_ObjectMeta : ObjectMeta;
  cib_Spec : ContainerImageBuildSpec;
  cib_Status : ContainerImageBuildStatus;
}.

Definition cib_Name (c : ContainerImageBuild) : string := om_Name (cib_ObjectMeta c).
Definition cib_Namespace (c : ContainerImageBuild) : string :=
  om_Namespace (cib_ObjectMeta c).
Definition cib_Labels (c : ContainerImageBuild) : option (gmap string string) :=
  om_Labels (cib_ObjectMeta c).
Definition cib_Annotations (c : ContainerImageBuild) : gmap string string :=
  om_Annotations (cib_ObjectMeta c).

Definition with_status (s : ContainerImageBuildStatus) (c : ContainerImageBuild)
    : ContainerImageBuild :=
  mkBuild (cib_ObjectMeta c) (cib_Spec c) s.

(** The version the API server gave to a build. *)
Definition cib_version (c : ContainerImageBuild) : string := om_ResourceVersion (cib_ObjectMeta c).

Definition with_version (v : string) (c : ContainerImageBuild) : ContainerImageBuild :=
  let m := cib_ObjectMeta c in
  mkBuild (mkObjectMeta (om_Name m) (om_Namespace m) (om_UID m) v (om_SelfLink m) (om_Labels m)
             (om_Annotations m) (om_OwnerReferences m) (om_CreationTimestamp m) (om_DeletionTimestamp m))
    (cib_Spec c) (cib_Status c).

(** A name in a namespace. *)
Record NamespacedName := mkKey { nn_Namespace : string; nn_Name : string }.

#[export] Instance NamespacedName_eq_dec : EqDecision NamespacedName.
Proof. solve_decision. Defined.

#[export] Instance NamespacedName_countable : Countable NamespacedName.
Proof.
  refine (inj_countable' (λ k, (nn_Namespace k, nn_Name k))
                         (λ p, mkKey p.1 p.2) _).
  by intros [].
Defined.

Definition meta_key (m : ObjectMeta) : NamespacedName :=
  mkKey (om_Namespace m) (om_Name m).

Definition cib_key (c : ContainerImageBuild) : NamespacedName :=
  meta_key (cib_ObjectMeta c).

(** Every build is stored under its own name. *)
Definition well_keyed (m : gmap NamespacedName ContainerImageBuild) : Prop :=
  map_Forall (λ k c, cib_key c = k) m.

(** ** Properties *)

(** The four ways credentials may be given. *)
Inductive auth_form := NoAuth | InlineAuth | SecretAuth | BadAuth.

(** What the documentation of the fields promises: no credentials, a full
    user/password pair, or a full secret reference, and nothing else. *)
Definition classify_auth (auth : BasicAuthConfig) : auth_form :=
  match ba_Username auth, ba_Password auth,
        ba_SecretName auth, ba_SecretNamespace auth with
  | EmptyString, EmptyString, EmptyString, EmptyString => NoAuth
  | String _ _, String _ _, EmptyString, EmptyString => InlineAuth
  | EmptyString, EmptyString, String _ _, String _ _ => SecretAuth
  | _, _, _, _ => BadAuth
  end.

#[export] Instance auth_form_eq_dec : EqDecision auth_form.
Proof. solve_decision. Defined.

Lemma Validate_form (auth : BasicAuthConfig) :
  match classify_auth auth with
  | BadAuth => ∃ e, Validate auth = Some e
  | form => Validate auth = None ∧ IsInline auth = bool_decide (form = InlineAuth) ∧
            IsSecret auth = bool_decide (form = SecretAuth)
  end.
Proof. destruct auth as [[|] [|] [|] [|]]; vm_compute; eauto. Qed.

(** [Validate] accepts exactly the three documented forms of credentials
    (none, a full user/password pair, a full secret reference), and for an
    accepted credential [IsInline] and [IsSecret] tell which form it is, so the
    switch of the build job never finds both true. *)
Theorem Validate_exact (auth : BasicAuthConfig) :
  (Validate auth = None ↔ classify_auth auth ≠ BadAuth) ∧
  (Validate auth = None →
   IsInline auth = bool_decide (classify_auth auth = InlineAuth) ∧
   IsSecret auth = bool_decide (classify_auth auth = SecretAuth)).
Proof. pose proof (Validate_form auth). destruct (classify_auth auth); naive_solver. Qed.

Lemma Validate_exact_witness :
  let auth := mkBasicAuthConfig "marge" "simpson" "" "" in
  Validate auth = None ∧ IsInline auth = true ∧ IsSecret auth = false.
Proof.
  split; [reflexivity|].
  apply (proj2 (Validate_exact (mkBasicAuthConfig "marge" "simpson" "" ""))).
  reflexivity.
Defined.
