(* ===== verification/Config.v ===== *)
(** * Config: build options, broker options and the paths they name

    [internal/config], [internal/message/options.go] and the broker part of
    [cmd/root.go]: the values the command line and the custom resource are
    turned into before a build starts. *)
From stdpp Require Import gmap strings list.
From Stdlib Require Import ZArith Ascii.
From S2P Require Import Prelude Go GoStd.

(** ** internal/config *)

Definition DynamicCredentialsPath : string := "/tmp/docker".
Definition DynamicCredentialsFilename : string := "config.json".
Definition BuildContextPath : string := "/mnt/build".

Definition DynamicCredentialsFilepath : string :=
  filepath_Join [DynamicCredentialsPath; DynamicCredentialsFilename].

(** [config.Registry]: the credentials of one registry host. *)
Record RegistryConfig := mkRegistryConfig {
  rc_Host : string;
  rc_NonSSL : bool;
  rc_Username : string;
  rc_Password : string;
}.

#[export] Instance RegistryConfig_eq_dec : EqDecision RegistryConfig.
Proof. solve_decision. Defined.

Record BuildOptions := mkBuildOptions {
  bo_ContextURL : string;
  bo_ContextTimeout : Z;
  bo_ImageName : string;
  bo_ImageSizeLimit : Z;
  bo_Labels : gmap string string;
  bo_BuildArgs : list string;
  bo_DisableBuildCache : bool;
  bo_DisableLayerCacheExport : bool;
  bo_Timeout : Z;
  bo_Registries : list RegistryConfig;
  bo_PushRegistries : list string;
  bo_PluginData : gmap string string;
  bo_CacheFrom : list string;
}.

(** [builder/types.Image]: what a build produces. *)
Record Image := mkImage {
  img_URLs : list string;
  img_Size : Z; (* uint64 *)
}.

(** [config.GetStateDir]; [getenv] is the process environment. *)
Definition GetStateDir (getenv : string → string) : string :=
  let xdgDataHome := getenv "XDG_DATA_HOME" in
  if bool_decide (xdgDataHome ≠ "") then
    filepath_Join [default "" (head (Split xdgDataHome ":"%char))]
  else
    let home := getenv "HOME" in
    if bool_decide (home ≠ "") then
      filepath_Join [home; ".local"; "share"; "forge"]
    else "/tmp/forge".

(** ** internal/message *)

Definition AmqpBroker : string := "amqp".
Definition SupportedBrokers : list string := [AmqpBroker].

(** [message.Options]. *)
Record Options := mkOptions {
  opt_Broker : string;
  opt_AmqpURI : string;
  opt_AmqpQueue : string;
}.

(** [%v] of a slice of strings. *)
Definition fmt_slice (l : list string) : string := "[" +:+ strings_Join l " " +:+ "]".

Definition ValidateOpts (opts : Options) : option error :=
  if bool_decide (opt_Broker opts = AmqpBroker) then
    if bool_decide (opt_AmqpURI opts = "" ∨ opt_AmqpQueue opts = "")
    then Some (New "amqp broker requires a uri and queue name")
    else None
  else Some (New ("broker " +:+ fmt_q (opt_Broker opts)
                  +:+ " is invalid (supported brokers: "
                  +:+ fmt_slice SupportedBrokers +:+ ")")).

(** ** cmd/root.go: broker flags *)

(** [processBrokerOpts]: the value left in [brokerOpts] and the error. *)
Definition processBrokerOpts (messageBroker amqpURI amqpQueue : string)
    : option Options * option error :=
  if bool_decide (messageBroker = "") then (None, None)
  else
    let opts := mkOptions (ToLower messageBroker) amqpURI amqpQueue in
    (Some opts, ValidateOpts opts).

(** ** Properties *)

(** The broker flags are accepted exactly when no broker is named, or the
    broker is "amqp" in any letter case with a non-empty URI and queue; accepted
    options are the ones a producer can be created from. *)
Theorem processBrokerOpts_exact (broker uri queue : string) :
  (processBrokerOpts broker uri queue).2 = None ↔
  (broker = "" ∧ (processBrokerOpts broker uri queue).1 = None) ∨
  (ToLower broker = AmqpBroker ∧ uri ≠ "" ∧ queue ≠ "" ∧
   (processBrokerOpts broker uri queue).1 = Some (mkOptions AmqpBroker uri queue)).
Proof.
  unfold processBrokerOpts, ValidateOpts.
  case_bool_decide as Hb; simpl.
  - subst broker. split; [by left|]. done.
  - case_bool_decide as Ha; [case_bool_decide as He|]; simpl.
    + naive_solver.
    + rewrite Ha. naive_solver.
    + naive_solver.
Qed.
