(* ===== verification/Kube.v ===== *)
(** * Kube: the Kubernetes objects forge creates and the API it talks to

    The objects of the build job and of its prerequisites (service account,
    role, role binding, secret, job), ownership of an object by a build, and the
    interface of the API server: a class of operations the controller calls and
    a class of laws a server satisfies.  The server is not part of forge, so it
    stays a parameter; [cluster] is an in-memory server with fault injection
    that satisfies the laws. *)
From stdpp Require Import gmap strings list.
From Stdlib Require Import ZArith.
From S2P Require Import Prelude Go GoStd Types.

(** ** Pods *)

Inductive VolumeSource :=
| EmptyDirVolumeSource
| SecretVolumeSource (secretName : string) (items : list (string * string))
| ConfigMapVolumeSource (name : string)
| HostPathVolumeSource (path : string).

Record Volume := mkVolume { vol_Name : string; vol_Source : VolumeSource }.

Record VolumeMount := mkVolumeMount {
  vm_Name : string;
  vm_MountPath : string;
  vm_ReadOnly : bool;
}.

Record SecurityContext := mkSecurityContext {
  sc_RunAsUser : option Z;
  sc_Privileged : option bool;
  sc_SELinuxType : option string;
}.

Record PodSecurityContext := mkPodSecurityContext { psc_FSGroup : option Z }.

Record Container := mkContainer {
  ct_Name : string;
  ct_Image : string;
  ct_ImagePullPolicy : string;
  ct_Command : list string;
  ct_Args : list string;
  ct_Env : list EnvVar;
  ct_SecurityContext : option SecurityContext;
  ct_WorkingDir : string;
  ct_VolumeMounts : list VolumeMount;
  ct_Resources : ResourceRequirements;
}.

Record Toleration := mkToleration { tol_Key : string; tol_Operator : string }.

Record PodSpec := mkPodSpec {
  ps_ServiceAccountName : string;
  ps_NodeSelector : gmap string string;
  ps_RestartPolicy : string;
  ps_InitContainers : list Container;
  ps_SecurityContext : PodSecurityContext;
  ps_ImagePullSecrets : list string;
  ps_Tolerations : list Toleration;
  ps_Containers : list Container;
  ps_Volumes : list Volume;
}.

Record PolicyRule := mkPolicyRule {
  pr_APIGroups : list string;
  pr_Resources : list string;
  pr_Verbs : list string;
  pr_ResourceNames : list string;
}.

Record RoleRef := mkRoleRef {
  rr_APIGroup : string;
  rr_Kind : string;
  rr_Name : string;
}.

Record Subject := mkSubject {
  sub_Kind : string;
  sub_Name : string;
  sub_Namespace : string;
}.

(** ** Objects *)

Inductive object_body :=
| ServiceAccount
| Role (rules : list PolicyRule)
| RoleBinding (ref : RoleRef) (subjects : list Subject)
| Secret (data : gmap string document) (type : string)
| Job (backoffLimit : Z) (podMeta : ObjectMeta) (podSpec : PodSpec).

Record object := mkObject { obj_meta : ObjectMeta; obj_body : object_body }.

Inductive Kind := KServiceAccount | KRole | KRoleBinding | KSecret | KJob.

#[export] Instance Kind_eq_dec : EqDecision Kind.
Proof. solve_decision. Defined.

#[export] Instance Kind_countable : Countable Kind.
Proof.
  refine (inj_countable'
    (λ k, match k with
          | KServiceAccount => 0 | KRole => 1 | KRoleBinding => 2
          | KSecret => 3 | KJob => 4 end)%nat
    (λ n, match n with
          | 0 => KServiceAccount | 1 => KRole | 2 => KRoleBinding
          | 3 => KSecret | _ => KJob end)%nat _).
  by intros [].
Defined.

Definition obj_kind (o : object) : Kind :=
  match obj_body o with
  | ServiceAccount => KServiceAccount
  | Role _ => KRole
  | RoleBinding _ _ => KRoleBinding
  | Secret _ _ => KSecret
  | Job _ _ _ => KJob
  end.

Abbreviation objkey := (Kind * NamespacedName)%type.

(** [client.ObjectKeyFromObject], with the kind of the object. *)
Definition obj_key (o : object) : objkey := (obj_kind o, meta_key (obj_meta o)).

(** ** Ownership: controllerutil.SetControllerReference *)

Definition forge_APIVersion : string := "forge.dominodatalab.com/v1alpha1".
Definition build_Kind : string := "ContainerImageBuild".

(** [validateOwner]: a namespaced owner owns objects of its namespace only. *)
Definition validateOwner (ownerNs objNs : string) : option error :=
  if bool_decide (ownerNs = "") then None
  else if bool_decide (objNs = "") then
    Some (New ("cluster-scoped resource must not have a namespace-scoped owner, owner's namespace "
               +:+ ownerNs))
  else if bool_decide (ownerNs ≠ objNs) then
    Some (New ("cross-namespace owner references are disallowed, owner's namespace "
               +:+ ownerNs +:+ ", obj's namespace " +:+ objNs))
  else None.

(** [referSameObject], for references that carry a group and version. *)
Definition api_group (apiVersion : string) : string :=
  default "" (head (Split apiVersion slash)).

Definition referSameObject (a b : OwnerReference) : bool :=
  bool_decide (api_group (or_APIVersion a) = api_group (or_APIVersion b) ∧
               or_Kind a = or_Kind b ∧ or_Name a = or_Name b).

(** [upsertOwnerRef]: the first reference to the same object is replaced. *)
Fixpoint upsertOwnerRef (ref : OwnerReference) (owners : list OwnerReference)
    : list OwnerReference :=
  match owners with
  | [] => [ref]
  | r :: rest => if referSameObject r ref then ref :: rest
                 else r :: upsertOwnerRef ref rest
  end.

Definition set_owners (owners : list OwnerReference) (m : ObjectMeta) : ObjectMeta :=
  mkObjectMeta (om_Name m) (om_Namespace m) (om_UID m) (om_ResourceVersion m) (om_SelfLink m)
    (om_Labels m) (om_Annotations m) owners
    (om_CreationTimestamp m) (om_DeletionTimestamp m).

Definition controller_ref (owner : ObjectMeta) : OwnerReference :=
  mkOwnerReference forge_APIVersion build_Kind (om_Name owner) (om_UID owner)
    true true.

(** [metav1.GetControllerOf]. *)
Definition GetControllerOf (m : ObjectMeta) : option OwnerReference :=
  List.find or_Controller (om_OwnerReferences m).

(** [controllerutil.SetControllerReference] with a build as the owner. *)
Definition SetControllerReference (owner : ObjectMeta) (o : object) : outcome object :=
  match validateOwner (om_Namespace owner) (om_Namespace (obj_meta o)) with
  | Some e => Err e
  | None =>
      let ref := controller_ref owner in
      match GetControllerOf (obj_meta o) with
      | Some existing =>
          if referSameObject existing ref then
            Ok (mkObject (set_owners (upsertOwnerRef ref (om_OwnerReferences (obj_meta o)))
                            (obj_meta o)) (obj_body o))
          else Err (New ("Object " +:+ om_Namespace (obj_meta o) +:+ "/"
                         +:+ om_Name (obj_meta o) +:+ " is already owned by another "
                         +:+ or_Kind existing +:+ " controller " +:+ or_Name existing))
      | None =>
          Ok (mkObject (set_owners (upsertOwnerRef ref (om_OwnerReferences (obj_meta o)))
                          (obj_meta o)) (obj_body o))
      end
  end.

(** ** The API server *)

(** [client.DeleteOptions]: what becomes of the objects the deleted one owns, and
    the identity it must have. *)
Inductive DeletionPropagation :=
| DeletePropagationOrphan
| DeletePropagationBackground
| DeletePropagationForeground.

Record ClientDeleteOptions := mkClientDeleteOptions {
  do_PropagationPolicy : option DeletionPropagation;
  do_Preconditions_UID : option string;
}.

Definition cib_UID (c : ContainerImageBuild) : string := om_UID (cib_ObjectMeta c).

(** The preconditions of a deletion hold for [b]. *)
Definition admits (opts : ClientDeleteOptions) (b : ContainerImageBuild) : bool :=
  match do_Preconditions_UID opts with
  | Some uid => bool_decide (uid = cib_UID b)
  | None => true
  end.

(** A build whose deletion was accepted at [t] and is not over: the objects it
    owns are deleted first.  A second request does not move the time. *)
Definition terminating (t : Z) (v : string) (c : ContainerImageBuild) : ContainerImageBuild :=
  let m := cib_ObjectMeta c in
  mkBuild (mkObjectMeta (om_Name m) (om_Namespace m) (om_UID m) v (om_SelfLink m) (om_Labels m)
             (om_Annotations m) (om_OwnerReferences m) (om_CreationTimestamp m)
             (Some (default t (om_DeletionTimestamp m))))
    (cib_Spec c) (cib_Status c).

(** What an accepted deletion makes of an entry: it is gone, or it stays and is
    terminating. *)
Definition erased (x y : option ContainerImageBuild) : Prop :=
  y = None ∨ ∃ b t v, x = Some b ∧ y = Some (terminating t v b).

(** [m'] is [m] after a deletion of [k] was accepted. *)
Definition deleted_from (k : NamespacedName) (m m' : gmap NamespacedName ContainerImageBuild)
    : Prop :=
  erased (m !! k) (m' !! k) ∧ ∀ k', k' ≠ k → m' !! k' = m !! k'.

(** [m'] is [m] after a deletion of [k] with [opts] was accepted. *)
Definition deleted (opts : ClientDeleteOptions) (k : NamespacedName)
    (m m' : gmap NamespacedName ContainerImageBuild) : Prop :=
  (∃ b, m !! k = Some b ∧ admits opts b = true) ∧ deleted_from k m m'.

Lemma terminating_twice t v t' v' c :
  terminating t' v' (terminating t v c) = terminating t v' c.
Proof. done. Qed.

Lemma erased_trans x y z : erased x y → erased y z → erased x z.
Proof.
  intros Hxy [->|(b & t & v & -> & ->)]; [by left|].
  destruct Hxy as [|(b' & t' & v' & -> & [= ->])]; [done|].
  right. exists b', t', v. by rewrite terminating_twice.
Qed.

(** The calls of [client.Client] the controller makes. *)
Class KubeClient (W : Type) := {
  kc_Get : objkey → M W object;
  kc_Create : object → M W unit;
  kc_GetBuild : NamespacedName → M W ContainerImageBuild;
  kc_ListBuilds : M W (list ContainerImageBuild);
  kc_DeleteBuild : ClientDeleteOptions → ContainerImageBuild → M W unit;
}.

(** What a server promises about writes, for the objects as their creator
    submitted them: reads write nothing, a creation either adds an object
    under a name that was free or changes nothing, and a deletion that is
    accepted removes the build of that name or marks it for deletion. *)
Class KubeServer (W : Type) {KC : KubeClient W} := {
  objects_of : W → gmap objkey object;
  builds_of : W → gmap NamespacedName ContainerImageBuild;
  Get_reads k : always (λ w w', objects_of w' = objects_of w ∧ builds_of w' = builds_of w)
                       (kc_Get k);
  GetBuild_reads k : always (λ w w', objects_of w' = objects_of w ∧ builds_of w' = builds_of w)
                            (kc_GetBuild k);
  ListBuilds_reads : always (λ w w', objects_of w' = objects_of w ∧ builds_of w' = builds_of w)
                            kc_ListBuilds;
  Create_writes o w r w' :
    kc_Create o w = (r, w') →
    builds_of w' = builds_of w ∧
    match r with
    | Ok _ => objects_of w !! obj_key o = None ∧
              objects_of w' = <[obj_key o := o]> (objects_of w)
    | _ => objects_of w' = objects_of w
    end;
  DeleteBuild_writes opts c w r w' :
    kc_DeleteBuild opts c w = (r, w') →
    objects_of w' = objects_of w ∧
    match r with
    | Ok _ => deleted opts (cib_key c) (builds_of w) (builds_of w')
    | _ => builds_of w' = builds_of w
    end;
}.

(** Reads that are not stale: what a read returns is what the server holds.  The
    client of the manager reads from a cache (start.go, [mgr.GetClient()]), which
    follows the server with a delay; this is the moment at which it has caught
    up.  [Interleaving] has reads of any age. *)
Class FreshReads (W : Type) {KC : KubeClient W} {KS : KubeServer W} := {
  Get_fresh k w o w' : kc_Get k w = (Ok o, w') → objects_of w !! k = Some o;
  Get_absent k w e w' :
    kc_Get k w = (Err e, w') → IsNotFound e = true → objects_of w !! k = None;
  GetBuild_fresh k w c w' : kc_GetBuild k w = (Ok c, w') → builds_of w !! k = Some c;
  GetBuild_absent k w e w' :
    kc_GetBuild k w = (Err e, w') → IsNotFound e = true → builds_of w !! k = None;
  ListBuilds_fresh w l w' :
    kc_ListBuilds w = (Ok l, w') → l ≡ₚ snd <$> map_to_list (builds_of w);
}.

(** A server that answers: calls that can succeed do, while it is healthy. *)
Class KubeProgress (W : Type) {KC : KubeClient W} {KS : KubeServer W} := {
  healthy : W → Prop;
  Get_progress k w : healthy w → ∃ o w',
    kc_Get k w = (o, w') ∧ healthy w' ∧
    match objects_of w !! k with
    | Some x => o = Ok x
    | None => ∃ e, o = Err e ∧ IsNotFound e = true
    end;
  Create_progress x w : healthy w → objects_of w !! obj_key x = None →
    ∃ w', kc_Create x w = (Ok tt, w') ∧ healthy w';
  GetBuild_progress k w c : healthy w → builds_of w !! k = Some c →
    ∃ w', kc_GetBuild k w = (Ok c, w') ∧ healthy w';
  ListBuilds_progress w : healthy w → ∃ l w', kc_ListBuilds w = (Ok l, w') ∧ healthy w';
  DeleteBuild_progress opts c b w :
    healthy w → builds_of w !! cib_key c = Some b → admits opts b = true →
    ∃ w', kc_DeleteBuild opts c w = (Ok tt, w') ∧ healthy w';
}.

(** ** An in-memory server *)

(** [cl_faults] says which of the next calls fail before they take effect. *)
Record cluster := mkCluster {
  cl_objects : gmap objkey object;
  cl_builds : gmap NamespacedName ContainerImageBuild;
  cl_faults : list (option string);
}.

Definition cl_call : M cluster unit := λ c,
  match cl_faults c with
  | [] => (Ok tt, c)
  | None :: fs => (Ok tt, mkCluster (cl_objects c) (cl_builds c) fs)
  | Some m :: fs => (Err (StatusError StatusReasonUnknown m),
                     mkCluster (cl_objects c) (cl_builds c) fs)
  end.

Definition not_found (n : string) : error :=
  StatusError StatusReasonNotFound (n +:+ " not found").

Definition already_exists (n : string) : error :=
  StatusError StatusReasonAlreadyExists (n +:+ " already exists").

Definition conflict (n : string) : error :=
  StatusError StatusReasonUnknown (n +:+ ": the UID in the precondition does not match").

(** An object keeps its owner from going before it. *)
Definition blocks (uid : string) (o : object) : bool :=
  existsb (λ ref, bool_decide (or_UID ref = uid) && or_BlockOwnerDeletion ref)
    (om_OwnerReferences (obj_meta o)).

(** A foreground deletion of [b] waits for the objects that block it. *)
Definition erase (opts : ClientDeleteOptions) (k : NamespacedName) (b : ContainerImageBuild) (c : cluster)
    : gmap NamespacedName ContainerImageBuild :=
  match do_PropagationPolicy opts with
  | Some DeletePropagationForeground =>
      if existsb (blocks (cib_UID b)) (snd <$> map_to_list (cl_objects c))
      then <[k := terminating (om_CreationTimestamp (cib_ObjectMeta b)) (cib_version b) b]>
             (cl_builds c)
      else delete k (cl_builds c)
  | _ => delete k (cl_builds c)
  end.

#[export] Instance cluster_client : KubeClient cluster := {|
  kc_Get k :=
    do! cl_call in
    λ c, match cl_objects c !! k with
         | Some o => (Ok o, c)
         | None => (Err (not_found (nn_Name k.2)), c)
         end;
  kc_Create o :=
    do! cl_call in
    λ c, match cl_objects c !! obj_key o with
         | Some _ => (Err (already_exists (om_Name (obj_meta o))), c)
         | None => (Ok tt, mkCluster (<[obj_key o := o]> (cl_objects c))
                                     (cl_builds c) (cl_faults c))
         end;
  kc_GetBuild k :=
    do! cl_call in
    λ c, match cl_builds c !! k with
         | Some b => (Ok b, c)
         | None => (Err (not_found (nn_Name k)), c)
         end;
  kc_ListBuilds :=
    do! cl_call in λ c, (Ok (snd <$> map_to_list (cl_builds c)), c);
  kc_DeleteBuild opts b :=
    do! cl_call in
    λ c, match cl_builds c !! cib_key b with
         | Some b' =>
             if admits opts b'
             then (Ok tt, mkCluster (cl_objects c) (erase opts (cib_key b) b' c) (cl_faults c))
             else (Err (conflict (cib_Name b)), c)
         | None => (Err (not_found (cib_Name b)), c)
         end;
|}.

Lemma cl_call_inv c o c' :
  cl_call c = (o, c') →
  cl_objects c' = cl_objects c ∧ cl_builds c' = cl_builds c ∧
  ∀ e, o = Err e → IsNotFound e = false.
Proof. unfold cl_call. repeat case_match; naive_solver. Qed.

(** Runs the fault check of a call of [cluster] and keeps its frame. *)
Ltac cluster_call :=
  intros; match goal with
  | H : bind cl_call _ _ = _ |- _ =>
      apply bind_inv in H as [(?&?&Hc&?)|[(?&Hc&?)|(?&Hc&?)]];
      apply cl_call_inv in Hc as (?&?&?)
  end; repeat case_match; simplify_eq/=; try (split; congruence).

Lemma erase_deleted opts k b c :
  cl_builds c !! k = Some b → admits opts b = true →
  deleted opts k (cl_builds c) (erase opts k b c).
Proof.
  intros Hb Ha. split; [by exists b|]. assert (deleted_from k (cl_builds c) (delete k (cl_builds c))) as Hd.
  { split; [left; apply lookup_delete_eq|]. intros k' ?. by apply lookup_delete_ne. }
  unfold erase. destruct (do_PropagationPolicy opts) as [[]|]; try done.
  destruct (existsb _ _); [|done]. split.
  - right. rewrite Hb, lookup_insert_eq. by eexists _, _, _.
  - intros k' ?. by apply lookup_insert_ne.
Qed.

#[export] Instance cluster_server : KubeServer cluster.
Proof.
  refine {| objects_of := cl_objects; builds_of := cl_builds |}.
  - unfold always; simpl. cluster_call.
  - unfold always; simpl. cluster_call.
  - unfold always; simpl. cluster_call.
  - simpl. cluster_call. split; [done|]. split; congruence.
  - simpl. cluster_call. split; [done|]. match goal with H : cl_builds _ = cl_builds _ |- _ => rewrite <- H end.
    by apply erase_deleted.
Defined.

#[export] Instance cluster_fresh : FreshReads cluster.
Proof.
  split; simpl.
  - cluster_call; congruence.
  - cluster_call; naive_solver congruence.
  - cluster_call; congruence.
  - cluster_call; naive_solver congruence.
  - cluster_call. match goal with H : cl_builds _ = _ |- _ => by rewrite H end.
Qed.

#[export] Instance cluster_progress : KubeProgress cluster.
Proof.
  refine {| healthy c := cl_faults c = [] |}; simpl; unfold bind, cl_call.
  - intros k c Hc. rewrite Hc. destruct (cl_objects c !! k);
      eexists _, _; (split; [done|]; split; [done|]); eauto.
  - intros x c Hc Hx. rewrite Hc, Hx. by eexists.
  - intros k c b Hc Hb. rewrite Hc, Hb. by eexists.
  - intros c Hc. rewrite Hc. by eexists _, _.
  - intros opts b b' c Hc Hb Ha. rewrite Hc, Hb, Ha. by eexists.
Defined.

(** ** Facts on ownership *)

(** An object without owners that lives in the namespace of the build gets the
    build as its one controlling owner. *)
Lemma SetControllerReference_new owner o :
  om_Namespace (obj_meta o) = om_Namespace owner →
  om_OwnerReferences (obj_meta o) = [] →
  SetControllerReference owner o =
  Ok (mkObject (set_owners [controller_ref owner] (obj_meta o)) (obj_body o)).
Proof.
  intros Hns Ho. unfold SetControllerReference, validateOwner, GetControllerOf.
  rewrite Hns, Ho. simpl.
  case_bool_decide as E; [done|]. rewrite (bool_decide_eq_false_2 (_ ≠ _)); naive_solver.
Qed.

Lemma set_owners_key l m : meta_key (set_owners l m) = meta_key m.
Proof. done. Qed.
