(* ===== verification/Credentials.v ===== *)
(** * Credentials: Docker credentials and their JSON form

    [internal/credentials/docker.go] with the loader of the Docker CLI it calls
    ([configfile.LoadFromReader]) and the encoding of [types.AuthConfig].  The
    controller encodes credentials into a secret, the build job decodes them
    from it; the round trip is proved here. *)
From stdpp Require Import gmap strings list sorting.
From Stdlib Require Import ZArith Ascii.
From S2P Require Import Prelude Go GoStd Base64.

(** [types.AuthConfig] of the Docker API (and of the CLI, which has the same
    fields). *)
Record AuthConfig := mkAuthConfig {
  ac_Username : string;
  ac_Password : string;
  ac_Auth : string;
  ac_Email : string;
  ac_ServerAddress : string;
  ac_IdentityToken : string;
  ac_RegistryToken : string;
}.

#[export] Instance AuthConfig_eq_dec : EqDecision AuthConfig.
Proof. solve_decision. Defined.

(** [&types.AuthConfig{Username, Password}]. *)
Definition basic_auth (username password : string) : AuthConfig :=
  mkAuthConfig username password "" "" "" "" "".

(** [AuthConfigs]: registry URL to credentials. *)
Abbreviation AuthConfigs := (gmap string AuthConfig).

(** ** Encoding *)

Definition marshal_auth (ac : AuthConfig) : json :=
  JObj (omitempty "username" (ac_Username ac) ++
        omitempty "password" (ac_Password ac) ++
        omitempty "auth" (ac_Auth ac) ++
        omitempty "email" (ac_Email ac) ++
        omitempty "serveraddress" (ac_ServerAddress ac) ++
        omitempty "identitytoken" (ac_IdentityToken ac) ++
        omitempty "registrytoken" (ac_RegistryToken ac)).

(** Go encodes a map with its keys sorted. *)
Definition sorted_fields {A} (m : gmap string A) : list (string * A) :=
  merge_sort (λ a b, String.le a.1 b.1) (map_to_list m).

(** [json.Marshal(DockerConfigJSON{Auths: auths})]. *)
Definition marshal_docker_config (auths : AuthConfigs) : json :=
  JObj [("auths", JObj ((λ f, (f.1, marshal_auth f.2)) <$> sorted_fields auths))].

(** ** Decoding: the Docker CLI configuration loader *)

(** A string field of a struct: encoding/json matches field names up to letter
    case, the last occurrence wins and null changes nothing. *)
Fixpoint string_field (name cur : string) (fields : list (string * json))
    : outcome string :=
  match fields with
  | [] => Ok cur
  | (k, v) :: rest =>
      if EqualFold k name then
        match v with
        | JStr s => string_field name s rest
        | JNull => string_field name cur rest
        | _ => Err (New ("json: cannot unmarshal value into Go struct field " +:+ name))
        end
      else string_field name cur rest
  end.

Definition unmarshal_auth (j : json) : outcome AuthConfig :=
  match j with
  | JObj fields =>
      let? username := string_field "username" "" fields in
      let? password := string_field "password" "" fields in
      let? auth := string_field "auth" "" fields in
      let? email := string_field "email" "" fields in
      let? server := string_field "serveraddress" "" fields in
      let? identity := string_field "identitytoken" "" fields in
      let? registry := string_field "registrytoken" "" fields in
      Ok (mkAuthConfig username password auth email server identity registry)
  | JNull => Ok (basic_auth "" "")
  | _ => Err (New "json: cannot unmarshal value into Go value of type types.AuthConfig")
  end.

(** A map from strings to credentials. *)
Fixpoint unmarshal_auths (cur : AuthConfigs) (fields : list (string * json))
    : outcome AuthConfigs :=
  match fields with
  | [] => Ok cur
  | (host, v) :: rest =>
      let? ac := unmarshal_auth v in unmarshal_auths (<[host := ac]> cur) rest
  end.

(** The "auths" field of the configuration file. *)
Fixpoint auths_field (cur : AuthConfigs) (fields : list (string * json))
    : outcome AuthConfigs :=
  match fields with
  | [] => Ok cur
  | (k, v) :: rest =>
      if EqualFold k "auths" then
        match v with
        | JObj entries => let? cur' := unmarshal_auths cur entries in auths_field cur' rest
        | JNull => auths_field ∅ rest
        | _ => Err (New "json: cannot unmarshal value into Go struct field ConfigFile.auths")
        end
      else auths_field cur rest
  end.

Definition nul : ascii := ascii_of_nat 0.

Fixpoint trim_left (c : ascii) (s : string) : string :=
  match s with
  | String a s' => if bool_decide (a = c) then trim_left c s' else s
  | EmptyString => ""
  end.

Fixpoint trim_right (c : ascii) (s : string) : string :=
  match s with
  | EmptyString => ""
  | String a s' =>
      let t := trim_right c s' in
      if bool_decide (a = c ∧ t = "") then "" else String a t
  end.

(** [strings.Trim] with a one-byte cutset. *)
Definition Trim (s : string) (c : ascii) : string := trim_right c (trim_left c s).

(** [decodeAuth] of the Docker CLI. *)
Definition cli_decodeAuth (authStr : string) : outcome (string * string) :=
  match DecodeString authStr with
  | None => Err (New "illegal base64 data")
  | Some decoded =>
      match SplitN2 decoded ":"%char with
      | [user; pass] => Ok (user, Trim pass nul)
      | _ => Err (New "Invalid auth configuration file")
      end
  end.

(** The loop of [LoadFromReader] on one entry. *)
Definition load_entry (addr : string) (ac : AuthConfig) : outcome AuthConfig :=
  let? up := (if bool_decide (ac_Auth ac ≠ "") then cli_decodeAuth (ac_Auth ac)
              else Ok (ac_Username ac, ac_Password ac)) in
  Ok (mkAuthConfig up.1 up.2 "" (ac_Email ac) addr
        (ac_IdentityToken ac) (ac_RegistryToken ac)).

(** The whole loop, over the entries in the order of iteration. *)
Fixpoint load_entries (entries : list (string * AuthConfig)) (m : AuthConfigs)
    : outcome AuthConfigs :=
  match entries with
  | [] => Ok m
  | (addr, ac) :: rest =>
      let? ac' := load_entry addr ac in load_entries rest (<[addr := ac']> m)
  end.

(** [ConfigFile.LoadFromReader] followed by [GetAuthConfigs], on a document
    that sets no field but "auths". *)
Definition LoadFromReader (d : document) : outcome AuthConfigs :=
  match d with
  | NoDocument => Ok ∅
  | Document (JObj fields) =>
      let? m := auths_field ∅ fields in load_entries (map_to_list m) m
  | Document JNull => Ok ∅
  | Document _ => Err (New "json: cannot unmarshal value into Go value of type configfile.ConfigFile")
  | Malformed => Err (New "invalid character in JSON")
  end.

(** [credentials.ExtractAuthConfigs]. *)
Definition ExtractAuthConfigs (input : document) : outcome AuthConfigs :=
  LoadFromReader input.

(** [credentials.ExtractBasicAuthForHost]. *)
Definition ExtractBasicAuthForHost (authConfigs : AuthConfigs) (host : string)
    : outcome (string * string) :=
  match authConfigs !! host with
  | Some ac => Ok (ac_Username ac, ac_Password ac)
  | None =>
      Err (New ("registry " +:+ fmt_q host
                +:+ " is not in list of registries for this auth source ["
                +:+ strings_Join (map_to_list authConfigs).*1 " " +:+ "]"))
  end.

(** ** Bad input is an error, never a panic *)

Lemma string_field_no_panic name cur fields : no_panic (string_field name cur fields).
Proof.
  revert cur. induction fields as [|[k v] fields IH]; intros cur; simpl; [done|].
  destruct (EqualFold k name), v; auto with forge.
Qed.

Lemma unmarshal_auth_no_panic j : no_panic (unmarshal_auth j).
Proof. destruct j; simpl; eauto 12 using string_field_no_panic with forge. Qed.

Lemma auths_field_no_panic cur fields : no_panic (auths_field cur fields).
Proof.
  assert (∀ cur fields, no_panic (unmarshal_auths cur fields)).
  { intros c l. revert c. induction l as [|[h v] l IH]; intros c; simpl;
      eauto using unmarshal_auth_no_panic with forge. }
  revert cur. induction fields as [|[k v] fields IH]; intros cur; simpl; [done|].
  destruct (EqualFold k "auths"), v; auto with forge.
Qed.

Lemma load_entries_no_panic entries m : no_panic (load_entries entries m).
Proof.
  revert m. induction entries as [|[addr ac] l IH]; intros m; simpl; [done|].
  apply no_panic_obind; [|auto]. unfold load_entry. apply no_panic_obind; [|done].
  case_bool_decide; [|done]. unfold cli_decodeAuth. by repeat case_match.
Qed.

Lemma ExtractAuthConfigs_no_panic d : no_panic (ExtractAuthConfigs d).
Proof.
  destruct d as [|[]|]; simpl; auto using auths_field_no_panic, load_entries_no_panic with forge.
Qed.

(** ** The round trip *)

Lemma unmarshal_marshal_auth ac : unmarshal_auth (marshal_auth ac) = Ok ac.
Proof. by destruct ac as [[|] [|] [|] [|] [|] [|] [|]]. Qed.

(** Insertion of entries one by one. *)
Definition insert_all {A} (l : list (string * A)) (m : gmap string A) : gmap string A :=
  foldl (λ m f, <[f.1 := f.2]> m) m l.

Lemma insert_all_union {A} (l : list (string * A)) m :
  NoDup l.*1 → insert_all l m = list_to_map l ∪ m.
Proof.
  revert m. induction l as [|[k x] l IH]; intros m Hnd; csimpl in *.
  - unfold insert_all. simpl. by rewrite (left_id_L ∅ (∪)).
  - apply NoDup_cons in Hnd as [Hk Hnd].
    change (insert_all ((k, x) :: l) m) with (insert_all l (<[k:=x]> m)).
    rewrite IH by done. rewrite <- insert_union_r, insert_union_l; [done|].
    by apply not_elem_of_list_to_map_1.
Qed.

Lemma sorted_fields_perm {A} (m : gmap string A) : sorted_fields m ≡ₚ map_to_list m.
Proof. apply merge_sort_Permutation. Qed.

Lemma sorted_fields_map {A} (m : gmap string A) :
  NoDup (sorted_fields m).*1 ∧ list_to_map (sorted_fields m) = m.
Proof.
  assert (NoDup (sorted_fields m).*1) as Hnd.
  { rewrite sorted_fields_perm. apply NoDup_fst_map_to_list. }
  split; [done|]. rewrite <- (list_to_map_to_list m) at 2.
  apply list_to_map_proper; [done|]. apply sorted_fields_perm.
Qed.

Lemma unmarshal_auths_marshal (l : list (string * AuthConfig)) cur :
  unmarshal_auths cur ((λ f, (f.1, marshal_auth f.2)) <$> l) = Ok (insert_all l cur).
Proof.
  revert cur. induction l as [|[k ac] l IH]; intros cur; [done|].
  rewrite fmap_cons. cbn [unmarshal_auths fst snd].
  rewrite unmarshal_marshal_auth. cbn [obind]. by rewrite IH.
Qed.

Lemma load_entries_total g (l : list (string * AuthConfig)) m :
  (∀ k ac, (k, ac) ∈ l → load_entry k ac = Ok (g k ac)) →
  load_entries l m = Ok (insert_all ((λ f, (f.1, g f.1 f.2)) <$> l) m).
Proof.
  revert m. induction l as [|[k ac] l IH]; intros m Hl; [done|].
  cbn [load_entries]. rewrite Hl by set_solver. cbn [obind].
  rewrite IH by set_solver. done.
Qed.

(** The entry the loader makes of credentials that carry no encoded pair. *)
Definition loaded (addr : string) (ac : AuthConfig) : AuthConfig :=
  mkAuthConfig (ac_Username ac) (ac_Password ac) "" (ac_Email ac) addr
    (ac_IdentityToken ac) (ac_RegistryToken ac).

Lemma load_entries_map_to_list (m : AuthConfigs) :
  map_Forall (λ _ ac, ac_Auth ac = "") m →
  load_entries (map_to_list m) m = Ok (map_imap (λ k ac, Some (loaded k ac)) m).
Proof.
  intros Hm. rewrite (load_entries_total loaded).
  2:{ intros k ac Hk%elem_of_map_to_list. unfold load_entry.
      rewrite (Hm k ac Hk). done. }
  f_equal. rewrite insert_all_union.
  2:{ rewrite <- list_fmap_compose. apply NoDup_fst_map_to_list. }
  apply map_eq. intros k. rewrite map_lookup_imap, lookup_union.
  destruct (m !! k) as [ac|] eqn:E; simpl.
  - rewrite (elem_of_list_to_map_1 _ k (loaded k ac)); [by destruct (m !! k)| |].
    + rewrite <- list_fmap_compose. apply NoDup_fst_map_to_list.
    + apply list_elem_of_fmap. exists (k, ac). by rewrite elem_of_map_to_list.
  - rewrite not_elem_of_list_to_map_1; [done|].
    rewrite <- list_fmap_compose. intros (p & -> & Hp)%list_elem_of_fmap.
    destruct p as [k' ac]. apply elem_of_map_to_list in Hp. by simplify_eq/=.
Qed.

Lemma ExtractAuthConfigs_marshal (auths : AuthConfigs) :
  map_Forall (λ _ ac, ac_Auth ac = "") auths →
  ExtractAuthConfigs (Document (marshal_docker_config auths))
  = Ok (map_imap (λ k ac, Some (loaded k ac)) auths).
Proof.
  intros Ha. unfold ExtractAuthConfigs, LoadFromReader, marshal_docker_config.
  destruct (sorted_fields_map auths) as [Hnd Hmap].
  cbn [auths_field]. change (EqualFold "auths" "auths") with true. cbn iota.
  rewrite unmarshal_auths_marshal. cbn [obind auths_field].
  rewrite insert_all_union, Hmap, (right_id_L ∅ (∪)) by done.
  by apply load_entries_map_to_list.
Qed.

(** Credentials round trip.  Whatever set of registry credentials the
    controller encodes into the dynamic-credentials secret (user and password,
    no pre-encoded pair), the build job that decodes the secret gets back, for
    every host of the set, the same user and password, and an error for every
    other host. *)
Theorem docker_config_roundtrip (auths : AuthConfigs) (host : string) :
  map_Forall (λ _ ac, ac_Auth ac = "") auths →
  ∃ m, ExtractAuthConfigs (Document (marshal_docker_config auths)) = Ok m ∧
       match auths !! host with
       | Some ac => ExtractBasicAuthForHost m host = Ok (ac_Username ac, ac_Password ac)
       | None => ∃ e, ExtractBasicAuthForHost m host = Err e
       end.
Proof.
  intros Ha. eexists. split; [by apply ExtractAuthConfigs_marshal|].
  unfold ExtractBasicAuthForHost. rewrite map_lookup_imap.
  destruct (auths !! host); simpl; eauto.
Qed.

Lemma docker_config_roundtrip_witness :
  let auths := {[ "a.io" := basic_auth "u" "p" ]} : AuthConfigs in
  ∃ m, ExtractAuthConfigs (Document (marshal_docker_config auths)) = Ok m ∧
       ExtractBasicAuthForHost m "a.io" = Ok ("u", "p").
Proof.
  destruct (docker_config_roundtrip {[ "a.io" := basic_auth "u" "p" ]} "a.io")
    as (m & H1 & H2); [apply map_Forall_singleton; reflexivity|].
  rewrite lookup_singleton_eq in H2. exists m. exact (conj H1 H2).
Defined.
