(* ===== verification/Resources.v ===== *)
(** * Resources: the objects the controller creates for a build

    [controllers/containerimagebuild_resources.go]: the service account, role,
    role binding and cloud-credentials secret a build job needs, the job itself
    with the command line it runs, and the rule that an object is created only
    when it is missing and then belongs to the build. *)
From stdpp Require Import gmap strings list.
From Stdlib Require Import ZArith.
From S2P Require Import Prelude Go GoStd Types Config Kube Credentials.

(** ** Controller configuration and state *)

Record BuildJobConfig := mkBuildJobConfig {
  jc_Image : string;
  jc_ImagePullSecret : string;
  jc_CustomCAConfigMap : string;
  jc_PreparerPluginPath : string;
  jc_Labels : gmap string string;
  jc_Annotations : gmap string string;
  jc_NodeSelector : gmap string string;
  jc_TolerationKey : string;
  jc_GrantFullPrivilege : bool;
  jc_EnableLayerCaching : bool;
  jc_PodSecurityPolicy : string;
  jc_SecurityContextConstraints : string;
  jc_BrokerOpts : option Options;
  jc_Volumes : list Volume;
  jc_VolumeMounts : list VolumeMount;
  jc_EnvVar : list EnvVar;
  jc_EnableIstioSupport : bool;
  jc_DynamicVolumes : list Volume;
  jc_DynamicVolumeMounts : list VolumeMount;
}.

Definition set_dynamic (vols : list Volume) (mounts : list VolumeMount)
    (jc : BuildJobConfig) : BuildJobConfig :=
  mkBuildJobConfig (jc_Image jc) (jc_ImagePullSecret jc) (jc_CustomCAConfigMap jc)
    (jc_PreparerPluginPath jc) (jc_Labels jc) (jc_Annotations jc) (jc_NodeSelector jc)
    (jc_TolerationKey jc) (jc_GrantFullPrivilege jc) (jc_EnableLayerCaching jc)
    (jc_PodSecurityPolicy jc) (jc_SecurityContextConstraints jc) (jc_BrokerOpts jc)
    (jc_Volumes jc) (jc_VolumeMounts jc) (jc_EnvVar jc) (jc_EnableIstioSupport jc)
    vols mounts.

(** A warning recorded on an object. *)
Record Event := mkEvent { ev_object : string; ev_reason : string; ev_message : string }.

(** The mutable state of the reconciler: its job configuration, the API server
    behind its client, the recorded events and the metric counters
    [containerImageBuildsCount] and [gcCount] by label. *)
Record Reconciler (W : Type) := mkReconciler {
  r_JobConfig : BuildJobConfig;
  r_world : W;
  r_events : list Event;
  r_buildsCount : gmap string nat;
  r_gcCount : gmap string nat;
}.
Arguments mkReconciler {W}.
Arguments r_JobConfig {W}.
Arguments r_world {W}.
Arguments r_events {W}.
Arguments r_buildsCount {W}.
Arguments r_gcCount {W}.

Section state.
Context {W : Type}.

Definition set_world (w : W) (r : Reconciler W) : Reconciler W :=
  mkReconciler (r_JobConfig r) w (r_events r) (r_buildsCount r) (r_gcCount r).

Definition set_JobConfig (jc : BuildJobConfig) (r : Reconciler W) : Reconciler W :=
  mkReconciler jc (r_world r) (r_events r) (r_buildsCount r) (r_gcCount r).

(** A call of the embedded client. *)
Definition kube {A} (c : M W A) : M (Reconciler W) A := zoom r_world set_world c.
End state.

(** ** Constants *)

Definition rootlesskitCommand : string := "rootlesskit".
Definition forgeCommand : string := "/usr/bin/forge".
Definition cloudCredentialsID : string := "dynamic-cloud-credentials".
Definition istioCmdArg : string :=
  newline +:+ "EXIT_CODE=$?; wget -qO- --post-data " +:+ dquote +:+ dquote
  +:+ " http://localhost:15020/quitquitquit; exit $EXIT_CODE".
Definition buildContextDirVolumeName : string := "build-context-dir".
Definition stateDirVolumeName : string := "state-dir".
Definition SchemeGroup : string := "forge.dominodatalab.com".
Definition DockerConfigJsonKey : string := ".dockerconfigjson".
Definition SecretTypeDockerConfigJson : string := "kubernetes.io/dockerconfigjson".

(** ** The command line of the job *)

Definition prepareJobArgs (jc : BuildJobConfig) (cib : ContainerImageBuild)
    : list string :=
  let args := [forgeCommand; "build";
               "--resource=" +:+ cib_Name cib;
               "--enable-layer-caching=" +:+ fmt_bool (jc_EnableLayerCaching jc)] in
  let args :=
    if bool_decide (jc_PreparerPluginPath jc ≠ "")
    then args ++ ["--preparer-plugins-path=" +:+ jc_PreparerPluginPath jc]
    else args in
  let args :=
    match jc_BrokerOpts jc with
    | Some opts =>
        let queueName :=
          if bool_decide (spec_MessageQueueName (cib_Spec cib) ≠ "")
          then spec_MessageQueueName (cib_Spec cib) else opt_AmqpQueue opts in
        args ++ ["--message-broker=" +:+ opt_Broker opts;
                 "--amqp-uri=" +:+ opt_AmqpURI opts;
                 "--amqp-queue=" +:+ queueName]
    | None => args
    end in
  let args := if negb (jc_GrantFullPrivilege jc)
              then rootlesskitCommand :: args else args in
  let args := if jc_EnableIstioSupport jc then args ++ [istioCmdArg] else args in
  ["-c"; strings_Join args " "].

(** ** The pod of the job *)

(** Labels of the pod and of the job.  [podMeta.Labels] is the map of the build
    when the build has one, so that the labels of the configuration are written
    into the map the job object shares; a build without labels gets a fresh map
    that only the pod sees. *)
Definition pod_labels (jc : BuildJobConfig) (cib : ContainerImageBuild)
    : gmap string string :=
  match cib_Labels cib with
  | Some m => jc_Labels jc ∪ m
  | None => jc_Labels jc
  end.

Definition job_labels (jc : BuildJobConfig) (cib : ContainerImageBuild)
    : option (gmap string string) :=
  match cib_Labels cib with
  | Some m => Some (jc_Labels jc ∪ m)
  | None => None
  end.

Definition unconfined_annotations : gmap string string :=
  {[ "container.apparmor.security.beta.kubernetes.io/forge-build" := "unconfined";
     "container.seccomp.security.alpha.kubernetes.io/forge-build" := "unconfined" ]}.

Definition pod_meta (jc : BuildJobConfig) (cib : ContainerImageBuild) : ObjectMeta :=
  mkObjectMeta (cib_Name cib) (cib_Namespace cib) "" "" "" (Some (pod_labels jc cib))
    (jc_Annotations jc ∪ (cib_Annotations cib ∪ unconfined_annotations)) [] 0 None.

Definition pod_security (jc : BuildJobConfig) : PodSecurityContext :=
  mkPodSecurityContext (if jc_GrantFullPrivilege jc then None else Some 1000%Z).

Definition container_security (jc : BuildJobConfig) : SecurityContext :=
  if jc_GrantFullPrivilege jc
  then mkSecurityContext (Some 0%Z) (Some true) (Some "spc_t")
  else mkSecurityContext (Some 1000%Z) None (Some "spc_t").

Definition job_volumes (jc : BuildJobConfig) : list Volume :=
  [mkVolume buildContextDirVolumeName EmptyDirVolumeSource;
   mkVolume stateDirVolumeName EmptyDirVolumeSource]
  ++ jc_Volumes jc ++ jc_DynamicVolumes jc
  ++ (if bool_decide (jc_CustomCAConfigMap jc ≠ "")
      then [mkVolume "ca-bundle" (ConfigMapVolumeSource (jc_CustomCAConfigMap jc))]
      else []).

Definition buildContextDirVolumeMount : VolumeMount :=
  mkVolumeMount buildContextDirVolumeName BuildContextPath false.

Definition job_mounts (stateDir : string) (jc : BuildJobConfig) : list VolumeMount :=
  [buildContextDirVolumeMount; mkVolumeMount stateDirVolumeName stateDir false]
  ++ jc_VolumeMounts jc ++ jc_DynamicVolumeMounts jc
  ++ (if bool_decide (jc_CustomCAConfigMap jc ≠ "")
      then [mkVolumeMount "ca-bundle" "/etc/ssl/certs" true] else []).

Definition no_resources : ResourceRequirements := mkResources None None.

Definition init_container (jc : BuildJobConfig) (ic : InitContainer) : Container :=
  mkContainer (ic_Name ic) (ic_Image ic) "" (ic_Command ic) (ic_Args ic) (ic_Env ic)
    (Some (mkSecurityContext (sc_RunAsUser (container_security jc)) None None))
    BuildContextPath [buildContextDirVolumeMount] no_resources.

(** ** The operations *)

Section resources.
Context {W : Type} {KC : KubeClient W}.
(** The cloud registries the process registered at start-up, the parser of
    [resource.Quantity] and the environment of the process. *)
Context (RetrieveAuthorization : string → M W (option AuthConfig)).
Context (ParseQuantity : string → outcome Quantity).
Context (getenv : string → string).

(** Writes one quantity into the limits and the requests. *)
Definition set_resource (k : string) (q : Quantity) (rr : ResourceRequirements)
    : ResourceRequirements :=
  mkResources (Some (<[k := q]> (default ∅ (rr_Limits rr))))
              (Some (<[k := q]> (default ∅ (rr_Requests rr)))).

Definition parse_resource (k field : string) (rr : ResourceRequirements)
    : outcome ResourceRequirements :=
  if bool_decide (field ≠ "") then
    let? q := wrap_err ("could not parse `" +:+ k +:+ "` field: " +:+ field)
                       (ParseQuantity field) in
    Ok (set_resource k q rr)
  else Ok rr.

Definition job_resources (spec : ContainerImageBuildSpec)
    : outcome ResourceRequirements :=
  let rr := spec_Resources spec in
  let rr := mkResources (Some (default ∅ (rr_Limits rr)))
                        (Some (default ∅ (rr_Requests rr))) in
  let? rr := parse_resource "cpu" (spec_CPU spec) rr in
  parse_resource "memory" (spec_Memory spec) rr.

(** The job object of a build. *)
Definition job_object (jc : BuildJobConfig) (cib : ContainerImageBuild)
    : outcome object :=
  let? resources := job_resources (cib_Spec cib) in
  Ok (mkObject
    (new_meta (cib_Name cib) (cib_Namespace cib) (job_labels jc cib))
    (Job 0 (pod_meta jc cib)
      (mkPodSpec (cib_Name cib) (jc_NodeSelector jc) "Never"
        (init_container jc <$> spec_InitContainers (cib_Spec cib))
        (pod_security jc)
        (if bool_decide (jc_ImagePullSecret jc ≠ "")
         then [jc_ImagePullSecret jc] else [])
        (if bool_decide (jc_TolerationKey jc ≠ "")
         then [mkToleration (jc_TolerationKey jc) "Exists"] else [])
        [mkContainer "forge-build" (jc_Image jc) "IfNotPresent" ["/bin/sh"]
           (prepareJobArgs jc cib) (jc_EnvVar jc) (Some (container_security jc)) ""
           (job_mounts (GetStateDir getenv) jc) resources]
        (job_volumes jc)))).

(** [withOwnedResource]. *)
Definition withOwnedResource (cib : ContainerImageBuild) (obj : object)
    : M (Reconciler W) unit :=
  let! got := try (kube (kc_Get (obj_key obj))) in
  match got with
  | inr _ => ret tt
  | inl err =>
      if negb (IsNotFound err) then throw err
      else
        let! owned := lift_outcome (SetControllerReference (cib_ObjectMeta cib) obj) in
        kube (kc_Create owned)
  end.

Definition service_account (cib : ContainerImageBuild) : object :=
  mkObject (new_meta (cib_Name cib) (cib_Namespace cib) (cib_Labels cib))
    ServiceAccount.

Definition checkServiceAccount (cib : ContainerImageBuild) : M (Reconciler W) unit :=
  withOwnedResource cib (service_account cib).

Definition role_rules (jc : BuildJobConfig) : list PolicyRule :=
  [mkPolicyRule [SchemeGroup] ["containerimagebuilds"] ["get"] [];
   mkPolicyRule [SchemeGroup] ["containerimagebuilds/status"] ["update"] [];
   mkPolicyRule [""] ["secrets"] ["get"] []]
  ++ (if bool_decide (jc_PodSecurityPolicy jc ≠ "")
      then [mkPolicyRule ["policy"] ["podsecuritypolicies"] ["use"]
              [jc_PodSecurityPolicy jc]] else [])
  ++ (if bool_decide (jc_SecurityContextConstraints jc ≠ "")
      then [mkPolicyRule ["security.openshift.io"] ["securitycontextconstraints"]
              ["use"] [jc_SecurityContextConstraints jc]] else []).

Definition role (jc : BuildJobConfig) (cib : ContainerImageBuild) : object :=
  mkObject (new_meta (cib_Name cib) (cib_Namespace cib) (cib_Labels cib))
    (Role (role_rules jc)).

Definition checkRole (cib : ContainerImageBuild) : M (Reconciler W) unit :=
  let! r := get in withOwnedResource cib (role (r_JobConfig r) cib).

Definition role_binding (cib : ContainerImageBuild) : object :=
  mkObject (new_meta (cib_Name cib) (cib_Namespace cib) (cib_Labels cib))
    (RoleBinding (mkRoleRef "rbac.authorization.k8s.io" "Role" (cib_Name cib))
      [mkSubject "ServiceAccount" (cib_Name cib) (cib_Namespace cib)]).

Definition checkRoleBinding (cib : ContainerImageBuild) : M (Reconciler W) unit :=
  withOwnedResource cib (role_binding cib).

(** The loop over the registries marked for dynamic credentials.  The
    pointer the cloud registry returns is dereferenced. *)
Fixpoint dynamic_auths (regs : list Registry) (auths : AuthConfigs)
    : M (Reconciler W) AuthConfigs :=
  match regs with
  | [] => ret auths
  | reg :: rest =>
      if negb (reg_DynamicCloudCredentials reg) then dynamic_auths rest auths
      else
        let! ac := kube (RetrieveAuthorization (reg_Server reg)) in
        match ac with
        | None => panic "invalid memory address or nil pointer dereference"
        | Some ac => dynamic_auths rest (<[reg_Server reg := ac]> auths)
        end
  end.

Definition cloud_secret_name (cib : ContainerImageBuild) : string :=
  cib_Name cib +:+ "-" +:+ cloudCredentialsID.

Definition cloud_secret (cib : ContainerImageBuild) (auths : AuthConfigs) : object :=
  mkObject (new_meta (cloud_secret_name cib) (cib_Namespace cib) (cib_Labels cib))
    (Secret {[ DockerConfigJsonKey := Document (marshal_docker_config auths) ]}
       SecretTypeDockerConfigJson).

Definition cloud_volume (cib : ContainerImageBuild) : Volume :=
  mkVolume cloudCredentialsID
    (SecretVolumeSource (cloud_secret_name cib)
       [(DockerConfigJsonKey, DynamicCredentialsFilename)]).

Definition cloud_mount : VolumeMount :=
  mkVolumeMount cloudCredentialsID DynamicCredentialsPath true.

(** Appends the credentials volume and its mount to the job configuration. *)
Definition add_dynamic (cib : ContainerImageBuild) (r : Reconciler W) : Reconciler W :=
  let jc := r_JobConfig r in
  set_JobConfig (set_dynamic (jc_DynamicVolumes jc ++ [cloud_volume cib])
                             (jc_DynamicVolumeMounts jc ++ [cloud_mount]) jc) r.

Definition checkCloudRegistrySecrets (cib : ContainerImageBuild)
    : M (Reconciler W) unit :=
  let! auths := dynamic_auths (spec_Registries (cib_Spec cib)) ∅ in
  if bool_decide (auths = ∅) then ret tt
  else
    do! withOwnedResource cib (cloud_secret cib auths) in
    modify (add_dynamic cib).

Definition checkPrerequisites (cib : ContainerImageBuild) : M (Reconciler W) unit :=
  do! checkServiceAccount cib in
  do! checkRole cib in
  do! checkRoleBinding cib in
  checkCloudRegistrySecrets cib.

(** The deferred reset of the dynamic volumes. *)
Definition reset_dynamic (r : Reconciler W) : Reconciler W :=
  set_JobConfig (set_dynamic [] [] (r_JobConfig r)) r.

Definition createJobForBuild (cib : ContainerImageBuild) : M (Reconciler W) unit :=
  deferred reset_dynamic
    (let! r := get in
     let! job := lift_outcome (job_object (r_JobConfig r) cib) in
     withOwnedResource cib job).
End resources.

(** ** What the operations do to the cluster *)

(** The object as it is submitted: with the build as its controlling owner. *)
Definition owned (cib : ContainerImageBuild) (obj : object) : object :=
  mkObject (set_owners [controller_ref (cib_ObjectMeta cib)] (obj_meta obj)) (obj_body obj).

(** Specification of [withOwnedResource]: a missing object is added, a present
    one is left as it is. *)
Definition ensure (cib : ContainerImageBuild) (objs : gmap objkey object) (obj : object)
    : gmap objkey object :=
  match objs !! obj_key obj with
  | Some _ => objs
  | None => <[obj_key obj := owned cib obj]> objs
  end.

(** The objects the controller builds: in the namespace of the build, and
    without owners of their own. *)
Definition fresh_for (cib : ContainerImageBuild) (obj : object) : Prop :=
  om_Namespace (obj_meta obj) = cib_Namespace cib ∧ om_OwnerReferences (obj_meta obj) = [].

Lemma obj_key_owned cib obj : obj_key (owned cib obj) = obj_key obj.
Proof. done. Qed.

Section ensure.
Context (cib : ContainerImageBuild).
Implicit Types (objs : gmap objkey object) (l : list object).

Lemma ensure_grows objs obj : objs ⊆ ensure cib objs obj.
Proof. unfold ensure. case_match; [done|]. by apply insert_subseteq. Qed.

Lemma ensure_has objs obj : is_Some (ensure cib objs obj !! obj_key obj).
Proof.
  unfold ensure. case_match eqn:E; [by rewrite E|]. rewrite lookup_insert_eq. eauto.
Qed.

Lemma ensure_present objs obj : is_Some (objs !! obj_key obj) → ensure cib objs obj = objs.
Proof. intros [o Ho]. unfold ensure. by rewrite Ho. Qed.

(** All the objects of a list, in order. *)
Definition ensure_all objs l : gmap objkey object := foldl (ensure cib) objs l.

Lemma ensure_all_app objs l k :
  ensure_all objs (l ++ k) = ensure_all (ensure_all objs l) k.
Proof. apply foldl_app. Qed.

Lemma ensure_all_grows objs l : objs ⊆ ensure_all objs l.
Proof.
  revert objs. induction l as [|o l IH]; intros objs; [done|].
  etrans; [apply (ensure_grows _ o)|apply IH].
Qed.

Lemma ensure_all_has objs l obj :
  obj ∈ l → is_Some (ensure_all objs l !! obj_key obj).
Proof.
  revert objs. induction l as [|o l IH]; intros objs; [by intros ?%not_elem_of_nil|].
  intros [->|Hin]%elem_of_cons; [|by apply IH].
  destruct (ensure_has objs o) as [x Hx]. exists x. simpl.
  eapply lookup_weaken; [exact Hx|apply ensure_all_grows].
Qed.

Lemma ensure_all_present objs l :
  Forall (λ o, is_Some (objs !! obj_key o)) l → ensure_all objs l = objs.
Proof.
  induction 1 as [|o l Ho Hl IH]; [done|]. simpl. by rewrite ensure_present.
Qed.

Lemma ensure_all_other objs l k :
  Forall (λ o, obj_key o ≠ k) l → ensure_all objs l !! k = objs !! k.
Proof.
  intros Hl. revert objs. induction Hl as [|o l Ho Hl IH]; intros objs; [done|].
  simpl. rewrite IH. unfold ensure. case_match; [done|]. by rewrite lookup_insert_ne.
Qed.

Lemma dom_ensure_all objs l :
  dom (ensure_all objs l) = dom objs ∪ list_to_set (obj_key <$> l).
Proof.
  revert objs. induction l as [|o l IH]; intros objs; csimpl; [set_solver|].
  rewrite IH. unfold ensure. case_match eqn:E; [|rewrite dom_insert_L; set_solver].
  assert (obj_key o ∈ dom objs) by (apply elem_of_dom; eauto). set_solver.
Qed.

(** An object that was not there before is one of the list, owned by the
    build. *)
Lemma ensure_all_new objs l k x :
  ensure_all objs l !! k = Some x → objs !! k = None →
  ∃ obj, obj ∈ l ∧ obj_key obj = k ∧ x = owned cib obj.
Proof.
  revert objs. induction l as [|o l IH]; intros objs Hx Hk; simpl in *; [congruence|].
  destruct (ensure cib objs o !! k) as [y|] eqn:E.
  - assert (y = x) as ->.
    { pose proof (lookup_weaken _ _ _ _ E (ensure_all_grows (ensure cib objs o) l)).
      congruence. }
    unfold ensure in E. case_match; [congruence|].
    apply lookup_insert_Some in E as [[<- <-]|[_ ?]]; [|congruence].
    exists o. split; [by left|done].
  - destruct (IH _ Hx E) as (obj & ? & ? & ?). exists obj. split; [by right|done].
Qed.
End ensure.

Section operations.
Context {W : Type} {KC : KubeClient W} {KS : KubeServer W} {FR : FreshReads W}.
Implicit Types (r : Reconciler W) (cib : ContainerImageBuild).

Definition objs_of r : gmap objkey object := objects_of (r_world r).

(** Events, metrics and builds are unchanged. *)
Definition api_frame r r' : Prop :=
  r_events r' = r_events r ∧ r_buildsCount r' = r_buildsCount r ∧
  r_gcCount r' = r_gcCount r ∧ builds_of (r_world r') = builds_of (r_world r).

(** Only the server side of the reconciler changed, and no build did. *)
Definition api_only r r' : Prop :=
  r_JobConfig r' = r_JobConfig r ∧ api_frame r r'.

#[export] Instance api_frame_preorder : PreOrder api_frame.
Proof. split; [done|]. unfold api_frame. intros ???; naive_solver congruence. Qed.

#[export] Instance api_only_preorder : PreOrder api_only.
Proof.
  split; [done|]. intros r1 r2 r3 [H1 F1] [H2 F2].
  split; [congruence|by etrans].
Qed.

Lemma kube_inv {A} (c : M W A) r o r' :
  kube c r = (o, r') →
  ∃ w', c (r_world r) = (o, w') ∧ r' = set_world w' r.
Proof. unfold kube, zoom. destruct (c (r_world r)) as [o1 w1]. intros [= <- <-]. eauto. Qed.

(** The two calls of [withOwnedResource] on an object the controller made. *)
Lemma withOwnedResource_run cib obj r :
  fresh_for cib obj →
  withOwnedResource cib obj r =
  match kc_Get (obj_key obj) (r_world r) with
  | (Ok _, w) => (Ok tt, set_world w r)
  | (Err e, w) =>
      if IsNotFound e then
        let '(o, w') := kc_Create (owned cib obj) w in (o, set_world w' r)
      else (Err e, set_world w r)
  | (Panic m, w) => (Panic m, set_world w r)
  end.
Proof.
  intros [Hns Hown]. unfold withOwnedResource, bind, try, kube, zoom.
  destruct (kc_Get _ _) as [[x|e|m] w]; [done| |done].
  destruct (IsNotFound e); [|done]. simpl. unfold lift_outcome.
  rewrite SetControllerReference_new by done. done.
Qed.

Lemma withOwnedResource_spec cib obj r o r' :
  fresh_for cib obj →
  withOwnedResource cib obj r = (o, r') →
  api_only r r' ∧
  objs_of r' = match o with
               | Ok _ => ensure cib (objs_of r) obj
               | _ => objs_of r
               end.
Proof.
  intros Hobj. rewrite withOwnedResource_run by done. unfold objs_of, api_only, api_frame.
  destruct (kc_Get _ _) as [[x|e|m] w] eqn:Hget;
    pose proof (Get_reads _ _ _ _ Hget) as [Hw Hb].
  - intros [= <- <-]. simpl. rewrite ensure_present; [done|].
    apply Get_fresh in Hget. eauto.
  - destruct (IsNotFound e) eqn:He; [|by intros [= <- <-]].
    destruct (kc_Create _ w) as [o2 w2] eqn:Hcr. intros [= <- <-]. simpl.
    apply Create_writes in Hcr as [Hb2 Hcr]. rewrite obj_key_owned in Hcr.
    split; [naive_solver congruence|].
    destruct o2; [|congruence..]. destruct Hcr as [Habs ->].
    unfold ensure. rewrite Hw in Habs. by rewrite Habs, Hw.
  - by intros [= <- <-].
Qed.

(** *** Installing a list of objects in order *)

(** A prefix of [l] has been installed, all of it when the run succeeded. *)
Definition installed cib (l : list object) (before after : gmap objkey object)
    (ok : bool) : Prop :=
  ∃ p, p `prefix_of` l ∧ after = ensure_all cib before p ∧ (ok = true → p = l).

Lemma installed_nil cib m b : installed cib [] m m b.
Proof. exists []. done. Qed.

Lemma installed_none cib l m : installed cib l m m false.
Proof. exists []. split; [apply prefix_nil|done]. Qed.

Lemma installed_one cib obj r (o : outcome unit) r' :
  objs_of r' = match o with Ok _ => ensure cib (objs_of r) obj | _ => objs_of r end →
  installed cib [obj] (objs_of r) (objs_of r') (is_Ok o).
Proof. intros ->. destruct o; [by exists [obj]|apply installed_none..]. Qed.

Lemma installed_seq cib l1 l2 m1 m2 m3 b :
  installed cib l1 m1 m2 true → installed cib l2 m2 m3 b → installed cib (l1 ++ l2) m1 m3 b.
Proof.
  intros (p1 & _ & -> & H1) (p2 & Hp2 & -> & H2). rewrite H1 by done.
  exists (l1 ++ p2). rewrite ensure_all_app. split; [by apply prefix_app|].
  split; [done|]. intros Hb. by rewrite (H2 Hb).
Qed.

Lemma installed_stop cib l1 l2 m1 m2 :
  installed cib l1 m1 m2 false → installed cib (l1 ++ l2) m1 m2 false.
Proof. intros (p & Hp & -> & _). exists p. split; [by apply prefix_app_r|done]. Qed.

(** A call that installs [l] when started in [r], and changes nothing else. *)
Definition installs cib (l : list object) (c : M (Reconciler W) unit) r : Prop :=
  ∀ o r', c r = (o, r') →
  api_only r r' ∧ installed cib l (objs_of r) (objs_of r') (is_Ok o).

Lemma installs_withOwnedResource cib obj r :
  fresh_for cib obj → installs cib [obj] (withOwnedResource cib obj) r.
Proof.
  intros Hobj o r' H. apply withOwnedResource_spec in H as [H1 H2]; [|done].
  split; [done|]. by apply installed_one.
Qed.

(** The call either stops at the first part or goes on after it. *)
Lemma installs_then cib l c1 (c2 : M (Reconciler W) unit) r o r' :
  installs cib l c1 r → bind c1 (λ _, c2) r = (o, r') →
  (∃ r1, api_only r r1 ∧ installed cib l (objs_of r) (objs_of r1) true ∧
         c2 r1 = (o, r')) ∨
  (is_Ok o = false ∧ api_only r r' ∧ installed cib l (objs_of r) (objs_of r') false).
Proof.
  intros H1 [(a & r1 & E1 & E2)|[(e & E1 & ->)|(m & E1 & ->)]]%bind_inv;
    apply H1 in E1 as [F1 I1]; eauto.
Qed.

Lemma installs_bind cib l1 l2 c1 c2 r :
  installs cib l1 c1 r → (∀ r1, api_only r r1 → installs cib l2 c2 r1) →
  installs cib (l1 ++ l2) (bind c1 (λ _, c2)) r.
Proof.
  intros H1 H2 o r' E. destruct (installs_then _ _ _ _ _ _ _ H1 E)
    as [(r1 & F1 & I1 & E2)|(Ho & F1 & I1)].
  - destruct (H2 r1 F1 o r' E2) as [F2 I2].
    split; [by etrans|]. by eapply installed_seq.
  - split; [done|]. rewrite Ho. by apply installed_stop.
Qed.

Lemma fresh_sa cib : fresh_for cib (service_account cib).
Proof. done. Qed.
Lemma fresh_role jc cib : fresh_for cib (role jc cib).
Proof. done. Qed.
Lemma fresh_binding cib : fresh_for cib (role_binding cib).
Proof. done. Qed.
Lemma fresh_secret cib auths : fresh_for cib (cloud_secret cib auths).
Proof. done. Qed.
End operations.

#[export] Hint Resolve fresh_sa fresh_role fresh_binding fresh_secret : forge.

(** ** The prerequisites of a job and the job *)

(** The hosts whose credentials the build asks the controller to fetch. *)
Definition dynamic_servers (regs : list Registry) : gset string :=
  list_to_set (reg_Server <$> List.filter reg_DynamicCloudCredentials regs).

(** The job configuration a job is built from once credentials are fetched. *)
Definition with_credentials (cib : ContainerImageBuild) (auths : AuthConfigs)
    (jc : BuildJobConfig) : BuildJobConfig :=
  if bool_decide (auths = ∅) then jc
  else set_dynamic (jc_DynamicVolumes jc ++ [cloud_volume cib])
         (jc_DynamicVolumeMounts jc ++ [cloud_mount]) jc.

Definition prerequisites (jc : BuildJobConfig) (cib : ContainerImageBuild)
    (auths : AuthConfigs) : list object :=
  [service_account cib; role jc cib; role_binding cib]
  ++ (if bool_decide (auths = ∅) then [] else [cloud_secret cib auths]).

Section prerequisites.
Context {W : Type} {KC : KubeClient W} {KS : KubeServer W} {FR : FreshReads W}.
Context (RetrieveAuthorization : string → M W (option AuthConfig)).
(** Asking a cloud provider for a token does not write to the cluster. *)
Hypothesis RetrieveAuthorization_reads : ∀ s,
  always (λ w w', objects_of w' = objects_of w ∧ builds_of w' = builds_of w)
         (RetrieveAuthorization s).
Implicit Types (r : Reconciler W) (cib : ContainerImageBuild).

(** Credentials the cloud registries returned for their server. *)
Definition retrieved (auths : AuthConfigs) : Prop :=
  map_Forall (λ server ac, ∃ w w', RetrieveAuthorization server w = (Ok (Some ac), w')) auths.

(** Credentials for exactly the dynamic servers of the build. *)
Definition answered (regs : list Registry) (auths : AuthConfigs) : Prop :=
  dom auths = dynamic_servers regs ∧ retrieved auths.

Lemma dynamic_auths_spec regs auths r o r' :
  dynamic_auths RetrieveAuthorization regs auths r = (o, r') →
  api_only r r' ∧ objs_of r' = objs_of r ∧
  ∀ m, o = Ok m → dom m = dom auths ∪ dynamic_servers regs ∧ (retrieved auths → retrieved m).
Proof.
  revert auths r. induction regs as [|reg regs IH]; intros auths r; simpl.
  { intros [= <- <-]. split; [done|]. split; [done|]. intros m [= <-].
    split; [unfold dynamic_servers; set_solver|done]. }
  unfold dynamic_servers; simpl. fold (dynamic_servers regs).
  destruct (reg_DynamicCloudCredentials reg); simpl; [|apply IH].
  intros [(ac & r1 & H1 & H2)|[(e & H1 & ->)|(m & H1 & ->)]]%bind_inv;
    apply kube_inv in H1 as (w' & H1 & ->);
    pose proof (RetrieveAuthorization_reads _ _ _ _ H1) as [Ho Hb].
  - assert (api_only r (set_world w' r)) as HF by done.
    destruct ac as [ac|]; [|by injection H2 as <- <-].
    apply IH in H2 as (H2 & H3 & H4). split; [by etrans|].
    split; [by rewrite H3|]. intros m Hm. destruct (H4 m Hm) as [Hd Hr]. split.
    + rewrite Hd, dom_insert_L. unfold dynamic_servers. set_solver.
    + intros Ha. apply Hr. apply map_Forall_insert_2; [|done]. by eexists _, _.
  - done.
  - done.
Qed.

Lemma checkCloudRegistrySecrets_spec cib r o r' :
  checkCloudRegistrySecrets RetrieveAuthorization cib r = (o, r') →
  ∃ auths,
    api_frame r r' ∧
    installed cib (if bool_decide (auths = ∅) then [] else [cloud_secret cib auths])
      (objs_of r) (objs_of r') (is_Ok o) ∧
    r_JobConfig r' =
      (if is_Ok o then with_credentials cib auths (r_JobConfig r) else r_JobConfig r) ∧
    (is_Ok o = true ∨ auths ≠ ∅ →
     answered (spec_Registries (cib_Spec cib)) auths).
Proof.
  unfold checkCloudRegistrySecrets, with_credentials.
  intros [(auths & r1 & H1 & H2)|[(e & H1 & ->)|(m & H1 & ->)]]%bind_inv;
    apply dynamic_auths_spec in H1 as ([Hj Hf] & Ho & Hd).
  - exists auths. destruct (Hd _ eq_refl) as [Hdom Hret]. rewrite dom_empty_L in Hdom.
    assert (answered (spec_Registries (cib_Spec cib)) auths) as Hans.
    { split; [set_solver|]. apply Hret, map_Forall_empty. }
    case_bool_decide as He.
    + injection H2 as <- <-. simpl. rewrite Ho. split; [done|].
      split; [apply installed_nil|]. done.
    + apply bind_inv in H2 as [(a & r2 & H2 & H3)|[(e & H2 & ->)|(m & H2 & ->)]];
        apply installs_withOwnedResource in H2 as [[Hj2 Hf2] Hi]; try done;
        rewrite Ho in Hi.
      * injection H3 as <- <-. split; [by etrans|]. split; [done|].
        split; [by rewrite <- Hj, <- Hj2|]. done.
      * split; [by etrans|]. split; [done|]. split; [by rewrite <- Hj, <- Hj2|done].
      * split; [by etrans|]. split; [done|]. split; [by rewrite <- Hj, <- Hj2|done].
  - exists ∅. rewrite bool_decide_eq_true_2, Ho by done.
    split; [done|]. split; [apply installed_nil|]. split; [done|]. naive_solver.
  - exists ∅. rewrite bool_decide_eq_true_2, Ho by done.
    split; [done|]. split; [apply installed_nil|]. split; [done|]. naive_solver.
Qed.

Lemma checkPrerequisites_spec cib r o r' :
  checkPrerequisites RetrieveAuthorization cib r = (o, r') →
  ∃ auths,
    api_frame r r' ∧
    installed cib (prerequisites (r_JobConfig r) cib auths)
      (objs_of r) (objs_of r') (is_Ok o) ∧
    r_JobConfig r' =
      (if is_Ok o then with_credentials cib auths (r_JobConfig r) else r_JobConfig r) ∧
    (is_Ok o = true ∨ auths ≠ ∅ →
     answered (spec_Registries (cib_Spec cib)) auths).
Proof.
  unfold checkPrerequisites. intros H. do 2 rewrite <- bind_assoc in H.
  apply (installs_then cib
    ([service_account cib; role (r_JobConfig r) cib] ++ [role_binding cib])) in H
    as [(r1 & [Hj F1] & I1 & H)|(Ho & [Hj F1] & I1)].
  - apply checkCloudRegistrySecrets_spec in H as (auths & F2 & I2 & J2 & D2).
    exists auths. rewrite Hj in J2. split_and!; [by etrans| |done|done].
    apply (installed_seq _ _ _ _ _ _ _ I1 I2).
  - exists ∅. rewrite Ho. split_and!; [done| |done|naive_solver]. exact I1.
  - apply installs_bind; [apply (installs_bind _ [_] [_])|].
    + by apply installs_withOwnedResource.
    + intros r1 [<- _]. by apply installs_withOwnedResource.
    + intros r1 _. by apply installs_withOwnedResource.
Qed.
End prerequisites.
