(* ===== verification/Controller.v ===== *)
(** * Controller: reconciliation of builds

    [controllers/containerimagebuild_controller.go], [Reconcile]: a new build is
    turned into a job with its prerequisites. *)
From stdpp Require Import gmap strings list sorting.
From Stdlib Require Import ZArith.
From S2P Require Import Prelude Go GoStd Types Config Kube Credentials Resources.

(** ** Metrics *)

Definition inc (label : string) (m : gmap string nat) : gmap string nat :=
  <[label := S (default 0 (m !! label))]> m.

Lemma inc_eq label m : default 0 (inc label m !! label) = S (default 0 (m !! label)).
Proof. unfold inc. by rewrite lookup_insert_eq. Qed.

Lemma inc_ne label label' m :
  label ≠ label' → default 0 (inc label m !! label') = default 0 (m !! label').
Proof. intros H. unfold inc. by rewrite lookup_insert_ne. Qed.

Section controller.
Context {W : Type} {KC : KubeClient W}.
Context (RetrieveAuthorization : string → M W (option AuthConfig)).
Context (ParseQuantity : string → outcome Quantity).
Context (getenv : string → string).

(** [containerImageBuildsCount.WithLabelValues(label).Inc()]. *)
Definition count_build (label : string) : M (Reconciler W) unit :=
  modify (λ r, mkReconciler (r_JobConfig r) (r_world r) (r_events r)
                 (inc label (r_buildsCount r)) (r_gcCount r)).

(** ** Reconcile *)

Definition Reconcile (req : NamespacedName) : M (Reconciler W) unit :=
  let! got := try (kube (kc_GetBuild req)) in
  match got with
  | inl err => if IsNotFound err then ret tt else throw err
  | inr build =>
      do! (match om_DeletionTimestamp (cib_ObjectMeta build) with
           | Some _ => count_build "deleted"
           | None => ret tt
           end) in
      if bool_decide (st_State (cib_Status build) ≠ "") then
        count_build (ToLower (st_State (cib_Status build)))
      else
        do! count_build "initializing" in
        do! checkPrerequisites RetrieveAuthorization build in
        createJobForBuild ParseQuantity getenv build
  end.
End controller.

(** ** What a reconciliation does to the cluster *)

Section reconcile.
Context {W : Type} {KC : KubeClient W} {KS : KubeServer W} {FR : FreshReads W}.
Context (RetrieveAuthorization : string → M W (option AuthConfig)).
Context (ParseQuantity : string → outcome Quantity).
Context (getenv : string → string).
Hypothesis RetrieveAuthorization_reads : ∀ s,
  always (λ w w', objects_of w' = objects_of w ∧ builds_of w' = builds_of w)
         (RetrieveAuthorization s).
Implicit Types (r : Reconciler W) (cib : ContainerImageBuild).

#[local] Notation reconcile := (Reconcile RetrieveAuthorization ParseQuantity getenv).

(** The job of a build whose dynamic credentials are [auths]. *)
Definition job_for (jc : BuildJobConfig) cib (auths : AuthConfigs) : outcome object :=
  job_object ParseQuantity getenv (with_credentials cib auths jc) cib.

(** Every object a build needs, in the order the controller installs them. *)
Definition desired (jc : BuildJobConfig) cib (auths : AuthConfigs) : list object :=
  prerequisites jc cib auths ++
  match job_for jc cib auths with Ok j => [j] | _ => [] end.

Lemma job_object_fresh jc cib job :
  job_object ParseQuantity getenv jc cib = Ok job → fresh_for cib job ∧ obj_kind job = KJob.
Proof.
  unfold job_object. destruct (job_resources _ _); simpl; [|done..].
  by intros [= <-].
Qed.

Lemma createJobForBuild_spec cib r o r' :
  createJobForBuild ParseQuantity getenv cib r = (o, r') →
  api_frame r r' ∧
  r_JobConfig r' = set_dynamic [] [] (r_JobConfig r) ∧
  match job_object ParseQuantity getenv (r_JobConfig r) cib with
  | Ok job => installed cib [job] (objs_of r) (objs_of r') (is_Ok o)
  | _ => is_Ok o = false ∧ objs_of r' = objs_of r
  end.
Proof.
  unfold createJobForBuild, deferred.
  destruct (bind get _ r) as [o1 r1] eqn:H. intros [= <- <-].
  unfold bind, get, lift_outcome in H.
  destruct (job_object _ _ _ _) as [job|e|m] eqn:Hj; [|by injection H as <- <-..].
  apply job_object_fresh in Hj as [Hj _].
  apply installs_withOwnedResource in H as [[H1 H2] H3]; [|done].
  simpl. by rewrite H1.
Qed.

(** The part of [Reconcile] that builds objects. *)
Lemma reconcile_new_spec cib r o r' :
  bind (checkPrerequisites RetrieveAuthorization cib)
       (λ _, createJobForBuild ParseQuantity getenv cib) r = (o, r') →
  ∃ auths,
    api_frame r r' ∧
    installed cib (desired (r_JobConfig r) cib auths) (objs_of r) (objs_of r') (is_Ok o) ∧
    ((is_Ok o = true ∨ auths ≠ ∅ →
      answered RetrieveAuthorization (spec_Registries (cib_Spec cib)) auths) ∧
     (answered RetrieveAuthorization (spec_Registries (cib_Spec cib)) auths ∨
      installed cib (prerequisites (r_JobConfig r) cib auths) (objs_of r) (objs_of r') false)) ∧
    (is_Ok o = true → is_Ok (job_for (r_JobConfig r) cib auths) = true) ∧
    (r_JobConfig r' = r_JobConfig r ∨
     r_JobConfig r' = set_dynamic [] [] (r_JobConfig r)).
Proof.
  intros [(a & r1 & H1 & H2)|[(e & H1 & ->)|(m & H1 & ->)]]%bind_inv;
    apply checkPrerequisites_spec in H1 as (auths & F1 & I1 & J1 & D1); try done;
    exists auths; unfold desired; cbn [is_Ok] in *.
  - apply createJobForBuild_spec in H2 as (F2 & J2 & I2). rewrite J1 in I2, J2.
    fold (job_for (r_JobConfig r) cib auths) in I2.
    split_and!; [by etrans| |naive_solver|left; naive_solver| |].
    + destruct (job_for _ _ _) eqn:E.
      * by eapply installed_seq.
      * destruct I2 as [-> I2]. rewrite app_nil_r, I2.
        destruct I1 as (p & ? & ? & ?). by exists p.
      * destruct I2 as [-> I2]. rewrite app_nil_r, I2.
        destruct I1 as (p & ? & ? & ?). by exists p.
    + intros Ho. destruct (job_for _ _ _) eqn:E; [done| |];
        destruct I2 as [I2 _]; congruence.
    + right. rewrite J2. unfold with_credentials. by case_bool_decide.
  - split_and!; [done| |done|by right|done|by left]. by apply installed_stop.
  - split_and!; [done| |done|by right|done|by left]. by apply installed_stop.
Qed.

(** The head of [Reconcile]: the build is fetched, and a build that has no
    state goes on with the metric counters moved. *)
Lemma Reconcile_head req r o r' :
  reconcile req r = (o, r') →
  (objs_of r' = objs_of r ∧ builds_of (r_world r') = builds_of (r_world r) ∧
   r_JobConfig r' = r_JobConfig r ∧ r_events r' = r_events r ∧
   (is_Ok o = true → ∀ cib, builds_of (r_world r) !! req = Some cib →
                            st_State (cib_Status cib) ≠ "")) ∨
  ∃ cib r1,
    builds_of (r_world r) !! req = Some cib ∧ st_State (cib_Status cib) = "" ∧
    r_JobConfig r1 = r_JobConfig r ∧ r_events r1 = r_events r ∧
    objs_of r1 = objs_of r ∧ builds_of (r_world r1) = builds_of (r_world r) ∧
    bind (checkPrerequisites RetrieveAuthorization cib)
         (λ _, createJobForBuild ParseQuantity getenv cib) r1 = (o, r').
Proof.
  unfold Reconcile. unfold bind at 1, try, kube, zoom, objs_of.
  destruct (kc_GetBuild req (r_world r)) as [[cib|e|m] w] eqn:Hget;
    pose proof (GetBuild_reads _ _ _ _ Hget) as [Ho Hb].
  - apply GetBuild_fresh in Hget as Hcib.
    destruct (om_DeletionTimestamp _); unfold bind at 1; simpl;
      (case_bool_decide as Hs; intros H;
       [left; injection H as <- <-; simpl; split_and!; try done; naive_solver
       |right; eexists cib, _; split_and!; [exact Hcib|exact Hs|..|exact H]; done]).
  - destruct (IsNotFound e) eqn:He; intros [= <- <-]; left; split_and!; try done.
    intros _ cib Hcib. by rewrite (GetBuild_absent _ _ _ _ Hget He) in Hcib.
  - intros [= <- <-]; left; split_and!; done.
Qed.

(** What a reconciliation of a new build that succeeds has done. *)
Lemma Reconcile_installed req cib r r' :
  reconcile req r = (Ok tt, r') →
  builds_of (r_world r) !! req = Some cib → st_State (cib_Status cib) = "" →
  ∃ auths job,
    answered RetrieveAuthorization (spec_Registries (cib_Spec cib)) auths ∧
    job_for (r_JobConfig r) cib auths = Ok job ∧
    objs_of r' = ensure_all cib (objs_of r)
                   (prerequisites (r_JobConfig r) cib auths ++ [job]).
Proof.
  intros H Hcib Hs. apply Reconcile_head in H as
    [(_ & _ & _ & _ & Hn)|(cib' & r1 & Hc & _ & HJ & _ & HO & _ & H)].
  { by destruct (Hn eq_refl cib Hcib). }
  simplify_eq.
  apply reconcile_new_spec in H as (auths & _ & (p & _ & Hp & Hl) & [Hdom _] & Hjob & _).
  specialize (Hdom (or_introl eq_refl)). specialize (Hjob eq_refl).
  rewrite HJ in Hjob. rewrite HO, Hl in Hp by done.
  unfold desired in Hp. rewrite HJ in Hp.
  destruct (job_for _ _ auths) as [job| |] eqn:E; [|done..]. by exists auths, job.
Qed.

(** Functional behaviour.  A reconciliation of a new build that succeeds
    leaves in the cluster exactly what was there plus the missing ones among
    the service account, role, role binding, credentials secret (when some
    registry asks for dynamic credentials, with what the cloud returned for each
    of these registries) and job of the build. *)
Theorem Reconcile_installs req cib r r' :
  reconcile req r = (Ok tt, r') →
  builds_of (r_world r) !! req = Some cib → st_State (cib_Status cib) = "" →
  ∃ auths job,
    answered RetrieveAuthorization (spec_Registries (cib_Spec cib)) auths ∧
    job_for (r_JobConfig r) cib auths = Ok job ∧
    objs_of r' = ensure_all cib (objs_of r)
                   (prerequisites (r_JobConfig r) cib auths ++ [job]).
Proof. apply Reconcile_installed. Qed.

(** The names a build owns in the cluster. *)
Definition build_keys cib : gset objkey :=
  {[ (KServiceAccount, cib_key cib); (KRole, cib_key cib); (KRoleBinding, cib_key cib);
     (KJob, cib_key cib) ]} ∪
  (if bool_decide (dynamic_servers (spec_Registries (cib_Spec cib)) = ∅) then ∅
   else {[ (KSecret, mkKey (cib_Namespace cib) (cloud_secret_name cib)) ]}).

Lemma job_for_key jc cib auths job :
  job_for jc cib auths = Ok job → obj_key job = (KJob, cib_key cib).
Proof.
  unfold job_for, job_object. destruct (job_resources _ _); simpl; [|done..].
  by intros [= <-].
Qed.

Lemma desired_keys jc cib auths :
  (auths ≠ ∅ → dom auths = dynamic_servers (spec_Registries (cib_Spec cib))) →
  list_to_set (obj_key <$> desired jc cib auths) ⊆ build_keys cib.
Proof.
  intros Hd. unfold desired, prerequisites, build_keys.
  assert (auths ≠ ∅ → dynamic_servers (spec_Registries (cib_Spec cib)) ≠ ∅) as Hn.
  { intros Ha. rewrite <- (Hd Ha). intros E. by apply Ha, dom_empty_inv_L. }
  rewrite !fmap_app, !list_to_set_app_L.
  destruct (job_for jc cib auths) eqn:E; [apply job_for_key in E|..];
    repeat case_bool_decide; csimpl; rewrite ?E; unfold obj_key; simpl; set_solver.
Qed.

Lemma desired_keys_all jc cib auths :
  dom auths = dynamic_servers (spec_Registries (cib_Spec cib)) →
  is_Ok (job_for jc cib auths) = true →
  list_to_set (obj_key <$> desired jc cib auths) = build_keys cib.
Proof.
  intros Hd Hj. unfold desired, prerequisites, build_keys. rewrite <- Hd.
  destruct (job_for jc cib auths) as [job| |] eqn:E; [apply job_for_key in E|done..].
  rewrite (bool_decide_ext (dom auths = ∅) (auths = ∅)) by apply dom_empty_iff_L.
  rewrite !fmap_app, !list_to_set_app_L.
  case_bool_decide; csimpl; rewrite ?E; unfold obj_key; simpl; set_solver.
Qed.

Lemma desired_fresh jc cib auths : Forall (fresh_for cib) (desired jc cib auths).
Proof.
  unfold desired, prerequisites. apply Forall_app. split.
  - case_bool_decide; by repeat constructor.
  - destruct (job_for _ _ _) eqn:E; [|by constructor..].
    apply job_object_fresh in E as [E _]. by apply Forall_singleton.
Qed.

(** A job that appears is the job of the build, and none appears before all the
    prerequisites were asked for. *)
Lemma new_job_key jc cib auths p objs ns n :
  p `prefix_of` desired jc cib auths → objs !! (KJob, mkKey ns n) = None →
  is_Some (ensure_all cib objs p !! (KJob, mkKey ns n)) → cib_key cib = mkKey ns n.
Proof.
  intros [q Hq] Hn [x Hx]. destruct (ensure_all_new _ _ _ _ _ Hx Hn) as (obj & Hin & Hk & _).
  assert (obj ∈ desired jc cib auths) as Hd by (rewrite Hq; set_solver).
  unfold desired in Hd. apply elem_of_app in Hd as [Hd|Hd].
  - unfold prerequisites in Hd. revert Hk Hd. unfold obj_key. intros [= Hk _].
    case_bool_decide; set_unfold; intros Hd; destruct_or?; by subst.
  - destruct (job_for jc cib auths) as [job| |] eqn:E; [|by apply not_elem_of_nil in Hd..].
    apply list_elem_of_singleton in Hd as ->. apply job_for_key in E. congruence.
Qed.

Lemma no_job_in_prerequisites jc cib auths p ns n objs :
  objs !! (KJob, mkKey ns n) = None → p `prefix_of` prerequisites jc cib auths →
  ensure_all cib objs p !! (KJob, mkKey ns n) = None.
Proof.
  intros Hn [q Hq]. rewrite ensure_all_other; [done|].
  assert (Forall (λ o, obj_kind o ≠ KJob) (prerequisites jc cib auths)) as Hk
    by (unfold prerequisites; case_bool_decide; by repeat constructor).
  rewrite Hq in Hk. apply Forall_app in Hk as [Hk _].
  eapply Forall_impl; [exact Hk|]. intros x Hx [= ? _]. done.
Qed.

Lemma dynamic_servers_Exists regs :
  Exists (λ reg, reg_DynamicCloudCredentials reg = true) regs → dynamic_servers regs ≠ ∅.
Proof.
  intros (reg & Hin & Hd)%Exists_exists. unfold dynamic_servers.
  assert (reg_Server reg ∈ (list_to_set (reg_Server <$> List.filter reg_DynamicCloudCredentials regs) : gset string));
    [|set_solver]. apply elem_of_list_to_set, list_elem_of_fmap_2, list_elem_of_In, filter_In.
  split; [by apply list_elem_of_In|done].
Qed.

(** C17: Safety of the order.  Whatever the outcome of a reconciliation (an API
    error, a cloud error, a panic), if it created a job then this is the job of
    the build of its request, and the service account, role and role binding of
    the job are in the cluster, and so is the credentials secret when a registry of
    the build asks for cloud credentials. *)
Theorem Reconcile_job_last req r o r' ns n :
  Reconcile RetrieveAuthorization ParseQuantity getenv req r = (o, r') →
  objs_of r !! (KJob, mkKey ns n) = None →
  is_Some (objs_of r' !! (KJob, mkKey ns n)) →
  ∃ cib,
    builds_of (r_world r) !! req = Some cib ∧ cib_key cib = mkKey ns n ∧
    is_Some (objs_of r' !! (KServiceAccount, cib_key cib)) ∧
    is_Some (objs_of r' !! (KRole, cib_key cib)) ∧
    is_Some (objs_of r' !! (KRoleBinding, cib_key cib)) ∧
    (Exists (λ reg, reg_DynamicCloudCredentials reg = true) (spec_Registries (cib_Spec cib)) →
     is_Some (objs_of r' !! (KSecret, mkKey (cib_Namespace cib) (cloud_secret_name cib)))).
Proof.
  intros H Habs Hpres. apply Reconcile_head in H as
    [(HO & _)|(cib & r1 & Hc & _ & HJ & _ & HO & _ & H)].
  { rewrite HO, Habs in Hpres. by destruct Hpres. }
  exists cib. split; [done|].
  apply reconcile_new_spec in H as (auths & _ & (p & Hpre & Hp & _) & [_ Ha] & _).
  rewrite HO in Hp. rewrite HJ in Hpre, Ha.
  pose proof (λ q, no_job_in_prerequisites (r_JobConfig r) cib auths q ns n (objs_of r) Habs) as Hno.
  pose proof (new_job_key _ _ _ _ _ ns n Hpre Habs) as Hkey. rewrite <- Hp in Hkey.
  destruct Ha as [[Hdom _]|(q & Hq & Hq' & _)].
  2:{ rewrite Hq', HO, (Hno q Hq) in Hpres. by destruct Hpres. }
  apply prefix_app_cases in Hpre as [Hq|[q ->]].
  { rewrite Hp, (Hno p Hq) in Hpres. by destruct Hpres. }
  split; [by apply Hkey|].
  assert (∀ obj, obj ∈ prerequisites (r_JobConfig r) cib auths → is_Some (objs_of r' !! obj_key obj)) as Hall
    by (intros obj Hobj; rewrite Hp; apply ensure_all_has, elem_of_app; by left).
  unfold prerequisites in Hall.
  split_and!; [apply (Hall (service_account cib))|apply (Hall (role (r_JobConfig r) cib))|apply (Hall (role_binding cib))|];
    [set_solver..|]. intros Hdyn.
  rewrite bool_decide_eq_false_2 in Hall; [apply (Hall (cloud_secret cib auths)); set_solver|].
  intros ->. rewrite dom_empty_L in Hdom. by apply dynamic_servers_Exists in Hdyn.
Qed.

(** Every run adds some of the objects of the build, all when it succeeds. *)
Lemma Reconcile_effect req r o r' :
  reconcile req r = (o, r') →
  builds_of (r_world r') = builds_of (r_world r) ∧
  (objs_of r' = objs_of r ∧
   (is_Ok o = true → ∀ cib, builds_of (r_world r) !! req = Some cib →
                            st_State (cib_Status cib) ≠ "") ∨
   ∃ cib l, builds_of (r_world r) !! req = Some cib ∧ Forall (fresh_for cib) l ∧
     list_to_set (obj_key <$> l) ⊆ build_keys cib ∧
     (is_Ok o = true → list_to_set (obj_key <$> l) = build_keys cib) ∧
     objs_of r' = ensure_all cib (objs_of r) l).
Proof.
  intros [(HO & HB & _ & _ & Hn)|(cib & r1 & Hc & _ & HJ & _ & HO & HB & H)]%Reconcile_head;
    [split; [done|by left]|].
  apply reconcile_new_spec in H as (auths & HF & (p & Hpre & Hp & Hall) & [Hd _] & Hj & _).
  split; [destruct HF as (_ & _ & _ & ->); done|]. right.
  rewrite HJ in *. rewrite HO in Hp. exists cib, p. destruct Hpre as [q Hq].
  pose proof (desired_fresh (r_JobConfig r) cib auths) as Hf. rewrite Hq in Hf.
  pose proof (desired_keys (r_JobConfig r) cib auths) as Hk.
  rewrite Hq, fmap_app, list_to_set_app_L in Hk.
  apply Forall_app in Hf as [Hf _]. split_and!; [done|done| |  |done].
  - assert (auths ≠ ∅ → dom auths = dynamic_servers (spec_Registries (cib_Spec cib)))
      as Hd' by (unfold answered in Hd; naive_solver).
    etrans; [apply union_subseteq_l|by apply Hk].
  - intros Ho. rewrite (Hall Ho). apply desired_keys_all; [|naive_solver]. apply Hd. by left.
Qed.

(** Frame and ownership.  A reconciliation, whatever its outcome, never
    changes or removes an object that exists; every object it adds is one of
    the names of the build it was asked for, lives in the namespace of that
    build and is controlled by it. *)
Theorem Reconcile_frame req r o r' :
  reconcile req r = (o, r') →
  objs_of r ⊆ objs_of r' ∧
  ∀ k obj, objs_of r' !! k = Some obj → objs_of r !! k = None →
    ∃ cib, builds_of (r_world r) !! req = Some cib ∧ k ∈ build_keys cib ∧
           om_Namespace (obj_meta obj) = cib_Namespace cib ∧
           om_OwnerReferences (obj_meta obj) = [controller_ref (cib_ObjectMeta cib)].
Proof.
  intros [_ [[HO _]|(cib & l & Hc & Hf & Hk & _ & HO)]]%Reconcile_effect; rewrite HO.
  { split; [done|congruence]. }
  split; [apply ensure_all_grows|]. intros k obj Hobj Habs.
  destruct (ensure_all_new _ _ _ _ _ Hobj Habs) as (x & Hx & <- & ->).
  exists cib. rewrite Forall_forall in Hf. destruct (Hf x Hx) as [Hns _].
  split_and!; [done| |done|done]. apply Hk, elem_of_list_to_set.
  apply list_elem_of_fmap. eauto.
Qed.

(** One attempt at reconciling a build. *)
Definition attempt req r r' : Prop := ∃ o, reconcile req r = (o, r').

(** C3: Convergence.  After any number of attempts, failed at any call or
    not, an attempt that succeeds on the new build leaves every object of the
    build in the cluster, once, and nothing else: retries neither miss nor
    duplicate an object, and what existed before the first attempt is kept. *)
Theorem Reconcile_converges req cib r r1 r2 :
  rtc (attempt req) r r1 → reconcile req r1 = (Ok tt, r2) →
  builds_of (r_world r) !! req = Some cib → st_State (cib_Status cib) = "" →
  objs_of r ⊆ objs_of r2 ∧
  dom (objs_of r2) = dom (objs_of r) ∪ build_keys cib.
Proof.
  intros Hrtc Hok Hc Hs.
  assert (builds_of (r_world r1) = builds_of (r_world r) ∧ objs_of r ⊆ objs_of r1 ∧
          dom (objs_of r1) ⊆ dom (objs_of r) ∪ build_keys cib) as (HB & Hsub & Hdom).
  { induction Hrtc as [r|r r' r1 [o H] _ IH]; [set_solver|].
    apply Reconcile_effect in H as [HB H].
    destruct IH as (HB2 & Hsub & Hdom); [done|by rewrite HB|].
    split; [congruence|].
    destruct H as [[HO _]|(cib' & l & Hc' & _ & Hk & _ & HO)]; rewrite HO in *; [done|].
    simplify_eq. split; [etrans; [apply ensure_all_grows|done]|].
    rewrite dom_ensure_all in Hdom. set_solver +Hdom Hk. }
  apply Reconcile_effect in Hok as [_ [[_ Hn]|(cib' & l & Hc' & _ & _ & Hk & HO)]];
    rewrite HB in *; [by destruct (Hn eq_refl cib Hc)|].
  simplify_eq. rewrite HO. split; [etrans; [done|apply ensure_all_grows]|].
  rewrite dom_ensure_all, Hk by done.
  pose proof (subseteq_dom _ _ Hsub) as Hsub'. set_solver +Hdom Hsub'.
Qed.

(** No credentials volume of a build is waiting in the job configuration. *)
Definition no_dynamic (jc : BuildJobConfig) : Prop :=
  jc_DynamicVolumes jc = [] ∧ jc_DynamicVolumeMounts jc = [].

Lemma Reconcile_keeps_config req r o r' :
  no_dynamic (r_JobConfig r) → reconcile req r = (o, r') → r_JobConfig r' = r_JobConfig r.
Proof.
  intros [Hv Hm] [(_ & _ & HJ & _)|(cib & r1 & _ & _ & HJ & _ & _ & _ & H)]%Reconcile_head;
    [done|].
  apply reconcile_new_spec in H as (_ & _ & _ & _ & _ & [HJ'|HJ']); rewrite HJ', HJ; [done|].
  destruct (r_JobConfig r); simpl in *. by subst.
Qed.

(** Invariant of the shared job configuration.  [checkCloudRegistrySecrets]
    adds the credentials volume of one build to a configuration all builds
    share; along any sequence of reconciliations, of any builds and with any
    outcomes (errors and panics included), the configuration between two of
    them is the one the process started with, so that no build ever mounts
    the credentials of another. *)
Theorem Reconcile_no_leak r r' :
  rtc (λ r1 r2, ∃ req, attempt req r1 r2) r r' →
  no_dynamic (r_JobConfig r) →
  r_JobConfig r' = r_JobConfig r ∧ no_dynamic (r_JobConfig r').
Proof.
  induction 1 as [r|r1 r2 r3 (req & o & H) _ IH]; [done|]. intros Hn.
  apply Reconcile_keeps_config in H; [|done]. rewrite H in IH. auto.
Qed.
End reconcile.

(** ** Branches that build nothing *)

Section reconcile_branches.
Context {W : Type} {KC : KubeClient W}.
Context (RetrieveAuthorization : string → M W (option AuthConfig)).
Context (ParseQuantity : string → outcome Quantity).
Context (getenv : string → string).

(** A build that has any state (the job has taken it over, or it is
    finished) is not touched: the reconciliation succeeds, makes no call but
    the read, and only counts the build under its state, and under "deleted"
    when it is being deleted. *)
Theorem Reconcile_started req cib (r : Reconciler W) w :
  kc_GetBuild req (r_world r) = (Ok cib, w) →
  st_State (cib_Status cib) ≠ "" →
  Reconcile RetrieveAuthorization ParseQuantity getenv req r =
  (Ok tt,
   mkReconciler (r_JobConfig r) w (r_events r)
     (inc (ToLower (st_State (cib_Status cib)))
        (match om_DeletionTimestamp (cib_ObjectMeta cib) with
         | Some _ => inc "deleted" (r_buildsCount r)
         | None => r_buildsCount r
         end))
     (r_gcCount r)).
Proof.
  intros Hget Hs. unfold Reconcile, bind at 1, try, kube, zoom. rewrite Hget.
  rewrite bool_decide_eq_true_2 by done. by destruct (om_DeletionTimestamp _).
Qed.
End reconcile_branches.

(** ** A healthy cluster makes progress *)

Section reconcile_progress.
Context {W : Type} {KC : KubeClient W} {KS : KubeServer W} {KP : KubeProgress W}.
Context (RetrieveAuthorization : string → M W (option AuthConfig)).
Context (ParseQuantity : string → outcome Quantity).
Context (getenv : string → string).
Implicit Types (r : Reconciler W) (cib : ContainerImageBuild).

(** [c] succeeds on a healthy cluster and leaves it healthy. *)
Definition succeeds {A} (c : M (Reconciler W) A) r : Prop :=
  ∃ a r', c r = (Ok a, r') ∧ healthy (r_world r').

Lemma succeeds_bind {A B} (c : M (Reconciler W) A) (k : A → M (Reconciler W) B) r :
  succeeds c r → (∀ a r', c r = (Ok a, r') → healthy (r_world r') → succeeds (k a) r') →
  succeeds (bind c k) r.
Proof.
  intros (a & r1 & H1 & Hh) Hk. destruct (Hk a r1 H1 Hh) as (b & r2 & H2 & Hh2).
  exists b, r2. by rewrite (bind_run _ _ _ _ _ H1).
Qed.

Lemma succeeds_withOwnedResource cib obj r :
  fresh_for cib obj → healthy (r_world r) → succeeds (withOwnedResource cib obj) r.
Proof.
  intros Hf Hh. unfold succeeds. rewrite withOwnedResource_run by done.
  destruct (Get_progress (obj_key obj) _ Hh) as (o & w1 & Hget & Hh1 & Ho).
  rewrite Hget. destruct (objects_of (r_world r) !! obj_key obj) eqn:E.
  - subst o. by eexists _, _.
  - destruct Ho as (e & -> & ->).
    destruct (Create_progress (owned cib obj) w1) as (w2 & Hcr & Hh2); [done| |].
    { apply Get_reads in Hget as [Hw _]. by rewrite Hw, obj_key_owned. }
    rewrite Hcr. by eexists _, _.
Qed.

(** Every cloud registry the build asks for answers with credentials. *)
Definition cloud_answers (regs : list Registry) : Prop :=
  ∀ reg w, reg ∈ regs → reg_DynamicCloudCredentials reg = true → healthy w →
  ∃ ac w', RetrieveAuthorization (reg_Server reg) w = (Ok (Some ac), w') ∧ healthy w'.

Lemma succeeds_dynamic_auths regs auths r :
  cloud_answers regs → healthy (r_world r) →
  succeeds (dynamic_auths RetrieveAuthorization regs auths) r.
Proof.
  intros Hc. assert (∀ reg, reg ∈ regs → reg ∈ regs) as Hin by done. revert Hin.
  generalize regs at 1 3 as l. intros l. revert auths r.
  induction l as [|reg l IH]; intros auths r Hin Hh; simpl; [by eexists _, _|].
  destruct (reg_DynamicCloudCredentials reg) eqn:Hd; simpl; [|apply IH; set_solver].
  destruct (Hc reg (r_world r)) as (ac & w' & Hra & Hh'); [set_solver|done|done|].
  apply succeeds_bind.
  - unfold succeeds, kube, zoom. rewrite Hra. by eexists _, _.
  - unfold kube, zoom. rewrite Hra. intros a r' [= <- <-] _. apply IH; set_solver.
Qed.

Lemma succeeds_checkPrerequisites cib r :
  cloud_answers (spec_Registries (cib_Spec cib)) → healthy (r_world r) →
  succeeds (checkPrerequisites RetrieveAuthorization cib) r.
Proof.
  intros Hcl Hh. unfold checkPrerequisites.
  apply succeeds_bind; [by apply succeeds_withOwnedResource|]. intros _ r1 _ H1.
  apply succeeds_bind; [by apply succeeds_withOwnedResource|]. intros _ r2 _ H2.
  apply succeeds_bind; [by apply succeeds_withOwnedResource|]. intros _ r3 _ H3.
  apply succeeds_bind; [by apply succeeds_dynamic_auths|]. intros auths r4 _ H4.
  case_bool_decide; [by eexists _, _|].
  apply succeeds_bind; [by apply succeeds_withOwnedResource|]. intros _ r5 _ H5.
  by eexists _, _.
Qed.

Lemma succeeds_createJobForBuild cib r :
  is_Ok (job_resources ParseQuantity (cib_Spec cib)) = true → healthy (r_world r) →
  succeeds (createJobForBuild ParseQuantity getenv cib) r.
Proof.
  intros Hq Hh. unfold createJobForBuild, succeeds, deferred, bind, get, lift_outcome.
  destruct (job_object _ _ (r_JobConfig r) cib) as [job| |] eqn:E.
  - apply job_object_fresh in E as [E _].
    destruct (succeeds_withOwnedResource cib job r E Hh) as ([] & r' & -> & Hh').
    by eexists _, _.
  - unfold job_object in E. by destruct (job_resources _ _).
  - unfold job_object in E. by destruct (job_resources _ _).
Qed.

(** Liveness.  On a healthy cluster, a new build whose quantities parse
    and whose cloud registries answer is reconciled: the call returns without
    error (and by the theorems above, its job and prerequisites are then in
    the cluster). *)
Theorem Reconcile_succeeds req cib r :
  healthy (r_world r) →
  builds_of (r_world r) !! req = Some cib →
  is_Ok (job_resources ParseQuantity (cib_Spec cib)) = true →
  cloud_answers (spec_Registries (cib_Spec cib)) →
  succeeds (Reconcile RetrieveAuthorization ParseQuantity getenv req) r.
Proof.
  intros Hh Hc Hq Hcl. unfold Reconcile.
  destruct (GetBuild_progress _ _ _ Hh Hc) as (w1 & Hget & Hh1).
  apply succeeds_bind.
  { unfold succeeds, try, kube, zoom. rewrite Hget. by eexists _, _. }
  unfold try, kube, zoom at 1. rewrite Hget. intros a r1 [= <- <-] _.
  apply succeeds_bind.
  { destruct (om_DeletionTimestamp _); by eexists _, _. }
  intros _ r2 _ Hh2. case_bool_decide; [by eexists _, _|].
  apply succeeds_bind; [by eexists _, _|]. intros _ r3 _ Hh3.
  apply succeeds_bind; [by apply succeeds_checkPrerequisites|]. intros _ r4 _ Hh4.
  by apply succeeds_createJobForBuild.
Qed.
End reconcile_progress.

(** ** Concrete runs *)

Module Sample.
Definition registry : Registry :=
  mkRegistry "1.dkr.ecr.us-west-2.amazonaws.com" false (mkBasicAuthConfig "" "" "" "") true.
Definition spec : ContainerImageBuildSpec :=
  mkSpec "img" "http://ctx" 0 ["reg.io"] [registry] [] ∅ "1" "" no_resources 0 0 ∅
    false false "" [].
Definition build (n : string) (state : BuildState) (created : Z) : ContainerImageBuild :=
  mkBuild (mkObjectMeta n "ns" n "" "" None ∅ [] created None) spec
    (mkStatus "" state [] 0 "" None None).
Definition jobConfig : BuildJobConfig :=
  mkBuildJobConfig "forge:1" "" "" "" ∅ ∅ ∅ "" false true "" "" None [] [] [] false [] [].
Definition server (builds : list ContainerImageBuild) (faults : list (option string))
    : cluster :=
  mkCluster ∅ (list_to_map ((λ b, (cib_key b, b)) <$> builds)) faults.
Definition reconciler (c : cluster) : Reconciler cluster := mkReconciler jobConfig c [] ∅ ∅.
Definition RetrieveAuthorization (s : string) : M cluster (option AuthConfig) :=
  ret (Some (basic_auth "AWS" "token")).
Definition ParseQuantity (s : string) : outcome Quantity := Ok 1000%Z.
Definition getenv (s : string) : string := "".

Definition start : Reconciler cluster := reconciler (server [build "b" "" 1] []).
(** The fourth call, the third read, fails. *)
Definition flaky : Reconciler cluster :=
  reconciler (server [build "b" "" 1] [None; None; None; Some "timeout"]).
Definition run : NamespacedName → M (Reconciler cluster) unit :=
  Reconcile RetrieveAuthorization ParseQuantity getenv.

Lemma RetrieveAuthorization_reads s :
  always (λ w w', objects_of w' = objects_of w ∧ builds_of w' = builds_of w)
         (RetrieveAuthorization s).
Proof. by intros w o w' [= _ <-]. Qed.

Lemma Reconcile_installs_witness :
  ∃ auths job,
    answered RetrieveAuthorization [registry] auths ∧
    job_for ParseQuantity getenv jobConfig (build "b" "" 1) auths = Ok job ∧
    objs_of (run (mkKey "ns" "b") start).2 =
      ensure_all (build "b" "" 1) ∅ (prerequisites jobConfig (build "b" "" 1) auths ++ [job]).
Proof.
  exact (Reconcile_installs RetrieveAuthorization ParseQuantity getenv
           RetrieveAuthorization_reads (mkKey "ns" "b") (build "b" "" 1) start
           (run (mkKey "ns" "b") start).2 (run_split _ _ _ eq_refl) eq_refl eq_refl).
Defined.

Lemma Reconcile_job_last_witness :
  let w := (run (mkKey "ns" "b") start).2 in
  is_Some (objs_of w !! (KServiceAccount, mkKey "ns" "b")) ∧
  is_Some (objs_of w !! (KSecret, mkKey "ns" "b-dynamic-cloud-credentials")).
Proof.
  destruct (Reconcile_job_last RetrieveAuthorization ParseQuantity getenv
           RetrieveAuthorization_reads (mkKey "ns" "b") start (Ok tt)
           (run (mkKey "ns" "b") start).2 "ns" "b") as (cib & Hc & _ & Ha & _ & _ & Hs);
    [exact (run_split _ _ _ eq_refl)|reflexivity|vm_compute; eexists; reflexivity|].
  change (builds_of (r_world start) !! mkKey "ns" "b") with (Some (build "b" "" 1)) in Hc.
  injection Hc as <-. split; [exact Ha|]. apply Hs. constructor. reflexivity.
Defined.

Lemma Reconcile_frame_witness :
  objs_of flaky ⊆ objs_of (run (mkKey "ns" "b") flaky).2 ∧
  ∃ obj, objs_of (run (mkKey "ns" "b") flaky).2 !! (KServiceAccount, mkKey "ns" "b") = Some obj ∧
         om_OwnerReferences (obj_meta obj) =
         [controller_ref (cib_ObjectMeta (build "b" "" 1))].
Proof.
  destruct (Reconcile_frame RetrieveAuthorization ParseQuantity getenv
              RetrieveAuthorization_reads (mkKey "ns" "b") flaky _ _
              (run_split _ _ _ eq_refl)) as [Hsub Hnew].
  split; [exact Hsub|]. eexists. split; [reflexivity|].
  destruct (Hnew (KServiceAccount, mkKey "ns" "b") _ eq_refl eq_refl) as (cib & Hc & _ & _ & Ho).
  change (builds_of (r_world flaky) !! mkKey "ns" "b") with (Some (build "b" "" 1)) in Hc.
  injection Hc as <-. exact Ho.
Defined.

Lemma Reconcile_converges_witness :
  let r1 := (run (mkKey "ns" "b") flaky).2 in
  (run (mkKey "ns" "b") flaky).1 ≠ Ok tt ∧
  dom (objs_of (run (mkKey "ns" "b") r1).2) = ∅ ∪ build_keys (build "b" "" 1).
Proof.
  split; [discriminate|].
  eapply (Reconcile_converges RetrieveAuthorization ParseQuantity getenv
            RetrieveAuthorization_reads (mkKey "ns" "b") (build "b" "" 1) flaky
            (run (mkKey "ns" "b") flaky).2); [|exact (run_split _ _ _ eq_refl)|reflexivity..].
  apply rtc_once. eexists. exact (run_split _ _ _ eq_refl).
Defined.

Lemma Reconcile_no_leak_witness :
  r_JobConfig (run (mkKey "ns" "b") start).2 = jobConfig.
Proof.
  apply (Reconcile_no_leak RetrieveAuthorization ParseQuantity getenv
           RetrieveAuthorization_reads start (run (mkKey "ns" "b") start).2); [|split; reflexivity].
  apply rtc_once. exists (mkKey "ns" "b"). eexists. exact (run_split _ _ _ eq_refl).
Defined.

Lemma Reconcile_started_witness :
  let r := reconciler (server [build "b" BuildStateFailed 1] []) in
  run (mkKey "ns" "b") r =
  (Ok tt, mkReconciler jobConfig (r_world r) [] {[ "failed" := 1 ]} ∅).
Proof.
  exact (Reconcile_started RetrieveAuthorization ParseQuantity getenv (mkKey "ns" "b")
           (build "b" BuildStateFailed 1) (reconciler (server [build "b" BuildStateFailed 1] []))
           _ eq_refl ltac:(discriminate)).
Defined.

Lemma Reconcile_succeeds_witness :
  succeeds (run (mkKey "ns" "b")) start.
Proof.
  apply (Reconcile_succeeds RetrieveAuthorization ParseQuantity getenv (mkKey "ns" "b")
           (build "b" "" 1)); [reflexivity..|].
  intros reg w _ _ Hw. eexists _, _. split; [reflexivity|exact Hw].
Defined.
End Sample.
