(* ===== verification/GarbageCollection.v ===== *)
(** * GarbageCollection: deletion of finished builds

    [controllers/containerimagebuild_controller.go], [RunGC]: the oldest finished
    builds beyond the retention count are deleted. *)
From stdpp Require Import gmap strings list sorting.
From Stdlib Require Import ZArith.
From S2P Require Import Prelude Go GoStd Types Config Kube Credentials Resources Controller.

(** ** Package sort *)

(** [sort.Slice] puts a slice in order for a comparison given as a "less"
    function; it is not stable and nothing else is promised, so the algorithm
    stays a parameter. *)
Class SortSlice := {
  sort_slice : ∀ {A : Type}, (A → A → bool) → list A → list A;
  sort_slice_perm : ∀ A (less : A → A → bool) l, sort_slice less l ≡ₚ l;
  sort_slice_sorted : ∀ A (key : A → Z) l,
    Sorted (λ x y, (key x ≤ key y)%Z) (sort_slice (λ x y, (key x <? key y)%Z) l);
}.

(** [client.PropagationPolicy(metav1.DeletePropagationForeground)]. *)
Definition gcDeleteOpt : ClientDeleteOptions :=
  mkClientDeleteOptions (Some DeletePropagationForeground) None.

Section collector.
Context {W : Type} {KC : KubeClient W} {SS : SortSlice}.

(** [gcCount.WithLabelValues(label).Inc()]. *)
Definition count_gc (label : string) : M (Reconciler W) unit :=
  modify (λ r, mkReconciler (r_JobConfig r) (r_world r) (r_events r)
                 (r_buildsCount r) (inc label (r_gcCount r))).

(** [r.Recorder.Event(obj, Warning, reason, message)]. *)
Definition record_event (obj reason message : string) : M (Reconciler W) unit :=
  modify (λ r, mkReconciler (r_JobConfig r) (r_world r)
                 (r_events r ++ [mkEvent obj reason message])
                 (r_buildsCount r) (r_gcCount r)).

Definition finished (cib : ContainerImageBuild) : bool :=
  let state := st_State (cib_Status cib) in
  bool_decide (state = BuildStateCompleted) || bool_decide (state = BuildStateFailed).

(** [builds[i].CreationTimestamp.Before(&builds[j].CreationTimestamp)]. *)
Definition created (cib : ContainerImageBuild) : Z :=
  om_CreationTimestamp (cib_ObjectMeta cib).

Definition older (a b : ContainerImageBuild) : bool := (created a <? created b)%Z.

(** The zero value of a build, which a slice expression beyond the length of
    a slice and within its capacity exposes. *)
Definition zero_build : ContainerImageBuild :=
  mkBuild (new_meta "" "" None)
    (mkSpec "" "" 0 [] [] [] ∅ "" "" no_resources 0 0 ∅ false false "" [])
    (mkStatus "" "" [] 0 "" None None).

(** [l[:hi]] for a slice of capacity [cap]. *)
Definition slice_to {A} (zero : A) (cap : nat) (l : list A) (hi : Z) : outcome (list A) :=
  if (hi <? 0)%Z || (Z.of_nat cap <? hi)%Z
  then Panic "slice bounds out of range"
  else Ok (take (Z.to_nat hi) (l ++ replicate (cap - length l) zero)).

(** The builds one collection selects for deletion, in deletion order;
    [None] when it stops before that.  [cap] is the capacity [append] gave the
    slice of finished builds. *)
Definition gc_select (cap : nat) (retentionCount : Z)
    (items : list ContainerImageBuild) : outcome (list ContainerImageBuild) :=
  let builds := List.filter finished items in
  if (Z.of_nat (length builds) <=? retentionCount)%Z then Ok []
  else slice_to zero_build cap (sort_slice older builds)
         (Z.of_nat (length builds) - retentionCount).

(** The body of the deletion loop. *)
Definition gc_delete (build : ContainerImageBuild) : M (Reconciler W) unit :=
  let! del := try (kube (kc_DeleteBuild gcDeleteOpt build)) in
  do! (match del with
       | inl _ =>
           do! count_gc "failed" in
           record_event (cib_Name build) "GarbageCollection" "Delete operation failed"
       | inr _ => ret tt
       end) in
  count_gc "successful".

Definition RunGC (cap : nat → nat) (retentionCount : Z) : M (Reconciler W) unit :=
  let! got := try (kube kc_ListBuilds) in
  match got with
  | inl _ =>
      record_event "" "GarbageCollection" "Unable to list ContainerImageBuild resources"
  | inr items =>
      if bool_decide (length items = 0) then ret tt
      else
        let n := length (List.filter finished items) in
        let! targets := lift_outcome (gc_select (cap n) retentionCount items) in
        for_each gc_delete targets
  end.
End collector.

(** A sorting algorithm that keeps the promise. *)
Definition not_after {A} (less : A → A → bool) (x y : A) : Prop := less y x = false.

#[export] Instance not_after_dec {A} (less : A → A → bool) : RelDecision (not_after less).
Proof. intros x y. apply bool_eq_dec. Defined.

#[export] Instance merge_sort_slice : SortSlice.
Proof.
  refine {| sort_slice A less l := merge_sort (not_after less) l |}.
  - intros. apply merge_sort_Permutation.
  - intros A key l.
    apply (Sorted_weaken (not_after (λ x y, (key x <? key y)%Z)));
      [unfold not_after; lia|].
    apply Sorted_merge_sort. intros x y. unfold not_after. lia.
Defined.

(** ** Which builds are selected *)

Section selection.
Context {SS : SortSlice}.
Implicit Types (items targets kept : list ContainerImageBuild).

Lemma slice_to_within {A} (zero : A) cap (l : list A) hi :
  (0 ≤ hi)%Z → (hi ≤ Z.of_nat (length l))%Z → length l ≤ cap →
  slice_to zero cap l hi = Ok (take (Z.to_nat hi) l).
Proof.
  intros H0 Hl Hc. unfold slice_to.
  destruct (Z.ltb_spec hi 0), (Z.ltb_spec (Z.of_nat cap) hi); simpl; try lia.
  by rewrite take_app_le by lia.
Qed.

Lemma sort_slice_older l : StronglySorted (λ x y, (created x ≤ created y)%Z) (sort_slice older l).
Proof.
  apply Sorted_StronglySorted; [intros x y z; lia|]. apply sort_slice_sorted.
Qed.

(** The selection splits the finished builds into the targets and the ones
    that are kept, with no target newer than a kept one. *)
Lemma gc_select_split cap ret items :
  (0 ≤ ret)%Z → length (List.filter finished items) ≤ cap →
  ∃ targets kept,
    gc_select cap ret items = Ok targets ∧
    targets ++ kept ≡ₚ List.filter finished items ∧
    Z.of_nat (length kept) = (Z.of_nat (length (List.filter finished items)) `min` ret)%Z ∧
    ∀ t k, t ∈ targets → k ∈ kept → (created t ≤ created k)%Z.
Proof.
  intros Hr Hc. unfold gc_select. set (b := List.filter finished items) in *.
  destruct (Z.leb_spec (Z.of_nat (length b)) ret).
  { exists [], b. split_and!; [done|done|lia|]. intros t k []%not_elem_of_nil. }
  assert (length (sort_slice older b) = length b) as Hlen
    by apply Permutation_length, sort_slice_perm.
  rewrite slice_to_within by lia.
  set (i := Z.to_nat (Z.of_nat (length b) - ret)).
  exists (take i (sort_slice older b)), (drop i (sort_slice older b)).
  split_and!; [done| | |].
  - by rewrite take_drop, sort_slice_perm.
  - rewrite length_drop, Hlen. lia.
  - intros t k Ht Hk. exact (StronglySorted_take_drop _ _ _ t k (sort_slice_older b) Ht Hk).
Qed.

Lemma gc_select_finished cap ret items targets t :
  (0 ≤ ret)%Z → length (List.filter finished items) ≤ cap →
  gc_select cap ret items = Ok targets → t ∈ targets → t ∈ items ∧ finished t = true.
Proof.
  intros Hr Hc Hs Ht. destruct (gc_select_split cap ret items Hr Hc) as (ts & kept & Hs' & Hp & _).
  rewrite Hs' in Hs. injection Hs as ->.
  assert (t ∈ List.filter finished items) as Hin by (rewrite <- Hp; set_solver).
  by rewrite list_elem_of_In, filter_In, <- list_elem_of_In in Hin.
Qed.
End selection.

(** ** A negative retention count *)

(** Bounds.  Nothing rejects a negative retention count: the slice
    expression then reaches beyond the finished builds.  It panics when their
    capacity is exceeded; otherwise every finished build is selected, and after
    them as many zero builds, without name or namespace, as the count is below
    zero. *)
Theorem gc_select_negative {SS : SortSlice} cap ret items :
  (ret < 0)%Z → length (List.filter finished items) ≤ cap →
  gc_select cap ret items =
  if (Z.of_nat cap <? Z.of_nat (length (List.filter finished items)) - ret)%Z
  then Panic "slice bounds out of range"
  else Ok (sort_slice older (List.filter finished items)
           ++ replicate (Z.to_nat (- ret)) zero_build).
Proof.
  intros Hr Hc. unfold gc_select, slice_to.
  set (b := List.filter finished items) in *.
  assert (length (sort_slice older b) = length b) as Hlen
    by apply Permutation_length, sort_slice_perm.
  rewrite (proj2 (Z.leb_gt (Z.of_nat (length b)) ret)) by lia.
  rewrite (proj2 (Z.ltb_ge (Z.of_nat (length b) - ret) 0)) by lia. cbn [orb].
  destruct (Z.ltb_spec (Z.of_nat cap) (Z.of_nat (length b) - ret)); [done|].
  rewrite take_app_ge, take_replicate by lia. do 3 f_equal. lia.
Qed.

(** ** What a collection does to the cluster *)

(** [m'] is [m] after deletions of some of the builds of [l] were accepted, and of
    no others. *)
Definition reduced (l : list ContainerImageBuild)
    (m m' : gmap NamespacedName ContainerImageBuild) : Prop :=
  ∀ k, m' !! k = m !! k ∨ (k ∈ cib_key <$> l ∧ erased (m !! k) (m' !! k)).

Lemma reduced_refl l m : reduced l m m.
Proof. intros k. by left. Qed.

Lemma reduced_step c l m m1 m2 :
  deleted_from (cib_key c) m m1 → reduced l m1 m2 → reduced (c :: l) m m2.
Proof.
  intros [He Hother] Hr k. rewrite fmap_cons, elem_of_cons.
  destruct (decide (k = cib_key c)) as [->|Hne].
  - right. split; [by left|]. destruct (Hr (cib_key c)) as [->|[_ H]]; [done|].
    by eapply erased_trans.
  - rewrite <- (Hother k) by done. destruct (Hr k) as [H|[Hin H]]; [by left|right; auto].
Qed.

Lemma reduced_cons c l m m' : reduced l m m' → reduced (c :: l) m m'.
Proof. intros H k. rewrite fmap_cons, elem_of_cons. destruct (H k) as [|[? ?]]; auto. Qed.

Lemma reduced_keyed l m m' : reduced l m m' → well_keyed m → well_keyed m'.
Proof.
  intros H Hk k c Hc. destruct (H k) as [E|[_ [E|(b & t & v & E & E')]]]; rewrite Hc in *;
    [by apply Hk; rewrite <- E|done|]. injection E' as ->. by apply (Hk k b).
Qed.

Section effect.
Context {W : Type} {KC : KubeClient W} {KS : KubeServer W} {SS : SortSlice}.
Implicit Types (r : Reconciler W) (cib : ContainerImageBuild).

(** The builds in the cluster, and the value of a counter of [gcCount]. *)
Definition stored r : gmap NamespacedName ContainerImageBuild := builds_of (r_world r).
Definition gc_counter r (label : string) : nat := default 0 (r_gcCount r !! label).

Lemma gc_delete_run cib r o r' :
  gc_delete cib r = (o, r') →
  objs_of r' = objs_of r ∧ r_JobConfig r' = r_JobConfig r ∧
  ((o = Ok tt ∧ deleted gcDeleteOpt (cib_key cib) (stored r) (stored r') ∧
    r_events r' = r_events r ∧ r_gcCount r' = inc "successful" (r_gcCount r)) ∨
   (o = Ok tt ∧ stored r' = stored r ∧
    length (r_events r') = S (length (r_events r)) ∧
    r_gcCount r' = inc "successful" (inc "failed" (r_gcCount r))) ∨
   (o ≠ Ok tt ∧ stored r' = stored r)).
Proof.
  unfold gc_delete, bind at 1, try, kube, zoom, stored, objs_of.
  destruct (kc_DeleteBuild gcDeleteOpt cib (r_world r)) as [[[]|e|m] w] eqn:H;
    apply DeleteBuild_writes in H as [HO HB]; intros [= <- <-]; simpl;
    (split; [done|]; split; [done|]); [by left|right; left|right; right; done].
  rewrite length_app. simpl. rewrite Nat.add_1_r. done.
Qed.

(** The deletion loop deletes some of its targets. *)
Lemma gc_loop targets r o r' :
  for_each gc_delete targets r = (o, r') →
  objs_of r' = objs_of r ∧ r_JobConfig r' = r_JobConfig r ∧
  reduced targets (stored r) (stored r').
Proof.
  revert r. induction targets as [|c targets IH]; intros r.
  { intros [= <- <-]. split_and!; [done..|apply reduced_refl]. }
  intros [(a & r1 & H1 & H2)|[(e & H1 & ->)|(m & H1 & ->)]]%bind_inv;
    apply gc_delete_run in H1 as (HO & HJ & H1).
  - apply IH in H2 as (HO2 & HJ2 & HB). split_and!; [congruence..|].
    destruct H1 as [(_ & [_ HB1] & _)|[(_ & HB1 & _)|[_ HB1]]]; [by eapply reduced_step|..];
      rewrite HB1 in HB; by apply reduced_cons.
  - split_and!; [done..|]. destruct H1 as [(? & _)|[(? & _)|[_ ->]]]; [done..|apply reduced_refl].
  - split_and!; [done..|]. destruct H1 as [(? & _)|[(? & _)|[_ ->]]]; [done..|apply reduced_refl].
Qed.

(** Metrics.  A deletion loop that ends counts every selected build under
    "successful", also the ones whose deletion failed; the failed ones are
    counted under "failed" as well, one for each event recorded. *)
Theorem gc_metrics targets r r' :
  for_each gc_delete targets r = (Ok tt, r') →
  gc_counter r' "successful" = gc_counter r "successful" + length targets ∧
  gc_counter r' "failed" + length (r_events r) = gc_counter r "failed" + length (r_events r').
Proof.
  revert r. induction targets as [|c targets IH]; intros r.
  { intros [= <-]. simpl. lia. }
  intros (a & r1 & H1 & H2)%bind_Ok_inv. apply IH in H2 as [HS HF].
  apply gc_delete_run in H1 as (_ & _ & [(_ & _ & He & Hm)|[(_ & _ & He & Hm)|[? _]]]);
    [| |by destruct a]; unfold gc_counter in *; rewrite Hm in HS, HF;
    rewrite ?inc_eq, ?inc_ne in HS by done; rewrite He, inc_ne, ?inc_eq in HF by done; simpl; lia.
Qed.

(** The keys of the builds of a well-keyed store are distinct. *)
Lemma items_of_store m items :
  well_keyed m → items ≡ₚ snd <$> map_to_list m →
  NoDup (cib_key <$> items) ∧ ∀ c, c ∈ items ↔ m !! cib_key c = Some c.
Proof.
  intros Hk Hp. assert (map fst (map_to_list m) = cib_key <$> (snd <$> map_to_list m)) as E.
  { rewrite <- list_fmap_compose. apply list_fmap_ext. intros i [k c] Hi. simpl.
    apply list_elem_of_lookup_2, elem_of_map_to_list in Hi. symmetry. by apply Hk. }
  split.
  - rewrite Hp, <- E. apply NoDup_fst_map_to_list.
  - intros c. rewrite Hp, list_elem_of_fmap. split.
    + intros ([k c'] & -> & Hc%elem_of_map_to_list). simpl. by rewrite (Hk _ _ Hc).
    + intros Hc. exists (cib_key c, c). by rewrite elem_of_map_to_list.
Qed.

Lemma NoDup_key_filter items :
  NoDup (cib_key <$> items) → NoDup (cib_key <$> List.filter finished items).
Proof.
  rewrite (list_filter_app_split finished items) at 1. rewrite fmap_app, NoDup_app. naive_solver.
Qed.

(** The loop deletes all of its targets. *)
Lemma gc_loop_healthy {KP : KubeProgress W} targets r :
  healthy (r_world r) → NoDup (cib_key <$> targets) →
  (∀ c, c ∈ targets → stored r !! cib_key c = Some c) →
  ∃ r', for_each gc_delete targets r = (Ok tt, r') ∧
    ∀ c, c ∈ targets → erased (Some c) (stored r' !! cib_key c).
Proof.
  revert r. induction targets as [|c targets IH]; intros r Hh Hnd Hin.
  { exists r. split; [done|]. by intros ? ?%not_elem_of_nil. }
  rewrite fmap_cons, NoDup_cons in Hnd. destruct Hnd as [Hc Hnd].
  destruct (DeleteBuild_progress gcDeleteOpt c c (r_world r)) as (w & Hd & Hw);
    [done|apply Hin; set_solver|done|].
  set (r1 := mkReconciler (r_JobConfig r) w (r_events r) (r_buildsCount r)
               (inc "successful" (r_gcCount r))).
  assert (gc_delete c r = (Ok tt, r1)) as H1.
  { unfold gc_delete, bind at 1, try, kube, zoom. by rewrite Hd. }
  apply DeleteBuild_writes in Hd as [_ [_ [He Hother]]]. fold (stored r) (stored r1) in He, Hother.
  rewrite (Hin c) in He by set_solver.
  destruct (IH r1) as (r' & H2 & HB2); [done|done| |].
  { intros d Hd'. rewrite Hother; [apply Hin; set_solver|].
    intros E. apply Hc. rewrite <- E. by apply list_elem_of_fmap_2. }
  exists r'. split; [simpl; by rewrite (bind_run _ _ _ _ _ H1)|].
  intros d [->|Hd']%elem_of_cons; [|by apply HB2].
  apply gc_loop in H2 as (_ & _ & Hred). destruct (Hred (cib_key c)) as [->|[Hin' _]]; done.
Qed.

Context {FR : FreshReads W}.
Variables (cap : nat → nat) (ret : Z).
Hypothesis cap_enough : ∀ n, n ≤ cap n.
Hypothesis ret_nonneg : (0 ≤ ret)%Z.

(** A collection that gets to its loop: the builds are listed and the loop
    runs on a split of the finished ones; one that does not deletes nothing. *)
Lemma RunGC_run r o r' :
  well_keyed (stored r) → RunGC cap ret r = (o, r') →
  (objs_of r' = objs_of r ∧ stored r' = stored r ∧
   ((o = Ok tt ∧ ∃ w, kc_ListBuilds (r_world r) = (Ok [], w)) ∨
    ∀ l w, kc_ListBuilds (r_world r) ≠ (Ok l, w))) ∨
  ∃ items w targets kept,
    kc_ListBuilds (r_world r) = (Ok items, w) ∧ builds_of w = stored r ∧
    objects_of w = objs_of r ∧ NoDup (cib_key <$> targets ++ kept) ∧
    (∀ c, c ∈ targets ++ kept ↔ stored r !! cib_key c = Some c ∧ finished c = true) ∧
    targets ++ kept ≡ₚ List.filter finished items ∧
    Z.of_nat (length kept) = (Z.of_nat (length (List.filter finished items)) `min` ret)%Z ∧
    (∀ t k, t ∈ targets → k ∈ kept → (created t ≤ created k)%Z) ∧
    for_each gc_delete targets (set_world w r) = (o, r').
Proof.
  intros Hk. unfold RunGC, bind at 1, try, kube, zoom, stored, objs_of.
  destruct (kc_ListBuilds (r_world r)) as [[items|e|m] w] eqn:Hl;
    pose proof (ListBuilds_reads _ _ _ Hl) as [HO HB];
    [|intros [= <- <-]; left; simpl; split_and!; try done; by right..].
  case_bool_decide as Hn.
  { intros [= <- <-]. left. simpl. destruct items; [|done]. split_and!; eauto. }
  destruct (gc_select_split (cap (length (List.filter finished items))) ret items)
    as (ts & kept & Hs & Hp & Hlen & Hord); [done|apply cap_enough|].
  unfold bind, lift_outcome. rewrite Hs. intros H. right.
  destruct (items_of_store (stored r) items Hk) as [Hnd Hin]; [by apply ListBuilds_fresh in Hl|].
  exists items, w, ts, kept. split_and!; try done.
  - rewrite Hp. by apply NoDup_key_filter.
  - intros c. by rewrite Hp, list_elem_of_In, filter_In, <- list_elem_of_In, Hin.
Qed.

(** The finished builds [c] may be deleted for. *)
Definition retained r' (c : ContainerImageBuild) (kept : list ContainerImageBuild) : Prop :=
  NoDup kept ∧ Z.of_nat (length kept) = ret ∧
  ∀ s, s ∈ kept →
    finished s = true ∧ (created c ≤ created s)%Z ∧ stored r' !! cib_key s = Some s.

Lemma RunGC_removes r o r' :
  well_keyed (stored r) → RunGC cap ret r = (o, r') →
  objs_of r' = objs_of r ∧ well_keyed (stored r') ∧
  ∀ k, stored r' !! k = stored r !! k ∨
    ∃ c, stored r !! k = Some c ∧ erased (Some c) (stored r' !! k) ∧
      finished c = true ∧ ∃ kept, retained r' c kept.
Proof.
  intros Hk H. destruct (RunGC_run r o r' Hk H)
    as [(HO & HB & _)|(items & w & ts & kept & Hl & HB & HO & Hnd & Hf & Hp & Hlen & Hord & H')]; clear H.
  { rewrite HB. split_and!; [done..|]. by left. }
  apply gc_loop in H' as (HO' & _ & Hred).
  unfold stored at 1 in Hred. simpl in Hred. rewrite HB in Hred.
  split; [by rewrite HO'|]. split; [by eapply reduced_keyed|]. intros k.
  destruct (Hred k) as [E|[Hin He]]; [by left|right].
  apply list_elem_of_fmap in Hin as (c & -> & Hc).
  destruct (proj1 (Hf c)) as [Hc1 Hc2]; [set_solver|]. rewrite Hc1 in He.
  exists c. split_and!; [done..|]. exists kept.
  rewrite fmap_app, NoDup_app in Hnd. destruct Hnd as (_ & Hdis & Hnk). split_and!.
  - by apply NoDup_fmap_1 in Hnk.
  - apply Permutation_length in Hp. rewrite length_app in Hp.
    destruct ts; [by apply not_elem_of_nil in Hc|simpl in Hp; lia].
  - intros s Hs. destruct (proj1 (Hf s)) as [Hs1 Hs2]; [set_solver|].
    split_and!; [done|by apply Hord|]. destruct (Hred (cib_key s)) as [->|[Hin _]]; [done|].
    destruct (Hdis _ Hin). by apply list_elem_of_fmap_2.
Qed.

(** Safety of the collection, with calls that may fail anywhere.  Nothing
    but builds is touched, and a build stays as it is or is deleted.  Every build
    that is deleted was finished, and [retentionCount] finished builds that are
    not older than it are still there. *)
Theorem RunGC_safe r o r' :
  well_keyed (stored r) → RunGC cap ret r = (o, r') →
  objs_of r' = objs_of r ∧
  ∀ k, stored r' !! k = stored r !! k ∨
    ∃ c, stored r !! k = Some c ∧ erased (Some c) (stored r' !! k) ∧
      finished c = true ∧ ∃ kept, retained r' c kept.
Proof. intros Hk H. destruct (RunGC_removes r o r' Hk H) as (? & _ & ?). done. Qed.

End effect.

(** The finished builds of a store. *)
Definition finished_builds (m : gmap NamespacedName ContainerImageBuild)
    : list ContainerImageBuild :=
  List.filter finished (snd <$> map_to_list m).

(** C24: Completeness of the collection, for a retention count that is not
    negative and a cluster that answers every call.  It ends without error or
    panic and splits the [n] finished builds: [min n retentionCount] of them are
    kept, none older than one of the others.  The others are all deleted: each
    is gone, or terminating while objects it owns remain.  Every build that is
    kept or not finished is as it was. *)
Theorem RunGC_complete {W : Type} {KC : KubeClient W} {KS : KubeServer W} {SS : SortSlice}
    {FR : FreshReads W} {KP : KubeProgress W} (cap : nat → nat) (ret : Z) (r : Reconciler W) :
  (∀ n, n ≤ cap n) → (0 ≤ ret)%Z → healthy (r_world r) → well_keyed (stored r) →
  ∃ r' targets kept,
    RunGC cap ret r = (Ok tt, r') ∧
    targets ++ kept ≡ₚ finished_builds (stored r) ∧
    Z.of_nat (length kept) = (Z.of_nat (length (finished_builds (stored r))) `min` ret)%Z ∧
    (∀ t k, t ∈ targets → k ∈ kept → (created t ≤ created k)%Z) ∧
    (∀ t, t ∈ targets → erased (Some t) (stored r' !! cib_key t)) ∧
    (∀ k c, stored r !! k = Some c → c ∉ targets → stored r' !! k = Some c).
Proof.
  intros Hcap Hret Hh Hk. destruct (RunGC cap ret r) as [o r'] eqn:Hrun.
  destruct (ListBuilds_progress _ Hh) as (items0 & w0 & Hl0 & Hh0).
  pose proof (ListBuilds_fresh _ _ _ Hl0) as Hperm0. fold (stored r) in Hperm0.
  destruct (RunGC_run cap ret Hcap Hret r o r' Hk Hrun) as
    [(_ & HB & [(-> & w & Hl)|Hl])
    |(items & w & ts & kept & Hl & HB & _ & Hnd & Hf & Hp & Hlen & Hord & H)];
    [|by destruct (Hl _ _ Hl0)|]; rewrite Hl in Hl0; injection Hl0 as <- <-; unfold finished_builds.
  { exists r', [], []. rewrite HB, <- Hperm0. split_and!; try done; 
      [simpl; lia|by intros ? ? ?%not_elem_of_nil|by intros ? ?%not_elem_of_nil]. }
  destruct (gc_loop_healthy ts (set_world w r)) as (r2 & H2 & HB2); [done|..].
  { rewrite fmap_app, NoDup_app in Hnd. naive_solver. }
  { intros c Hc. unfold stored. simpl. rewrite HB. apply (Hf c). set_solver. }
  rewrite H in H2. injection H2 as -> ->. exists r2, ts, kept. rewrite <- Hperm0.
  split_and!; try done.
  intros k c Hc Hn. apply gc_loop in H as (_ & _ & Hred).
  unfold stored at 1 in Hred. simpl in Hred. rewrite HB in Hred.
  destruct (Hred k) as [->|[Hin _]]; [done|].
  apply list_elem_of_fmap in Hin as (c' & -> & Hc'). destruct (proj1 (Hf c')) as [Hc1 _]; [set_solver|].
  destruct Hn. unfold stored in *. congruence.
Qed.

(** ** Concrete runs *)

Module GcSample.
Import Controller.Sample.

Definition one_running : ContainerImageBuild := build "run" BuildStateBuilding 0.
Definition store : list ContainerImageBuild :=
  [build "c" BuildStateCompleted 3; build "a" BuildStateFailed 1; one_running;
   build "b" BuildStateCompleted 2].
Definition all_good : Reconciler cluster := reconciler (server store []).
(** The first deletion fails. *)
Definition bad_delete : Reconciler cluster :=
  reconciler (server store [None; Some "timeout"]).
Definition grow (n : nat) : nat := n + n.

Lemma store_keyed faults : well_keyed (stored (reconciler (server store faults))).
Proof. apply (bool_decide_unpack _). vm_compute. exact I. Qed.

Lemma RunGC_safe_witness :
  ∃ kept, retained 1 (RunGC grow 1 bad_delete).2 (build "b" BuildStateCompleted 2) kept.
Proof.
  destruct (RunGC_safe grow 1 (λ n, Nat.le_add_l n n) ltac:(lia) bad_delete (Ok tt)
              (RunGC grow 1 bad_delete).2 (store_keyed _) (run_split _ _ _ ltac:(vm_compute; reflexivity)))
    as (_ & H).
  destruct (H (mkKey "ns" "b")) as [E|(c & E & _ & _ & Hkept)]; [vm_compute in E; discriminate E|].
  vm_compute in E. injection E as <-. exact Hkept.
Defined.

(** The oldest finished build still owns its service account. *)
Definition owning : Reconciler cluster :=
  reconciler (mkCluster
    {[ (KServiceAccount, mkKey "ns" "a") :=
         mkObject (set_owners [controller_ref (cib_ObjectMeta (build "a" BuildStateFailed 1))]
                     (new_meta "a" "ns" None)) ServiceAccount ]}
    (cl_builds (server store [])) []).

Lemma owning_keyed : well_keyed (stored owning).
Proof. apply (bool_decide_unpack _). vm_compute. exact I. Qed.

Lemma RunGC_complete_witness :
  ∃ r', RunGC grow 1 owning = (Ok tt, r') ∧
    stored r' !! mkKey "ns" "a" =
      Some (terminating 1 "" (build "a" BuildStateFailed 1)) ∧
    stored r' !! mkKey "ns" "b" = None ∧
    stored r' !! mkKey "ns" "run" = Some one_running.
Proof.
  destruct (RunGC_complete (W:=cluster) grow 1 owning (λ n, Nat.le_add_l n n) ltac:(lia))
    as (r' & ts & kept & H1 & H2 & _ & _ & _ & H3); [reflexivity|exact owning_keyed|].
  exists r'. split; [exact H1|]. vm_compute in H1. injection H1 as <-. split_and!; vm_compute; reflexivity.
Defined.

Lemma gc_metrics_witness :
  let r' := (for_each gc_delete [build "a" BuildStateFailed 1]
               (reconciler (server store [Some "timeout"]))).2 in
  gc_counter r' "successful" = 1 ∧ gc_counter r' "failed" + 0 = 0 + length (r_events r').
Proof.
  exact (gc_metrics [build "a" BuildStateFailed 1]
           (reconciler (server store [Some "timeout"])) _ (run_split _ _ _ eq_refl)).
Defined.

Lemma gc_select_negative_witness :
  gc_select 4 (-1) store =
  Ok ([build "a" BuildStateFailed 1; build "b" BuildStateCompleted 2;
       build "c" BuildStateCompleted 3] ++ [zero_build]).
Proof.
  exact (gc_select_negative 4 (-1) store ltac:(lia) ltac:(vm_compute; lia)).
Defined.
End GcSample.
