(* ===== verification/Metrics.v ===== *)
(** * Metrics: what the controller exports

    The collectors [controllers/containerimagebuild_controller.go] declares, their
    registration, the instruments around a collection, and what a scrape of the
    registry shows. *)
From stdpp Require Import gmap strings list.
From Stdlib Require Import ZArith.
From S2P Require Import Prelude Go GoStd Types Kube Resources Controller GarbageCollection.
#[local] Open Scope forge_scope.

(** ** Collectors *)

(** [prometheus.Opts] of a collector. *)
Record Opts := mkOpts {
  mo_Namespace : string;
  mo_Subsystem : string;
  mo_Name : string;
}.

(** [BuildFQName]. *)
Definition BuildFQName (o : Opts) : string :=
  if bool_decide (mo_Name o = "") then ""
  else strings_Join (filter (λ s, s ≠ "") [mo_Namespace o; mo_Subsystem o; mo_Name o]) "_".

Inductive collector :=
| containerImageBuildsCount
| gcTiming
| gcCompletedGauge
| gcCount.

Definition collector_opts (c : collector) : Opts :=
  mkOpts "forge" "controller"
    (match c with
     | containerImageBuildsCount => "container_image_builds"
     | gcTiming => "container_image_builds_gc"
     | gcCompletedGauge => "container_image_builds_gc_completed"
     | gcCount => "container_image_builds_objects_gc"
     end).

Definition metric_name (c : collector) : string := BuildFQName (collector_opts c).

(** ** The registry *)

(** [MustRegister] of one collector: a second one of the same name panics. *)
Definition MustRegister (c : collector) (reg : list collector) : outcome (list collector) :=
  if bool_decide (metric_name c ∈ metric_name <$> reg) then Panic "duplicate metrics collector registration attempted"
  else Ok (reg ++ [c]).

(** [init]. *)
Definition register_metrics (reg : list collector) : outcome (list collector) :=
  let? reg := MustRegister containerImageBuildsCount reg in
  let? reg := MustRegister gcTiming reg in
  MustRegister gcCount reg.

(** ** Instruments of a collection *)

(** The observations of the histogram and the time of the gauge. *)
Record instruments := mkInstruments {
  in_timings : list Z;
  in_completed : option Z;
}.

Section instruments.
Context {W : Type} {KC : KubeClient W} {SS : SortSlice}.

(** [RunGC] with its deferred calls, which also run when it panics: the gauge is
    set, and the time since the start is observed.  [start], [finish] and
    [stop] are the times the clock shows. *)
Definition RunGC_instrumented (start finish stop : Z) (cap : nat → nat) (retentionCount : Z)
    : M (Reconciler W * instruments) unit := λ s,
  let '(o, r') := RunGC cap retentionCount s.1 in
  (o, (r', mkInstruments (in_timings s.2 ++ [(stop - start)%Z]) (Some finish))).

(** A sample of a scrape. *)
Inductive sample :=
| Counters (values : gmap string nat)
| Histogram (observations : list Z)
| Gauge (value : Z).

(** What a registered collector shows. *)
Definition collect (s : Reconciler W * instruments) (c : collector) : string * sample :=
  (metric_name c,
   match c with
   | containerImageBuildsCount => Counters (r_buildsCount s.1)
   | gcCount => Counters (r_gcCount s.1)
   | gcTiming => Histogram (in_timings s.2)
   | gcCompletedGauge => Gauge (default 0%Z (in_completed s.2))
   end).

(** [Gather]. *)
Definition scrape (reg : list collector) (s : Reconciler W * instruments) : list (string * sample) :=
  collect s <$> reg.

Definition same_builds (r r' : Reconciler W) : Prop := r_buildsCount r' = r_buildsCount r.

#[local] Instance same_builds_preorder : PreOrder same_builds.
Proof. split; [done|intros ??? ??; unfold same_builds in *; congruence]. Qed.

Lemma kube_same_builds {A} (c : M W A) : always same_builds (kube c).
Proof. intros r o r'. unfold kube, zoom. destruct (c (r_world r)). by intros [= <- <-]. Qed.

Lemma count_gc_same_builds label : always same_builds (count_gc label).
Proof. by apply (always_modify same_builds). Qed.

Lemma record_event_same_builds obj reason message : always same_builds (record_event obj reason message).
Proof. by apply (always_modify same_builds). Qed.

#[local] Hint Resolve kube_same_builds count_gc_same_builds record_event_same_builds : forge.

Lemma gc_delete_same_builds cib : always same_builds (gc_delete cib).
Proof.
  apply (always_bind same_builds); [auto with forge|]. intros [e|[]];
    repeat (apply (always_bind same_builds); [|intros []]); auto with forge.
Qed.

Lemma RunGC_same_builds cap n : always same_builds (RunGC cap n).
Proof.
  apply (always_bind same_builds); [auto with forge|]. intros [e|items]; [auto with forge|].
  case_bool_decide; [auto with forge|]. apply (always_bind same_builds); [auto with forge|].
  intros targets. apply (always_for_each same_builds). apply gc_delete_same_builds.
Qed.

(** The time of the last collection is kept and never shown.  The program starts
    without a duplicate name; every collection, also one that panics, observes its
    duration and sets the gauge, and the scrape that follows has the counters and the
    durations; but the gauge is not in it. *)
Theorem completed_not_scraped :
  ∃ reg, register_metrics [] = Ok reg ∧
  ∀ start finish stop cap n s,
    let s' := (RunGC_instrumented start finish stop cap n s).2 in
    in_completed s'.2 = Some finish ∧
    scrape reg s' = [(metric_name containerImageBuildsCount, Counters (r_buildsCount s.1));
                     (metric_name gcTiming, Histogram (in_timings s.2 ++ [(stop - start)%Z]));
                     (metric_name gcCount, Counters (r_gcCount s'.1))] ∧
    metric_name gcCompletedGauge ∉ (scrape reg s').*1.
Proof.
  exists [containerImageBuildsCount; gcTiming; gcCount]. split; [vm_compute; reflexivity|].
  intros start finish stop cap n [r i]. unfold RunGC_instrumented. cbn [fst snd].
  destruct (RunGC cap n r) as [o r'] eqn:E. apply RunGC_same_builds in E.
  split_and!; [done|cbv [scrape collect fmap list_fmap fst snd]; by rewrite E|]. apply (bool_decide_unpack _). vm_compute. exact I.
Qed.
End instruments.
