(* ===== verification/RegistryConfig.v ===== *)
(** * RegistryConfig: from registry directives to registry credentials

    [internal/buildjob/buildjob.go] ([buildRegistryConfigs] and the functions
    that read credentials) and [internal/builder/embedded/util.go]
    ([generateRegistryFunc]): the registries a build names, explicitly or
    through a secret, become the credentials and the scheme the image builder
    uses for each host. *)
From stdpp Require Import gmap strings list.
From Stdlib Require Import ZArith.
From S2P Require Import Prelude Go GoStd Types Config Kube Credentials Resources.

(** ** What the job calls *)

(** A secret as the API server returns it: its data and its type. *)
Definition secret_value : Type := gmap string document * string.

(** The calls that read credentials, and the iteration over a Go map, whose
    order is not specified and may differ from one loop to the next. *)
Class JobHost (W : Type) := {
  jh_GetSecret : string → string → M W secret_value;
  jh_Stat : string → M W unit;
  jh_ReadFile : string → M W document;
  jh_IsNotExist : error → bool;
  jh_range : ∀ {A : Type}, gmap string A → M W (list (string * A));
}.

(** What the job relies on: a read that succeeds returns what is stored, reads
    store nothing, and a loop over a map visits each entry once. *)
Class JobReads (W : Type) {JH : JobHost W} := {
  secret_of : W → string → string → option secret_value;
  file_of : W → string → option document;
  GetSecret_env ns n : always (λ w w', secret_of w' = secret_of w ∧ file_of w' = file_of w)
                              (jh_GetSecret ns n);
  Stat_env p : always (λ w w', secret_of w' = secret_of w ∧ file_of w' = file_of w) (jh_Stat p);
  ReadFile_env p : always (λ w w', secret_of w' = secret_of w ∧ file_of w' = file_of w)
                          (jh_ReadFile p);
  range_env A (m : gmap string A) :
    always (λ w w', secret_of w' = secret_of w ∧ file_of w' = file_of w) (jh_range m);
  GetSecret_fresh ns n w s w' : jh_GetSecret ns n w = (Ok s, w') → secret_of w ns n = Some s;
  ReadFile_fresh p w d w' : jh_ReadFile p w = (Ok d, w') → file_of w p = Some d;
  range_perm A (m : gmap string A) w o w' :
    jh_range m w = (o, w') → ∃ l, o = Ok l ∧ l ≡ₚ map_to_list m;
}.

(** A host that answers while it is calm: what is stored can be read. *)
Class JobProgress (W : Type) {JH : JobHost W} {JR : JobReads W} := {
  calm : W → Prop;
  GetSecret_calm ns n w : calm w → ∃ o w',
    jh_GetSecret ns n w = (o, w') ∧ calm w' ∧
    match secret_of w ns n with Some s => o = Ok s | None => ∃ e, o = Err e end;
  Stat_calm p w : calm w → ∃ o w',
    jh_Stat p w = (o, w') ∧ calm w' ∧
    match file_of w p with
    | Some _ => o = Ok tt
    | None => ∃ e, o = Err e ∧ jh_IsNotExist e = true
    end;
  ReadFile_calm p w d : calm w → file_of w p = Some d →
    ∃ w', jh_ReadFile p w = (Ok d, w') ∧ calm w';
  range_calm A (m : gmap string A) w : calm w → ∃ l w', jh_range m w = (Ok l, w') ∧ calm w';
}.

(** ** Reading credentials *)

Section job.
Context {W : Type} {JH : JobHost W}.

(** The error of [os.Stat], when [os.IsNotExist] holds of it. *)
Definition not_exist (st : error + unit) : option error :=
  match st with
  | inl err => if jh_IsNotExist err then Some err else None
  | inr _ => None
  end.

Definition getDockerAuthsFromFS : M W AuthConfigs :=
  let! st := try (jh_Stat DynamicCredentialsFilepath) in
  match not_exist st with
  | Some err => throw (wrap err "cannot find dynamic cloud credentials in the filesystem")
  | None =>
      let! input := wrapping "cannot read dynamic cloud credentials from the filesystem"
                      (jh_ReadFile DynamicCredentialsFilepath) in
      wrapping "cannot extract dynamic cloud credentials from provided data"
        (lift_outcome (ExtractAuthConfigs input))
  end.

(** The checks on a fetched secret, and its credentials. *)
Definition docker_auths (secret : secret_value) : outcome AuthConfigs :=
  if bool_decide (secret.2 ≠ SecretTypeDockerConfigJson) then
    Err (New ("cannot read registry auth secret. Secret must be type "
              +:+ SecretTypeDockerConfigJson +:+ ", not " +:+ secret.2))
  else
    wrap_err "Failed to read docker auth from secret"
      (ExtractAuthConfigs (default NoDocument (secret.1 !! DockerConfigJsonKey))).

Definition getDockerAuthsFromSecret (secretName secretNamespace : string) : M W AuthConfigs :=
  let! secret := wrapping "failed to fetch registry auth secret"
                   (jh_GetSecret secretNamespace secretName) in
  lift_outcome (docker_auths secret).

Definition getBasicAuthForHost (authConfigs : AuthConfigs) (host : string)
    : outcome (string * string) :=
  wrap_err ("did not find docker auth for specified host (" +:+ fmt_q host
            +:+ ") in the supplied secret")
    (ExtractBasicAuthForHost authConfigs host).

(** ** buildRegistryConfigs *)

Definition explicit_config (apiReg : Registry) (username password : string) : RegistryConfig :=
  mkRegistryConfig (reg_Server apiReg) (reg_NonSSL apiReg) username password.

(** The body of the loop over the credentials of a secret. *)
Definition implicit_step (configured : gmap string RegistryConfig)
    (entry : string * AuthConfig) : gmap string RegistryConfig :=
  match configured !! entry.1 with
  | Some _ => configured
  | None => <[entry.1 := mkRegistryConfig entry.1 false
                           (ac_Username entry.2) (ac_Password entry.2)]> configured
  end.

(** The body of the loop over the registries. *)
Definition configure_registry (configured : gmap string RegistryConfig) (apiReg : Registry)
    : M W (gmap string RegistryConfig) :=
  do! lift_outcome (wrap_err "basic auth validation failed"
                      (of_err (Validate (reg_BasicAuth apiReg)))) in
  let auth := reg_BasicAuth apiReg in
  if IsInline auth then
    ret (<[reg_Server apiReg :=
             explicit_config apiReg (ba_Username auth) (ba_Password auth)]> configured)
  else if IsSecret auth then
    let! authConfigs := getDockerAuthsFromSecret (ba_SecretName auth) (ba_SecretNamespace auth) in
    let! up := lift_outcome (getBasicAuthForHost authConfigs (reg_Server apiReg)) in
    let configured := <[reg_Server apiReg := explicit_config apiReg up.1 up.2]> configured in
    let! entries := jh_range authConfigs in
    ret (foldl implicit_step configured entries)
  else if reg_DynamicCloudCredentials apiReg then
    let! authConfigs := getDockerAuthsFromFS in
    let! up := lift_outcome (getBasicAuthForHost authConfigs (reg_Server apiReg)) in
    ret (<[reg_Server apiReg := explicit_config apiReg up.1 up.2]> configured)
  else
    ret (<[reg_Server apiReg := explicit_config apiReg "" ""]> configured).

Fixpoint configure_registries (configured : gmap string RegistryConfig)
    (apiRegs : list Registry) : M W (gmap string RegistryConfig) :=
  match apiRegs with
  | [] => ret configured
  | apiReg :: rest =>
      let! configured := configure_registry configured apiReg in
      configure_registries configured rest
  end.

Definition buildRegistryConfigs (apiRegs : list Registry) : M W (list RegistryConfig) :=
  let! configured := configure_registries ∅ apiRegs in
  let! entries := jh_range configured in
  ret (entries.*2).
End job.

(** ** generateRegistryFunc *)

Definition rHostMap (registries : list RegistryConfig) : gmap string RegistryConfig :=
  foldl (λ m reg, <[rc_Host reg := reg]> m) ∅ registries.

(** The credentials and the plain-HTTP function of a list of registries. *)
Definition generateRegistryFunc (registries : list RegistryConfig)
    : (string → outcome (string * string)) * (string → outcome bool) :=
  let rHostMap := rHostMap registries in
  let hostCredentials host :=
    match rHostMap !! host with
    | Some reg => Ok (rc_Username reg, rc_Password reg)
    | None => Ok ("", "")
    end in
  let matchNonSSL host :=
    match rHostMap !! host with
    | Some reg => Ok (rc_NonSSL reg)
    | None => Ok false
    end in
  (hostCredentials, matchNonSSL).

(** ** Specification *)

(** The registry configurations a secret brings in. *)
Definition implicit_configs (auths : AuthConfigs) : gmap string RegistryConfig :=
  map_imap (λ host ac, Some (mkRegistryConfig host false (ac_Username ac) (ac_Password ac))) auths.

Lemma lookup_implicit_fold m l host :
  NoDup l.*1 →
  foldl implicit_step m l !! host =
  match m !! host with
  | Some c => Some c
  | None => (λ ac, mkRegistryConfig host false (ac_Username ac) (ac_Password ac))
              <$> (list_to_map l : AuthConfigs) !! host
  end.
Proof.
  revert m. induction l as [|[h ac] l IH]; intros m Hnd; simpl; [by destruct (m !! host)|].
  rewrite fmap_cons, NoDup_cons in Hnd. destruct Hnd as [Hh Hnd]. rewrite IH by done.
  unfold implicit_step. simpl. destruct (decide (h = host)) as [<-|Hne].
  - rewrite lookup_insert_eq. destruct (m !! h) eqn:E; simpl; [by rewrite E|].
    by rewrite lookup_insert_eq.
  - rewrite lookup_insert_ne by done.
    destruct (m !! h); [done|]. by rewrite lookup_insert_ne.
Qed.

(** The loop over a secret adds its hosts under the ones already configured,
    in whatever order it visits them. *)
Lemma implicit_fold m l auths :
  l ≡ₚ map_to_list auths → foldl implicit_step m l = m ∪ implicit_configs auths.
Proof.
  intros Hp. apply map_eq. intros host.
  assert (NoDup l.*1) as Hnd by (rewrite Hp; apply NoDup_fst_map_to_list).
  rewrite lookup_implicit_fold, lookup_union by done. unfold implicit_configs.
  rewrite map_lookup_imap. rewrite (list_to_map_proper l _ Hnd Hp), list_to_map_to_list.
  destruct (m !! host), (auths !! host); done.
Qed.

Section spec.
Context {W : Type} {JH : JobHost W} {JR : JobReads W}.
Implicit Types (w : W) (reg : Registry) (host : string).

(** Two states of the host hold the same secrets and files. *)
Definition same_env w w' : Prop := secret_of w' = secret_of w ∧ file_of w' = file_of w.

#[export] Instance same_env_preorder : PreOrder same_env.
Proof. split; [done|]. intros w1 w2 w3 [? ?] [? ?]. split; congruence. Qed.

Lemma same_env_GetSecret ns n : always same_env (jh_GetSecret ns n).
Proof. apply GetSecret_env. Qed.
Lemma same_env_Stat p : always same_env (jh_Stat p).
Proof. apply Stat_env. Qed.
Lemma same_env_ReadFile p : always same_env (jh_ReadFile p).
Proof. apply ReadFile_env. Qed.
Lemma same_env_range {A} (m : gmap string A) : always same_env (jh_range m).
Proof. apply range_env. Qed.
#[local] Hint Resolve same_env_GetSecret same_env_Stat same_env_ReadFile same_env_range : forge.

(** What one registry directive means for the secrets and files of [w]: its
    own configuration, and the credentials its secret brings in. *)
Definition resolve w reg : outcome (RegistryConfig * AuthConfigs) :=
  let auth := reg_BasicAuth reg in
  let with_auths o keep :=
    let? auths := o in
    let? up := getBasicAuthForHost auths (reg_Server reg) in
    Ok (explicit_config reg up.1 up.2, if keep : bool then auths else ∅) in
  match classify_auth auth with
  | BadAuth => Err (New "invalid")
  | InlineAuth => Ok (explicit_config reg (ba_Username auth) (ba_Password auth), ∅)
  | SecretAuth =>
      with_auths (match secret_of w (ba_SecretNamespace auth) (ba_SecretName auth) with
                  | Some s => docker_auths s
                  | None => Err (New "no such secret")
                  end) true
  | NoAuth =>
      if reg_DynamicCloudCredentials reg then
        with_auths (match file_of w DynamicCredentialsFilepath with
                    | Some d => ExtractAuthConfigs d
                    | None => Err (New "no such file")
                    end) false
      else Ok (explicit_config reg "" "", ∅)
  end.

(** The configuration a list of resolved directives gives a host: the last
    directive that names it, and without one the first secret that has it. *)
Definition explicit_for (rs : list (RegistryConfig * AuthConfigs)) host : option RegistryConfig :=
  last (filter (λ c, rc_Host c = host) rs.*1).

Definition implicit_for (rs : list (RegistryConfig * AuthConfigs)) host : option RegistryConfig :=
  head (omap (λ auths, implicit_configs auths !! host) rs.*2).

Definition precedence (rs : list (RegistryConfig * AuthConfigs)) host : option RegistryConfig :=
  match explicit_for rs host with
  | Some c => Some c
  | None => implicit_for rs host
  end.

(** One directive on what a host has so far. *)
Definition override (base : option RegistryConfig) (r : RegistryConfig * AuthConfigs) host
    : option RegistryConfig :=
  if bool_decide (rc_Host r.1 = host) then Some r.1
  else match base with
       | Some c => Some c
       | None => implicit_configs r.2 !! host
       end.

Lemma foldl_override base rs host :
  foldl (λ b r, override b r host) base rs =
  match explicit_for rs host with
  | Some c => Some c
  | None => match base with Some c => Some c | None => implicit_for rs host end
  end.
Proof.
  revert base. induction rs as [|[c auths] rs IH]; intros base; simpl; [by destruct base|].
  rewrite IH. unfold explicit_for, implicit_for, override. rewrite !fmap_cons. simpl.
  rewrite filter_cons. destruct (decide (rc_Host c = host)) as [E|E].
  - rewrite bool_decide_eq_true_2 by done. rewrite last_cons. by destruct (last _).
  - rewrite bool_decide_eq_false_2 by done. destruct (last _); [done|].
    destruct base; [done|]. by destruct (implicit_configs auths !! host).
Qed.

Lemma override_lookup m cfg auths host :
  (<[rc_Host cfg := cfg]> m ∪ implicit_configs auths) !! host
  = override (m !! host) (cfg, auths) host.
Proof.
  unfold override. rewrite lookup_union. simpl.
  case_bool_decide as E; [subst; rewrite lookup_insert_eq|rewrite lookup_insert_ne by done].
  - by destruct (implicit_configs auths !! rc_Host cfg).
  - by destruct (m !! host), (implicit_configs auths !! host).
Qed.

Lemma getDockerAuthsFromFS_spec w o w' :
  getDockerAuthsFromFS w = (o, w') →
  same_env w w' ∧
  ∀ auths, o = Ok auths →
    ∃ d, file_of w DynamicCredentialsFilepath = Some d ∧ ExtractAuthConfigs d = Ok auths.
Proof.
  intros H. split.
  { revert H. apply (always_bind same_env); [eauto with forge|].
    intros st. destruct (not_exist st); eauto with forge. }
  intros auths ->. apply bind_Ok_inv in H as (st & w1 & H1 & H2).
  assert (same_env w w1) as [_ HF] by (revert H1; apply always_try, same_env_Stat).
  destruct (not_exist st) as [e|]; [done|].
  apply bind_Ok_inv in H2 as (d & w2 & H3 & H4). exists d. unfold wrapping, lift_outcome in *.
  destruct (jh_ReadFile _ w1) as [[d'|e|m] w3] eqn:Hr; simplify_eq/=.
  apply ReadFile_fresh in Hr. rewrite <- HF, Hr. by destruct (ExtractAuthConfigs d); simplify_eq/=.
Qed.

Lemma getDockerAuthsFromSecret_spec n ns w o w' :
  getDockerAuthsFromSecret n ns w = (o, w') →
  same_env w w' ∧
  ∀ auths, o = Ok auths → ∃ s, secret_of w ns n = Some s ∧ docker_auths s = Ok auths.
Proof.
  unfold getDockerAuthsFromSecret. intros H. split.
  { revert H. apply (always_bind same_env); eauto with forge. }
  intros auths ->. apply bind_Ok_inv in H as (s & w1 & H1 & H2). exists s.
  unfold wrapping in H1. destruct (jh_GetSecret ns n w) as [[s'|e|m] w2] eqn:Hg; simplify_eq/=.
  apply GetSecret_fresh in Hg. unfold lift_outcome in H2. by simplify_eq.
Qed.

(** ** The loop over the registries *)

Lemma resolve_env w w' reg : same_env w w' → resolve w' reg = resolve w reg.
Proof. intros [HS HF]. unfold resolve. by rewrite HS, HF. Qed.

Lemma same_env_FS : always same_env getDockerAuthsFromFS.
Proof. intros w o w' H. by apply getDockerAuthsFromFS_spec in H as [H _]. Qed.
Lemma same_env_Secret n ns : always same_env (getDockerAuthsFromSecret n ns).
Proof. intros w o w' H. by apply getDockerAuthsFromSecret_spec in H as [H _]. Qed.
#[local] Hint Resolve same_env_FS same_env_Secret : forge.

Lemma same_env_configure m reg : always same_env (configure_registry m reg).
Proof.
  unfold configure_registry. apply (always_bind same_env); [eauto with forge|]. intros _.
  destruct (IsInline _); [eauto with forge|]. destruct (IsSecret _); [eauto 8 with forge|].
  destruct (reg_DynamicCloudCredentials reg); eauto 8 with forge.
Qed.

Lemma implicit_configs_empty : implicit_configs ∅ = ∅.
Proof. apply map_imap_empty. Qed.

Lemma configure_registry_spec m reg w m' w' :
  configure_registry m reg w = (Ok m', w') →
  ∃ cfg auths, resolve w reg = Ok (cfg, auths) ∧ rc_Host cfg = reg_Server reg ∧
    m' = <[rc_Host cfg := cfg]> m ∪ implicit_configs auths.
Proof.
  unfold configure_registry, resolve. pose proof (Validate_form (reg_BasicAuth reg)) as Hv.
  intros ([] & w0 & [= H0 <-] & H)%bind_Ok_inv.
  destruct (classify_auth _); destruct Hv as (HV & HI & HS) || (destruct Hv as [e HV]; by rewrite HV in H0);
    rewrite HI, HS in H; simpl in H.
  - destruct (reg_DynamicCloudCredentials reg).
    + apply bind_Ok_inv in H as (auths & w1 & H1 & H).
      apply getDockerAuthsFromFS_spec in H1 as [_ H1].
      destruct (H1 _ eq_refl) as (d & -> & Hd). rewrite Hd. simpl.
      apply bind_Ok_inv in H as (up & w2 & [= H2 <-] & [= <- <-]). rewrite H2.
      eexists _, ∅. split; [done|]. by rewrite implicit_configs_empty, (right_id_L ∅ (∪)).
    + injection H as <- <-. eexists _, ∅. split; [done|].
      by rewrite implicit_configs_empty, (right_id_L ∅ (∪)).
  - injection H as <- <-. eexists _, ∅. split; [done|].
    by rewrite implicit_configs_empty, (right_id_L ∅ (∪)).
  - apply bind_Ok_inv in H as (auths & w1 & H1 & H).
    apply getDockerAuthsFromSecret_spec in H1 as [_ H1].
    destruct (H1 _ eq_refl) as (s & -> & Hs). rewrite Hs. simpl.
    apply bind_Ok_inv in H as (up & w2 & [= H2 <-] & H). rewrite H2.
    apply bind_Ok_inv in H as (l & w3 & H3 & [= <- <-]).
    apply range_perm in H3 as (l' & [= <-] & Hp).
    eexists _, auths. split; [done|]. split; [done|]. by apply implicit_fold.
Qed.

(** Every configuration is stored under its own host. *)
Definition host_keyed (m : gmap string RegistryConfig) : Prop :=
  map_Forall (λ host c, rc_Host c = host) m.

Lemma host_keyed_step m cfg auths :
  host_keyed m → host_keyed (<[rc_Host cfg := cfg]> m ∪ implicit_configs auths).
Proof.
  intros Hm host c. rewrite override_lookup. unfold override. simpl.
  case_bool_decide; [by intros [= <-]|].
  destruct (m !! host) eqn:E; [intros [= <-]; by apply Hm|].
  unfold implicit_configs. rewrite map_lookup_imap.
  destruct (auths !! host); simpl; [by intros [= <-]|done].
Qed.

Lemma configure_registries_spec regs m w m' w' :
  host_keyed m → configure_registries m regs w = (Ok m', w') →
  host_keyed m' ∧
  ∃ rs, Forall2 (λ reg r, resolve w reg = Ok r) regs rs ∧
    ∀ host, m' !! host = foldl (λ b r, override b r host) (m !! host) rs.
Proof.
  revert m w. induction regs as [|reg regs IH]; intros m w Hk H; simpl in H.
  { injection H as <- <-. split; [done|]. by exists []. }
  apply bind_Ok_inv in H as (m1 & w1 & H1 & H2).
  pose proof (same_env_configure _ _ _ _ _ H1) as Henv.
  apply configure_registry_spec in H1 as (cfg & auths & Hr & _ & ->).
  apply IH in H2 as (Hk' & rs & Hrs & Hl); [|by apply host_keyed_step].
  split; [done|]. exists ((cfg, auths) :: rs). split.
  - constructor; [done|]. eapply Forall2_impl; [exact Hrs|].
    intros reg' r Hr'. by rewrite <- Hr', (resolve_env w w1).
  - intros host. simpl. by rewrite Hl, override_lookup.
Qed.

Lemma lookup_rHostMap_fold (l : list RegistryConfig) (m : gmap string RegistryConfig) host :
  NoDup (rc_Host <$> l) →
  foldl (λ m c, <[rc_Host c := c]> m) m l !! host =
  match list_find (λ c, rc_Host c = host) l with
  | Some (_, c) => Some c
  | None => m !! host
  end.
Proof.
  revert m. induction l as [|c l IH]; intros m Hnd; simpl; [done|].
  rewrite fmap_cons, NoDup_cons in Hnd. destruct Hnd as [Hc Hnd]. rewrite IH by done.
  destruct (decide (rc_Host c = host)) as [<-|Hne].
  - destruct (list_find _ l) as [[i d]|] eqn:E; [|by rewrite lookup_insert_eq].
    apply list_find_Some in E as (Hd & E & _). exfalso. apply Hc. rewrite <- E.
    by eapply list_elem_of_fmap_2, list_elem_of_lookup_2.
  - rewrite lookup_insert_ne by done. by destruct (list_find _ l) as [[i d]|].
Qed.

(** The host map does not depend on the order of the configurations. *)
Lemma rHostMap_values (l : list (string * RegistryConfig)) m :
  host_keyed m → l ≡ₚ map_to_list m → NoDup (rc_Host <$> l.*2) ∧ rHostMap (l.*2) = m.
Proof.
  intros Hk Hp.
  assert (rc_Host <$> l.*2 = l.*1) as E.
  { rewrite <- list_fmap_compose. apply list_fmap_ext. intros i [h c] Hi. simpl.
    apply list_elem_of_lookup_2 in Hi. rewrite Hp in Hi.
    apply elem_of_map_to_list in Hi. by apply Hk. }
  assert (NoDup (rc_Host <$> l.*2)) as Hnd
    by (rewrite E, Hp; apply NoDup_fst_map_to_list).
  split; [done|]. apply map_eq. intros host. unfold rHostMap.
  rewrite lookup_rHostMap_fold by done.
  assert (∀ c, c ∈ l.*2 ↔ m !! rc_Host c = Some c) as Hin.
  { intros c. rewrite Hp, list_elem_of_fmap. split.
    - intros ([h c'] & -> & Hc%elem_of_map_to_list). simpl. by rewrite (Hk _ _ Hc).
    - intros Hc. exists (rc_Host c, c). by rewrite elem_of_map_to_list. }
  destruct (list_find _ _) as [[i c]|] eqn:F.
  - apply list_find_Some in F as (Hc & <- & _).
    apply list_elem_of_lookup_2, Hin in Hc. done.
  - apply list_find_None in F. rewrite Forall_forall in F. rewrite lookup_empty.
    destruct (m !! host) as [c|] eqn:Hc; [|done]. exfalso.
    apply (F c); [|by apply Hk]. apply Hin. by rewrite (Hk _ _ Hc).
Qed.

Lemma buildRegistryConfigs_spec regs w cfgs w' :
  buildRegistryConfigs regs w = (Ok cfgs, w') →
  NoDup (rc_Host <$> cfgs) ∧
  ∃ rs, Forall2 (λ reg r, resolve w reg = Ok r) regs rs ∧
        ∀ host, rHostMap cfgs !! host = precedence rs host.
Proof.
  unfold buildRegistryConfigs. intros (m & w1 & H1 & H)%bind_Ok_inv.
  apply configure_registries_spec in H1 as (Hk & rs & Hrs & Hl); [|done].
  apply bind_Ok_inv in H as (l & w2 & H2 & [= <- <-]).
  apply range_perm in H2 as (l' & [= <-] & Hp).
  destruct (rHostMap_values l m Hk Hp) as [Hnd ->].
  split; [done|]. exists rs. split; [done|]. intros host. rewrite Hl, foldl_override.
  unfold precedence. by destruct (explicit_for rs host).
Qed.

(** C11: Refinement.  The map-based loops give every host the configuration
    the documentation promises: each directive of the build is resolved against
    the secrets and files of the job; a host named by a directive gets the last
    one that names it, and a host no directive names gets the credentials of the
    first secret that has it; the result has one entry for each host.  This
    holds for every order in which the Go maps are visited. *)
Theorem buildRegistryConfigs_precedence regs w cfgs w' :
  buildRegistryConfigs regs w = (Ok cfgs, w') →
  NoDup (rc_Host <$> cfgs) ∧
  ∃ rs, Forall2 (λ reg r, resolve w reg = Ok r) regs rs ∧
    ∀ host,
      (generateRegistryFunc cfgs).1 host =
        Ok (match precedence rs host with
            | Some c => (rc_Username c, rc_Password c)
            | None => ("", "")
            end) ∧
      (generateRegistryFunc cfgs).2 host =
        Ok (match precedence rs host with Some c => rc_NonSSL c | None => false end).
Proof.
  intros (Hnd & rs & Hrs & Hl)%buildRegistryConfigs_spec. split; [done|]. exists rs.
  split; [done|]. intros host. simpl. rewrite Hl. by destruct (precedence rs host).
Qed.

(** ** When the configuration succeeds *)

Context {JP : JobProgress W}.

(** [c] answers on a calm host, without a panic, and succeeds exactly when [b]. *)
Definition answers {A} (c : M W A) w (b : bool) : Prop :=
  ∃ o w', c w = (o, w') ∧ calm w' ∧ same_env w w' ∧ is_Ok o = b ∧ no_panic o.

Lemma answers_ret {A} (a : A) w : calm w → answers (ret a) w true.
Proof. intros Hw. by eexists _, _. Qed.

Lemma answers_lift {A} (o : outcome A) w :
  calm w → no_panic o → answers (lift_outcome o) w (is_Ok o).
Proof. intros Hw Ho. by eexists _, _. Qed.

Lemma answers_bind {A B} (c : M W A) (k : A → M W B) w b r :
  answers c w b → (b = false → r = false) →
  (∀ a w', c w = (Ok a, w') → calm w' → same_env w w' → answers (k a) w' r) →
  answers (bind c k) w r.
Proof.
  intros (o & w1 & H1 & Hc & He & Hb & Hp) Hr Hk. unfold answers, bind. rewrite H1.
  destruct o as [a|e|m]; simpl in Hb; subst b; simpl.
  - destruct (Hk a w1) as (o & w2 & H2 & Hc2 & He2 & Hb2 & Hp2); [done..|].
    exists o, w2. split_and!; try done. by etrans.
  - eexists _, _. split_and!; try done. symmetry. by apply Hr.
  - by destruct (Hp m).
Qed.

Lemma docker_auths_no_panic s : no_panic (docker_auths s).
Proof.
  unfold docker_auths. case_bool_decide; auto using ExtractAuthConfigs_no_panic with forge.
Qed.

Lemma getBasicAuthForHost_no_panic auths host : no_panic (getBasicAuthForHost auths host).
Proof. unfold getBasicAuthForHost, ExtractBasicAuthForHost. by destruct (auths !! host). Qed.

Lemma answers_FS w :
  calm w →
  answers getDockerAuthsFromFS w
    (match file_of w DynamicCredentialsFilepath with
     | Some d => is_Ok (ExtractAuthConfigs d)
     | None => false
     end).
Proof.
  intros Hw. destruct (Stat_calm DynamicCredentialsFilepath w Hw) as (o & w1 & H1 & Hc1 & Ho).
  pose proof (same_env_Stat _ _ _ _ H1) as He1.
  unfold getDockerAuthsFromFS, answers, bind at 1, try. rewrite H1.
  destruct (file_of w _) as [d|] eqn:Hf.
  - subst o. simpl. destruct (ReadFile_calm DynamicCredentialsFilepath w1 d) as (w2 & H2 & Hc2);
      [done|by destruct He1 as [_ ->]|].
    pose proof (same_env_ReadFile _ _ _ _ H2) as He2.
    unfold bind, wrapping, lift_outcome. rewrite H2. simpl.
    eexists _, _. split_and!; [done..| | |].
    + etrans; [exact He1|exact He2].
    + by destruct (ExtractAuthConfigs d).
    + apply no_panic_wrap_err, ExtractAuthConfigs_no_panic.
  - destruct Ho as (e & -> & He). simpl. rewrite He. by eexists _, _.
Qed.

Lemma answers_Secret n ns w :
  calm w →
  answers (getDockerAuthsFromSecret n ns) w
    (match secret_of w ns n with Some s => is_Ok (docker_auths s) | None => false end).
Proof.
  intros Hw. destruct (GetSecret_calm ns n w Hw) as (o & w1 & H1 & Hc1 & Ho).
  pose proof (same_env_GetSecret _ _ _ _ _ H1) as He1.
  unfold getDockerAuthsFromSecret, answers, bind, wrapping. rewrite H1.
  destruct (secret_of w ns n) as [s|].
  - subst o. simpl. eexists _, _. split_and!; try done. apply docker_auths_no_panic.
  - destruct Ho as (e & ->). by eexists _, _.
Qed.

(** The common tail of the two cases that look a host up in a set of
    credentials. *)
Lemma answers_lookup {B} (auths : AuthConfigs) host (k : string * string → M W B) w :
  calm w → (∀ up w', calm w' → answers (k up) w' true) →
  answers (bind (lift_outcome (getBasicAuthForHost auths host)) k) w
    (is_Ok (getBasicAuthForHost auths host)).
Proof.
  intros Hw Hk. eapply answers_bind; [by apply answers_lift, getBasicAuthForHost_no_panic|done|].
  intros up w1 [= H1 <-] _ _. rewrite H1. by apply Hk.
Qed.

Lemma is_Ok_obind {A B} (c : outcome A) (f : A → B) : is_Ok (let? a := c in Ok (f a)) = is_Ok c.
Proof. by destruct c. Qed.

Lemma answers_configure m reg w :
  calm w → answers (configure_registry m reg) w (is_Ok (resolve w reg)).
Proof.
  intros Hw. unfold configure_registry, resolve.
  pose proof (Validate_form (reg_BasicAuth reg)) as Hv.
  destruct (classify_auth _);
    [destruct Hv as (HV & HI & HS); rewrite HV, HI, HS; simpl..|destruct Hv as [e ->]; by eexists _, _].
  - unfold bind at 1. simpl. destruct (reg_DynamicCloudCredentials reg); [|by apply answers_ret].
    eapply answers_bind; [by apply answers_FS| |].
    { destruct (file_of w _); [|done]. by destruct (ExtractAuthConfigs _). }
    intros auths w1 H1 Hw1 _. apply getDockerAuthsFromFS_spec in H1 as [_ H1].
    destruct (H1 _ eq_refl) as (d & -> & Hd). rewrite Hd. simpl. rewrite is_Ok_obind.
    apply answers_lookup; [done|]. intros up w2 Hw2. by apply answers_ret.
  - by apply answers_ret.
  - unfold bind at 1. simpl. eapply answers_bind; [by apply answers_Secret| |].
    { destruct (secret_of w _); [|done]. by destruct (docker_auths _). }
    intros auths w1 H1 Hw1 _. apply getDockerAuthsFromSecret_spec in H1 as [_ H1].
    destruct (H1 _ eq_refl) as (s & -> & Hs). rewrite Hs. simpl. rewrite is_Ok_obind.
    apply answers_lookup; [done|]. intros up w2 Hw2.
    destruct (range_calm _ auths w2 Hw2) as (l & w3 & H3 & Hw3).
    pose proof (same_env_range _ _ _ _ H3) as He3.
    unfold answers, bind. rewrite H3. by eexists _, _.
Qed.

Lemma answers_configure_all regs m w :
  calm w → answers (configure_registries m regs) w (forallb (λ reg, is_Ok (resolve w reg)) regs).
Proof.
  revert m w. induction regs as [|reg regs IH]; intros m w Hw; [by apply answers_ret|]. simpl.
  destruct (answers_configure m reg w Hw) as (o & w1 & H1 & Hw1 & He1 & Hb & Hp).
  eapply answers_bind; [by exists o, w1| |].
  { by intros ->. }
  intros m1 w' H1' Hw' He'. rewrite H1 in H1'. injection H1' as -> ->.
  simpl in Hb. rewrite <- Hb. simpl.
  erewrite (forallb_ext _ (λ reg, is_Ok (resolve w' reg)));
    [by apply IH|intros r; by rewrite (resolve_env w w')].
Qed.

(** Error behaviour.  On a host that answers, the registries are accepted
    exactly when every directive resolves: its credentials have a valid form,
    the secret it names exists, is of the Docker type, decodes and contains the
    server, and likewise the dynamic-credentials file when the directive asks
    for it.  Nothing makes it panic. *)
Theorem buildRegistryConfigs_accepts regs w :
  calm w →
  ∃ o w', buildRegistryConfigs regs w = (o, w') ∧ no_panic o ∧
    (is_Ok o = true ↔ ∀ reg, reg ∈ regs → is_Ok (resolve w reg) = true).
Proof.
  intros Hw.
  assert (answers (buildRegistryConfigs regs) w (forallb (λ reg, is_Ok (resolve w reg)) regs))
    as (o & w' & H & _ & _ & Hb & Hp).
  { eapply answers_bind; [by apply answers_configure_all|done|].
    intros m w1 H1 Hw1 _. destruct (range_calm _ m w1 Hw1) as (l & w2 & H2 & Hw2).
    apply same_env_range in H2 as He2.
    destruct (answers_configure_all regs ∅ w Hw) as (o & w1' & H1' & _ & _ & Hb & _).
    rewrite H1 in H1'. injection H1' as <- <-. rewrite <- Hb.
    unfold answers, bind. rewrite H2. by eexists _, _. }
  exists o, w'. split; [done|]. split; [done|]. rewrite Hb, forallb_forall.
  setoid_rewrite list_elem_of_In. done.
Qed.
End spec.

(** ** A host in memory *)

(** Secrets, files, which of the next calls fail, and for each of the next
    loops over a map whether it runs backwards. *)
Record jobhost := mkJobHost {
  h_secrets : gmap (string * string) secret_value;
  h_files : gmap string document;
  h_faults : list (option string);
  h_orders : list bool;
}.

Definition h_call : M jobhost unit := λ h,
  match h_faults h with
  | [] => (Ok tt, h)
  | None :: fs => (Ok tt, mkJobHost (h_secrets h) (h_files h) fs (h_orders h))
  | Some m :: fs => (Err (New m), mkJobHost (h_secrets h) (h_files h) fs (h_orders h))
  end.

Definition ENOENT : error := New "no such file or directory".

#[export] Instance jobhost_calls : JobHost jobhost := {|
  jh_GetSecret ns n :=
    do! h_call in
    λ h, match h_secrets h !! (ns, n) with
         | Some s => (Ok s, h)
         | None => (Err (not_found n), h)
         end;
  jh_Stat p :=
    do! h_call in
    λ h, match h_files h !! p with Some _ => (Ok tt, h) | None => (Err ENOENT, h) end;
  jh_ReadFile p :=
    do! h_call in
    λ h, match h_files h !! p with Some d => (Ok d, h) | None => (Err ENOENT, h) end;
  jh_IsNotExist e := bool_decide (Error e = Error ENOENT);
  jh_range A m :=
    λ h, (Ok (match h_orders h with
              | true :: _ => reverse (map_to_list m)
              | _ => map_to_list m
              end),
          mkJobHost (h_secrets h) (h_files h) (h_faults h) (tail (h_orders h)));
|}.

Lemma h_call_inv h o h' :
  h_call h = (o, h') → h_secrets h' = h_secrets h ∧ h_files h' = h_files h.
Proof. unfold h_call. repeat case_match; naive_solver. Qed.

#[export] Instance jobhost_reads : JobReads jobhost.
Proof.
  refine {| secret_of h ns n := h_secrets h !! (ns, n); file_of h p := h_files h !! p |};
    unfold always; simpl; intros;
    try (match goal with
         | H : bind h_call _ _ = _ |- _ =>
             apply bind_inv in H as [(?&?&Hc&?)|[(?&Hc&?)|(?&Hc&?)]];
             apply h_call_inv in Hc as [HS HF]
         end; repeat case_match; simplify_eq/=; rewrite ?HS, ?HF in *; done).
  - by simplify_eq/=.
  - simplify_eq/=. eexists. split; [done|].
    destruct (h_orders _) as [|[] ?]; [done|apply reverse_Permutation|done].
Defined.

#[export] Instance jobhost_progress : JobProgress jobhost.
Proof.
  refine {| calm h := h_faults h = [] |}; simpl; unfold bind, h_call.
  - intros ns n h Hh. rewrite Hh. destruct (h_secrets h !! (ns, n)); eexists _, _; eauto.
  - intros p h Hh. rewrite Hh. destruct (h_files h !! p); eexists _, _; eauto.
  - intros p h d Hh Hd. rewrite Hh, Hd. eauto.
  - intros A m h Hh. eauto.
Defined.

Module HostSample.
Definition auth_json (u p : string) : json := JObj [("username", JStr u); ("password", JStr p)].
Definition pull_secret : secret_value :=
  ({[ DockerConfigJsonKey :=
        Document (JObj [("auths", JObj [("a.io", auth_json "ua" "pa"); ("b.io", auth_json "ub" "pb")])]) ]},
   SecretTypeDockerConfigJson).
Definition regs : list Registry :=
  [mkRegistry "a.io" true (mkBasicAuthConfig "" "" "pull" "ns") false;
   mkRegistry "c.io" false (mkBasicAuthConfig "uc" "pc" "" "") false].
Definition host : jobhost := mkJobHost {[ ("ns", "pull") := pull_secret ]} ∅ [] [true; true].

Lemma buildRegistryConfigs_precedence_witness :
  let cfgs := [mkRegistryConfig "b.io" false "ub" "pb"; mkRegistryConfig "a.io" true "ua" "pa";
               mkRegistryConfig "c.io" false "uc" "pc"] in
  (buildRegistryConfigs regs host).1 = Ok cfgs ∧
  ∃ rs, Forall2 (λ reg r, resolve host reg = Ok r) regs rs ∧
    (generateRegistryFunc cfgs).1 "b.io" =
      Ok (match precedence rs "b.io" with
          | Some c => (rc_Username c, rc_Password c)
          | None => ("", "")
          end).
Proof.
  intros cfgs. split; [vm_compute; reflexivity|].
  destruct (buildRegistryConfigs_precedence regs host cfgs
              (buildRegistryConfigs regs host).2) as (_ & rs & Hrs & H).
  { apply run_split. vm_compute. reflexivity. }
  exists rs. split; [exact Hrs|]. exact (proj1 (H "b.io")).
Defined.

Lemma buildRegistryConfigs_accepts_witness :
  ∃ o w', buildRegistryConfigs regs host = (o, w') ∧ no_panic o ∧
    (is_Ok o = true ↔ ∀ reg, reg ∈ regs → is_Ok (resolve host reg) = true).
Proof. apply (buildRegistryConfigs_accepts regs host). reflexivity. Defined.
End HostSample.
