(* ===== verification/BuildJob.v ===== *)
(** * BuildJob: the life of one build

    [internal/buildjob]: the job fetches its ContainerImageBuild, moves it
    through the build states, publishes every transition, and hands the build
    options to the image builder. *)
From stdpp Require Import gmap strings list.
From Stdlib Require Import ZArith.
From S2P Require Import Prelude Go GoStd Types Config Kube Credentials Resources RegistryConfig.

(** ** Messages *)

Record StatusUpdate := mkStatusUpdate {
  su_Name : string;
  su_Annotations : gmap string string;
  su_ObjectLink : string;
  su_PreviousState : string;
  su_CurrentState : string;
  su_ErrorMessage : string;
  su_ImageURLs : list string;
  su_ImageSize : Z; (* uint64 *)
}.

(** ** What the job calls *)

(** The forge clientset, the message producer, the image builder, the clock
    and the log of the job. *)
Class JobClients (W : Type) := {
  fc_Get : NamespacedName → M W ContainerImageBuild;
  fc_UpdateStatus : ContainerImageBuild → M W ContainerImageBuild;
  pr_Push : StatusUpdate → M W unit;
  bld_BuildAndPush : BuildOptions → M W Image;
  time_Now : M W Z;
  log_Info : string → M W unit;
}.

(** [Job], the fields that do not change: the name of the resource and whether
    a producer is set. *)
Record Job := mkJob {
  j_name : string;
  j_namespace : string;
  j_producer : bool;
}.

(** ** Errors that are logged *)

(** [logError]: the lines it writes. *)
Definition ignoredErrors : list string := ["runc did not terminate successfully"].

Definition logError (err : error) : list string :=
  let err := default err (Unwrap err) in
  let cause := Cause err in
  if bool_decide (Error cause ∈ ignoredErrors) then []
  else [Repeat "=" 70; "Error during image build and push: " +:+ Error cause].

(** The status as the API server stores it: [PreviousState] has the JSON tag
    "-" and is not part of the document. *)
Definition wire_status (s : ContainerImageBuildStatus) : ContainerImageBuildStatus :=
  mkStatus "" (st_State s) (st_ImageURLs s) (st_ImageSize s) (st_ErrorMessage s)
    (st_BuildStartedAt s) (st_BuildCompletedAt s).

Section job.
Context {W : Type} {JC : JobClients W} {JH : JobHost W}.
Implicit Types (cib : ContainerImageBuild).

(** ** Status transitions *)

Definition status_update cib : StatusUpdate :=
  mkStatusUpdate (cib_Name cib) (cib_Annotations cib)
    (TrimSuffix (om_SelfLink (cib_ObjectMeta cib)) "/status")
    (st_PreviousState (cib_Status cib)) (st_State (cib_Status cib))
    (st_ErrorMessage (cib_Status cib)) (st_ImageURLs (cib_Status cib)) 0.

(** The part of [updateStatus] that runs when a producer is set. *)
Definition publish (j : Job) cib : M W unit :=
  if j_producer j then wrapping "unable to publish message" (pr_Push (status_update cib))
  else ret tt.

Definition updateStatus (j : Job) cib : M W ContainerImageBuild :=
  let! cib := wrapping "unable to update status" (fc_UpdateStatus cib) in
  do! publish j cib in
  ret cib.

Definition set_started (t : Z) (s : ContainerImageBuildStatus) : ContainerImageBuildStatus :=
  mkStatus (st_PreviousState s) (st_State s) (st_ImageURLs s) (st_ImageSize s)
    (st_ErrorMessage s) (Some t) (st_BuildCompletedAt s).

Definition set_completed (t : Z) (s : ContainerImageBuildStatus) : ContainerImageBuildStatus :=
  mkStatus (st_PreviousState s) (st_State s) (st_ImageURLs s) (st_ImageSize s)
    (st_ErrorMessage s) (st_BuildStartedAt s) (Some t).

Definition set_image (image : Image) (s : ContainerImageBuildStatus) : ContainerImageBuildStatus :=
  mkStatus (st_PreviousState s) (st_State s) (img_URLs image) (img_Size image)
    (st_ErrorMessage s) (st_BuildStartedAt s) (st_BuildCompletedAt s).

Definition set_error (msg : string) (s : ContainerImageBuildStatus) : ContainerImageBuildStatus :=
  mkStatus (st_PreviousState s) (st_State s) (st_ImageURLs s) (st_ImageSize s)
    msg (st_BuildStartedAt s) (st_BuildCompletedAt s).

Definition transitionToBuilding (j : Job) cib : M W ContainerImageBuild :=
  let s := SetState (cib_Status cib) BuildStateBuilding in
  let! t := time_Now in
  updateStatus j (with_status (set_started t s) cib).

Definition transitionToComplete (j : Job) cib (image : Image) : M W unit :=
  let s := set_image image (SetState (cib_Status cib) BuildStateCompleted) in
  let! t := time_Now in
  do! updateStatus j (with_status (set_completed t s) cib) in ret tt.

Definition transitionToFailure (j : Job) cib (err : error) : M W unit :=
  let s := set_error (Error err) (SetState (cib_Status cib) BuildStateFailed) in
  let! t := time_Now in
  do! updateStatus j (with_status (set_completed t s) cib) in ret tt.

(** ** Build options *)

Definition build_options (spec : ContainerImageBuildSpec) (registries : list RegistryConfig)
    : BuildOptions :=
  mkBuildOptions (spec_Context spec)
    (mul_int64 (spec_ContextTimeoutSeconds spec) Second)
    (spec_ImageName spec) (spec_ImageSizeLimit spec) (spec_Labels spec)
    (spec_BuildArgs spec) (spec_DisableBuildCache spec)
    (spec_DisableLayerCacheExport spec)
    (mul_int64 (spec_TimeoutSeconds spec) Second)
    registries (spec_PushRegistries spec) (spec_PluginData spec) [].

Definition generateBuildOptions cib : M W BuildOptions :=
  let! registries := wrapping "cannot build registry config"
                       (buildRegistryConfigs (spec_Registries (cib_Spec cib))) in
  ret (build_options (cib_Spec cib) registries).

(** ** Run *)

(** The error path shared by a failed preparation and a failed build: the
    failure is recorded, and an error doing so wraps the first one. *)
Definition fail_build (j : Job) cib (err : error) : M W unit :=
  let! res := try (transitionToFailure j cib err) in
  match res with
  | inl iErr => throw (wrap err (Error iErr))
  | inr _ => throw err
  end.

(** [Run] once the resource is in the building state. *)
Definition run_build (j : Job) cib : M W unit :=
  let! got := try (generateBuildOptions cib) in
  match got with
  | inl err => fail_build j cib (wrap err "failed to generate build options")
  | inr opts =>
      let! built := try (bld_BuildAndPush opts) in
      match built with
      | inl err =>
          do! for_each log_Info (logError err) in
          fail_build j cib err
      | inr images => transitionToComplete j cib images
      end
  end.

Definition Run (j : Job) : M W unit :=
  let! cib := wrapping ("cannot find containerimagebuild " +:+ j_name j)
                (fc_Get (mkKey (j_namespace j) (j_name j))) in
  let! cib := transitionToBuilding j cib in
  run_build j cib.
End job.

(** ** What the job relies on *)

(** The build [old] after the API server accepted the status of [c] as the
    version [v]: the status subresource changes nothing else. *)
Definition put_status (v : string) (c old : ContainerImageBuild) : ContainerImageBuild :=
  with_status (wire_status (cib_Status c)) (with_version v old).

(** The server takes an update that was made for the version it has, or for any. *)
Definition accepts (c old : ContainerImageBuild) : Prop :=
  cib_version c = "" ∨ cib_version c = cib_version old.

#[export] Instance accepts_dec c old : Decision (accepts c old).
Proof. unfold accepts. apply _. Defined.

(** Promises of the API server and of the broker.  A status update or a message
    whose call fails may have arrived or not. *)
Class JobServer (W : Type) {JC : JobClients W} {JH : JobHost W} {JR : JobReads W} := {
  builds_at : W → gmap NamespacedName ContainerImageBuild;
  published : W → list StatusUpdate;
  quiet w w' := builds_at w' = builds_at w ∧ published w' = published w;
  fcGet_reads k : always quiet (fc_Get k);
  fcGet_fresh k w c w' : fc_Get k w = (Ok c, w') → builds_at w !! k = Some c;
  UpdateStatus_writes c w o w' :
    fc_UpdateStatus c w = (o, w') →
    published w' = published w ∧
    (builds_at w' = builds_at w ∧ is_Ok o = false ∨
     ∃ v old, builds_at w !! cib_key c = Some old ∧ accepts c old ∧
       builds_at w' = <[cib_key c := put_status v c old]> (builds_at w) ∧
       ∀ c', o = Ok c' → c' = put_status v c old);
  Push_publishes u w o w' :
    pr_Push u w = (o, w') →
    builds_at w' = builds_at w ∧
    (published w' = published w ∧ is_Ok o = false ∨ published w' = published w ++ [u]);
  BuildAndPush_quiet opts : always quiet (bld_BuildAndPush opts);
  Now_quiet : always quiet time_Now;
  log_quiet s : always quiet (log_Info s);
  reads_quiet : ∀ ns n p A (m : gmap string A),
    always quiet (jh_GetSecret ns n) ∧ always quiet (jh_Stat p) ∧
    always quiet (jh_ReadFile p) ∧ always quiet (jh_range m);
}.

(** ** The history of a run *)

(** The versions of the resource a run can store. *)
Definition building (v : string) (t : Z) (c : ContainerImageBuild) : ContainerImageBuild :=
  put_status v (with_status (set_started t (SetState (cib_Status c) BuildStateBuilding)) c) c.

Definition completed (v : string) (t : Z) (image : Image) (c : ContainerImageBuild)
    : ContainerImageBuild :=
  put_status v (with_status (set_completed t (set_image image
    (SetState (cib_Status c) BuildStateCompleted))) c) c.

Definition failed (v : string) (t : Z) (err : error) (c : ContainerImageBuild)
    : ContainerImageBuild :=
  put_status v (with_status (set_completed t (set_error (Error err)
    (SetState (cib_Status c) BuildStateFailed))) c) c.

(** The versions a run stores after [c], in order: none, the start, or the
    start and one of the two ends. *)
Inductive progress (c : ContainerImageBuild) : list ContainerImageBuild → Prop :=
| progress_idle : progress c []
| progress_started v t : progress c [building v t c]
| progress_completed v t v' t' image :
    progress c [building v t c; completed v' t' image (building v t c)]
| progress_failed v t v' t' err :
    progress c [building v t c; failed v' t' err (building v t c)].

(** The store after the versions [hist] of [k]. *)
Definition commit (k : NamespacedName) (hist : list ContainerImageBuild)
    (m : gmap NamespacedName ContainerImageBuild) : gmap NamespacedName ContainerImageBuild :=
  match last hist with
  | Some c => <[k := c]> m
  | None => m
  end.

(** ** Around the builder *)

(** A part of the world that no call of the job but the build changes. *)
Record keeps {W X : Type} {JC : JobClients W} {JH : JobHost W} (f : W → X) : Prop := {
  keeps_Get k : always (λ w w', f w' = f w) (fc_Get k);
  keeps_UpdateStatus c : always (λ w w', f w' = f w) (fc_UpdateStatus c);
  keeps_Push u : always (λ w w', f w' = f w) (pr_Push u);
  keeps_Now : always (λ w w', f w' = f w) time_Now;
  keeps_log s : always (λ w w', f w' = f w) (log_Info s);
  keeps_GetSecret ns n : always (λ w w', f w' = f w) (jh_GetSecret ns n);
  keeps_Stat p : always (λ w w', f w' = f w) (jh_Stat p);
  keeps_ReadFile p : always (λ w w', f w' = f w) (jh_ReadFile p);
  keeps_range A (m : gmap string A) : always (λ w w', f w' = f w) (jh_range m);
}.

Section framed.
Context {W : Type} {JC : JobClients W} {JH : JobHost W}.

(** Nothing was built between two states. *)
Definition framed (w w' : W) : Prop := ∀ X (f : W → X), keeps f → f w' = f w.

#[export] Instance framed_preorder : PreOrder framed.
Proof. split; [by intros w X f _|]. intros w1 w2 w3 H1 H2 X f Hf. by rewrite (H2 X f), (H1 X f). Qed.

Lemma framed_call {A} (c : M W A) :
  (∀ X (f : W → X), keeps f → always (λ w w', f w' = f w) c) → always framed c.
Proof. intros Hc w o w' H X f Hf. by eapply Hc. Qed.

Lemma framed_Get k : always framed (fc_Get k).
Proof. apply framed_call. intros X f []. done. Qed.
Lemma framed_UpdateStatus c : always framed (fc_UpdateStatus c).
Proof. apply framed_call. intros X f []. done. Qed.
Lemma framed_Push u : always framed (pr_Push u).
Proof. apply framed_call. intros X f []. done. Qed.
Lemma framed_Now : always framed time_Now.
Proof. apply framed_call. intros X f []. done. Qed.
Lemma framed_log s : always framed (log_Info s).
Proof. apply framed_call. intros X f []. done. Qed.
Lemma framed_GetSecret ns n : always framed (jh_GetSecret ns n).
Proof. apply framed_call. intros X f []. done. Qed.
Lemma framed_Stat p : always framed (jh_Stat p).
Proof. apply framed_call. intros X f []. done. Qed.
Lemma framed_ReadFile p : always framed (jh_ReadFile p).
Proof. apply framed_call. intros X f []. done. Qed.
Lemma framed_range {A} (m : gmap string A) : always framed (jh_range m).
Proof. apply framed_call. intros X f []. done. Qed.
#[local] Hint Resolve framed_Get framed_UpdateStatus framed_Push framed_Now framed_log
  framed_GetSecret framed_Stat framed_ReadFile framed_range : forge.

Lemma framed_publish j c : always framed (publish j c).
Proof. unfold publish. destruct (j_producer j); eauto with forge. Qed.
#[local] Hint Resolve framed_publish : forge.

Lemma framed_updateStatus j c : always framed (updateStatus j c).
Proof. unfold updateStatus. eauto 9 with forge. Qed.
#[local] Hint Resolve framed_updateStatus : forge.

Lemma framed_transitionToBuilding j c : always framed (transitionToBuilding j c).
Proof. unfold transitionToBuilding. eauto with forge. Qed.

Lemma framed_transitionToComplete j c image : always framed (transitionToComplete j c image).
Proof. unfold transitionToComplete. eauto with forge. Qed.
End framed.

#[export] Hint Resolve framed_Get framed_UpdateStatus framed_Push framed_Now framed_log
  framed_GetSecret framed_Stat framed_ReadFile framed_range framed_transitionToBuilding
  framed_transitionToComplete : forge.

(** Calls a relation holds of are composed by the configuration of registries. *)
Section reading.
Context {W : Type} {JC : JobClients W} {JH : JobHost W} (R : relation W) `{!PreOrder R}.
Hypothesis always_GetSecret : ∀ ns n, always R (jh_GetSecret ns n).
Hypothesis always_Stat : ∀ p, always R (jh_Stat p).
Hypothesis always_ReadFile : ∀ p, always R (jh_ReadFile p).
Hypothesis always_range : ∀ A (m : gmap string A), always R (jh_range m).
#[local] Hint Resolve always_GetSecret always_Stat always_ReadFile always_range : forge.

Lemma always_FS : always R getDockerAuthsFromFS.
Proof.
  unfold getDockerAuthsFromFS. apply (always_bind R); [eauto with forge|].
  intros st. destruct (not_exist st); eauto with forge.
Qed.
#[local] Hint Resolve always_FS : forge.

Lemma always_configure m reg : always R (configure_registry m reg).
Proof.
  unfold configure_registry, getDockerAuthsFromSecret.
  apply (always_bind R); [eauto with forge|]. intros _.
  destruct (IsInline _); [eauto with forge|]. destruct (IsSecret _); [eauto 9 with forge|].
  destruct (reg_DynamicCloudCredentials reg); eauto 9 with forge.
Qed.
#[local] Hint Resolve always_configure : forge.

Lemma always_buildRegistryConfigs regs : always R (buildRegistryConfigs regs).
Proof.
  assert (∀ regs m, always R (configure_registries m regs)) as Hc.
  { induction regs0 as [|reg regs0 IH]; intros m; simpl; eauto with forge. }
  unfold buildRegistryConfigs. eauto 9 with forge.
Qed.
#[local] Hint Resolve always_buildRegistryConfigs : forge.

Lemma always_generateBuildOptions cib : always R (generateBuildOptions cib).
Proof. unfold generateBuildOptions. eauto 9 with forge. Qed.
#[local] Hint Resolve always_generateBuildOptions : forge.

(** The same for a whole run. *)
Hypothesis always_Get : ∀ k, always R (fc_Get k).
Hypothesis always_UpdateStatus : ∀ c, always R (fc_UpdateStatus c).
Hypothesis always_Push : ∀ u, always R (pr_Push u).
Hypothesis always_BuildAndPush : ∀ opts, always R (bld_BuildAndPush opts).
Hypothesis always_Now : always R time_Now.
Hypothesis always_log : ∀ s, always R (log_Info s).
#[local] Hint Resolve always_Get always_UpdateStatus always_Push always_BuildAndPush always_Now
  always_log : forge.

Lemma always_updateStatus j c : always R (updateStatus j c).
Proof.
  unfold updateStatus, publish. apply (always_bind R); [eauto with forge|]. intros c'.
  destruct (j_producer j); eauto with forge.
Qed.
#[local] Hint Resolve always_updateStatus : forge.

Lemma always_fail_build j c err : always R (fail_build j c err).
Proof.
  unfold fail_build, transitionToFailure. apply (always_bind R); [eauto 9 with forge|].
  intros []; eauto with forge.
Qed.
#[local] Hint Resolve always_fail_build : forge.

Lemma always_Run j : always R (Run j).
Proof.
  unfold Run, transitionToBuilding. do 2 (apply (always_bind R); [eauto with forge|intros ?]).
  unfold run_build. apply (always_bind R); [eauto with forge|]. intros [err|opts]; [eauto with forge|].
  apply (always_bind R); [eauto with forge|]. intros [err|image]; [eauto with forge|].
  unfold transitionToComplete. eauto with forge.
Qed.
End reading.

Lemma framed_generateBuildOptions {W : Type} {JC : JobClients W} {JH : JobHost W} cib :
  always framed (generateBuildOptions cib).
Proof. apply (always_generateBuildOptions framed); eauto with forge. Qed.

Section history.
Context {W : Type} {JC : JobClients W} {JH : JobHost W} {JR : JobReads W} {JS : JobServer W}.
Implicit Types (w : W) (c cib : ContainerImageBuild).

#[export] Instance quiet_preorder : PreOrder quiet.
Proof. split; [done|]. intros w1 w2 w3 [? ?] [? ?]. split; congruence. Qed.

Lemma quiet_GetSecret ns n : always quiet (jh_GetSecret ns n).
Proof. apply (reads_quiet ns n "" unit ∅). Qed.
Lemma quiet_Stat p : always quiet (jh_Stat p).
Proof. apply (reads_quiet "" "" p unit ∅). Qed.
Lemma quiet_ReadFile p : always quiet (jh_ReadFile p).
Proof. apply (reads_quiet "" "" p unit ∅). Qed.
Lemma quiet_range {A} (m : gmap string A) : always quiet (jh_range m).
Proof. apply (reads_quiet "" "" "" A m). Qed.
#[local] Hint Resolve quiet_GetSecret quiet_Stat quiet_ReadFile quiet_range
  fcGet_reads BuildAndPush_quiet Now_quiet log_quiet : forge.

(** Reading credentials touches neither the resource nor the broker. *)
Lemma quiet_generateBuildOptions cib : always quiet (generateBuildOptions cib).
Proof. apply (always_generateBuildOptions quiet); eauto with forge. Qed.
#[local] Hint Resolve quiet_generateBuildOptions : forge.

(** The message of a stored version is sent or not. *)
Definition sends j (c : ContainerImageBuild) (sent : list ContainerImageBuild) (ok : bool) : Prop :=
  sent `prefix_of` [c] ∧ (j_producer j = false → sent = []) ∧
  (ok = true → sent = if j_producer j then [c] else []).

Lemma sends_nothing j c : sends j c [] false.
Proof. split_and!; [apply prefix_nil|done|done]. Qed.

Lemma publish_cases j c w o w' :
  publish j c w = (o, w') →
  builds_at w' = builds_at w ∧
  ∃ sent, published w' = published w ++ (status_update <$> sent) ∧ sends j c sent (is_Ok o).
Proof.
  unfold publish, wrapping, sends. destruct (j_producer j).
  - destruct (pr_Push (status_update c) w) as [o1 w1] eqn:H1.
    apply Push_publishes in H1 as [HB HP]. intros [= <- <-]. split; [done|].
    destruct HP as [[HP Hno]|HP].
    + exists []. rewrite app_nil_r. split; [done|]. destruct o1; [done|..];
        (split_and!; [apply prefix_nil|done|done]).
    + exists [c]. split; [done|]. by destruct o1.
  - intros [= <- <-]. split; [done|]. exists []. rewrite app_nil_r.
    split; [done|]. split_and!; [apply prefix_nil|done|done].
Qed.

(** One status update: it is stored or not, and its message is sent or not. *)
Lemma updateStatus_cases j cib w o w' :
  updateStatus j cib w = (o, w') →
  (quiet w w' ∧ is_Ok o = false) ∨
  ∃ v old sent,
    builds_at w !! cib_key cib = Some old ∧
    builds_at w' = <[cib_key cib := put_status v cib old]> (builds_at w) ∧
    published w' = published w ++ (status_update <$> sent) ∧
    sends j (put_status v cib old) sent (is_Ok o) ∧
    ∀ c', o = Ok c' → c' = put_status v cib old.
Proof.
  unfold updateStatus, bind at 1, wrapping at 1.
  destruct (fc_UpdateStatus cib w) as [o1 w1] eqn:H1.
  apply UpdateStatus_writes in H1 as [HP [[HB Hno]|(v & old & Hold & _ & HB & Hc)]].
  { destruct o1; [done|..]; intros [= <- <-]; by left. }
  destruct o1 as [c1|e|m]; simpl;
    [|intros [= <- <-]; right; exists v, old, []; rewrite app_nil_r; split_and!; try done; apply sends_nothing..].
  rewrite (Hc _ eq_refl). unfold bind.
  destruct (publish j _ w1) as [o2 w2] eqn:H2. apply publish_cases in H2 as (HB2 & sent & HP2 & Hs).
  rewrite HP in HP2. rewrite HB in HB2. intros H. right. exists v, old, sent.
  destruct o2; injection H as <- <-; (split_and!; [done|done|done|done|]); naive_solver.
Qed.

(** A transition stamps the time and updates the status. *)
Lemma transition_cases j cib (f : Z → ContainerImageBuildStatus) w o w' :
  builds_at w !! cib_key cib = Some cib →
  bind time_Now (λ t, updateStatus j (with_status (f t) cib)) w = (o, w') →
  (quiet w w' ∧ is_Ok o = false) ∨
  ∃ v t sent,
    let c := put_status v (with_status (f t) cib) cib in
    builds_at w' = <[cib_key cib := c]> (builds_at w) ∧
    published w' = published w ++ (status_update <$> sent) ∧
    sends j c sent (is_Ok o) ∧ ∀ c', o = Ok c' → c' = c.
Proof.
  intros Hcib [(t & w1 & H1 & H2)|[(e & H1 & ->)|(m & H1 & ->)]]%bind_inv;
    apply Now_quiet in H1 as [HB HP]; [|by left..].
  apply updateStatus_cases in H2 as [[[HB2 HP2] Hno]|(v & old & sent & Hold & HB2 & HP2 & Hs & Hc)].
  - left. split; [split; congruence|done].
  - right. exists v, t, sent. change (cib_key (with_status (f t) cib)) with (cib_key cib) in *.
    rewrite HB, HP in *. by simplify_eq.
Qed.

(** The same with the result dropped, as the two final transitions do. *)
Lemma transition_cases_ j cib (f : Z → ContainerImageBuildStatus) w o w' :
  builds_at w !! cib_key cib = Some cib →
  bind time_Now (λ t, bind (updateStatus j (with_status (f t) cib)) (λ _, ret tt)) w = (o, w') →
  (quiet w w' ∧ is_Ok o = false) ∨
  ∃ v t sent,
    let c := put_status v (with_status (f t) cib) cib in
    builds_at w' = <[cib_key cib := c]> (builds_at w) ∧
    published w' = published w ++ (status_update <$> sent) ∧ sends j c sent (is_Ok o).
Proof.
  intros Hcib. rewrite <- bind_assoc.
  intros [(c' & w1 & H1 & H2)|[(e & H1 & ->)|(m & H1 & ->)]]%bind_inv;
    apply transition_cases in H1 as [[Hq Hno]|(v & t & sent & HB & HP & Hs & _)]; try done;
    try injection H2 as <- <-; try (by left); right; by exists v, t, sent.
Qed.

(** The last version of a run that stored [c1]; a run that succeeds completed
    with the image of the builder. *)
Definition final c1 c2 (ok : bool) : Prop :=
  (∃ v t err, c2 = failed v t err c1 ∧ ok = false) ∨
  (∃ v t image registries w1 w2, c2 = completed v t image c1 ∧
     bld_BuildAndPush (build_options (cib_Spec c1) registries) w1 = (Ok image, w2)).

(** How a run ends once the resource is stored as [c1]. *)
Definition ends j c1 w (o : outcome unit) w' : Prop :=
  (quiet w w' ∧ is_Ok o = false) ∨
  ∃ c2 sent ok,
    final c1 c2 (is_Ok o) ∧
    builds_at w' = <[cib_key c1 := c2]> (builds_at w) ∧
    published w' = published w ++ (status_update <$> sent) ∧
    sends j c2 sent ok ∧ (is_Ok o = true → ok = true).

Lemma ends_quiet j c1 w w1 o w' : quiet w w1 → ends j c1 w1 o w' → ends j c1 w o w'.
Proof.
  intros Hq [[Hq' Hno]|(c2 & sent & ok & HF & HB & HP & H)].
  - left. split; [by etrans|done].
  - right. exists c2, sent, ok. destruct Hq as [HB1 HP1]. by rewrite HB1, HP1 in *.
Qed.

Lemma fail_build_ends j c1 err w o w' :
  builds_at w !! cib_key c1 = Some c1 → fail_build j c1 err w = (o, w') → ends j c1 w o w'.
Proof.
  intros Hc. unfold fail_build.
  intros [(res & w1 & H1 & H2)|[(e & H1 & ->)|(m & H1 & ->)]]%bind_inv;
    apply try_inv in H1 as [(a & H1 & Ha)|[(e' & H1 & He)|(m' & H1 & Hm)]]; simplify_eq;
    apply transition_cases_ in H1 as [[Hq Hno]|(v & t & sent & HB & HP & Hs)];
    try done; try (by left); try injection H2 as <- <-;
    try (right; eexists _, sent, _; split_and!; [left; by exists v, t, err|done..]).
  by left.
Qed.

Lemma run_build_ends j c1 w o w' :
  builds_at w !! cib_key c1 = Some c1 → run_build j c1 w = (o, w') → ends j c1 w o w'.
Proof.
  intros Hc. unfold run_build.
  intros [(got & w1 & H1 & H2)|[(e & H1 & ->)|(m & H1 & ->)]]%bind_inv;
    pose proof (always_try _ _ (quiet_generateBuildOptions c1) _ _ _ H1) as Hq1; [|by left..].
  apply (ends_quiet _ _ w w1); [done|]. destruct Hq1 as [HB1 _]. rewrite <- HB1 in Hc.
  destruct got as [err|opts]; [by eapply fail_build_ends|].
  apply try_inv in H1 as [(a & H1 & Ha)|[(e' & H1 & He)|(m' & H1 & Hm)]]; simplify_eq.
  assert (∃ registries, a = build_options (cib_Spec c1) registries) as [registries ->].
  { apply bind_Ok_inv in H1 as (regs & w2 & _ & [= <- <-]). eauto. }
  clear H1.
  apply bind_inv in H2 as [(built & w2 & H2 & H3)|[(e & H2 & ->)|(m & H2 & ->)]];
    pose proof (always_try _ _ (BuildAndPush_quiet _) _ _ _ H2) as Hq2; [|by left..].
  apply (ends_quiet _ _ w1 w2); [done|]. destruct Hq2 as [HB2 _]. rewrite <- HB2 in Hc.
  destruct built as [err|image].
  - apply bind_inv in H3 as [([] & w3 & H3 & H4)|[(e & H3 & ->)|(m & H3 & ->)]];
      pose proof (always_for_each quiet _ _ log_quiet _ _ _ H3) as Hq3; [|by left..].
    apply (ends_quiet _ _ w2 w3); [done|]. destruct Hq3 as [HB3 _]. rewrite <- HB3 in Hc.
    by eapply fail_build_ends.
  - apply transition_cases_ in H3 as [[Hq Hno]|(v & t & sent & HB & HP & Hs)]; [by left| |done].
    apply try_inv in H2 as [(a & H2 & Ha)|[(e' & H2 & He)|(m' & H2 & Hm)]]; simplify_eq.
    right. eexists _, sent, _. split_and!; [|done..]. right. by eexists v, t, _, registries, w1, w2.
Qed.

Lemma sends_prefix j c sent ok : sends j c sent ok → sent `prefix_of` [c].
Proof. by intros [? _]. Qed.

Lemma status_update_app (sent1 sent2 : list ContainerImageBuild) l :
  (l ++ (status_update <$> sent1)) ++ (status_update <$> sent2)
  = l ++ (status_update <$> sent1 ++ sent2).
Proof. by rewrite fmap_app, app_assoc. Qed.

(** The first two calls of a run, the fetch and the first transition, returned [c]
    and left [w']. *)
Definition begins j w c w' : Prop :=
  (let! cib := fc_Get (mkKey (j_namespace j) (j_name j)) in transitionToBuilding j cib) w = (Ok c, w').

(** The fetch and the first transition. *)
Lemma Run_start j w o w' :
  let k := mkKey (j_namespace j) (j_name j) in
  well_keyed (builds_at w) → Run j w = (o, w') →
  (quiet w w' ∧ is_Ok o = false) ∨
  ∃ c v t sent w1,
    builds_at w !! k = Some c ∧ cib_key c = k ∧
    builds_at w1 = <[k := building v t c]> (builds_at w) ∧
    published w1 = published w ++ (status_update <$> sent) ∧
    ((w1 = w' ∧ is_Ok o = false ∧ sends j (building v t c) sent false) ∨
     (sends j (building v t c) sent true ∧ (framed w w1 ∧ begins j w (building v t c) w1) ∧
      run_build j (building v t c) w1 = (o, w'))).
Proof.
  intros k Hk. unfold Run, bind at 1, wrapping. fold k.
  destruct (fc_Get k w) as [[c|e|m] w1] eqn:Hget; pose proof (fcGet_reads _ _ _ _ Hget) as [HB HP];
    simpl; [|intros [= <- <-]; by left..].
  pose proof (framed_Get _ _ _ _ Hget) as Hf. pose proof (fcGet_fresh _ _ _ _ Hget) as Hfresh.
  pose proof (Hk _ _ Hfresh) as Hkey.
  assert (builds_at w1 !! cib_key c = Some c) as Hc by (by rewrite HB, Hkey).
  intros [(c' & w2 & H1 & H2)|[(e & H1 & ->)|(m & H1 & ->)]]%bind_inv;
    pose proof (framed_transitionToBuilding _ _ _ _ _ H1) as Hf1; pose proof H1 as H1';
    apply transition_cases in H1 as [[[HB1 HP1] Hno]|(v & t & sent & HB1 & HP1 & Hs & Heq)]; try done;
    try (left; split; [split; congruence|done]);
    rewrite HB, HP, Hkey in *; right; exists c, v, t, sent; eexists; split_and!; try done.
  - right. rewrite (Heq _ eq_refl) in H1', H2. split; [done|]. split; [split; [by etrans|]|done].
    unfold begins. by rewrite (bind_run _ _ _ _ _ Hget).
  - by left.
  - by left.
Qed.

(** Refinement.  Whatever fails during a run (a call of the API server, the
    broker, the builder, a secret), the versions of the resource it stores are a
    path of the build state machine: nothing, or building, or building and then
    one of completed and failed; every other resource is kept.  The messages it
    publishes are those of a prefix of these versions, in order, and none
    without a producer.  A run that succeeds stored building and completed, with
    the image the builder returned for the options of this build, and published
    both. *)
Theorem Run_history j w o w' :
  let k := mkKey (j_namespace j) (j_name j) in
  well_keyed (builds_at w) → Run j w = (o, w') →
  (quiet w w' ∧ is_Ok o = false) ∨
  ∃ c hist sent,
    builds_at w !! k = Some c ∧ progress c hist ∧
    builds_at w' = commit k hist (builds_at w) ∧
    published w' = published w ++ (status_update <$> sent) ∧
    sent `prefix_of` hist ∧ (j_producer j = false → sent = []) ∧
    (o = Ok tt →
     sent = (if j_producer j then hist else []) ∧
     ∃ v t v' t' image registries w1 w2,
       hist = [building v t c; completed v' t' image (building v t c)] ∧
       bld_BuildAndPush (build_options (cib_Spec c) registries) w1 = (Ok image, w2)).
Proof.
  intros k Hk H0. destruct (Run_start j w o w' Hk H0)
    as [[Hq Hno]|(c & v & t & sent & w1 & Hc & Hkey & HB & HP & H)]; [by left|].
  fold k in Hc, Hkey, HB. clear H0. right. exists c. destruct H as [(-> & Hno & Hs)|[(Hs1 & Hs2 & Hs3) [_ H]]].
  { exists [building v t c], sent. split_and!; [done|constructor|done|done|by eapply sends_prefix| |].
    - apply Hs.
    - by intros ->. }
  specialize (Hs3 eq_refl).
  apply run_build_ends in H as [[[HB2 HP2] Hno]|(c2 & sent2 & ok & HF & HB2 & HP2 & Hs & Hok)].
  - exists [building v t c], sent. rewrite HB2, HP2.
    split_and!; [done|constructor|done|done|done|done|]. by intros ->.
  - exists [building v t c; c2], (sent ++ sent2). rewrite HP, status_update_app in HP2.
    change (cib_key (building v t c)) with (cib_key c) in HB2.
    rewrite HB, Hkey, insert_insert_eq in HB2. destruct Hs as (Hs4 & Hs5 & Hs6).
    split_and!; [done| |done|done| | |].
    + destruct HF as [(v' & t' & err & -> & _)|(v' & t' & img & regs & ? & ? & -> & _)]; constructor.
    + rewrite Hs3. destruct (j_producer j); [by apply prefix_cons|].
      rewrite Hs5 by done. apply prefix_nil.
    + intros Hj. by rewrite Hs2, Hs5.
    + intros ->. rewrite Hs3, (Hs6 (Hok eq_refl)). split; [by destruct (j_producer j)|].
      destruct HF as [(? & ? & ? & _ & ?)|(v' & t' & img & regs & wa & wb & -> & HF)]; [done|].
      by exists v, t, v', t', img, regs, wa, wb.
  - change (cib_key (building v t c)) with (cib_key c). by rewrite HB, Hkey, lookup_insert_eq.
Qed.

(** A failed preparation or build never stores the build as completed. *)
Lemma fail_build_not_completed j c1 err w o w' c' :
  builds_at w !! cib_key c1 = Some c1 → st_State (cib_Status c1) ≠ BuildStateCompleted →
  fail_build j c1 err w = (o, w') →
  builds_at w' !! cib_key c1 = Some c' → st_State (cib_Status c') ≠ BuildStateCompleted.
Proof.
  intros Hc Hs H Hc'. unfold fail_build in H. unfold bind, try in H.
  destruct (transitionToFailure j c1 err w) as [o1 w1] eqn:E.
  assert (w' = w1) as -> by (destruct o1; by injection H as <- <-).
  apply transition_cases_ in E as [[[HB _] _]|(v & t & sent & HB & _)]; [..|done].
  - rewrite HB, Hc in Hc'. by injection Hc' as <-.
  - rewrite HB, lookup_insert_eq in Hc'. by injection Hc' as <-.
Qed.

(** A build that is stored as completed was built: the registries of the build
    were resolved, the builder returned the image of the status, and nothing was
    built before or after. *)
Lemma run_build_completed j c1 w o w' c' :
  builds_at w !! cib_key c1 = Some c1 → st_State (cib_Status c1) ≠ BuildStateCompleted →
  run_build j c1 w = (o, w') →
  builds_at w' !! cib_key c1 = Some c' → st_State (cib_Status c') = BuildStateCompleted →
  ∃ v t image registries w0 w1 w2,
    c' = completed v t image c1 ∧
    buildRegistryConfigs (spec_Registries (cib_Spec c1)) w0 = (Ok registries, w1) ∧
    bld_BuildAndPush (build_options (cib_Spec c1) registries) w1 = (Ok image, w2) ∧
    w0 = w ∧ framed w w1 ∧ framed w2 w'.
Proof.
  intros Hc Hs H Hc' Hs'. unfold run_build in H.
  unfold bind at 1, try at 1 in H. destruct (generateBuildOptions c1 w) as [o1 w1] eqn:E1.
  pose proof (quiet_generateBuildOptions _ _ _ _ E1) as [HB1 _].
  pose proof (framed_generateBuildOptions _ _ _ _ E1) as Hf1.
  assert (∀ w2 err, builds_at w2 = builds_at w → fail_build j c1 err w2 = (o, w') → False) as Hfail.
  { intros w2 err HB2 H2. eapply fail_build_not_completed; [|exact Hs|exact H2|exact Hc'|exact Hs'].
    by rewrite HB2. }
  destruct o1 as [opts|e|m]; [|by destruct (Hfail _ _ HB1 H)|].
  2: { injection H as <- <-. rewrite HB1, Hc in Hc'. by injection Hc' as <-. }
  apply bind_Ok_inv in E1 as (regs & w1' & E1 & [= <- <-]).
  unfold bind at 1, try in H. destruct (bld_BuildAndPush _ w1') as [o2 w2] eqn:E2.
  pose proof (BuildAndPush_quiet _ _ _ _ E2) as [HB2 _]. rewrite HB1 in HB2.
  destruct o2 as [image|e|m].
  - pose proof (framed_transitionToComplete _ _ _ _ _ _ H) as Hf2.
    apply transition_cases_ in H as [[[HB _] _]|(v & t & sent & HB & _)]; [..|by rewrite HB2].
    + rewrite HB, HB2, Hc in Hc'. by injection Hc' as <-.
    + rewrite HB, lookup_insert_eq in Hc'. injection Hc' as <-.
      exists v, t, image, regs, w, w1', w2. split_and!; [done| |done..].
      unfold wrapping in E1. destruct (buildRegistryConfigs _ w) as [[]]; by simplify_eq/=.
  - apply bind_inv in H as [([] & w3 & H3 & H4)|[(e' & H3 & ->)|(m & H3 & ->)]];
      pose proof (always_for_each quiet _ _ log_quiet _ _ _ H3) as [HB3 _]; rewrite HB2 in HB3.
    + by destruct (Hfail _ _ HB3 H4).
    + rewrite HB3, Hc in Hc'. by injection Hc' as <-.
    + rewrite HB3, Hc in Hc'. by injection Hc' as <-.
  - injection H as <- <-. rewrite HB2, Hc in Hc'. by injection Hc' as <-.
Qed.

Lemma Run_completed j w o w' c c' :
  let k := mkKey (j_namespace j) (j_name j) in
  well_keyed (builds_at w) → Run j w = (o, w') →
  builds_at w !! k = Some c → st_State (cib_Status c) ≠ BuildStateCompleted →
  builds_at w' !! k = Some c' → st_State (cib_Status c') = BuildStateCompleted →
  ∃ v t v' t' image registries w0 w1 w2,
    c' = completed v' t' image (building v t c) ∧ begins j w (building v t c) w0 ∧
    buildRegistryConfigs (spec_Registries (cib_Spec c)) w0 = (Ok registries, w1) ∧
    bld_BuildAndPush (build_options (cib_Spec c) registries) w1 = (Ok image, w2) ∧
    framed w w1 ∧ framed w2 w'.
Proof.
  intros k Hk H Hc Hs Hc' Hs'. destruct (Run_start j w o w' Hk H)
    as [[[HB _] _]|(c0 & v & t & sent & w1 & Hc0 & Hkey & HB & _ & H1)].
  { rewrite HB, Hc in Hc'. by injection Hc' as <-. }
  fold k in Hc0, Hkey, HB. rewrite Hc in Hc0. injection Hc0 as <-. destruct H1 as [(-> & _ & _)|(_ & [Hf Hb0] & H1)].
  { rewrite HB, lookup_insert_eq in Hc'. by injection Hc' as <-. }
  apply run_build_completed with (c' := c') in H1
    as (v' & t' & image & regs & w0 & w2 & w3 & -> & Hr & Hb & -> & Hf1 & Hf2);
    change (cib_key (building v t c)) with (cib_key c) in *; rewrite ?Hkey, ?HB, ?lookup_insert_eq; try done.
  exists v, t, v', t', image, regs, w1, w2, w3. split_and!; [done..|by etrans|done].
Qed.

(** Every version a run publishes was stored by the API server. *)
Lemma Run_published j w o w' :
  well_keyed (builds_at w) → Run j w = (o, w') →
  ∃ sent, published w' = published w ++ (status_update <$> sent) ∧
          Forall (λ c, ∃ v x old, c = put_status v x old) sent.
Proof.
  intros Hk H. assert (∀ v x old sent, sent `prefix_of` [put_status v x old] →
    Forall (λ c, ∃ v x old, c = put_status v x old) sent) as Hpre.
  { intros v x old sent [q Hq]. assert (Forall (λ c, ∃ v x old, c = put_status v x old) (sent ++ q))
      as HF by (rewrite <- Hq; constructor; eauto). by apply Forall_app in HF as [? _]. }
  destruct (Run_start j w o w' Hk H)
    as [[[_ HP] _]|(c & v & t & sent & w1 & Hc & Hkey & HB & HP & H1)].
  { exists []. rewrite app_nil_r. split; [done|constructor]. }
  destruct H1 as [(-> & _ & [Hs _])|[[Hs _] [_ H1]]]; [exists sent; eauto|].
  apply run_build_ends in H1 as [[[_ HP2] _]|(c2 & sent2 & ok & HF & _ & HP2 & [Hs2 _] & _)].
  - exists sent. rewrite HP2. eauto.
  - exists (sent ++ sent2). rewrite HP2, HP, status_update_app. split; [done|].
    apply Forall_app. split; [eauto|].
    destruct HF as [(v' & t' & err & -> & _)|(v' & t' & img & regs & ? & ? & -> & _)]; eauto.
  - change (cib_key (building v t c)) with (cib_key c). by rewrite HB, Hkey, lookup_insert_eq.
Qed.

(** The previous state is not published.  [SetState] keeps the previous
    state in a transient field and the message has a field for it, but the
    message is built from the document the API server returns, which does not
    have it: every message of every run has an empty previous state, and a zero
    image size. *)
Theorem Run_messages_blank j w o w' u :
  well_keyed (builds_at w) → Run j w = (o, w') →
  u ∈ drop (length (published w)) (published w') →
  su_PreviousState u = "" ∧ su_ImageSize u = 0%Z.
Proof.
  intros Hk H Hu. destruct (Run_published j w o w' Hk H) as (sent & HP & HF).
  rewrite HP, drop_app_length in Hu. apply list_elem_of_fmap in Hu as (c & -> & Hc).
  rewrite Forall_forall in HF. by destruct (HF c Hc) as (v & x & old & ->).
Qed.

(** C33: A message that cannot be published strands the build.  When the
    resource is stored as building and the message about it fails, the run
    returns an error without building anything, and the resource stays in the
    building state. *)
Theorem Run_stranded j w c w1 t w2 c' w3 e w4 :
  let k := mkKey (j_namespace j) (j_name j) in
  well_keyed (builds_at w) →
  j_producer j = true →
  fc_Get k w = (Ok c, w1) →
  time_Now w1 = (Ok t, w2) →
  fc_UpdateStatus (with_status (set_started t (SetState (cib_Status c) BuildStateBuilding)) c) w2
    = (Ok c', w3) →
  pr_Push (status_update c') w3 = (Err e, w4) →
  Run j w = (Err (wrap e "unable to publish message"), w4) ∧
  ∃ v, builds_at w4 !! k = Some (building v t c).
Proof.
  intros k Hk Hj H1 H2 H3 H4. split.
  - unfold Run, bind, wrapping. fold k. rewrite H1. simpl.
    unfold transitionToBuilding, bind. rewrite H2.
    unfold updateStatus, publish, bind, wrapping. rewrite H3. cbn [wrap_err]. by rewrite Hj, H4.
  - apply Push_publishes in H4 as [-> _].
    pose proof (fcGet_reads _ _ _ _ H1) as [HB1 _]. apply fcGet_fresh in H1.
    apply Now_quiet in H2 as [HB2 _].
    apply UpdateStatus_writes in H3 as [_ [[_ ?]|(v & old & Hold & _ & -> & _)]]; [done|].
    change (cib_key (with_status _ c)) with (cib_key c) in *. exists v.
    rewrite (Hk _ _ H1) in *. rewrite HB2, HB1 in Hold. simplify_eq. by rewrite lookup_insert_eq.
Qed.
End history.

(** ** A run ends in a final state *)

(** Servers that answer: the API server finds and updates what exists, the
    broker takes messages, and no call of the job panics. *)
Class JobLive (W : Type) {JC : JobClients W} {JH : JobHost W} {JR : JobReads W}
    {JS : JobServer W} := {
  serving : W → Prop;
  fcGet_live k w c : serving w → builds_at w !! k = Some c →
    ∃ w', fc_Get k w = (Ok c, w') ∧ serving w';
  UpdateStatus_live c old w : serving w → builds_at w !! cib_key c = Some old → accepts c old →
    ∃ c' w', fc_UpdateStatus c w = (Ok c', w') ∧ serving w';
  Push_live u w : serving w → ∃ w', pr_Push u w = (Ok tt, w') ∧ serving w';
  Now_live w : serving w → ∃ t w', time_Now w = (Ok t, w') ∧ serving w';
  log_live s w : serving w → ∃ w', log_Info s w = (Ok tt, w') ∧ serving w';
  BuildAndPush_live opts w : serving w →
    ∃ o w', bld_BuildAndPush opts w = (o, w') ∧ no_panic o ∧ serving w';
  GetSecret_live ns n w : serving w →
    ∃ o w', jh_GetSecret ns n w = (o, w') ∧ no_panic o ∧ serving w';
  Stat_live p w : serving w → ∃ o w', jh_Stat p w = (o, w') ∧ no_panic o ∧ serving w';
  ReadFile_live p w : serving w → ∃ o w', jh_ReadFile p w = (o, w') ∧ no_panic o ∧ serving w';
  range_live A (m : gmap string A) w : serving w →
    ∃ o w', jh_range m w = (o, w') ∧ no_panic o ∧ serving w';
}.

Section live.
Context {W : Type} {JC : JobClients W} {JH : JobHost W} {JR : JobReads W} {JS : JobServer W}
  {JL : JobLive W}.
Implicit Types (w : W) (c cib : ContainerImageBuild).

(** [c] comes back with a value or an error. *)
Definition returns {A} (c : M W A) : Prop :=
  ∀ w, serving w → ∃ o w', c w = (o, w') ∧ no_panic o ∧ serving w'.

Lemma returns_ret {A} (a : A) : returns (ret a).
Proof. intros w Hw. by eexists _, _. Qed.
Lemma returns_throw {A} e : returns (throw (A:=A) e).
Proof. intros w Hw. by eexists _, _. Qed.
Lemma returns_lift {A} (o : outcome A) : no_panic o → returns (lift_outcome o).
Proof. intros Ho w Hw. by eexists _, _. Qed.
Lemma returns_bind {A B} (c : M W A) (k : A → M W B) :
  returns c → (∀ a, returns (k a)) → returns (bind c k).
Proof.
  intros Hc Hk w Hw. destruct (Hc w Hw) as (o & w1 & H1 & Ho & Hw1). unfold bind. rewrite H1.
  destruct o as [a|e|m]; [by apply Hk|by eexists _, _|by destruct (Ho m)].
Qed.
Lemma returns_try {A} (c : M W A) : returns c → returns (try c).
Proof.
  intros Hc w Hw. destruct (Hc w Hw) as (o & w1 & H1 & Ho & Hw1). unfold try. rewrite H1.
  destruct o as [a|e|m]; [by eexists _, _|by eexists _, _|by destruct (Ho m)].
Qed.
Lemma returns_wrapping {A} msg (c : M W A) : returns c → returns (wrapping msg c).
Proof.
  intros Hc w Hw. destruct (Hc w Hw) as (o & w1 & H1 & Ho & Hw1). unfold wrapping. rewrite H1.
  eexists _, _. split; [done|]. split; [by apply no_panic_wrap_err|done].
Qed.
Lemma returns_GetSecret ns n : returns (jh_GetSecret ns n).
Proof. intros w. apply GetSecret_live. Qed.
Lemma returns_Stat p : returns (jh_Stat p).
Proof. intros w. apply Stat_live. Qed.
Lemma returns_ReadFile p : returns (jh_ReadFile p).
Proof. intros w. apply ReadFile_live. Qed.
Lemma returns_range {A} (m : gmap string A) : returns (jh_range m).
Proof. intros w. apply range_live. Qed.
#[local] Hint Resolve returns_ret returns_throw returns_lift returns_bind returns_try
  returns_wrapping returns_GetSecret returns_Stat returns_ReadFile returns_range
  ExtractAuthConfigs_no_panic docker_auths_no_panic getBasicAuthForHost_no_panic : forge.

Lemma returns_FS : returns getDockerAuthsFromFS.
Proof.
  unfold getDockerAuthsFromFS. apply returns_bind; [auto with forge|].
  intros st. destruct (not_exist st); auto 6 with forge.
Qed.
#[local] Hint Resolve returns_FS : forge.

Lemma returns_configure m reg : returns (configure_registry m reg).
Proof.
  unfold configure_registry, getDockerAuthsFromSecret. apply returns_bind.
  { apply returns_lift, no_panic_wrap_err. by destruct (Validate _). }
  intros _. destruct (IsInline _); [auto with forge|]. destruct (IsSecret _); [auto 9 with forge|].
  destruct (reg_DynamicCloudCredentials reg); auto 9 with forge.
Qed.
#[local] Hint Resolve returns_configure : forge.

Lemma returns_generateBuildOptions cib : returns (generateBuildOptions cib).
Proof.
  assert (∀ regs m, returns (configure_registries m regs)) as Hc.
  { induction regs as [|reg regs IH]; intros m; simpl; auto with forge. }
  unfold generateBuildOptions, buildRegistryConfigs. auto 9 with forge.
Qed.

(** A transition of a stored resource succeeds. *)
Lemma transition_live j cib (f : Z → ContainerImageBuildStatus) w :
  serving w → builds_at w !! cib_key cib = Some cib →
  ∃ v t w', bind time_Now (λ t, updateStatus j (with_status (f t) cib)) w
            = (Ok (put_status v (with_status (f t) cib) cib), w') ∧ serving w' ∧
          builds_at w' !! cib_key cib = Some (put_status v (with_status (f t) cib) cib).
Proof.
  intros Hw Hc. destruct (Now_live w Hw) as (t & w1 & H1 & Hw1).
  pose proof (Now_quiet _ _ _ H1) as [HB1 _].
  destruct (UpdateStatus_live (with_status (f t) cib) cib w1 Hw1) as (c' & w2 & H2 & Hw2);
    [by rewrite HB1|by right|].
  pose proof (UpdateStatus_writes _ _ _ _ H2) as [_ [[_ ?]|(v & old & Hold & _ & HB2 & Heq)]]; [done|].
  change (cib_key (with_status (f t) cib)) with (cib_key cib) in *.
  rewrite HB1 in Hold. simplify_eq. specialize (Heq _ eq_refl). subst c'.
  assert (∃ w3, publish j (put_status v (with_status (f t) cib) cib) w2 = (Ok tt, w3) ∧
                serving w3 ∧ builds_at w3 = builds_at w2) as (w3 & H3 & Hw3 & HB3).
  { unfold publish, wrapping. destruct (j_producer j); [|by exists w2].
    destruct (Push_live (status_update (put_status v (with_status (f t) cib) cib)) w2 Hw2)
      as (w3 & H3 & Hw3). exists w3. rewrite H3. apply Push_publishes in H3 as [HB3 _]. done. }
  exists v, t, w3. split_and!; [|done|by rewrite HB3, HB2, lookup_insert_eq].
  unfold updateStatus, bind, wrapping. rewrite H1, H2. cbn [wrap_err]. by rewrite H3.
Qed.

Lemma transition_live_ j cib (f : Z → ContainerImageBuildStatus) w :
  serving w → builds_at w !! cib_key cib = Some cib →
  ∃ v t w', bind time_Now (λ t, bind (updateStatus j (with_status (f t) cib)) (λ _, ret tt)) w
            = (Ok tt, w') ∧
          builds_at w' !! cib_key cib = Some (put_status v (with_status (f t) cib) cib).
Proof.
  intros Hw Hc. destruct (transition_live j cib f w Hw Hc) as (v & t & w' & H & _ & HB).
  exists v, t, w'. split; [|done]. rewrite <- bind_assoc. by rewrite (bind_run _ _ _ _ _ H).
Qed.

(** The state a run leaves, for the outcome it has. *)
Definition ended (o : outcome unit) (c : ContainerImageBuild) : Prop :=
  match o with
  | Ok _ => st_State (cib_Status c) = BuildStateCompleted
  | Err e => st_State (cib_Status c) = BuildStateFailed ∧ st_ErrorMessage (cib_Status c) = Error e
  | Panic _ => False
  end.

Lemma fail_build_ended j c err w :
  serving w → builds_at w !! cib_key c = Some c →
  ∃ o w' c', fail_build j c err w = (o, w') ∧ builds_at w' !! cib_key c = Some c' ∧ ended o c'.
Proof.
  intros Hw Hc. destruct (transition_live_ j c
    (λ t, set_completed t (set_error (Error err) (SetState (cib_Status c) BuildStateFailed)))
    w Hw Hc) as (v & t & w' & H & HB).
  eexists (Err err), w', _. split_and!; [|exact HB|done].
  unfold fail_build, transitionToFailure, try, bind at 1. by rewrite H.
Qed.

Lemma run_build_ended j c w :
  serving w → builds_at w !! cib_key c = Some c →
  ∃ o w' c', run_build j c w = (o, w') ∧ builds_at w' !! cib_key c = Some c' ∧ ended o c'.
Proof.
  intros Hw Hc. unfold run_build, bind at 1, try at 1.
  destruct (returns_generateBuildOptions c w Hw) as (o & w1 & H1 & Ho & Hw1). rewrite H1.
  pose proof (quiet_generateBuildOptions _ _ _ _ H1) as [HB1 _]. rewrite <- HB1 in Hc.
  destruct o as [opts|e|m]; [|by apply fail_build_ended|by destruct (Ho m)].
  unfold bind at 1, try.
  destruct (BuildAndPush_live opts w1 Hw1) as (o & w2 & H2 & Ho2 & Hw2). rewrite H2.
  pose proof (BuildAndPush_quiet _ _ _ _ H2) as [HB2 _]. rewrite <- HB2 in Hc.
  destruct o as [img|e|m]; [| |by destruct (Ho2 m)].
  - destruct (transition_live_ j c
      (λ t, set_completed t (set_image img (SetState (cib_Status c) BuildStateCompleted)))
      w2 Hw2 Hc) as (v & t & w' & H & HB).
    by eexists _, w', _.
  - assert (∀ l w, serving w → ∃ w', for_each log_Info l w = (Ok tt, w') ∧ serving w') as Hlog.
    { induction l as [|x l IH]; intros w0 Hw0; [by exists w0|].
      destruct (log_live x w0 Hw0) as (w3 & H3 & Hw3). simpl. unfold bind. rewrite H3. auto. }
    destruct (Hlog (logError e) w2 Hw2) as (w3 & H3 & Hw3).
    pose proof (always_for_each quiet _ _ log_quiet _ _ _ H3) as [HB3 _]. rewrite <- HB3 in Hc.
    rewrite (bind_run _ _ _ _ _ H3). by apply fail_build_ended.
Qed.

(** Liveness.  When the API server and the broker answer, every run of an
    existing build returns (whatever the secrets, the files and the builder do,
    as long as they do not panic) and leaves the resource in a final state:
    completed when the run succeeds, and failed, with the error that the run
    returns as its message, when it does not. *)
Theorem Run_reaches_end j w c :
  let k := mkKey (j_namespace j) (j_name j) in
  serving w → well_keyed (builds_at w) → builds_at w !! k = Some c →
  ∃ o w' c', Run j w = (o, w') ∧ builds_at w' !! k = Some c' ∧ ended o c'.
Proof.
  intros k Hw Hk Hc. destruct (fcGet_live k w c Hw Hc) as (w1 & H1 & Hw1).
  pose proof (fcGet_reads _ _ _ _ H1) as [HB1 _]. pose proof (Hk _ _ Hc) as Hkey.
  assert (builds_at w1 !! cib_key c = Some c) as Hc1 by (by rewrite HB1, Hkey).
  destruct (transition_live j c
    (λ t, set_started t (SetState (cib_Status c) BuildStateBuilding)) w1 Hw1 Hc1)
    as (v & t & w2 & H2 & Hw2 & HB2).
  destruct (run_build_ended j (building v t c) w2 Hw2 HB2) as (o & w' & c' & H3 & HB3 & He).
  exists o, w', c'. split_and!; [|by rewrite <- Hkey|done].
  unfold Run, bind at 1, wrapping. fold k. rewrite H1. cbn [wrap_err].
  by rewrite (bind_run _ _ _ _ _ H2).
Qed.
End live.

(** ** Build options and error reports *)

(** Bounds.  The two timeouts of a build are 16-bit numbers of seconds; the
    product with [time.Second] stays within a [time.Duration], so the options
    carry exactly the seconds of the build, and never a negative duration. *)
Theorem build_options_timeouts spec registries :
  in_uint 16 (spec_TimeoutSeconds spec) = true →
  in_uint 16 (spec_ContextTimeoutSeconds spec) = true →
  bo_Timeout (build_options spec registries) = (spec_TimeoutSeconds spec * Second)%Z ∧
  bo_ContextTimeout (build_options spec registries)
    = (spec_ContextTimeoutSeconds spec * Second)%Z ∧
  (0 ≤ bo_Timeout (build_options spec registries) < 2 ^ 63)%Z ∧
  (0 ≤ bo_ContextTimeout (build_options spec registries) < 2 ^ 63)%Z.
Proof.
  unfold in_uint. intros H1 H2. unfold build_options. cbn [bo_Timeout bo_ContextTimeout].
  rewrite !mul_int64_exact; unfold in_int64, Second; lia.
Qed.

Lemma build_options_timeouts_witness :
  let spec := mkSpec "" "" 65535 [] [] [] ∅ "" "" no_resources 600 0 ∅ false false "" [] in
  bo_Timeout (build_options spec []) = 600000000000%Z ∧
  bo_ContextTimeout (build_options spec []) = 65535000000000%Z.
Proof.
  set (spec := mkSpec "" "" 65535 [] [] [] ∅ "" "" no_resources 600 0 ∅ false false "" []).
  destruct (build_options_timeouts spec [] eq_refl eq_refl) as (H1 & H2 & _).
  split; [exact H1|exact H2].
Defined.

Lemma Cause_wraps e msgs : Cause (foldr (λ m e, wrap e m) e msgs) = Cause e.
Proof. by induction msgs as [|m msgs IH]. Qed.

(** Error report.  However many times the error of a build is wrapped on its
    way up, the report shows the message of the root error alone, below a ruler;
    nothing is written when the root is one the progress display already
    shows. *)
Theorem logError_root e msgs :
  Cause e = e → Unwrap e = None →
  logError (foldr (λ m e, wrap e m) e msgs) =
  if bool_decide (Error e = "runc did not terminate successfully") then []
  else [Repeat "=" 70; "Error during image build and push: " +:+ Error e].
Proof.
  intros Hc Hu. unfold logError.
  assert (Cause (default (foldr (λ m e, wrap e m) e msgs)
                   (Unwrap (foldr (λ m e, wrap e m) e msgs))) = e) as ->.
  { destruct msgs as [|m msgs]; simpl; [by rewrite Hu|]. by rewrite Cause_wraps. }
  rewrite (bool_decide_ext (Error e ∈ ignoredErrors)
             (Error e = "runc did not terminate successfully")); [done|].
  unfold ignoredErrors. set_solver.
Qed.

Lemma logError_root_witness :
  logError (wrap (wrap (New "exit code 1") "failed to solve") "build") =
  [Repeat "=" 70; "Error during image build and push: exit code 1"].
Proof. exact (logError_root (New "exit code 1") ["build"; "failed to solve"] eq_refl eq_refl). Defined.

(** ** A world in memory *)

(** The stored resources, the messages of the broker, the secrets and files,
    the clock, the log, the behaviour of the image builder and the faults of the
    next API and broker calls. *)
Record jobworld := mkJobWorld {
  jw_builds : gmap NamespacedName ContainerImageBuild;
  jw_published : list StatusUpdate;
  jw_host : jobhost;
  jw_clock : Z;
  jw_log : list string;
  jw_builder : BuildOptions → outcome Image;
  jw_faults : list (option string);
}.

Definition jw_call : M jobworld unit := λ w,
  match jw_faults w with
  | [] => (Ok tt, w)
  | f :: fs =>
      (match f with None => Ok tt | Some m => Err (New m) end,
       mkJobWorld (jw_builds w) (jw_published w) (jw_host w) (jw_clock w) (jw_log w)
         (jw_builder w) fs)
  end.

Definition set_builds m (w : jobworld) : jobworld :=
  mkJobWorld m (jw_published w) (jw_host w) (jw_clock w) (jw_log w) (jw_builder w) (jw_faults w).
Definition set_published l (w : jobworld) : jobworld :=
  mkJobWorld (jw_builds w) l (jw_host w) (jw_clock w) (jw_log w) (jw_builder w) (jw_faults w).
Definition set_host h (w : jobworld) : jobworld :=
  mkJobWorld (jw_builds w) (jw_published w) h (jw_clock w) (jw_log w) (jw_builder w) (jw_faults w).

(** Versions are compared for equality only. *)
Definition next_version (v : string) : string := "1" +:+ v.

Definition conflict (n : string) : error :=
  StatusError StatusReasonConflict (n +:+ " the object has been modified").

#[export] Instance jobworld_clients : JobClients jobworld := {|
  fc_Get k :=
    do! jw_call in
    λ w, match jw_builds w !! k with
         | Some c => (Ok c, w)
         | None => (Err (not_found (nn_Name k)), w)
         end;
  fc_UpdateStatus c :=
    do! jw_call in
    λ w, match jw_builds w !! cib_key c with
         | Some old =>
             if bool_decide (accepts c old) then
               let c' := put_status (next_version (cib_version old)) c old in
               (Ok c', set_builds (<[cib_key c := c']> (jw_builds w)) w)
             else (Err (conflict (cib_Name c)), w)
         | None => (Err (not_found (cib_Name c)), w)
         end;
  pr_Push u := do! jw_call in λ w, (Ok tt, set_published (jw_published w ++ [u]) w);
  bld_BuildAndPush opts := λ w, (jw_builder w opts, w);
  time_Now := λ w, (Ok (jw_clock w),
    mkJobWorld (jw_builds w) (jw_published w) (jw_host w) (jw_clock w + 1) (jw_log w)
      (jw_builder w) (jw_faults w));
  log_Info s := λ w, (Ok tt,
    mkJobWorld (jw_builds w) (jw_published w) (jw_host w) (jw_clock w) (jw_log w ++ [s])
      (jw_builder w) (jw_faults w));
|}.

#[export] Instance jobworld_host : JobHost jobworld := {|
  jh_GetSecret ns n := zoom jw_host set_host (jh_GetSecret ns n);
  jh_Stat p := zoom jw_host set_host (jh_Stat p);
  jh_ReadFile p := zoom jw_host set_host (jh_ReadFile p);
  jh_IsNotExist := jh_IsNotExist (W:=jobhost);
  jh_range A m := zoom jw_host set_host (jh_range m);
|}.

Lemma zoom_host {A} (c : M jobhost A) w o w' :
  zoom jw_host set_host c w = (o, w') → ∃ h, c (jw_host w) = (o, h) ∧ w' = set_host h w.
Proof. unfold zoom. destruct (c (jw_host w)). intros [= <- <-]. eauto. Qed.

#[export] Instance jobworld_reads : JobReads jobworld.
Proof.
  refine {| secret_of w := secret_of (jw_host w); file_of w := file_of (jw_host w) |}.
  - intros ns n w o w' (h & H & ->)%(zoom_host (jh_GetSecret ns n)).
    exact (GetSecret_env ns n _ _ _ H).
  - intros p w o w' (h & H & ->)%(zoom_host (jh_Stat p)). exact (Stat_env p _ _ _ H).
  - intros p w o w' (h & H & ->)%(zoom_host (jh_ReadFile p)). exact (ReadFile_env p _ _ _ H).
  - intros A m w o w' (h & H & ->)%(zoom_host (jh_range m)). exact (range_env A m _ _ _ H).
  - intros ns n w s w' (h & H & ->)%(zoom_host (jh_GetSecret ns n)).
    exact (GetSecret_fresh ns n _ _ _ H).
  - intros p w d w' (h & H & ->)%(zoom_host (jh_ReadFile p)). exact (ReadFile_fresh p _ _ _ H).
  - intros A m w o w' (h & H & ->)%(zoom_host (jh_range m)). exact (range_perm A m _ _ _ H).
Defined.

Lemma jw_call_inv w o w' :
  jw_call w = (o, w') → jw_builds w' = jw_builds w ∧ jw_published w' = jw_published w.
Proof. unfold jw_call. repeat case_match; naive_solver. Qed.

(** Runs the fault check of a call of [jobworld]. *)
Ltac job_call :=
  match goal with
  | H : bind jw_call _ _ = _ |- _ =>
      apply bind_inv in H as [(?&?&Hc&?)|[(?&Hc&?)|(?&Hc&?)]];
      apply jw_call_inv in Hc as [? ?]
  end; repeat case_match; simplify_eq/=;
  repeat match goal with
  | H : jw_builds _ = jw_builds _ |- _ => rewrite H in *; clear H
  | H : jw_published _ = jw_published _ |- _ => rewrite H in *; clear H
  end.

#[export] Instance jobworld_server : JobServer jobworld.
Proof.
  refine {| builds_at := jw_builds; published := jw_published |}; unfold always; simpl; intros.
  - by job_call.
  - by job_call.
  - job_call; split; try done; try (by left).
    right. eexists _, _. split_and!; [done|by eapply bool_decide_eq_true_1|done|naive_solver].
  - job_call; split; try done; [by right|by left..].
  - by simplify_eq/=.
  - by simplify_eq/=.
  - by simplify_eq/=.
  - repeat split; intros;
      match goal with H : zoom _ _ _ _ = _ |- _ => apply zoom_host in H as (h & H & ->) end; done.
Defined.

#[export] Instance jobworld_live : JobLive jobworld.
Proof.
  refine {| serving w := jw_faults w = [] ∧ ∀ opts, no_panic (jw_builder w opts) |};
    simpl; unfold bind, jw_call.
  - intros k w c [Hf Hb] Hc. rewrite Hf, Hc. by eexists.
  - intros c old w [Hf Hb] Hc Ha. rewrite Hf, Hc, bool_decide_eq_true_2 by done. by eexists _, _.
  - intros u w [Hf Hb]. rewrite Hf. by eexists.
  - intros w [Hf Hb]. by eexists _, _.
  - intros s w [Hf Hb]. by eexists.
  - intros opts w [Hf Hb]. eexists _, _. split; [done|]. split; [apply Hb|done].
  - intros ns n w Hw. unfold zoom, jh_GetSecret; simpl. unfold bind, h_call.
    repeat case_match; simplify_eq; eexists _, _; done.
  - intros p w Hw. unfold zoom, jh_Stat; simpl. unfold bind, h_call.
    repeat case_match; simplify_eq; eexists _, _; done.
  - intros p w Hw. unfold zoom, jh_ReadFile; simpl. unfold bind, h_call.
    repeat case_match; simplify_eq; eexists _, _; done.
  - intros A m w Hw. by eexists _, _.
Defined.

Module JobSample.
Definition spec : ContainerImageBuildSpec :=
  mkSpec "img" "http://ctx" 0 ["reg.io"] HostSample.regs [] ∅ "" "" no_resources 0 0 ∅
    false false "" [].
Definition cib : ContainerImageBuild :=
  mkBuild (mkObjectMeta "b" "ns" "1" "7" "/apis/b/status" None ∅ [] 1 None) spec
    (mkStatus "" "" [] 0 "" None None).
Definition job : Job := mkJob "b" "ns" true.
Definition image : Image := mkImage ["reg.io/img:latest"] 42.
Definition world (builder : BuildOptions → outcome Image) (faults : list (option string)) : jobworld :=
  mkJobWorld {[ mkKey "ns" "b" := cib ]} [] HostSample.host 100 [] builder faults.
Definition good : jobworld := world (λ _, Ok image) [].
Definition bad_builder : jobworld := world (λ _, Err (New "exit code 1")) [].
(** The get and the update succeed, the message fails. *)
Definition broken_broker : jobworld := world (λ _, Ok image) [None; None; Some "closed"].

Lemma keyed builder faults : well_keyed (builds_at (world builder faults)).
Proof. exact (proj2 (map_Forall_singleton _ (mkKey "ns" "b") cib) eq_refl). Qed.

Lemma Run_history_witness :
  ∃ c hist sent,
    builds_at good !! mkKey "ns" "b" = Some c ∧ progress c hist ∧
    published (Run job good).2 = status_update <$> sent ∧ sent = hist.
Proof.
  destruct (Run_history job good (Ok tt) (Run job good).2 (keyed _ _)) as
    [[_ Hno]|(c & hist & sent & Hc & Hp & _ & HP & _ & _ & Hok)].
  - apply run_split. vm_compute. reflexivity.
  - discriminate Hno.
  - exists c, hist, sent. split; [exact Hc|]. split; [exact Hp|]. split; [exact HP|].
    exact (proj1 (Hok eq_refl)).
Defined.

Lemma Run_reaches_end_witness :
  ∃ o w' c', Run job bad_builder = (o, w') ∧
    builds_at w' !! mkKey "ns" "b" = Some c' ∧ ended o c'.
Proof.
  apply (Run_reaches_end job bad_builder cib);
    [split; [reflexivity|discriminate]|exact (keyed _ _)|reflexivity].
Defined.

Lemma Run_stranded_witness :
  st_State (cib_Status cib) = "" ∧
  ∃ w4, Run job broken_broker = (Err (wrap (New "closed") "unable to publish message"), w4) ∧
        ∃ v, builds_at w4 !! mkKey "ns" "b" = Some (building v 100 cib).
Proof.
  split; [reflexivity|]. eexists.
  eapply (Run_stranded job broken_broker cib); [exact (keyed _ _)|reflexivity..].
Defined.

Lemma Run_messages_blank_witness :
  Forall (λ u, su_PreviousState u = "" ∧ su_ImageSize u = 0%Z) (published (Run job good).2) ∧
  su_CurrentState <$> published (Run job good).2 = ["Building"; "Completed"].
Proof.
  split; [|vm_compute; reflexivity].
  apply Forall_forall. intros u Hu.
  apply (Run_messages_blank job good (Run job good).1 (Run job good).2 u (keyed _ _));
    [apply run_split; reflexivity|exact Hu].
Defined.
End JobSample.
