(* ===== verification/Reference.v ===== *)
(** * Reference: image names

    The parts of [github.com/docker/distribution/reference] the builder uses, and
    [parseImageName] of [internal/builder/embedded/bkimage/util.go].  The grammar
    of image names is left to its parser, a parameter; what a parsed name is, how
    it is printed and how it is tagged is modelled. *)
From stdpp Require Import base strings list.
From Stdlib Require Import ZArith Ascii.
From S2P Require Import Prelude Go GoStd.

(** ** Named references *)

(** A [repository], [taggedReference], [canonicalReference] or [reference],
    told apart by the presence of the tag and of the digest. *)
Record Named := mkNamed {
  nm_domain : string;
  nm_path : string;
  nm_tag : option string;
  nm_digest : option string;
}.

#[export] Instance Named_eq_dec : EqDecision Named.
Proof. solve_decision. Defined.

(** The [Name] method. *)
Definition Name (n : Named) : string :=
  if bool_decide (nm_domain n = "") then nm_path n else nm_domain n +:+ "/" +:+ nm_path n.

(** The [String] methods. *)
Definition named_String (n : Named) : string :=
  Name n
  +:+ match nm_tag n with Some t => ":" +:+ t | None => "" end
  +:+ match nm_digest n with Some d => "@" +:+ d | None => "" end.

Definition IsNameOnly (n : Named) : bool :=
  match nm_tag n, nm_digest n with None, None => true | _, _ => false end.

(** A byte of the class [\w]. *)
Definition is_word (a : ascii) : bool :=
  let n := N_of_ascii a in
  ((48 <=? n) && (n <=? 57) || (65 <=? n) && (n <=? 90) || (97 <=? n) && (n <=? 122)
   || (n =? 95))%N.

(** [anchoredTagRegexp]: a word byte and at most 127 word bytes, dots and
    dashes. *)
Definition tag_ok (t : string) : bool :=
  match chars t with
  | [] => false
  | a :: rest =>
      is_word a && bool_decide (length rest ≤ 127) &&
      forallb (λ b, is_word b || bool_decide (b = "."%char) || bool_decide (b = "-"%char)) rest
  end.

Definition WithTag (n : Named) (tag : string) : outcome Named :=
  if negb (tag_ok tag) then Err (New "invalid tag format")
  else Ok (mkNamed (nm_domain n) (nm_path n) (Some tag) (nm_digest n)).

(** [TagNameOnly], which panics when the default tag is not valid. *)
Definition TagNameOnly (n : Named) : outcome Named :=
  if IsNameOnly n then
    match WithTag n "latest" with
    | Ok n' => Ok n'
    | Err e => Panic (Error e)
    | Panic m => Panic m
    end
  else Ok n.

Definition tag_latest (n : Named) : Named :=
  if IsNameOnly n then mkNamed (nm_domain n) (nm_path n) (Some "latest") None else n.

Lemma TagNameOnly_latest n : TagNameOnly n = Ok (tag_latest n).
Proof. by destruct n as [d p [t|] [g|]]. Qed.

Lemma tag_latest_idemp n : tag_latest (tag_latest n) = tag_latest n.
Proof. by destruct n as [d p [t|] [g|]]. Qed.

(** ** The parser *)

Class ReferenceParser := {
  ParseNormalizedNamed : string → outcome Named;
}.

(** Normalised names are canonical: a name that was parsed, tagged or not,
    prints to a string that parses to itself. *)
Class ReferenceLaws {RP : ReferenceParser} := {
  parse_no_panic s : no_panic (ParseNormalizedNamed s);
  parse_String s n : ParseNormalizedNamed s = Ok n → ParseNormalizedNamed (named_String n) = Ok n;
  parse_WithTag s n t n' :
    ParseNormalizedNamed s = Ok n → WithTag n t = Ok n' →
    ParseNormalizedNamed (named_String n') = Ok n';
}.

Section names.
Context {RP : ReferenceParser}.

(** [parseImageName]. *)
Definition parseImageName (image : string) : outcome string :=
  let? named := wrap_err ("parsing image name " +:+ fmt_q image +:+ " failed")
                  (ParseNormalizedNamed image) in
  let? named := TagNameOnly named in
  Ok (named_String named).

Context {RL : ReferenceLaws}.

Lemma parse_tag_latest s n :
  ParseNormalizedNamed s = Ok n →
  ParseNormalizedNamed (named_String (tag_latest n)) = Ok (tag_latest n).
Proof.
  intros H. destruct n as [d p [t|] [g|]]; try (by eapply parse_String; exact H).
  by eapply (parse_WithTag _ _ "latest"); [exact H|].
Qed.

(** [parseImageName] is a normalisation: applied to its own result it changes
    nothing. *)
Lemma parseImageName_idemp s s' : parseImageName s = Ok s' → parseImageName s' = Ok s'.
Proof.
  unfold parseImageName. destruct (ParseNormalizedNamed s) as [n|e|m] eqn:H; simpl; [|done..].
  rewrite TagNameOnly_latest. simpl. intros [= <-].
  rewrite (parse_tag_latest s n H). simpl. rewrite TagNameOnly_latest. simpl.
  by rewrite tag_latest_idemp.
Qed.
End names.

(** ** A parser that keeps the laws *)

(** Names of the form domain/path, with an optional tag. *)
Module SimpleParser.
Definition parse_path (domain rest : string) : outcome Named :=
  match Cut rest ":"%char with
  | None => Ok (mkNamed domain rest None None)
  | Some (path, tag) =>
      if tag_ok tag then Ok (mkNamed domain path (Some tag) None)
      else Err (New "invalid reference format")
  end.

Definition parse (s : string) : outcome Named :=
  match Cut s "/"%char with
  | Some (String a domain, rest) => parse_path (String a domain) rest
  | _ => Err (New "invalid reference format")
  end.

#[export] Instance parser : ReferenceParser := {| ParseNormalizedNamed := parse |}.

(** The names [parse] returns. *)
Definition simple (n : Named) : Prop :=
  nm_domain n ≠ "" ∧ "/"%char ∉ chars (nm_domain n) ∧ ":"%char ∉ chars (nm_path n) ∧
  nm_digest n = None ∧ match nm_tag n with Some t => tag_ok t = true | None => True end.

Lemma parse_simple s n : parse s = Ok n → simple n.
Proof.
  unfold parse. destruct (Cut s "/"%char) as [[[|a d] rest]|] eqn:H; [done| |done].
  apply Cut_spec in H as [_ Hd]. unfold parse_path.
  destruct (Cut rest ":"%char) as [[path tag]|] eqn:H2.
  - apply Cut_spec in H2 as [_ Hp]. destruct (tag_ok tag) eqn:Ht; [|done].
    intros [= <-]. done.
  - apply Cut_None_inv in H2. intros [= <-]. done.
Qed.

Lemma simple_parse n : simple n → parse (named_String n) = Ok n.
Proof.
  destruct n as [d p t g]. intros (Hd & Hs & Hp & Hg & Ht). simpl in *. subst g.
  unfold named_String, Name. simpl. rewrite bool_decide_eq_false_2, string_app_nil_r by done.
  unfold parse. rewrite !string_app_assoc.
  match goal with |- context ["/" +:+ ?x] => change ("/" +:+ x) with (String "/" x) end.
  rewrite Cut_app by done.
  destruct d as [|a d]; [done|]. unfold parse_path. destruct t as [t|].
  - change (":" +:+ t) with (String ":" t). by rewrite Cut_app, Ht by done.
  - rewrite string_app_nil_r. by rewrite Cut_None.
Qed.

#[export] Instance laws : ReferenceLaws.
Proof.
  split; simpl.
  - intros s. unfold parse, parse_path. by repeat case_match.
  - intros s n H. by eapply simple_parse, parse_simple.
  - intros s n t n' H. unfold WithTag. destruct (tag_ok t) eqn:Ht; [|done].
    intros [= <-]. apply simple_parse. apply parse_simple in H as (? & ? & ? & ? & _).
    by split_and!.
Qed.
End SimpleParser.
