(* ===== verification/SolveRequest.v ===== *)
(** * SolveRequest: the build request sent to buildkit

    [internal/builder/embedded/util.go], [solveRequestWithContext] and
    [getExportMode]: how the options of a build become the attributes of the
    Dockerfile frontend and the import and export of cached layers. *)
From stdpp Require Import gmap strings list.
From Stdlib Require Import ZArith Ascii.
From S2P Require Import Prelude Go GoStd Config Reference.

(** ** controlapi.SolveRequest *)

Record CacheOptionsEntry := mkCacheEntry {
  ce_Type : string;
  ce_Attrs : gmap string string;
}.

Record Request := mkRequest {
  rq_Ref : string;
  rq_Session : string;
  rq_Frontend : string;
  rq_FrontendAttrs : gmap string string;
  rq_Exporter : string;
  rq_ExporterAttrs : gmap string string;
  rq_Exports : list CacheOptionsEntry;
  rq_Imports : list CacheOptionsEntry;
}.

(** ** Build arguments *)

(** [attrMap] of buildctl, on top of the entries so far. *)
Fixpoint attrMap (sl : list string) (m : gmap string string) : outcome (gmap string string) :=
  match sl with
  | [] => Ok m
  | v :: rest =>
      match SplitN2 v "="%char with
      | [k; x] => attrMap rest (<[k := x]> m)
      | _ => Err (New ("invalid value " +:+ v))
      end
  end.

(** [build.ParseOpt] without legacy options. *)
Definition ParseOpt (opts : list string) : outcome (gmap string string) := attrMap opts ∅.

(** ** Cache mode *)

Definition cacheTag : string := "buildcache".
Definition defaultCacheMode : string := "max".

Definition getExportMode (getenv : string → string) : outcome string :=
  let mode := getenv "EMBEDDED_BUILDER_CACHE_MODE" in
  if bool_decide (mode = "") then Ok defaultCacheMode
  else if bool_decide (mode ≠ "min" ∧ mode ≠ "max") then
    Err (New ("invalid embedded builder cache mode: " +:+ mode))
  else Ok mode.

(** ** The request *)

Definition label_attrs (labels : gmap string string) (attrs : gmap string string)
    : gmap string string :=
  map_fold (λ k v m, <["label:" +:+ k := v]> m) attrs labels.

Section request.
Context {RP : ReferenceParser}.
Context (getenv : string → string).

(** The name under which the layers of [image] are cached. *)
Definition cache_ref (image : string) : outcome string :=
  let? imageName := ParseNormalizedNamed image in
  let? cacheTaggedName := WithTag imageName cacheTag in
  Ok (named_String cacheTaggedName).

(** The export of cached layers, and the frontend attributes with it. *)
Definition cache_export (cacheImageLayers : bool) (opts : BuildOptions) (cacheTagRef : string)
    (attrs : gmap string string) : outcome (list CacheOptionsEntry * gmap string string) :=
  if cacheImageLayers && negb (bo_DisableLayerCacheExport opts) then
    let? cacheMode := getExportMode getenv in
    Ok ([mkCacheEntry "registry" {[ "mode" := cacheMode; "ref" := cacheTagRef ]}],
        <["cache-from" := cacheTagRef]> attrs)
  else Ok ([], attrs).

Definition cache_import (cacheImageLayers : bool) (opts : BuildOptions) (cacheTagRef : string)
    : list CacheOptionsEntry :=
  if cacheImageLayers && negb (bo_DisableBuildCache opts)
  then [mkCacheEntry "registry" {[ "ref" := cacheTagRef ]}] else [].

(** The build arguments, written over the attributes. *)
Definition arg_attrs (opts : BuildOptions) (attrs : gmap string string)
    : outcome (gmap string string) :=
  match bo_BuildArgs opts with
  | [] => Ok attrs
  | buildArgs =>
      let? attrsArgs := ParseOpt ((λ arg, "build-arg:" +:+ arg) <$> buildArgs) in
      Ok (attrsArgs ∪ attrs)
  end.

Definition solveRequestWithContext (ref sessionID image : string) (cacheImageLayers : bool)
    (opts : BuildOptions) : outcome Request :=
  let attrs := {[ "filename" := "Dockerfile" ]} in
  let? cacheTagRef := cache_ref image in
  let? exported := cache_export cacheImageLayers opts cacheTagRef attrs in
  let attrs := if bo_DisableBuildCache opts then <["no-cache" := ""]> exported.2 else exported.2 in
  let? attrs := arg_attrs opts attrs in
  let attrs := label_attrs (bo_Labels opts) attrs in
  Ok (mkRequest ref sessionID "dockerfile.v0" attrs "image" {[ "name" := image ]}
        exported.1 (cache_import cacheImageLayers opts cacheTagRef)).
End request.

(** ** The attributes of the frontend *)

(** The value the last argument of the form key=value gives to [k]. *)
Fixpoint last_arg (args : list string) (k : string) : option string :=
  match args with
  | [] => None
  | arg :: rest =>
      match last_arg rest k, Cut arg "="%char with
      | Some v, _ => Some v
      | None, Some (k', v) => if bool_decide (k' = k) then Some v else None
      | None, None => None
      end
  end.

Definition well_formed_arg (arg : string) : bool :=
  match Cut arg "="%char with Some _ => true | None => false end.

Lemma attrMap_spec sl m :
  match attrMap sl m with
  | Ok m' => forallb well_formed_arg sl = true ∧
             ∀ k, m' !! k = match last_arg sl k with Some v => Some v | None => m !! k end
  | Err _ => forallb well_formed_arg sl = false
  | Panic _ => False
  end.
Proof.
  revert m. induction sl as [|v sl IH]; intros m; simpl; [done|].
  change (well_formed_arg v)
    with (match Cut v "="%char with Some _ => true | None => false end). unfold SplitN2.
  destruct (Cut v "="%char) as [[k x]|] eqn:E; [|done].
  specialize (IH (<[k := x]> m)). destruct (attrMap sl (<[k := x]> m)) as [m'|e|p]; [|done..].
  destruct IH as [Hw IH]. split; [done|]. intros k'. rewrite IH.
  destruct (last_arg sl k'); [done|]. case_bool_decide as Hk.
  - subst k'. by rewrite lookup_insert_eq.
  - by rewrite lookup_insert_ne.
Qed.

Lemma Cut_arg p arg :
  "="%char ∉ chars p →
  Cut (p +:+ arg) "="%char =
  match Cut arg "="%char with Some (k, v) => Some (p +:+ k, v) | None => None end.
Proof. apply Cut_prefix. Qed.

Lemma last_arg_prefixed p args k :
  "="%char ∉ chars p → last_arg (String.app p <$> args) (p +:+ k) = last_arg args k.
Proof.
  intros Hp. induction args as [|arg args IH]; [done|].
  rewrite fmap_cons. simpl. rewrite IH, Cut_arg by done. destruct (last_arg args k); [done|].
  destruct (Cut arg "="%char) as [[x v]|]; [|done].
  rewrite (bool_decide_ext (p +:+ x = p +:+ k) (x = k)); [done|].
  split; [apply (inj _)|congruence].
Qed.

Lemma last_arg_other p args key :
  "="%char ∉ chars p → (∀ k, key ≠ p +:+ k) → last_arg (String.app p <$> args) key = None.
Proof.
  intros Hp Hk. induction args as [|arg args IH]; [done|].
  rewrite fmap_cons. simpl. rewrite IH, Cut_arg by done.
  destruct (Cut arg "="%char) as [[x v]|]; [|done]. rewrite bool_decide_eq_false_2; [done|].
  intros E. by apply (Hk x).
Qed.

Lemma forallb_well_formed p args :
  "="%char ∉ chars p →
  forallb well_formed_arg (String.app p <$> args) = forallb well_formed_arg args.
Proof.
  intros Hp. induction args as [|arg args IH]; [done|]. rewrite fmap_cons. simpl.
  rewrite IH. unfold well_formed_arg. rewrite Cut_arg by done.
  by destruct (Cut arg "="%char) as [[x v]|].
Qed.

Lemma build_arg_no_eq : "="%char ∉ chars "build-arg:".
Proof. apply (bool_decide_unpack _). by vm_compute. Qed.

(** The attributes with the build arguments. *)
Lemma arg_attrs_spec opts attrs :
  match arg_attrs opts attrs with
  | Ok m =>
      forallb well_formed_arg (bo_BuildArgs opts) = true ∧
      (∀ k, attrs !! ("build-arg:" +:+ k) = None →
            m !! ("build-arg:" +:+ k) = last_arg (bo_BuildArgs opts) k) ∧
      (∀ key, (∀ k, key ≠ "build-arg:" +:+ k) → m !! key = attrs !! key)
  | Err _ => forallb well_formed_arg (bo_BuildArgs opts) = false
  | Panic _ => False
  end.
Proof.
  unfold arg_attrs. destruct (bo_BuildArgs opts) as [|a l]; [done|].
  set (args := a :: l). unfold ParseOpt.
  pose proof (attrMap_spec (String.app "build-arg:" <$> args) ∅) as H.
  rewrite forallb_well_formed in H by apply build_arg_no_eq.
  destruct (attrMap _ ∅) as [m|e|p]; cbn [obind]; [|done..].
  destruct H as [Hw Hl]. split; [done|]. split.
  - intros k Hk.
    rewrite lookup_union, Hl, Hk, last_arg_prefixed, lookup_empty by apply build_arg_no_eq.
    by destruct (last_arg args k).
  - intros key Hk. rewrite lookup_union, Hl, last_arg_other by (done || apply build_arg_no_eq).
    by rewrite lookup_empty, (left_id_L None _).
Qed.

Lemma label_attrs_union labels attrs :
  label_attrs labels attrs = kmap (String.app "label:") labels ∪ attrs.
Proof.
  unfold label_attrs. revert labels. apply (map_fold_weak_ind
    (λ m labels, m = kmap (String.app "label:") labels ∪ attrs)).
  - by rewrite kmap_empty, (left_id_L ∅ (∪)).
  - intros k v labels m Hk ->. rewrite kmap_insert by apply _.
    by rewrite insert_union_l.
Qed.

(** The three kinds of keys do not overlap. *)
Definition fixed_key (key : string) : bool :=
  bool_decide (key = "filename") || bool_decide (key = "no-cache") ||
  bool_decide (key = "cache-from").

Lemma fixed_not_arg key k : fixed_key key = true → key ≠ "build-arg:" +:+ k.
Proof.
  unfold fixed_key. intros H ->. by rewrite !string_app_cons in H.
Qed.

Lemma fixed_not_label key k : fixed_key key = true → key ≠ "label:" +:+ k.
Proof. unfold fixed_key. intros H ->. by rewrite !string_app_cons in H. Qed.

Lemma label_not_arg k k' : "label:" +:+ k ≠ "build-arg:" +:+ k'.
Proof. by rewrite !string_app_cons. Qed.

Lemma lookup_label_attrs labels attrs k :
  attrs !! ("label:" +:+ k) = None →
  label_attrs labels attrs !! ("label:" +:+ k) = labels !! k.
Proof.
  intros H. rewrite label_attrs_union, lookup_union, H, lookup_kmap by apply _.
  by destruct (labels !! k).
Qed.

Lemma lookup_label_attrs_ne labels attrs key :
  (∀ k, key ≠ "label:" +:+ k) → label_attrs labels attrs !! key = attrs !! key.
Proof.
  intros H. rewrite label_attrs_union, lookup_union_r; [done|].
  apply lookup_kmap_None; [apply _|]. intros k ->. by destruct (H k).
Qed.

Section properties.
Context {RP : ReferenceParser}.
Context (getenv : string → string).

Definition exports_cache (cacheImageLayers : bool) (opts : BuildOptions) : bool :=
  cacheImageLayers && negb (bo_DisableLayerCacheExport opts).

(** The attributes that do not come from arguments and labels. *)
Definition base_attrs (cacheImageLayers : bool) (opts : BuildOptions) (cref : string)
    : gmap string string :=
  let attrs := {[ "filename" := "Dockerfile" ]} in
  let attrs := if exports_cache cacheImageLayers opts
               then <["cache-from" := cref]> attrs else attrs in
  if bo_DisableBuildCache opts then <["no-cache" := ""]> attrs else attrs.

Lemma base_attrs_fixed cil opts cref key :
  is_Some (base_attrs cil opts cref !! key) → fixed_key key = true.
Proof.
  unfold base_attrs, fixed_key. intros [v H]. destruct (bool_decide (key = "filename")) eqn:E1,
    (bool_decide (key = "no-cache")) eqn:E2, (bool_decide (key = "cache-from")) eqn:E3; try done.
  apply bool_decide_eq_false in E1, E2, E3.
  destruct (exports_cache cil opts), (bo_DisableBuildCache opts);
    rewrite ?lookup_insert_ne, ?lookup_singleton_ne in H by congruence; done.
Qed.

(** A request that is built has the attributes of its parts. *)
Lemma solveRequest_parts ref sid image cil opts rq :
  solveRequestWithContext getenv ref sid image cil opts = Ok rq →
  ∃ cref m,
    cache_ref image = Ok cref ∧
    arg_attrs opts (base_attrs cil opts cref) = Ok m ∧
    rq_FrontendAttrs rq = label_attrs (bo_Labels opts) m ∧
    rq_Imports rq = cache_import cil opts cref ∧
    (if exports_cache cil opts
     then ∃ mode, getExportMode getenv = Ok mode ∧
          rq_Exports rq = [mkCacheEntry "registry" {[ "mode" := mode; "ref" := cref ]}]
     else rq_Exports rq = []) ∧
    rq_ExporterAttrs rq = {[ "name" := image ]} ∧ rq_Session rq = sid ∧ rq_Ref rq = ref.
Proof.
  unfold solveRequestWithContext, cache_export. fold (exports_cache cil opts).
  destruct (cache_ref image) as [cref| |]; simpl; [|done..].
  unfold base_attrs. destruct (exports_cache cil opts).
  - destruct (getExportMode getenv) as [mode| |]; simpl; [|done..].
    destruct (arg_attrs _ _) as [m| |] eqn:Hm; simpl; [|done..]. intros [= <-].
    exists cref, m. split_and!; eauto.
  - simpl. destruct (arg_attrs _ _) as [m| |] eqn:Hm; simpl; [|done..]. intros [= <-].
    exists cref, m. split_and!; eauto.
Qed.

(** C25: Functional behaviour of the build request.  The frontend attributes are
    exactly: the Dockerfile name; "no-cache" when the build cache is disabled;
    "cache-from" when layers are exported to the cache; for every build argument
    its last value; and every label.  No argument and no label, whatever its
    text, can set or change another attribute. *)
Theorem solveRequest_attributes ref sid image cil opts rq :
  solveRequestWithContext getenv ref sid image cil opts = Ok rq →
  let attrs := rq_FrontendAttrs rq in
  attrs !! "filename" = Some "Dockerfile" ∧
  attrs !! "no-cache" = (if bo_DisableBuildCache opts then Some "" else None) ∧
  (∃ cref, cache_ref image = Ok cref ∧
     attrs !! "cache-from" = if exports_cache cil opts then Some cref else None) ∧
  (∀ k, attrs !! ("build-arg:" +:+ k) = last_arg (bo_BuildArgs opts) k) ∧
  (∀ k, attrs !! ("label:" +:+ k) = bo_Labels opts !! k) ∧
  (∀ key, is_Some (attrs !! key) →
     fixed_key key = true ∨ ∃ k, key = "build-arg:" +:+ k ∨ key = "label:" +:+ k).
Proof.
  intros (cref & m & Hc & Hm & Ha & _)%solveRequest_parts attrs.
  pose proof (arg_attrs_spec opts (base_attrs cil opts cref)) as H. rewrite Hm in H.
  destruct H as (_ & Harg & Hother).
  assert (∀ key, fixed_key key = true → attrs !! key = base_attrs cil opts cref !! key) as Hfix.
  { intros key Hk. unfold attrs. rewrite Ha, lookup_label_attrs_ne, Hother;
      auto using fixed_not_arg, fixed_not_label. }
  assert (∀ key, fixed_key key = false → base_attrs cil opts cref !! key = None) as Hnone.
  { intros key Hk. apply eq_None_not_Some. intros ?%base_attrs_fixed. congruence. }
  assert (∀ k, m !! ("label:" +:+ k) = None) as Hlab.
  { intros k. rewrite Hother by (intros k'; apply label_not_arg). apply Hnone.
    unfold fixed_key. by rewrite !string_app_cons. }
  split_and!.
  - rewrite Hfix by done. unfold base_attrs.
    by destruct (exports_cache cil opts), (bo_DisableBuildCache opts).
  - rewrite Hfix by done. unfold base_attrs.
    by destruct (exports_cache cil opts), (bo_DisableBuildCache opts).
  - exists cref. split; [done|]. rewrite Hfix by done. unfold base_attrs.
    by destruct (exports_cache cil opts), (bo_DisableBuildCache opts).
  - intros k. unfold attrs. rewrite Ha, lookup_label_attrs_ne, Harg; [done| |].
    + apply Hnone. unfold fixed_key. by rewrite !string_app_cons.
    + intros k' E. by apply (label_not_arg k' k).
  - intros k. unfold attrs. by rewrite Ha, lookup_label_attrs.
  - intros key Hkey. destruct (fixed_key key) eqn:Hf; [by left|right].
    destruct (has_prefix_dec "build-arg:" key) as [[k ->]|Hn1]; [eauto|].
    destruct (has_prefix_dec "label:" key) as [[k ->]|Hn2]; [eauto|].
    unfold attrs in Hkey. rewrite Ha, lookup_label_attrs_ne, Hother, Hnone in Hkey by done.
    by destruct Hkey.
Qed.

(** Caching policy and errors.  A request is refused exactly when the image
    name does not parse, an argument has no "=", or layers are to be exported and
    the cache mode of the environment is neither "min" nor "max".  Layers are
    exported only when layer caching is on and its export is not disabled, and
    imported only when layer caching is on and the build cache is not disabled;
    both use the repository of the image with the tag "buildcache". *)
Theorem solveRequest_caching ref sid image cil opts :
  (is_Ok (solveRequestWithContext getenv ref sid image cil opts) = true ↔
   is_Ok (ParseNormalizedNamed image) = true ∧
   forallb well_formed_arg (bo_BuildArgs opts) = true ∧
   (exports_cache cil opts = true → is_Ok (getExportMode getenv) = true)) ∧
  ∀ rq, solveRequestWithContext getenv ref sid image cil opts = Ok rq →
    ∃ named, ParseNormalizedNamed image = Ok named ∧
      let cref := named_String (mkNamed (nm_domain named) (nm_path named) (Some "buildcache")
                                  (nm_digest named)) in
      (λ e, ce_Attrs e !! "ref") <$> rq_Exports rq =
        (if cil && negb (bo_DisableLayerCacheExport opts) then [Some cref] else []) ∧
      (λ e, ce_Attrs e !! "ref") <$> rq_Imports rq =
        (if cil && negb (bo_DisableBuildCache opts) then [Some cref] else []).
Proof.
  split.
  - unfold solveRequestWithContext, cache_ref, cache_export. fold (exports_cache cil opts).
    destruct (ParseNormalizedNamed image) as [n|e|p]; simpl; [|naive_solver..].
    destruct (exports_cache cil opts).
    + destruct (getExportMode getenv) as [mode|e|p]; simpl; [|naive_solver..].
      match goal with |- context [arg_attrs opts ?a] => pose proof (arg_attrs_spec opts a) as H end.
      destruct (arg_attrs _ _); simpl; naive_solver congruence.
    + simpl.
      match goal with |- context [arg_attrs opts ?a] => pose proof (arg_attrs_spec opts a) as H end.
      destruct (arg_attrs _ _); simpl; naive_solver congruence.
  - intros rq (cref & m & Hc & _ & _ & HI & HE & _)%solveRequest_parts.
    unfold cache_ref in Hc. destruct (ParseNormalizedNamed image) as [n| |]; simpl in Hc; [|done..].
    injection Hc as <-. exists n. split; [done|]. rewrite HI. fold (exports_cache cil opts).
    split; [destruct (exports_cache cil opts); [destruct HE as (mode & _ & ->)|rewrite HE]; done|].
    unfold cache_import. by destruct (cil && _).
Qed.
End properties.

(** ** A concrete request *)

Module RequestSample.
Import SimpleParser.

Definition opts : BuildOptions :=
  mkBuildOptions "http://ctx" 0 "img" 0 {[ "a" := "b" ]} ["X=1"; "Y=a=b"; "X=2"; "filename=z"]
    true false 0 [] ["reg.io"] ∅ [].

Lemma solveRequest_attributes_witness :
  ∃ rq, solveRequestWithContext (λ _, "") "ref" "sid" "reg.io/img:1" true opts = Ok rq ∧
    rq_FrontendAttrs rq !! ("build-arg:" +:+ "X") = Some "2" ∧
    rq_FrontendAttrs rq !! "filename" = Some "Dockerfile".
Proof.
  eexists. split; [vm_compute; reflexivity|].
  edestruct (solveRequest_attributes (λ _, "") "ref" "sid" "reg.io/img:1" true opts)
    as (Hf & _ & _ & Ha & _); [vm_compute; reflexivity|].
  split; [rewrite Ha; reflexivity|exact Hf].
Defined.

Lemma solveRequest_caching_witness :
  ∃ rq, solveRequestWithContext (λ _, "") "ref" "sid" "reg.io/img:1" true opts = Ok rq ∧
    (λ e, ce_Attrs e !! "ref") <$> rq_Exports rq = [Some "reg.io/img:buildcache"] ∧
    (λ e, ce_Attrs e !! "ref") <$> rq_Imports rq = [].
Proof.
  eexists. split; [vm_compute; reflexivity|].
  edestruct (proj2 (solveRequest_caching (λ _, "") "ref" "sid" "reg.io/img:1" true opts))
    as (named & Hn & He & Hi); [vm_compute; reflexivity|].
  injection Hn as <-. split; [exact He|exact Hi].
Defined.
End RequestSample.
