(* ===== verification/Driver.v ===== *)
(** * Driver: building, tagging and pushing images

    [internal/builder/embedded/driver.go] and the parts of its client in
    [internal/builder/embedded/bkimage] that decide what is called: host
    configuration, sessions, the controller, and getting, tagging and pushing
    images of the local store.  Buildkit and containerd are parameters. *)
From stdpp Require Import gmap strings list pretty.
From Stdlib Require Import ZArith.
From S2P Require Import Prelude Go GoStd Config RegistryConfig Reference SolveRequest.

(** ** bkimage/hosts.go *)

Definition CredentialsFn : Type := string → outcome (string * string).
Definition TLSEnabledFn : Type := string → outcome bool.

(** [docker.RegistryHosts]: the default registries, or the registries with an
    authoriser and a plain-HTTP rule. *)
Inductive RegistryHosts :=
| DefaultRegistries
| ConfiguredRegistries (hostCredentials : CredentialsFn) (matchNonSSL : TLSEnabledFn).

(** An image of the local store. *)
Record StoredImage := mkStoredImage {
  im_Name : string;
  im_Target : string;
  im_CreatedAt : Z;
}.

(** ** What the driver calls *)

Class Buildkit (W : Type) := {
  bk_Extract : string → string → Z → M W string;
  bk_Prepare : string → string → gmap string string → M W unit;
  bk_Cleanup : string → M W unit;
  bk_NewManager : M W unit;
  bk_NewSession : list (string * string) → M W string;
  bk_SessionRun : string → M W unit;
  bk_SessionClose : string → M W unit;
  bk_NewID : M W string;
  bk_WorkerOpt : M W unit;
  bk_NewWorker : M W unit;
  bk_AddWorker : M W unit;
  bk_CacheStore : M W unit;
  bk_NewController : M W unit;
  bk_Solve : Request → RegistryHosts → M W unit;
  bk_Status : string → M W unit;
  bk_Display : M W unit;
  bk_Push : string → string → string → RegistryHosts → M W unit;
  (* which error of a group of goroutines came first *)
  eg_first : list error → M W error;
  is_Get : string → M W StoredImage;
  is_Update : StoredImage → M W unit;
  is_Create : StoredImage → M W unit;
  is_IsNotFound : error → bool;
  is_Size : StoredImage → M W Z; (* int64 *)
}.

(** The calls the theorems speak of, in the order they are made.  A size is
    recorded with the image the store returned for the name and with what the store
    computed for this image, a push with the digest that is pushed. *)
Inductive call :=
| CallExtract (url dst : string) (timeout : Z)
| CallPrepare (plugin dir : string)
| CallCleanup (plugin : string)
| CallSolve (req : Request) (hosts : RegistryHosts)
| CallSize (name : string) (image : StoredImage) (size : Z)
| CallPush (image target : string) (hosts : RegistryHosts).

(** The driver and its client. *)
Record driver (W : Type) := mkDriver {
  d_registryHosts : RegistryHosts;
  d_hostCredentials : CredentialsFn;
  d_sessionManager : bool;
  d_controller : bool;
  d_preparerPlugins : list string;
  d_cacheImageLayers : bool;
  d_world : W;
  d_calls : list call;
}.
Arguments mkDriver {W}.
Arguments d_registryHosts {W}.
Arguments d_hostCredentials {W}.
Arguments d_sessionManager {W}.
Arguments d_controller {W}.
Arguments d_preparerPlugins {W}.
Arguments d_cacheImageLayers {W}.
Arguments d_world {W}.
Arguments d_calls {W}.

Section driver.
Context {W : Type} {BK : Buildkit W} {RP : ReferenceParser}.
Context (getenv : string → string).
#[local] Notation D := (driver W).

Definition set_d_world (w : W) (d : D) : D :=
  mkDriver (d_registryHosts d) (d_hostCredentials d) (d_sessionManager d) (d_controller d)
    (d_preparerPlugins d) (d_cacheImageLayers d) w (d_calls d).

Definition set_hosts (hosts : RegistryHosts) (creds : CredentialsFn) (d : D) : D :=
  mkDriver hosts creds (d_sessionManager d) (d_controller d)
    (d_preparerPlugins d) (d_cacheImageLayers d) (d_world d) (d_calls d).

Definition log_call (c : call) (d : D) : D :=
  mkDriver (d_registryHosts d) (d_hostCredentials d) (d_sessionManager d) (d_controller d)
    (d_preparerPlugins d) (d_cacheImageLayers d) (d_world d) (d_calls d ++ [c]).

(** A call of a library, and one that is recorded. *)
Definition ext {A} (c : M W A) : M D A := zoom d_world set_d_world c.
Definition recorded {A} (ev : call) (c : M W A) : M D A := do! modify (log_call ev) in ext c.

(** ** bkimage: host configuration *)

Definition ResetHostConfigurations (d : D) : D :=
  set_hosts DefaultRegistries (λ _, Ok ("", "")) d.

Definition ConfigureHosts (hostCredentials : CredentialsFn) (matchNonSSL : TLSEnabledFn) (d : D)
    : D :=
  set_hosts (ConfiguredRegistries hostCredentials matchNonSSL) hostCredentials d.

(** The closures the session and the worker are given at their start: they answer
    with the configuration the client has when they are called. *)
Definition getHostCredentials (d : D) : CredentialsFn := λ host, d_hostCredentials d host.
Definition getRegistryHosts (d : D) : RegistryHosts := d_registryHosts d.

(** ** bkimage: sessions and the controller *)

Definition getSessionManager : M D unit :=
  let! d := get in
  if d_sessionManager d then ret tt
  else
    do! wrapping "cannot create session manager" (ext bk_NewManager) in
    modify (λ d, mkDriver (d_registryHosts d) (d_hostCredentials d) true (d_controller d)
                   (d_preparerPlugins d) (d_cacheImageLayers d) (d_world d) (d_calls d)).

Definition Session (localDirs : list (string * string)) : M D string :=
  do! getSessionManager in
  wrapping "failed to create session" (ext (bk_NewSession localDirs)).

Definition createController : M D unit :=
  do! wrapping "creating session manager failed" getSessionManager in
  do! wrapping "creating worker opt failed" (ext bk_WorkerOpt) in
  do! wrapping "creating worker failed" (ext bk_NewWorker) in
  do! wrapping "adding worker to worker controller failed" (ext bk_AddWorker) in
  do! wrapping "creating cache store failed" (ext bk_CacheStore) in
  do! wrapping "creating controller failed" (ext bk_NewController) in
  modify (λ d, mkDriver (d_registryHosts d) (d_hostCredentials d) (d_sessionManager d) true
                 (d_preparerPlugins d) (d_cacheImageLayers d) (d_world d) (d_calls d)).

(** [errgroup.Group.Wait] on goroutines that have all returned: nil when all
    returned nil, and otherwise the error that came first. *)
Definition eg_Wait (results : list (error + unit)) : M D unit :=
  match omap (λ r, match r with inl e => Some e | inr _ => None end) results with
  | [] => ret tt
  | errs => let! e := ext (eg_first errs) in throw e
  end.

Definition Solve (req : Request) : M D unit :=
  let! d := get in
  do! (if d_controller d then ret tt else createController) in
  let! d := get in
  let! solved := try (wrapping "failed to solve"
                        (recorded (CallSolve req (getRegistryHosts d))
                           (bk_Solve req (getRegistryHosts d)))) in
  let! status := try (ext (bk_Status (rq_Ref req))) in
  eg_Wait [solved; status].

(** ** bkimage: the image store *)

Definition get_stored (name : string) : M D StoredImage :=
  wrapping ("getting image " +:+ fmt_q name +:+ " from image store failed") (ext (is_Get name)).

Definition GetImage (name : string) : M D (StoredImage * Z) :=
  let! name := lift_outcome (parseImageName name) in
  let! imgObj := get_stored name in
  let! size := wrapping ("calculating image size of " +:+ fmt_q name +:+ " failed")
                 (ext (is_Size imgObj)) in
  do! modify (log_call (CallSize name imgObj size)) in
  ret (imgObj, size).

Definition TagImage (src dest : string) : M D unit :=
  let! src := lift_outcome (parseImageName src) in
  let! dest := lift_outcome (parseImageName dest) in
  let! imgObj := get_stored src in
  let img := mkStoredImage dest (im_Target imgObj) (im_CreatedAt imgObj) in
  let! updated := try (ext (is_Update img)) in
  match updated with
  | inr _ => ret tt
  | inl err =>
      if negb (is_IsNotFound err) then
        throw (wrap err ("updating image store with " +:+ fmt_q dest +:+ " failed"))
      else
        wrapping ("creating image " +:+ fmt_q dest +:+ " in image store failed")
          (ext (is_Create img))
  end.

Definition PushImage (id image : string) : M D unit :=
  let! image := lift_outcome (parseImageName image) in
  let! imgObj := get_stored image in
  do! getSessionManager in
  let! d := get in
  recorded (CallPush image (im_Target imgObj) (getRegistryHosts d))
    (bk_Push id (im_Target imgObj) image (getRegistryHosts d)).

(** ** driver.go: build *)

(** The local variables of [build] that its deferred functions see: how many
    of them there are, and the loop variable they all share. *)
Record frame := mkFrame { f_defers : nat; f_preparerPlugin : string }.

(** A call of the driver inside [build]. *)
Definition on_driver {A} (c : M D A) : M (D * frame) A := zoom fst (λ d s, (d, s.2)) c.

(** One iteration: the variable is set and a deferred function is pushed, then
    the plugin prepares the context. *)
Definition prepare_plugin (dir : string) (data : gmap string string) (plugin : string)
    : M (D * frame) unit :=
  do! modify (λ s, (s.1, mkFrame (S (f_defers s.2)) plugin)) in
  on_driver (recorded (CallPrepare plugin dir) (bk_Prepare plugin dir data)).

(** [build] from the session on: the goroutines of the session, of the solver
    and of the progress display are joined. *)
Definition solve_image (dir image : string) (opts : BuildOptions) : M D unit :=
  let! sess := Session [("context", dir); ("dockerfile", dir)] in
  let! ref := ext bk_NewID in
  let! d := get in
  match solveRequestWithContext getenv ref sess image (d_cacheImageLayers d) opts with
  | Err e => do! ext (bk_SessionClose sess) in throw e
  | Panic m => panic m
  | Ok solveReq =>
      let! run := try (ext (bk_SessionRun sess)) in
      let! solved := try (Solve solveReq) in
      do! ext (bk_SessionClose sess) in
      let! shown := try (ext bk_Display) in
      eg_Wait [run; solved; shown]
  end.

(** [build] up to its deferred functions. *)
Definition build_body (image : string) (opts : BuildOptions) : M (D * frame) unit :=
  let! dir := on_driver (recorded (CallExtract (bo_ContextURL opts) BuildContextPath
                                     (bo_ContextTimeout opts))
                           (bk_Extract (bo_ContextURL opts) BuildContextPath
                              (bo_ContextTimeout opts))) in
  let! s := get in
  do! for_each (prepare_plugin dir (bo_PluginData opts)) (d_preparerPlugins s.1) in
  on_driver (solve_image dir image opts).

(** [n] deferred calls of [c]: all of them run, and a panic of one is the
    result. *)
Fixpoint run_defers (n : nat) (c : M D unit) : M D unit := λ d,
  match n with
  | O => (Ok tt, d)
  | S n' =>
      let '(o1, d1) := c d in
      let '(o2, d2) := run_defers n' c d1 in
      (match o2 with Panic m => Panic m | _ => o1 end, d2)
  end.

(** [build]'s deferred functions call [Cleanup] on the plugin the loop
    variable holds when the function returns; their errors are only logged. *)
Definition run_cleanups (f : frame) : M D unit :=
  run_defers (f_defers f)
    (do! try (recorded (CallCleanup (f_preparerPlugin f)) (bk_Cleanup (f_preparerPlugin f))) in
     ret tt).

Definition build (image : string) (opts : BuildOptions) : M D unit := λ d,
  let '(o, (d1, f)) := build_body image opts (d, mkFrame 0 "") in
  let '(o2, d2) := run_cleanups f d1 in
  (match o2 with Panic m => Panic m | _ => o end, d2).

(** ** driver.go: tag, push and size *)

Definition tag (image target : string) : M D unit := TagImage image target.

Definition push (image : string) : M D unit :=
  let! sess := Session [] in
  let! run := try (ext (bk_SessionRun sess)) in
  let! pushed := try (PushImage sess image) in
  do! ext (bk_SessionClose sess) in
  eg_Wait [run; pushed].

Definition validateImageSize (name : string) (limit : Z) : M D Z :=
  let! got := try (GetImage name) in
  match got with
  | inl err => throw (New ("cannot validate image size: " +:+ Error err))
  | inr image =>
      let imageSize := uint64_of image.2 in
      if (0 <? limit)%Z && (limit <? imageSize)%Z then
        throw (New ("image " +:+ fmt_q name +:+ " is too large to push to registry (size: "
                    +:+ pretty imageSize +:+ ", limit: " +:+ pretty limit +:+ ")"))
      else ret imageSize
  end.

(** ** driver.go: BuildAndPush *)

(** The fully-qualified name of the image in a registry. *)
Definition image_name (opts : BuildOptions) (registry : string) : outcome string :=
  let image := registry +:+ "/" +:+ bo_ImageName opts in
  match ParseNormalizedNamed image with
  | Err err => Err (New ("parsing image name " +:+ fmt_q image +:+ " failed: " +:+ Error err))
  | Panic m => Panic m
  | Ok named => let? named := TagNameOnly named in Ok (named_String named)
  end.

(** The loop over the registries, from index [idx]. *)
Fixpoint push_loop (opts : BuildOptions) (idx : nat) (registries : list string)
    (headImg : string) (images : list string) (imageSize : Z) : M D Image :=
  match registries with
  | [] => ret (mkImage images imageSize)
  | registry :: rest =>
      let! image := lift_outcome (image_name opts registry) in
      if Nat.eqb idx 0 then
        do! build image opts in
        let! imageSize := validateImageSize image (bo_ImageSizeLimit opts) in
        do! push image in
        push_loop opts (S idx) rest image (images ++ [image]) imageSize
      else
        do! tag headImg image in
        do! push image in
        push_loop opts (S idx) rest headImg (images ++ [image]) imageSize
  end.

Definition BuildAndPush (opts : BuildOptions) : M D Image :=
  if bool_decide (length (bo_PushRegistries opts) = 0) then
    throw (New "image builds require at least one push registry")
  else
    let fns := generateRegistryFunc (bo_Registries opts) in
    do! modify (ConfigureHosts fns.1 fns.2) in
    deferred ResetHostConfigurations
      (push_loop opts 0 (bo_PushRegistries opts) "" [] 0).
End driver.

(** ** What the image store promises *)

(** The image store of containerd: a name refers to one image; an update or a
    creation sets the name of its image and nothing else, or fails; no other of
    these calls changes what a name refers to. *)
Class ImageStore (W : Type) {BK : Buildkit W} := {
  images_of : W → gmap string StoredImage;
  Get_image name w im w' : is_Get name w = (Ok im, w') → images_of w !! name = Some im;
  Get_keeps name : always (λ w w', images_of w' = images_of w) (is_Get name);
  Size_keeps im : always (λ w w', images_of w' = images_of w) (is_Size im);
  Push_keeps id target image hosts :
    always (λ w w', images_of w' = images_of w) (bk_Push id target image hosts);
  NewManager_keeps : always (λ w w', images_of w' = images_of w) bk_NewManager;
  NewSession_keeps dirs : always (λ w w', images_of w' = images_of w) (bk_NewSession dirs);
  SessionRun_keeps s : always (λ w w', images_of w' = images_of w) (bk_SessionRun s);
  SessionClose_keeps s : always (λ w w', images_of w' = images_of w) (bk_SessionClose s);
  first_keeps errs : always (λ w w', images_of w' = images_of w) (eg_first errs);
  Update_sets im w o w' : is_Update im w = (o, w') →
    images_of w' = if is_Ok o then <[im_Name im := im]> (images_of w) else images_of w;
  Create_sets im w o w' : is_Create im w = (o, w') →
    images_of w' = if is_Ok o then <[im_Name im := im]> (images_of w) else images_of w;
}.

(** ** What a run of the driver calls *)

Section calls.
Context {W : Type} {BK : Buildkit W} {RP : ReferenceParser}.
Context (getenv : string → string).
#[local] Notation D := (driver W).
Implicit Types (d : D).

(** From [d] to [d'] the calls [new] were made, and neither the hosts nor the
    configuration of the driver changed. *)
Definition adds d d' (new : list call) : Prop :=
  d_registryHosts d' = d_registryHosts d ∧ d_hostCredentials d' = d_hostCredentials d ∧
  d_preparerPlugins d' = d_preparerPlugins d ∧
  d_cacheImageLayers d' = d_cacheImageLayers d ∧ d_calls d' = d_calls d ++ new.

Lemma adds_nil d : adds d d [].
Proof. unfold adds. by rewrite app_nil_r. Qed.

Lemma adds_trans d1 d2 d3 l1 l2 : adds d1 d2 l1 → adds d2 d3 l2 → adds d1 d3 (l1 ++ l2).
Proof.
  intros (? & ? & ? & ? & E1) (? & ? & ? & ? & E2). unfold adds.
  rewrite E2, E1, app_assoc. split_and!; congruence.
Qed.

Lemma adds_hosts d d' new : adds d d' new → d_registryHosts d' = d_registryHosts d.
Proof. by intros [? _]. Qed.

(** Calls that record nothing. *)
Definition silent {A} (c : M D A) : Prop := always (λ d d', adds d d' []) c.

#[export] Instance adds_nil_preorder : PreOrder (λ d d', adds d d' []).
Proof. split; [intros d; apply adds_nil|]. intros d1 d2 d3 H1 H2. apply (adds_trans _ _ _ _ _ H1 H2). Qed.

Lemma silent_ext {A} (c : M W A) : silent (ext c).
Proof.
  intros d o d'. unfold ext, zoom. destruct (c (d_world d)). intros [= <- <-].
  unfold adds. simpl. by rewrite app_nil_r.
Qed.

Lemma silent_bind {A B} (c : M D A) (k : A → M D B) :
  silent c → (∀ a, silent (k a)) → silent (bind c k).
Proof. apply (always_bind _). Qed.

Lemma silent_ret {A} (a : A) : silent (ret a).
Proof. apply (always_ret _). Qed.
Lemma silent_throw {A} e : silent (throw (A:=A) e).
Proof. apply (always_throw _). Qed.
Lemma silent_get : silent get.
Proof. apply (always_get _). Qed.
Lemma silent_lift {A} (o : outcome A) : silent (lift_outcome o).
Proof. apply (always_lift_outcome _). Qed.
Lemma silent_try {A} (c : M D A) : silent c → silent (try c).
Proof. apply always_try. Qed.
Lemma silent_wrapping {A} m (c : M D A) : silent c → silent (wrapping m c).
Proof. apply always_wrapping. Qed.
#[local] Hint Resolve silent_ext silent_bind silent_ret silent_throw silent_get silent_lift
  silent_try silent_wrapping : forge.

Lemma silent_getSessionManager : silent getSessionManager.
Proof.
  apply silent_bind; [auto with forge|]. intros d. destruct (d_sessionManager d); [auto with forge|].
  apply silent_bind; [auto with forge|]. intros _ d1 o d2 [= <- <-].
  unfold adds. simpl. by rewrite app_nil_r.
Qed.
#[local] Hint Resolve silent_getSessionManager : forge.

Lemma silent_Session dirs : silent (Session dirs).
Proof. unfold Session. auto with forge. Qed.

Lemma silent_createController : silent createController.
Proof.
  unfold createController. repeat (apply silent_bind; [auto with forge|intros _]).
  intros d o d' [= <- <-]. unfold adds. simpl. by rewrite app_nil_r.
Qed.

Lemma silent_eg_Wait results : silent (eg_Wait results).
Proof. unfold eg_Wait. destruct (omap _ results); auto with forge. Qed.

Lemma silent_TagImage src dest : silent (TagImage src dest).
Proof.
  unfold TagImage, get_stored. repeat (apply silent_bind; [auto with forge|intros ?]).
  match goal with |- silent (match ?r with _ => _ end) => destruct r end; [|auto with forge].
  destruct (is_IsNotFound _); simpl; auto with forge.
Qed.

Lemma recorded_adds {A} ev (c : M W A) d o d' : recorded ev c d = (o, d') → adds d d' [ev].
Proof.
  unfold recorded, bind, modify. intros H%silent_ext.
  destruct H as (? & ? & ? & ? & E). unfold adds. rewrite E. simpl. by rewrite app_nil_r.
Qed.

(** A group of goroutines succeeds only when all did. *)
Lemma eg_Wait_Ok results d d' :
  eg_Wait results d = (Ok tt, d') → Forall (λ r, ∃ u, r = inr u) results.
Proof.
  unfold eg_Wait. destruct (omap _ results) as [|e errs] eqn:E.
  - intros _. induction results as [|[e|[]] results IH]; [constructor|done|].
    constructor; [eauto|]. apply IH. exact E.
  - intros H. exfalso. unfold bind, throw in H. by destruct (ext _ d) as [[] ?].
Qed.

(** A silent step either ends the function without success or goes on. *)
Lemma silent_bind_inv {A B} (c : M D A) (k : A → M D B) d o d' :
  silent c → bind c k d = (o, d') →
  (adds d d' [] ∧ is_Ok o = false) ∨
  ∃ a d1, adds d d1 [] ∧ c d = (Ok a, d1) ∧ k a d1 = (o, d').
Proof.
  intros Hc [(a & d1 & H1 & H2)|[(e & H1 & ->)|(m & H1 & ->)]]%bind_inv;
    pose proof (Hc _ _ _ H1); [right; by exists a, d1|by left..].
Qed.

Lemma adds_nil_l d1 d2 d3 l : adds d1 d2 [] → adds d2 d3 l → adds d1 d3 l.
Proof. intros H1 H2. exact (adds_trans _ _ _ _ _ H1 H2). Qed.

Lemma adds_nil_r d1 d2 d3 l : adds d1 d2 l → adds d2 d3 [] → adds d1 d3 l.
Proof. intros H1 H2. rewrite <- (app_nil_r l). exact (adds_trans _ _ _ _ _ H1 H2). Qed.

Lemma Solve_adds req d o d' :
  Solve req d = (o, d') →
  (adds d d' [] ∧ is_Ok o = false) ∨ adds d d' [CallSolve req (d_registryHosts d)].
Proof.
  unfold Solve, getRegistryHosts. intros H.
  apply silent_bind_inv in H as [H|(d0 & d1 & H1 & _ & H)]; [by left| |auto with forge].
  apply silent_bind_inv in H as [[H ?]|(u & d2 & H2 & _ & H)];
    [left; split; [by eapply adds_nil_l|done]| |].
  2: { destruct (d_controller d0); auto using silent_createController with forge. }
  pose proof (adds_nil_l _ _ _ _ H1 H2) as H12.
  unfold bind at 1, get in H. rewrite (adds_hosts _ _ _ H12) in H. right.
  assert (∀ (r : outcome (error + unit)) d3,
    try (wrapping "failed to solve" (recorded (CallSolve req (d_registryHosts d))
      (bk_Solve req (d_registryHosts d)))) d2 = (r, d3) →
    adds d2 d3 [CallSolve req (d_registryHosts d)]) as Hrec.
  { intros r d3. unfold try, wrapping. destruct (recorded _ _ d2) as [r' d4] eqn:E.
    apply recorded_adds in E. by destruct r'; intros [= _ <-]. }
  apply (adds_nil_l _ _ _ _ H12).
  apply bind_inv in H as [(r & d3 & H3 & H)|[(e & H3 & ->)|(m & H3 & ->)]];
    apply Hrec in H3; [|done..].
  apply (adds_nil_r _ _ _ _ H3). revert H.
  apply silent_bind; auto using silent_eg_Wait with forge.
Qed.

Context {IS : ImageStore W}.

(** Names refer to the same images before and after. *)
Definition stable d d' : Prop := images_of (d_world d') = images_of (d_world d).

#[local] Instance stable_preorder : PreOrder stable.
Proof. split; [done|]. intros d1 d2 d3 H1 H2. unfold stable in *. congruence. Qed.

Lemma stable_ext {A} (c : M W A) :
  always (λ w w', images_of w' = images_of w) c → always stable (ext c).
Proof.
  intros Hc d o d'. unfold ext, zoom. destruct (c (d_world d)) as [o1 w1] eqn:E.
  intros [= <- <-]. exact (Hc _ _ _ E).
Qed.

Lemma stable_recorded {A} ev (c : M W A) :
  always (λ w w', images_of w' = images_of w) c → always stable (recorded ev c).
Proof.
  intros Hc. apply (always_bind stable); [by apply (always_modify stable)|].
  intros _. by apply stable_ext.
Qed.

Lemma stable_getSessionManager : always stable getSessionManager.
Proof.
  apply (always_bind stable); [apply (always_get stable)|]. intros d.
  destruct (d_sessionManager d); [apply (always_ret stable)|].
  apply (always_bind stable); [apply (always_wrapping stable), stable_ext, NewManager_keeps|].
  intros _. by apply (always_modify stable).
Qed.

Lemma stable_get_stored name : always stable (get_stored name).
Proof. apply (always_wrapping stable), stable_ext, Get_keeps. Qed.

Lemma stable_eg_Wait results : always stable (eg_Wait results).
Proof.
  unfold eg_Wait. destruct (omap _ results); [apply (always_ret stable)|].
  apply (always_bind stable); [apply stable_ext, first_keeps|]. intros ?. apply (always_throw stable).
Qed.

Lemma stable_PushImage id image : always stable (PushImage id image).
Proof.
  unfold PushImage. apply (always_bind stable); [apply (always_lift_outcome stable)|]. intros i.
  apply (always_bind stable); [apply stable_get_stored|]. intros im.
  apply (always_bind stable); [apply stable_getSessionManager|]. intros _.
  apply (always_bind stable); [apply (always_get stable)|]. intros d.
  apply stable_recorded, Push_keeps.
Qed.

Lemma stable_Session dirs : always stable (Session dirs).
Proof.
  apply (always_bind stable); [apply stable_getSessionManager|]. intros _.
  apply (always_wrapping stable), stable_ext, NewSession_keeps.
Qed.

Lemma stable_push image : always stable (push image).
Proof.
  unfold push. apply (always_bind stable); [apply stable_Session|]. intros sess.
  apply (always_bind stable); [apply (always_try stable), stable_ext, SessionRun_keeps|]. intros run.
  apply (always_bind stable); [apply (always_try stable), stable_PushImage|]. intros pushed.
  apply (always_bind stable); [apply stable_ext, SessionClose_keeps|]. intros _. apply stable_eg_Wait.
Qed.

(** What the store returned is what the name refers to, still. *)
Lemma get_stored_Ok name d im d' :
  get_stored name d = (Ok im, d') → images_of (d_world d) !! name = Some im.
Proof.
  unfold get_stored, wrapping, ext, zoom. destruct (is_Get name (d_world d)) as [o w'] eqn:E.
  destruct o; intros H; simplify_eq/=. by eapply Get_image.
Qed.

(** A push pushes what the name of the image refers to. *)
Definition pushes_stored image d d' : Prop :=
  ∃ image' im, parseImageName image = Ok image' ∧ images_of (d_world d) !! image' = Some im ∧
    adds d d' [CallPush image' (im_Target im) (d_registryHosts d)].

Lemma PushImage_adds id image d o d' :
  PushImage id image d = (o, d') →
  (adds d d' [] ∧ is_Ok o = false) ∨ pushes_stored image d d'.
Proof.
  unfold PushImage, getRegistryHosts. intros H.
  apply silent_bind_inv in H as [H|(image' & d1 & H1 & Hp & H)]; [by left| |auto with forge].
  injection Hp as Hp Hd1.
  apply silent_bind_inv in H as [[H ?]|(im & d2 & H2 & Hg & H)];
    [left; split; [by eapply adds_nil_l|done]| |unfold get_stored; auto with forge].
  apply get_stored_Ok in Hg. rewrite <- Hd1 in Hg. pose proof (adds_nil_l _ _ _ _ H1 H2) as H12.
  apply silent_bind_inv in H as [[H ?]|(u & d3 & H3 & _ & H)];
    [left; split; [by eapply adds_nil_l|done]| |auto with forge].
  pose proof (adds_nil_l _ _ _ _ H12 H3) as H13. right. exists image', im.
  split_and!; [done..|]. unfold bind, get in H.
  rewrite (adds_hosts _ _ _ H13) in H. apply recorded_adds in H. by eapply adds_nil_l.
Qed.

(** The stored images and the hosts before a call that recorded nothing are those
    after it. *)
Lemma pushes_stored_l image d1 d2 d3 :
  adds d1 d2 [] → stable d1 d2 → pushes_stored image d2 d3 → pushes_stored image d1 d3.
Proof.
  intros Ha Hs (i & im & Hp & Hi & H). exists i, im. split_and!; [done|by rewrite <- Hs|].
  rewrite (adds_hosts _ _ _ Ha) in H. by eapply adds_nil_l.
Qed.

Lemma pushes_stored_r image d1 d2 d3 :
  pushes_stored image d1 d2 → adds d2 d3 [] → pushes_stored image d1 d3.
Proof. intros (i & im & Hp & Hi & H) Ha. exists i, im. split_and!; [done..|]. by eapply adds_nil_r. Qed.

(** The end of a push: its session is closed and the group is joined. *)
Lemma push_tail sess (run pushed : error + unit) d o d' :
  (do! ext (bk_SessionClose sess) in eg_Wait [run; pushed]) d = (o, d') →
  adds d d' [] ∧ ∀ e, pushed = inl e → is_Ok o = false.
Proof.
  intros H. split.
  - revert H. apply silent_bind; auto using silent_eg_Wait with forge.
  - intros e ->. destruct o as [[]|e'|m]; [|done..]. apply bind_Ok_inv in H as (? & d1 & _ & H).
    apply eg_Wait_Ok in H. by apply Forall_cons in H as [_ [[? ?] _]%Forall_cons].
Qed.

Lemma push_adds image d o d' :
  push image d = (o, d') →
  (adds d d' [] ∧ is_Ok o = false) ∨ pushes_stored image d d'.
Proof.
  unfold push. intros H.
  apply silent_bind_inv in H as [H|(sess & d1 & H1 & E1 & H)]; [by left| |apply silent_Session].
  apply stable_Session in E1.
  apply silent_bind_inv in H as [[H ?]|(run & d2 & H2 & E2 & H)];
    [left; split; [by eapply adds_nil_l|done]| |auto with forge].
  apply (always_try stable _ (stable_ext _ (SessionRun_keeps _))) in E2.
  pose proof (adds_nil_l _ _ _ _ H1 H2) as H12. assert (stable d d2) as E12 by (by etrans).
  apply bind_inv in H as [(pushed & d3 & H3 & H)|[(e & H3 & ->)|(m & H3 & ->)]];
    apply try_inv in H3 as [(a & H3 & Ha)|[(e' & H3 & He)|(m' & H3 & Hm)]]; simplify_eq;
    apply PushImage_adds in H3; try (apply push_tail in H as [H Hno']);
    (destruct H3 as [[H3 Hno]|H3]; [left|right]); try done.
  - by eapply pushes_stored_r; [eapply pushes_stored_l|].
  - split; [|by eapply Hno']. eapply adds_nil_l; [done|]. by eapply adds_nil_l.
  - by eapply pushes_stored_r; [eapply pushes_stored_l|].
  - split; [|done]. by eapply adds_nil_l.
  - by eapply pushes_stored_l.
Qed.

(** ** The size of the image *)

(** The size is within a limit that is set. *)
Definition within (limit size : Z) : Prop := (0 < limit)%Z → (size ≤ limit)%Z.

Lemma GetImage_adds name d o d' :
  GetImage name d = (o, d') →
  (adds d d' [] ∧ is_Ok o = false) ∨
  ∃ name' im size, parseImageName name = Ok name' ∧ o = Ok (im, size) ∧
    adds d d' [CallSize name' im size] ∧ images_of (d_world d') !! name' = Some im.
Proof.
  unfold GetImage. intros H.
  apply silent_bind_inv in H as [H|(name' & d1 & H1 & Hp & H)]; [by left| |auto with forge].
  injection Hp as Hp Hd1.
  apply silent_bind_inv in H as [[H ?]|(im & d2 & H2 & Hg & H)];
    [left; split; [by eapply adds_nil_l|done]| |unfold get_stored; auto with forge].
  pose proof (stable_get_stored _ _ _ _ Hg) as E2. apply get_stored_Ok in Hg.
  pose proof (adds_nil_l _ _ _ _ H1 H2) as H12.
  apply silent_bind_inv in H as [[H ?]|(size & d3 & H3 & Hs & [= <- <-])];
    [left; split; [by eapply adds_nil_l|done]| |auto with forge].
  apply (always_wrapping stable _ _ (stable_ext _ (Size_keeps im))) in Hs.
  right. exists name', im, size. split_and!; [done..| |].
  - apply (adds_nil_l _ _ _ _ H12).
    destruct H3 as (? & ? & ? & ? & Ec). unfold adds. simpl. rewrite Ec, app_nil_r. done.
  - simpl. unfold stable in *. by rewrite Hs, E2.
Qed.

(** The check records the image it looked at, or fails before; and it only succeeds
    with the size of this image, within the limit. *)
Lemma validateImageSize_adds name limit d o d' :
  validateImageSize name limit d = (o, d') →
  (adds d d' [] ∧ is_Ok o = false) ∨
  ∃ name' im size, parseImageName name = Ok name' ∧
    adds d d' [CallSize name' im size] ∧ images_of (d_world d') !! name' = Some im ∧
    ∀ n, o = Ok n → n = uint64_of size ∧ within limit n.
Proof.
  unfold validateImageSize, bind at 1, try. destruct (GetImage name d) as [g d1] eqn:E.
  apply GetImage_adds in E as [[Ha Hg]|(name' & im & size & Hp & -> & Ha & Hi)].
  - destruct g; [done|intros [= <- <-]; by left..].
  - intros H. right. exists name', im, size. simpl in H.
    assert (d' = d1) as -> by (by destruct (_ && _); injection H as _ <-).
    split_and!; [done..|]. intros n ->. destruct (_ && _) eqn:Hb; [done|]. injection H as <-.
    split; [done|]. unfold within. lia.
Qed.

Lemma try_recorded_adds {A} ev (c : M W A) d o d' :
  try (recorded ev c) d = (o, d') → adds d d' [ev].
Proof.
  unfold try. destruct (recorded ev c d) as [o1 d1] eqn:E. apply recorded_adds in E.
  by destruct o1; intros [= _ <-].
Qed.

Lemma run_cleanups_adds f d o d' :
  run_cleanups f d = (o, d') →
  adds d d' (replicate (f_defers f) (CallCleanup (f_preparerPlugin f))).
Proof.
  unfold run_cleanups. generalize (f_defers f) as n. intros n. revert d o.
  induction n as [|n IH]; intros d o; simpl; [intros [= _ <-]; apply adds_nil|].
  destruct (bind _ _ d) as [o1 d1] eqn:H1. destruct (run_defers n _ d1) as [o2 d2] eqn:H2.
  intros [= _ <-]. apply IH in H2. refine (adds_trans _ d1 _ [_] _ _ H2).
  apply bind_inv in H1 as [(r & d3 & H1 & H3)|[(e & H1 & _)|(m & H1 & _)]];
    apply try_recorded_adds in H1; [|done..]. by injection H3 as _ <-.
Qed.

Lemma on_driver_inv {A} (c : M D A) d f o s :
  on_driver c (d, f) = (o, s) → ∃ d', c d = (o, d') ∧ s = (d', f).
Proof. unfold on_driver, zoom. simpl. destruct (c d). intros [= <- <-]. eauto. Qed.

Lemma prepare_loop dir data plugins d n p o s :
  for_each (prepare_plugin dir data) plugins (d, mkFrame n p) = (o, s) →
  ∃ started rest,
    plugins = started ++ rest ∧
    adds d s.1 ((λ q, CallPrepare q dir) <$> started) ∧
    s.2 = mkFrame (n + length started) (default p (last started)) ∧
    (is_Ok o = true → rest = []).
Proof.
  revert d n p. induction plugins as [|q plugins IH]; intros d n p; simpl.
  { intros [= <- <-]. exists [], []. rewrite Nat.add_0_r.
    split_and!; [done|apply adds_nil|done|done]. }
  assert (∀ r s1, prepare_plugin dir data q (d, mkFrame n p) = (r, s1) →
    ∃ d1, s1 = (d1, mkFrame (S n) q) ∧ adds d d1 [CallPrepare q dir]) as Hq.
  { intros r s1. unfold prepare_plugin, bind, modify. simpl.
    intros (d1 & H1 & ->)%on_driver_inv. apply recorded_adds in H1. eauto. }
  intros [([] & s1 & H1 & H2)|[(e & H1 & ->)|(m & H1 & ->)]]%bind_inv;
    apply Hq in H1 as (d1 & -> & H1).
  - apply IH in H2 as (started & rest & -> & H2 & Hf & Ho). exists (q :: started), rest.
    split_and!; [done| |rewrite Hf, last_cons; simpl; f_equal; [lia|by destruct (last started)]|done].
    rewrite fmap_cons. exact (adds_trans _ _ _ [_] _ H1 H2).
  - exists [q], plugins. split_and!; try done. simpl. by rewrite Nat.add_1_r.
  - exists [q], plugins. split_and!; try done. simpl. by rewrite Nat.add_1_r.
Qed.

(** The join of the goroutines: the solver must have succeeded. *)
Lemma join_tail sess (run solved : error + unit) d o d' :
  (do! ext (bk_SessionClose sess) in
   let! shown := try (ext bk_Display) in
   eg_Wait [run; solved; shown]) d = (o, d') →
  adds d d' [] ∧ ∀ e, solved = inl e → is_Ok o = false.
Proof.
  intros H. split.
  - revert H. apply silent_bind; [auto with forge|]. intros _.
    apply silent_bind; auto using silent_eg_Wait with forge.
  - intros e ->. destruct o as [[]|e'|m]; [|done..].
    apply bind_Ok_inv in H as (? & d1 & _ & H). apply bind_Ok_inv in H as (? & d2 & _ & H).
    apply eg_Wait_Ok in H. by apply Forall_cons in H as [_ [[? ?] _]%Forall_cons].
Qed.

(** [build] after the plugins: at most one request is solved, and one is when
    it succeeds. *)
Lemma solve_image_adds dir image opts d o d' :
  solve_image getenv dir image opts d = (o, d') →
  (adds d d' [] ∧ is_Ok o = false) ∨
  ∃ ref sess rq,
    solveRequestWithContext getenv ref sess image (d_cacheImageLayers d) opts = Ok rq ∧
    adds d d' [CallSolve rq (d_registryHosts d)].
Proof.
  unfold solve_image. intros H.
  apply silent_bind_inv in H as [H|(sess & d1 & H1 & _ & H)]; [by left| |apply silent_Session].
  apply silent_bind_inv in H as [[H ?]|(ref & d2 & H2 & _ & H)];
    [left; split; [by eapply adds_nil_l|done]| |auto with forge].
  pose proof (adds_nil_l _ _ _ _ H1 H2) as H12. unfold bind at 1, get in H.
  replace (d_cacheImageLayers d2) with (d_cacheImageLayers d) in H by (symmetry; apply H12).
  destruct (solveRequestWithContext _ _ _ _ _ _) as [rq|e|m] eqn:Hrq.
  - apply silent_bind_inv in H as [[H ?]|(run & d3 & H3 & _ & H)];
      [left; split; [by eapply adds_nil_l|done]| |auto with forge].
    pose proof (adds_nil_l _ _ _ _ H12 H3) as H13.
    apply bind_inv in H as [(solved & d4 & H4 & H)|[(e & H4 & ->)|(m & H4 & ->)]];
      apply try_inv in H4 as [(a & H4 & Ha)|[(e' & H4 & He)|(m' & H4 & Hm)]]; simplify_eq;
      apply Solve_adds in H4; rewrite (adds_hosts _ _ _ H13) in H4;
      try (apply join_tail in H as [H Hno']);
      (destruct H4 as [[H4 Hno]|H4]; [left|right; exists ref, sess, rq; split; [done|]]); try done.
    + apply (adds_nil_l _ _ _ _ H13). by eapply adds_nil_r.
    + split; [|by eapply Hno']. apply (adds_nil_l _ _ _ _ H13). by eapply adds_nil_l.
    + apply (adds_nil_l _ _ _ _ H13). by eapply adds_nil_r.
    + split; [|done]. by apply (adds_nil_l _ _ _ _ H13).
    + by apply (adds_nil_l _ _ _ _ H13).
  - left. apply silent_bind_inv in H as [[H ?]|(u & d3 & H3 & _ & [= <- <-])];
      [split; [by eapply adds_nil_l|done]| |auto with forge].
    split; [by eapply adds_nil_l|done].
  - left. injection H as <- <-. done.
Qed.

(** The calls of [build]. *)
Definition build_calls (opts : BuildOptions) (dir : string) (started : list string)
    (solved : list call) : list call :=
  CallExtract (bo_ContextURL opts) BuildContextPath (bo_ContextTimeout opts)
  :: ((λ q, CallPrepare q dir) <$> started) ++ solved
  ++ replicate (length started) (CallCleanup (default "" (last started))).

Definition solved_with (d : D) (image : string) (opts : BuildOptions) (c : call) : Prop :=
  ∃ ref sess rq,
    solveRequestWithContext getenv ref sess image (d_cacheImageLayers d) opts = Ok rq ∧
    c = CallSolve rq (d_registryHosts d).

Lemma build_adds image opts d o d' :
  build getenv image opts d = (o, d') →
  ∃ dir started rest solved,
    d_preparerPlugins d = started ++ rest ∧
    adds d d' (build_calls opts dir started solved) ∧
    (solved = [] ∨ ∃ c, solved = [c] ∧ solved_with d image opts c) ∧
    (is_Ok o = true → rest = [] ∧ solved ≠ []).
Proof.
  unfold build. destruct (build_body _ _ _ _) as [o1 [d1 f]] eqn:Hb.
  destruct (run_cleanups f d1) as [o2 d2] eqn:Hc. apply run_cleanups_adds in Hc.
  intros [= Ho <-]. assert (is_Ok o = true → is_Ok o1 = true) as Hok
    by (subst o; by destruct o2). clear Ho. unfold build_calls.
  apply bind_inv in Hb as [(dir & s1 & H1 & H)|[(e & H1 & ->)|(m & H1 & ->)]];
    apply on_driver_inv in H1 as (d3 & H1 & E); apply recorded_adds in H1;
    [|injection E as -> ->; exists "", [], (d_preparerPlugins d), [];
      split_and!; [done|by eapply adds_nil_r|by left|by intros ?%Hok]..].
  subst s1. unfold bind at 1, get in H. simpl in H.
  replace (d_preparerPlugins d3) with (d_preparerPlugins d) in H by (symmetry; apply H1).
  apply bind_inv in H as [([] & [d4 f4] & H2 & H)|[(e & H2 & ->)|(m & H2 & ->)]];
    apply prepare_loop in H2 as (started & rest & Hp & H2 & Hf & Hrest); simpl in H2, Hf;
    pose proof (adds_trans _ _ _ [_] _ H1 H2) as H12.
  - apply on_driver_inv in H as (d5 & H3 & [= -> ->]). subst f4. simpl in Hc.
    apply solve_image_adds in H3.
    replace (d_cacheImageLayers d4) with (d_cacheImageLayers d) in H3 by (symmetry; apply H12).
    rewrite (adds_hosts _ _ _ H12) in H3.
    destruct H3 as [[H3 Hno]|(ref & sess & rq & Hrq & H3)].
    + exists dir, started, rest, []. split_and!; [done| |by left|intros ?%Hok; congruence].
      exact (adds_trans _ _ _ (_ :: _) _ (adds_nil_r _ _ _ _ H12 H3) Hc).
    + exists dir, started, rest, [CallSolve rq (d_registryHosts d)].
      split_and!; [done| | |intros _; split; [by apply Hrest|done]].
      * rewrite (app_assoc _ [_]).
        exact (adds_trans _ _ _ (_ :: _) _ (adds_trans _ _ _ (_ :: _) _ H12 H3) Hc).
      * right. eexists. split; [done|]. by exists ref, sess, rq.
  - subst f. exists dir, started, rest, []. split_and!; [done| |by left|by intros ?%Hok].
    exact (adds_trans _ _ _ (_ :: _) _ H12 Hc).
  - subst f. exists dir, started, rest, []. split_and!; [done| |by left|by intros ?%Hok].
    exact (adds_trans _ _ _ (_ :: _) _ H12 Hc).
Qed.

(** ** Pushing to every registry *)

Context {RL : ReferenceLaws}.

Lemma image_name_canonical opts r image :
  image_name opts r = Ok image → parseImageName image = Ok image.
Proof.
  unfold image_name. destruct (ParseNormalizedNamed _) as [n|e|m] eqn:H; [|done..].
  rewrite TagNameOnly_latest. simpl. intros [= <-]. unfold parseImageName.
  rewrite (parse_tag_latest _ _ H). simpl. rewrite TagNameOnly_latest. simpl.
  by rewrite tag_latest_idemp.
Qed.

(** [name] refers to an image with the digest [target]. *)
Definition refers d (name target : string) : Prop :=
  ∃ im, images_of (d_world d) !! name = Some im ∧ im_Target im = target.

Lemma refers_stable d d' name target : stable d d' → refers d name target → refers d' name target.
Proof. intros Hs (im & Hi & Ht). exists im. by rewrite Hs. Qed.

(** A tag refers to the digest of its source. *)
Lemma TagImage_refers src dest target d d' :
  parseImageName src = Ok src → parseImageName dest = Ok dest →
  TagImage src dest d = (Ok tt, d') → refers d src target →
  refers d' src target ∧ refers d' dest target.
Proof.
  intros Hps Hpd H (im & Hi & Ht). unfold TagImage in H. rewrite Hps, Hpd in H.
  apply bind_Ok_inv in H as (s1 & d0 & [= <- <-] & H).
  apply bind_Ok_inv in H as (s2 & d0 & [= <- <-] & H).
  apply bind_Ok_inv in H as (im' & d1 & Hg & H). pose proof (stable_get_stored _ _ _ _ Hg) as E1.
  apply get_stored_Ok in Hg. rewrite Hi in Hg. injection Hg as <-.
  assert (∀ d2, images_of (d_world d2) = <[dest := mkStoredImage dest (im_Target im) (im_CreatedAt im)]>
      (images_of (d_world d)) → refers d2 src target ∧ refers d2 dest target) as Hset.
  { intros d2 Hd2. unfold refers. rewrite Hd2, lookup_insert_eq. split; [|by eexists].
    destruct (decide (dest = src)) as [->|Hne]; [rewrite lookup_insert_eq; by eexists|].
    rewrite lookup_insert_ne by done. eauto. }
  apply bind_Ok_inv in H as (u & d2 & Hu & H). unfold try, ext, zoom in Hu.
  destruct (is_Update _ (d_world d1)) as [o w2] eqn:EU. apply Update_sets in EU.
  destruct o as [[]|e|m]; simplify_eq/=; rewrite E1 in EU.
  - injection H as <-. by apply Hset.
  - destruct (is_IsNotFound e); [|done]. cbn in H. unfold wrapping, ext, zoom in H.
    destruct (is_Create _ _) as [o w3] eqn:EC. apply Create_sets in EC.
    destruct o as [[]|e'|m]; simplify_eq/=. apply Hset. simpl. by rewrite EC, EU.
Qed.

Lemma push_canonical opts r image target d o d' :
  image_name opts r = Ok image → refers d image target → push image d = (o, d') →
  ∃ pushed, adds d d' ((λ i, CallPush i target (d_registryHosts d)) <$> pushed) ∧
    (pushed = [image] ∨ pushed = [] ∧ is_Ok o = false).
Proof.
  intros Hn (im & Hi & <-) [[H ?]|(image' & im' & Hp & Hi' & H)]%push_adds.
  - exists []. auto.
  - rewrite (image_name_canonical _ _ _ Hn) in Hp. injection Hp as <-.
    rewrite Hi in Hi'. injection Hi' as <-. exists [image]. auto.
Qed.

(** The images a loop over [regs] tried to push. *)
Definition named_for (opts : BuildOptions) (regs pushed : list string) : Prop :=
  Forall2 (λ r i, image_name opts r = Ok i) (take (length pushed) regs) pushed.

Lemma named_for_one opts r regs image pushed (o : outcome unit) :
  image_name opts r = Ok image → pushed = [image] ∨ pushed = [] ∧ is_Ok o = false →
  named_for opts (r :: regs) pushed.
Proof. intros Hn [->|[-> _]]; unfold named_for; simpl; [rewrite take_0|]; by repeat constructor. Qed.

Lemma push_loop_tail opts r0 idx regs head images size target d o d' :
  image_name opts r0 = Ok head → refers d head target →
  push_loop getenv opts (S idx) regs head images size d = (o, d') →
  ∃ pushed,
    adds d d' ((λ i, CallPush i target (d_registryHosts d)) <$> pushed) ∧
    named_for opts regs pushed ∧
    ∀ img, o = Ok img → img = mkImage (images ++ pushed) size ∧ length pushed = length regs.
Proof.
  intros Hh. revert idx images d. induction regs as [|r regs IH]; intros idx images d Hr; simpl.
  { intros [= <- <-]. exists []. split_and!; [apply adds_nil|constructor|].
    intros img [= <-]. by rewrite app_nil_r. }
  intros H. assert (∀ d1 (o1 : outcome Image), adds d d1 [] → is_Ok o1 = false → ∃ pushed,
    adds d d1 ((λ i, CallPush i target (d_registryHosts d)) <$> pushed) ∧ named_for opts (r :: regs) pushed ∧
    ∀ img, o1 = Ok img → img = mkImage (images ++ pushed) size ∧ length pushed = S (length regs))
    as Hnone.
  { intros d1 o1 H1 Ho. exists []. split_and!; [done|constructor|]. by intros img ->. }
  unfold bind at 1, lift_outcome in H.
  destruct (image_name opts r) as [image|e|m] eqn:Hn; [|simplify_eq; apply Hnone; [apply adds_nil|done]..].
  apply silent_bind_inv in H as [[H ?]|([] & d2 & H12 & Ht & H)];
    [by apply Hnone| |apply silent_TagImage].
  apply (TagImage_refers _ _ target) in Ht as [Hr2 Hi2]; try done;
    [|by eapply image_name_canonical..].
  apply bind_inv in H as [([] & d3 & H3 & H)|[(e & H3 & ->)|(m & H3 & ->)]];
    pose proof (stable_push _ _ _ _ H3) as E3;
    apply (push_canonical opts r _ target) in H3 as (p & H3 & Hp); try done;
    rewrite (adds_hosts _ _ _ H12) in H3; pose proof (adds_nil_l _ _ _ _ H12 H3) as H13;
    [|exists p; split_and!; [done|by eapply named_for_one|done]..].
  destruct Hp as [->|[_ ?]]; [|done].
  apply IH in H as (pushed & H4 & Hnames & Hok); [|by eapply refers_stable].
  rewrite (adds_hosts _ _ _ H13) in H4. exists (image :: pushed). split_and!.
  - rewrite fmap_cons. exact (adds_trans _ _ _ [_] _ H13 H4).
  - unfold named_for. simpl. by constructor.
  - intros img Himg. destruct (Hok img Himg) as [-> Hlen]. simpl. by rewrite Hlen, <- app_assoc.
Qed.

(** The loop after the build: the image is looked up and its size is checked, and
    what is pushed is this image. *)
Lemma push_loop_check opts r regs head d o d' :
  image_name opts r = Ok head →
  (let! imageSize := validateImageSize head (bo_ImageSizeLimit opts) in
   do! push head in
   push_loop getenv opts 1 regs head [head] imageSize) d = (o, d') →
  (adds d d' [] ∧ is_Ok o = false) ∨
  ∃ im size pushed,
    adds d d' (CallSize head im size
               :: ((λ i, CallPush i (im_Target im) (d_registryHosts d)) <$> pushed)) ∧
    named_for opts (r :: regs) pushed ∧
    (pushed ≠ [] → within (bo_ImageSizeLimit opts) (uint64_of size)) ∧
    ∀ img, o = Ok img → img = mkImage pushed (uint64_of size) ∧ length pushed = S (length regs).
Proof.
  intros Hn H. pose proof (image_name_canonical _ _ _ Hn) as Hcan.
  apply bind_inv in H as [(n & d3 & H3 & H)|[(e & H3 & ->)|(m & H3 & ->)]];
    apply validateImageSize_adds in H3 as [[H3 ?]|(head' & im & size & Hp & H3 & Hi & Hsize)]; try done;
    try (by left); rewrite Hcan in Hp; injection Hp as <-; right; exists im, size;
    [|exists []; split_and!; [done|constructor|done..]..].
  destruct (Hsize n eq_refl) as [-> Hw].
  assert (refers d3 head (im_Target im)) as Hr by (by exists im).
  apply bind_inv in H as [([] & d4 & H4 & H)|[(e & H4 & ->)|(m & H4 & ->)]];
    pose proof (stable_push _ _ _ _ H4) as E4;
    apply (push_canonical opts r _ _ _ _ _ Hn Hr) in H4 as (p & H4 & Hpush);
    rewrite (adds_hosts _ _ _ H3) in H4; pose proof (adds_trans _ _ _ _ _ H3 H4) as H34;
    [|exists p; split_and!; [done|by eapply named_for_one|done..]..].
  destruct Hpush as [->|[_ ?]]; [|done].
  apply (push_loop_tail opts r _ _ _ _ _ (im_Target im)) in H as (pushed & H5 & Hnames & Hok);
    [|done|by eapply refers_stable].
  rewrite (adds_hosts _ _ _ H34) in H5. exists (head :: pushed). split_and!; try done.
  - exact (adds_trans _ _ _ [_; _] _ H34 H5).
  - unfold named_for. simpl. by constructor.
  - intros img Himg. destruct (Hok img Himg) as [-> Hlen]. simpl. by rewrite Hlen.
Qed.

(** The calls of the loop after [build]. *)
Definition checked_pushes (hosts : RegistryHosts) (head : string) (im : StoredImage) (size : Z)
    (pushed : list string) : list call :=
  CallSize head im size :: ((λ i, CallPush i (im_Target im) hosts) <$> pushed).

(** The whole loop: the calls of the build, the check, and then the pushes. *)
Lemma push_loop_head opts r regs d o d' :
  push_loop getenv opts 0 (r :: regs) "" [] 0 d = (o, d') →
  (adds d d' [] ∧ is_Ok o = false) ∨
  ∃ head dir started rest solved checked,
    image_name opts r = Ok head ∧
    d_preparerPlugins d = started ++ rest ∧
    adds d d' (build_calls opts dir started solved ++ checked) ∧
    (solved = [] ∨ ∃ c, solved = [c] ∧ solved_with d head opts c) ∧
    ((checked = [] ∧ is_Ok o = false) ∨
     rest = [] ∧ solved ≠ [] ∧ ∃ im size pushed,
       checked = checked_pushes (d_registryHosts d) head im size pushed ∧
       named_for opts (r :: regs) pushed ∧
       (pushed ≠ [] → within (bo_ImageSizeLimit opts) (uint64_of size)) ∧
       ∀ img, o = Ok img → img = mkImage pushed (uint64_of size) ∧ length pushed = S (length regs)).
Proof.
  cbn [push_loop Nat.eqb]. unfold bind at 1, lift_outcome. destruct (image_name opts r) as [head|e|m] eqn:Hn;
    [|intros [= <- <-]; left; split; [apply adds_nil|done]..].
  intros H. right. exists head.
  apply bind_inv in H as [([] & d2 & H2 & H)|[(e & H2 & ->)|(m & H2 & ->)]];
    apply build_adds in H2 as (dir & started & rest & solved & Hp & H2 & Hs & Hok);
    exists dir, started, rest, solved;
    [|exists []; rewrite (app_nil_r (build_calls _ _ _ _)); split_and!; auto..].
  destruct (Hok eq_refl) as [-> Hsolved].
  apply (push_loop_check _ r) in H as [[H ?]|(im & size & pushed & H & Hnames & Hw & Himg)]; [..|done].
  - exists []. rewrite (app_nil_r (build_calls _ _ _ _)). split_and!; [done..|by eapply adds_nil_r|done|by left].
  - rewrite (adds_hosts _ _ _ H2) in H. exists (checked_pushes (d_registryHosts d) head im size pushed).
    split_and!; [done..|exact (adds_trans _ _ _ _ _ H2 H)|done|]. right. split_and!; eauto 9.
Qed.

(** The hosts a run is configured with. *)
Definition configured (opts : BuildOptions) : RegistryHosts :=
  let fns := generateRegistryFunc (bo_Registries opts) in ConfiguredRegistries fns.1 fns.2.

Lemma BuildAndPush_run opts r regs d o d' :
  bo_PushRegistries opts = r :: regs →
  BuildAndPush getenv opts d = (o, d') →
  ∃ d1 d2, d1 = set_hosts (configured opts) (generateRegistryFunc (bo_Registries opts)).1 d ∧
    push_loop getenv opts 0 (r :: regs) "" [] 0 d1 = (o, d2) ∧ d' = ResetHostConfigurations d2.
Proof.
  intros Hr. unfold BuildAndPush. rewrite Hr, bool_decide_eq_false_2 by done.
  unfold bind, modify, deferred.
  destruct (push_loop getenv _ _ _ _ _ _ _) as [o2 d2] eqn:E. intros [= <- <-].
  eexists _, d2. split; [done|]. by rewrite <- E.
Qed.

(** Functional behaviour.  A build that succeeds made exactly these calls:
    the context was fetched, every plugin prepared it, one request with the name
    of the first image was solved, the deferred cleanups ran, and then the image
    was pushed under its name in every registry of the build, in order, with the
    credentials of the build; these names are the URLs of the result, and its
    size is the size of the stored image, within the limit. *)
Theorem BuildAndPush_success opts d img d' :
  BuildAndPush getenv opts d = (Ok img, d') →
  ∃ head dir solved im size,
    hd_error (img_URLs img) = Some head ∧
    Forall2 (λ r i, image_name opts r = Ok i) (bo_PushRegistries opts) (img_URLs img) ∧
    (∃ ref sess rq,
       solveRequestWithContext getenv ref sess head (d_cacheImageLayers d) opts = Ok rq ∧
       solved = CallSolve rq (configured opts)) ∧
    d_calls d' = d_calls d ++ build_calls opts dir (d_preparerPlugins d) [solved]
                 ++ checked_pushes (configured opts) head im size (img_URLs img) ∧
    img_Size img = uint64_of size ∧ within (bo_ImageSizeLimit opts) (img_Size img).
Proof.
  destruct (bo_PushRegistries opts) as [|r regs] eqn:Hr.
  { unfold BuildAndPush. by rewrite Hr. }
  intros (d1 & d2 & -> & H & ->)%(BuildAndPush_run _ _ _ _ _ _ Hr).
  apply push_loop_head in H as [[_ ?]|(head & dir & started & rest & solved & checked &
    Hn & Hp & (_ & _ & _ & _ & Ha) & Hs & Hc)]; [done|].
  destruct Hc as [[_ ?]|(-> & Hne & im & size & pushed & -> & Hnames & Hw & Himg)]; [done|].
  destruct (Himg img eq_refl) as [-> Hlen]. rewrite app_nil_r in Hp. simpl in Hp. subst started.
  destruct Hs as [?|(c & -> & ref & sess & rq & Hrq & ->)]; [done|].
  unfold named_for in Hnames. rewrite take_ge in Hnames by (simpl; lia).
  exists head, dir, (CallSolve rq (configured opts)), im, size.
  destruct pushed as [|i pushed]; [done|]. split_and!.
  - apply Forall2_cons in Hnames as [E _]. simpl. congruence.
  - done.
  - by exists ref, sess, rq.
  - exact Ha.
  - done.
  - by apply Hw.
Qed.

(** The images a list of calls pushed, and the plugins it asked to prepare and
    cleaned up. *)
Fixpoint pushes (calls : list call) : list string :=
  match calls with
  | [] => []
  | CallPush i _ _ :: rest => i :: pushes rest
  | _ :: rest => pushes rest
  end.

Fixpoint cleanups (calls : list call) : list string :=
  match calls with
  | [] => []
  | CallCleanup p :: rest => p :: cleanups rest
  | _ :: rest => cleanups rest
  end.

Fixpoint prepares (calls : list call) : list string :=
  match calls with
  | [] => []
  | CallPrepare p _ :: rest => p :: prepares rest
  | _ :: rest => prepares rest
  end.

Lemma prepares_app l1 l2 : prepares (l1 ++ l2) = prepares l1 ++ prepares l2.
Proof. induction l1 as [|[] l1 IH]; simpl; congruence. Qed.

Lemma pushes_app l1 l2 : pushes (l1 ++ l2) = pushes l1 ++ pushes l2.
Proof. induction l1 as [|[] l1 IH]; simpl; congruence. Qed.

Lemma cleanups_app l1 l2 : cleanups (l1 ++ l2) = cleanups l1 ++ cleanups l2.
Proof. induction l1 as [|[] l1 IH]; simpl; congruence. Qed.

Lemma build_calls_seen opts dir started solved :
  (solved = [] ∨ ∃ c, solved = [c] ∧ ∃ rq hosts, c = CallSolve rq hosts) →
  pushes (build_calls opts dir started solved) = [] ∧
  prepares (build_calls opts dir started solved) = started ∧
  cleanups (build_calls opts dir started solved) =
    replicate (length started) (default "" (last started)).
Proof.
  intros Hs. unfold build_calls. simpl. rewrite !pushes_app, !prepares_app, !cleanups_app.
  assert (∀ l, pushes ((λ q, CallPrepare q dir) <$> l) = [] ∧
               prepares ((λ q, CallPrepare q dir) <$> l) = l ∧
               cleanups ((λ q, CallPrepare q dir) <$> l) = []) as Hprep
    by (induction l as [|q l (? & ? & ?)]; [done|]; rewrite fmap_cons; simpl; split_and!; congruence).
  assert (∀ n p, pushes (replicate n (CallCleanup p)) = [] ∧
                 prepares (replicate n (CallCleanup p)) = [] ∧
                 cleanups (replicate n (CallCleanup p)) = replicate n p) as Hclean.
  { intros n p. induction n as [|n (? & ? & IH)]; [done|]. simpl. by rewrite IH. }
  destruct (Hprep started) as (-> & -> & ->).
  destruct (Hclean (length started) (default "" (last started))) as (-> & -> & ->).
  destruct Hs as [->|(c & -> & rq & hosts & ->)]; simpl; by rewrite ?app_nil_r.
Qed.

Lemma pushes_pushed target hosts l : pushes ((λ i, CallPush i target hosts) <$> l) = l.
Proof. induction l as [|i l IH]; [done|]. rewrite fmap_cons. simpl. by rewrite IH. Qed.

(** C6: Safety.  Whatever the outcome of a build, the images it tried to push
    are those of an initial segment of the registries, in order: nothing is
    pushed after a failure.  When anything was pushed, the calls are those of the
    build, among them the solved request for the first of these names; then the
    lookup of the size of the image that the store has under this name, which is
    within the limit; and then the pushes, each of the digest of this image and
    with the hosts of the build.  So an image over the limit never leaves the
    machine. *)
Theorem BuildAndPush_push_order opts d o d' :
  BuildAndPush getenv opts d = (o, d') →
  ∃ new,
    d_calls d' = d_calls d ++ new ∧
    named_for opts (bo_PushRegistries opts) (pushes new) ∧
    (pushes new ≠ [] → ∃ built head im size,
       new = built ++ checked_pushes (configured opts) head im size (pushes new) ∧
       hd_error (pushes new) = Some head ∧
       (∃ ref sess rq,
          solveRequestWithContext getenv ref sess head (d_cacheImageLayers d) opts = Ok rq ∧
          CallSolve rq (configured opts) ∈ built) ∧
       within (bo_ImageSizeLimit opts) (uint64_of size)).
Proof.
  destruct (bo_PushRegistries opts) as [|r regs] eqn:Hr.
  { unfold BuildAndPush. rewrite Hr. intros [= <- <-]. exists []. rewrite app_nil_r.
    split_and!; [done|constructor|done]. }
  intros (d1 & d2 & -> & H & ->)%(BuildAndPush_run _ _ _ _ _ _ Hr).
  apply push_loop_head in H as [[(_ & _ & _ & _ & Ha) _]|(head & dir & started & rest & solved &
    checked & Hn & Hp & (_ & _ & _ & _ & Ha) & Hs & Hc)].
  { exists []. split_and!; [exact Ha|constructor|done]. }
  eexists. split; [exact Ha|]. rewrite pushes_app.
  rewrite (proj1 (build_calls_seen opts dir started solved ltac:(unfold solved_with in Hs; naive_solver))).
  destruct Hc as [[-> _]|(_ & Hsol & im & size & pushed & -> & Hnames & Hw & _)].
  { split; [constructor|done]. }
  cbn [app]. unfold checked_pushes. cbn [pushes]. rewrite pushes_pushed. split; [done|]. intros Hne.
  destruct Hs as [?|(c & -> & ref & sess & rq & Hrq & ->)]; [done|].
  eexists _, head, im, size. split_and!; [done| | |by apply Hw].
  - destruct pushed as [|i pushed]; [done|]. unfold named_for in Hnames. simpl in Hnames.
    apply Forall2_cons in Hnames as [E _]. simpl. congruence.
  - exists ref, sess, rq. split; [done|]. unfold build_calls. set_solver.
Qed.

(** C30: Host configuration.  The credentials of one build do not outlive it:
    whatever the outcome of a build with at least one registry, errors and
    panics included, the closures that sessions and workers hold answer with the
    default registries and with empty credentials for every host. *)
Theorem BuildAndPush_resets opts d o d' :
  bo_PushRegistries opts ≠ [] →
  BuildAndPush getenv opts d = (o, d') →
  getRegistryHosts d' = DefaultRegistries ∧
  ∀ host, getHostCredentials d' host = Ok ("", "").
Proof.
  intros Hr. destruct (bo_PushRegistries opts) as [|r regs] eqn:Hr'; [done|].
  by intros (d1 & d2 & -> & H & ->)%(BuildAndPush_run _ _ _ _ _ _ Hr').
Qed.

(** C34: Cleanup of plugins.  The deferred functions of [build] share the loop
    variable: whatever the outcome of a build, the plugins that were asked to
    prepare the context are an initial segment of the configured ones, all of them
    after a success, and when they are [k], the last of them is cleaned up [k]
    times and the others are never cleaned up. *)
Theorem build_cleans_last_plugin image opts d o d' :
  build getenv image opts d = (o, d') →
  ∃ new,
    d_calls d' = d_calls d ++ new ∧ prepares new `prefix_of` d_preparerPlugins d ∧
    cleanups new = replicate (length (prepares new)) (default "" (last (prepares new))) ∧
    (is_Ok o = true → prepares new = d_preparerPlugins d).
Proof.
  intros (dir & started & rest & solved & Hp & (_ & _ & _ & _ & Ha) & Hs & Hok)%build_adds.
  eexists. split; [exact Ha|].
  destruct (build_calls_seen opts dir started solved) as (_ & -> & ->);
    [unfold solved_with in Hs; naive_solver|].
  split_and!; [by exists rest|done|]. intros Ho. destruct (Hok Ho) as [-> _]. by rewrite app_nil_r in Hp.
Qed.
End calls.

(** ** A machine in memory *)

(** The image store, the size every image has, and the plugins that fail. *)
Record machine := mkMachine {
  mc_images : gmap string StoredImage;
  mc_size : Z;
  mc_bad_plugins : list string;
}.

#[export] Instance machine_buildkit : Buildkit machine := {|
  bk_Extract url dst timeout := ret (dst +:+ "/context");
  bk_Prepare p dir data :=
    λ mc, if bool_decide (p ∈ mc_bad_plugins mc) then (Err (New p), mc) else (Ok tt, mc);
  bk_Cleanup p := ret tt;
  bk_NewManager := ret tt;
  bk_NewSession dirs := ret "session";
  bk_SessionRun sess := ret tt;
  bk_SessionClose sess := ret tt;
  bk_NewID := ret "id";
  bk_WorkerOpt := ret tt;
  bk_NewWorker := ret tt;
  bk_AddWorker := ret tt;
  bk_CacheStore := ret tt;
  bk_NewController := ret tt;
  bk_Solve rq hosts :=
    λ mc, let name := default "" (rq_ExporterAttrs rq !! "name") in
          (Ok tt, mkMachine (<[name := mkStoredImage name "sha256:1" 1]> (mc_images mc))
                    (mc_size mc) (mc_bad_plugins mc));
  bk_Status ref := ret tt;
  bk_Display := ret tt;
  bk_Push sess target image hosts := ret tt;
  eg_first errs := ret (default (New "") (head errs));
  is_Get name :=
    λ mc, match mc_images mc !! name with
          | Some im => (Ok im, mc)
          | None => (Err (New "not found"), mc)
          end;
  is_Update im :=
    λ mc, match mc_images mc !! im_Name im with
          | Some _ => (Ok tt, mkMachine (<[im_Name im := im]> (mc_images mc))
                                (mc_size mc) (mc_bad_plugins mc))
          | None => (Err (New "not found"), mc)
          end;
  is_Create im :=
    λ mc, (Ok tt, mkMachine (<[im_Name im := im]> (mc_images mc)) (mc_size mc) (mc_bad_plugins mc));
  is_IsNotFound e := bool_decide (Error e = "not found");
  is_Size im := λ mc, (Ok (mc_size mc), mc);
|}.

#[export] Instance machine_store : ImageStore machine.
Proof.
  refine {| images_of := mc_images |}; cbn; intros;
    try (intros ? ? ? H; by injection H as _ <-).
  - by destruct (mc_images w !! name); simplify_eq.
  - intros w o w'. destruct (mc_images w !! name); by intros [= <- <-].
  - by destruct (mc_images w !! im_Name im); simplify_eq/=.
  - by simplify_eq/=.
Defined.

Module DriverSample.
Import SimpleParser.

Definition embedded (size : Z) (bad : list string) : driver machine :=
  mkDriver DefaultRegistries (λ _, Ok ("", "")) false false ["p"; "q"] false
    (mkMachine ∅ size bad) [].
Definition opts : BuildOptions :=
  mkBuildOptions "http://ctx" 0 "img" 100 ∅ [] false false 0
    [mkRegistryConfig "a.io" false "u" "p"] ["a.io"; "b.io"] ∅ [].
Definition getenv (s : string) : string := "".

Lemma BuildAndPush_success_witness :
  ∃ img d', BuildAndPush getenv opts (embedded 42 []) = (Ok img, d') ∧
    img_URLs img = ["a.io/img:latest"; "b.io/img:latest"] ∧ img_Size img = 42%Z ∧
    within 100 (img_Size img).
Proof.
  eexists _, _. split; [apply run_split; vm_compute; reflexivity|].
  split; [reflexivity|]. split; [reflexivity|].
  edestruct (BuildAndPush_success getenv opts (embedded 42 []))
    as (? & ? & ? & ? & ? & _ & _ & _ & _ & _ & H);
    [apply run_split; vm_compute; reflexivity|]. exact H.
Defined.

Lemma BuildAndPush_push_order_witness :
  ∃ new, d_calls (BuildAndPush getenv opts (embedded 42 [])).2 = [] ++ new ∧
    ∃ built head im size,
      new = built ++ checked_pushes (configured opts) head im size (pushes new) ∧
      within 100 (uint64_of size).
Proof.
  destruct (BuildAndPush_push_order getenv opts (embedded 42 []) _ _ (run_split _ _ _ eq_refl))
    as (new & H1 & _ & H2).
  exists new. split; [exact H1|].
  destruct H2 as (built & head & im & size & Hnew & _ & _ & Hw).
  - assert (pushes new = pushes (d_calls (BuildAndPush getenv opts (embedded 42 [])).2)) as ->
      by (rewrite H1; reflexivity).
    vm_compute. discriminate.
  - exists built, head, im, size. split; [exact Hnew|exact Hw].
Defined.

(** An image over the limit is not pushed. *)
Example too_large :
  is_Ok (BuildAndPush getenv opts (embedded 142 [])).1 = false ∧
  pushes (d_calls (BuildAndPush getenv opts (embedded 142 [])).2) = [].
Proof. split; vm_compute; reflexivity. Qed.

Lemma BuildAndPush_resets_witness :
  getRegistryHosts (BuildAndPush getenv opts (embedded 142 [])).2 = DefaultRegistries.
Proof.
  apply (BuildAndPush_resets getenv opts (embedded 142 [])
           (BuildAndPush getenv opts (embedded 142 [])).1); [discriminate|].
  apply run_split. reflexivity.
Defined.

Lemma build_cleans_last_plugin_witness :
  cleanups (d_calls (build getenv "a.io/img:latest" opts (embedded 42 [])).2) = ["q"; "q"] ∧
  ∃ new, cleanups new = replicate (length (prepares new)) (default "" (last (prepares new))) ∧
    prepares new = ["p"; "q"].
Proof.
  split; [vm_compute; reflexivity|].
  destruct (build_cleans_last_plugin getenv "a.io/img:latest" opts (embedded 42 []) _ _
              (run_split _ _ _ eq_refl)) as (new & _ & _ & Hc & Hok).
  exists new. split; [exact Hc|]. apply Hok. vm_compute. reflexivity.
Defined.

(** A plugin that fails is cleaned up too. *)
Example bad_plugin_cleaned :
  let calls := d_calls (build getenv "a.io/img:latest" opts (embedded 42 ["p"])).2 in
  prepares calls = ["p"] ∧ cleanups calls = ["p"].
Proof. split; vm_compute; reflexivity. Qed.
End DriverSample.
