(* ===== verification/Publisher.v ===== *)
(** * Publisher: status messages over AMQP

    [internal/message/message.go] and [internal/message/amqp/publisher.go]: the
    producer of status messages, with its bounded retries and its reconnection
    after the broker closed the connection.  The AMQP client library is a
    parameter; the goroutine that waits for a closed connection is part of the
    state, because what it signals decides what the next [Push] does. *)
From stdpp Require Import gmap strings list pretty.
From Stdlib Require Import ZArith.
From S2P Require Import Prelude Go GoStd Config.

(** ** The AMQP client library *)

(** The arguments of [QueueDeclare] and of [Publish]. *)
Record declaration := mkDeclaration {
  qd_name : string;
  qd_durable : bool;
  qd_autoDelete : bool;
  qd_exclusive : bool;
  qd_noWait : bool;
  qd_args : list (string * bool);
}.

Record publishing := mkPublishing {
  pb_exchange : string;
  pb_key : string;
  pb_mandatory : bool;
  pb_immediate : bool;
  pb_ContentType : string;
  pb_Body : string;
}.

(** Connections and channels are handles; [QueueDeclare] returns the name of
    the queue. *)
Class Amqp (W : Type) := {
  am_Dial : string → M W nat;
  am_Channel : nat → M W nat;
  am_QueueDeclare : nat → declaration → M W string;
  am_Publish : nat → publishing → M W unit;
  am_Close : nat → M W unit;
}.

(** The calls made, with what they are made on. *)
Inductive amqp_call :=
| AmDial (uri : string)
| AmChannel (conn : nat)
| AmQueueDeclare (channel : nat) (queue : declaration)
| AmPublish (channel : nat) (message : publishing)
| AmClose (conn : nat).

(** [publisher].  [p_watched] are the connections whose goroutine waits for
    [NotifyClose]; [p_signals] counts the goroutines that got a reason and wait
    to hand it over on the unbuffered channel [p.err]. *)
Record publisher (W : Type) := mkPublisher {
  p_uri : string;
  p_queueName : string;
  p_conn : option nat;
  p_channel : option nat;
  p_watched : list nat;
  p_signals : nat;
  p_world : W;
  p_calls : list amqp_call;
}.
Arguments mkPublisher {W}.
Arguments p_uri {W}.
Arguments p_queueName {W}.
Arguments p_conn {W}.
Arguments p_channel {W}.
Arguments p_watched {W}.
Arguments p_signals {W}.
Arguments p_world {W}.
Arguments p_calls {W}.

Definition connectionRetryLimit : nat := 5.

(** The queue and the message with the constants of the file. *)
Definition queue_declaration (queueName : string) : declaration :=
  mkDeclaration queueName true false false false [("x-single-active-consumer", true)].

Definition queue_message (q data : string) : publishing :=
  mkPublishing "" q true false "application/json" data.

Section publisher.
Context {W : Type} {AM : Amqp W}.
(** [json.Marshal] of the messages. *)
Context {Msg : Type} (Marshal : Msg → outcome string).
#[local] Notation P := (publisher W).

Definition set_conn (conn : option nat) (p : P) : P :=
  mkPublisher (p_uri p) (p_queueName p) conn (p_channel p) (p_watched p) (p_signals p)
    (p_world p) (p_calls p).

Definition set_channel (ch : option nat) (p : P) : P :=
  mkPublisher (p_uri p) (p_queueName p) (p_conn p) ch (p_watched p) (p_signals p)
    (p_world p) (p_calls p).

(** [go func() { ... NotifyClose ... }]. *)
Definition watch (conn : nat) (p : P) : P :=
  mkPublisher (p_uri p) (p_queueName p) (p_conn p) (p_channel p) (conn :: p_watched p)
    (p_signals p) (p_world p) (p_calls p).

(** A receive from [p.err]. *)
Definition take_signal (p : P) : P :=
  mkPublisher (p_uri p) (p_queueName p) (p_conn p) (p_channel p) (p_watched p)
    (pred (p_signals p)) (p_world p) (p_calls p).

(** A call of the library, recorded. *)
Definition lib {A} (ev : amqp_call) (c : M W A) : M P A := λ p,
  let '(o, w) := c (p_world p) in
  (o, mkPublisher (p_uri p) (p_queueName p) (p_conn p) (p_channel p) (p_watched p)
        (p_signals p) w (p_calls p ++ [ev])).

(** ** connect *)

(** The loop with [fuel] attempts left; the ticker only waits. *)
Fixpoint connect_loop (fuel : nat) : M P unit :=
  match fuel with
  | O => throw (New ("rabbitmq connection retry limit reached: " +:+ pretty connectionRetryLimit))
  | S fuel' =>
      let! p := get in
      let! dialed := try (lib (AmDial (p_uri p)) (am_Dial (p_uri p))) in
      match dialed with
      | inl err => do! modify (set_conn None) in connect_loop fuel'
      | inr conn =>
          do! modify (set_conn (Some conn)) in
          do! modify (watch conn) in
          let! opened := try (lib (AmChannel conn) (am_Channel conn)) in
          match opened with
          | inl err =>
              do! modify (set_channel None) in
              throw (wrap err ("failed to create rabbitmq channel to " +:+ fmt_q (p_uri p)))
          | inr ch => modify (set_channel (Some ch))
          end
      end
  end.

Definition connect : M P unit := connect_loop connectionRetryLimit.

(** ** Push and Close *)

(** A method call on the channel of the publisher: a nil channel panics. *)
Definition on_channel {A} (k : nat → M P A) : M P A :=
  let! p := get in
  match p_channel p with
  | Some ch => k ch
  | None => panic "invalid memory address or nil pointer dereference"
  end.

Definition Push (obj : Msg) : M P unit :=
  let! p := get in
  do! (match p_signals p with
       | O => ret tt
       | S _ =>
           do! modify take_signal in
           wrapping "could not reconnect to rabbitmq" connect
       end) in
  let! data := lift_outcome (wrap_err "cannot marshal rabbitmq event" (Marshal obj)) in
  let! q := wrapping "failed to declare rabbitmq queue"
              (on_channel (λ ch, let d := queue_declaration (p_queueName p) in
                                   lib (AmQueueDeclare ch d) (am_QueueDeclare ch d))) in
  wrapping "failed to publish rabbitmq message"
    (on_channel (λ ch, let m := queue_message q data in
                         lib (AmPublish ch m) (am_Publish ch m))).

Definition Close : M P unit :=
  let! p := get in
  match p_conn p with
  | Some conn => lib (AmClose conn) (am_Close conn)
  | None => ret tt
  end.

(** [NewPublisher]: the publisher is returned only when it connected. *)
Definition NewPublisher (uri queueName : string) (w : W) : outcome unit * P :=
  connect (mkPublisher uri queueName None None [] 0 w []).

(** [message.NewProducer]; without a publisher the world is unchanged. *)
Definition NewProducer (opts : Options) (w : W) : outcome unit * option P :=
  if bool_decide (opt_Broker opts = AmqpBroker) then
    let '(o, p) := NewPublisher (opt_AmqpURI opts) (opt_AmqpQueue opts) w in (o, Some p)
  else (Err (New (opt_Broker opts +:+ " is not supported")), None).

(** ** The environment *)

(** Between two calls of the job the broker can close a watched connection:
    with a reason, its goroutine then waits to signal it; without one (the
    client closed it), the goroutine ends. *)
Inductive env_step : P → P → Prop :=
| env_closed_with_reason p conn l1 l2 :
    p_watched p = l1 ++ conn :: l2 →
    env_step p (mkPublisher (p_uri p) (p_queueName p) (p_conn p) (p_channel p) (l1 ++ l2)
                  (S (p_signals p)) (p_world p) (p_calls p))
| env_closed_quietly p conn l1 l2 :
    p_watched p = l1 ++ conn :: l2 →
    env_step p (mkPublisher (p_uri p) (p_queueName p) (p_conn p) (p_channel p) (l1 ++ l2)
                  (p_signals p) (p_world p) (p_calls p)).
End publisher.

(** ** Properties *)

(** How often the publisher dialled. *)
Fixpoint dials (calls : list amqp_call) : nat :=
  match calls with
  | [] => 0
  | AmDial _ :: rest => S (dials rest)
  | _ :: rest => dials rest
  end.

Lemma dials_app l1 l2 : dials (l1 ++ l2) = dials l1 + dials l2.
Proof. induction l1 as [|[] l1 IH]; simpl; congruence. Qed.

Section properties.
Context {W : Type} {AM : Amqp W}.
Context {Msg : Type} (Marshal : Msg → outcome string).
#[local] Notation P := (publisher W).
Implicit Types (p : P).

Lemma lib_inv {A} ev (c : M W A) p o p' :
  lib ev c p = (o, p') →
  o = (c (p_world p)).1 ∧ p_calls p' = p_calls p ++ [ev] ∧ p_uri p' = p_uri p ∧
  p_queueName p' = p_queueName p ∧ p_conn p' = p_conn p ∧ p_channel p' = p_channel p ∧
  p_watched p' = p_watched p ∧ p_signals p' = p_signals p.
Proof. unfold lib. destruct (c (p_world p)). by intros [= <- <-]. Qed.

(** [n] dials in a row fail and lead from [w] to [w']. *)
Inductive dial_failures (uri : string) : nat → W → W → Prop :=
| dial_failures_O w : dial_failures uri 0 w w
| dial_failures_S n w w1 w2 e :
    am_Dial uri w = (Err e, w1) → dial_failures uri n w1 w2 → dial_failures uri (S n) w w2.

(** The publisher after the calls [calls] of the library. *)
Definition after (p : P) conn ch watched (w : W) calls : P :=
  mkPublisher (p_uri p) (p_queueName p) conn ch (watched ++ p_watched p) (p_signals p) w
    (p_calls p ++ calls).

Lemma connect_loop_retries n m p w1 :
  dial_failures (p_uri p) n (p_world p) w1 →
  connect_loop (n + m) p =
  connect_loop m (after p (if n is 0 then p_conn p else None) (p_channel p) [] w1
                    (replicate n (AmDial (p_uri p)))).
Proof.
  intros H. remember (p_uri p) as uri eqn:Hu. remember (p_world p) as w eqn:Hw.
  revert p Hu Hw. induction H as [w|n w w1 w2 e Hd _ IH]; intros p -> ->; simpl.
  - unfold after. rewrite app_nil_r. by destruct p.
  - unfold bind at 1, get, try, lib. unfold bind at 1. rewrite Hd.
    unfold bind at 1, modify, set_conn; simpl. rewrite IH by done.
    unfold after; simpl. rewrite <- app_assoc. by destruct n.
Qed.

(** What [connect] does is decided by the broker: after [n] failed dials,
    fewer than five, a dial that succeeds gives the connection, whose closing
    is watched, and its channel; with five failed dials the publisher gives up,
    with no connection and the channel it had. *)
Theorem connect_retries n p w1 :
  dial_failures (p_uri p) n (p_world p) w1 →
  (n = connectionRetryLimit →
   connect p = (Err (New "rabbitmq connection retry limit reached: 5"),
                after p None (p_channel p) [] w1 (replicate 5 (AmDial (p_uri p))))) ∧
  (∀ conn w2 o w3,
   n < connectionRetryLimit →
   am_Dial (p_uri p) w1 = (Ok conn, w2) → am_Channel conn w2 = (o, w3) →
   let calls := replicate (S n) (AmDial (p_uri p)) ++ [AmChannel conn] in
   connect p =
   match o with
   | Ok ch => (Ok tt, after p (Some conn) (Some ch) [conn] w3 calls)
   | Err e => (Err (wrap e ("failed to create rabbitmq channel to " +:+ fmt_q (p_uri p))),
               after p (Some conn) None [conn] w3 calls)
   | Panic m => (Panic m, after p (Some conn) (p_channel p) [conn] w3 calls)
   end).
Proof.
  intros Hf. split.
  - intros ->. unfold connect. rewrite <- (Nat.add_0_r connectionRetryLimit).
    rewrite (connect_loop_retries _ _ _ _ Hf). reflexivity.
  - intros conn w2 o w3 Hn Hd Hc. unfold connect.
    replace connectionRetryLimit with (n + S (pred (connectionRetryLimit - n))) by lia.
    rewrite (connect_loop_retries _ _ _ _ Hf). simpl.
    unfold bind at 1, get, try, lib. unfold bind at 1. simpl. rewrite Hd.
    unfold bind, modify, set_conn, watch, set_channel; simpl. rewrite Hc.
    by destruct o; unfold after; simpl;
      rewrite (app_comm_cons (replicate n _)), replicate_cons_app, <- !app_assoc.
Qed.

(** [Push] on a connected publisher without a pending signal: the message
    is marshalled, the durable queue of the publisher is declared on the current
    channel and the message is published to the declared queue; nothing is
    dialled, the first step that fails ends it and its error is returned. *)
Theorem Push_steady obj p ch :
  p_signals p = 0 → p_channel p = Some ch →
  let d := queue_declaration (p_queueName p) in
  let '(declared, w1) := am_QueueDeclare ch d (p_world p) in
  Push Marshal obj p =
  match Marshal obj, declared with
  | Ok data, Ok q =>
      let '(o, w2) := am_Publish ch (queue_message q data) w1 in
      (wrap_err "failed to publish rabbitmq message" o,
       after p (p_conn p) (Some ch) [] w2
         [AmQueueDeclare ch d; AmPublish ch (queue_message q data)])
  | Ok _, Err e => (Err (wrap e "failed to declare rabbitmq queue"),
                    after p (p_conn p) (Some ch) [] w1 [AmQueueDeclare ch d])
  | Ok _, Panic m => (Panic m, after p (p_conn p) (Some ch) [] w1 [AmQueueDeclare ch d])
  | Err e, _ => (Err (wrap e "cannot marshal rabbitmq event"), p)
  | Panic m, _ => (Panic m, p)
  end.
Proof.
  intros Hs Hc d. destruct (am_QueueDeclare ch d (p_world p)) as [declared w1] eqn:Hd.
  unfold Push, bind at 1, get. rewrite Hs. unfold bind at 1, ret.
  unfold bind at 1, lift_outcome. destruct (Marshal obj) as [data| |]; [|done..]. simpl.
  unfold bind at 1, wrapping at 1, on_channel at 1. unfold bind at 1, get. rewrite Hc.
  unfold lib at 1. fold d. rewrite Hd.
  destruct declared as [q| |]; [|by unfold after; rewrite Hc..]. simpl.
  unfold wrapping, on_channel, bind, get. simpl. rewrite Hc. unfold lib; simpl.
  destruct (am_Publish ch (queue_message q data) w1) as [o w2].
  unfold after; simpl. rewrite <- app_assoc. done.
Qed.

(** ** After a failed reconnection *)

(** What can happen to the publisher of a job. *)
Inductive step : P → P → Prop :=
| step_push obj o p p' : Push Marshal obj p = (o, p') → step p p'
| step_close o p p' : Close p = (o, p') → step p p'
| step_env p p' : env_step p p' → step p p'.

(** Nothing is watched and nothing was signalled. *)
Definition deaf (p : P) : Prop := p_watched p = [] ∧ p_signals p = 0.

(** The calls after [p] do not dial, and the connection stays what it is. *)
Definition quiet (p p' : P) : Prop :=
  p_watched p' = p_watched p ∧ p_signals p' = p_signals p ∧ p_conn p' = p_conn p ∧
  dials (p_calls p') = dials (p_calls p).

#[local] Instance quiet_preorder : PreOrder quiet.
Proof. split; [done|]. intros p1 p2 p3 (?&?&?&?) (?&?&?&?). split_and!; congruence. Qed.

Lemma lib_quiet {A} ev (c : M W A) :
  dials [ev] = 0 → always quiet (lib ev c).
Proof.
  intros Hev p o p' (_ & C & _ & _ & N1 & _ & W1 & S1)%lib_inv.
  unfold quiet. rewrite C, dials_app, Hev. split_and!; [done..|lia].
Qed.

Lemma on_channel_quiet {A} (k : nat → M P A) :
  (∀ ch, always quiet (k ch)) → always quiet (on_channel k).
Proof.
  intros Hk. apply always_bind; [apply _|eauto with forge|]. intros p.
  destruct (p_channel p); [apply Hk|eauto with forge].
Qed.

Lemma Push_quiet obj p o p' :
  p_signals p = 0 → Push Marshal obj p = (o, p') → quiet p p'.
Proof.
  intros Hs. unfold Push, bind at 1, get. rewrite Hs.
  match goal with |- ?c p = _ → _ => enough (always quiet c) as Hc by apply Hc end.
  pose proof quiet_preorder. apply always_bind; [done|eauto with forge|]. intros _.
  apply always_bind; [done|eauto with forge|]. intros data.
  apply always_bind; [done|apply always_wrapping, on_channel_quiet; intros; by apply lib_quiet|].
  intros q. apply always_wrapping, on_channel_quiet. intros. by apply lib_quiet.
Qed.

Lemma step_deaf p p' : deaf p → step p p' → quiet p p'.
Proof.
  intros [Hw Hs] Hstep. destruct Hstep as [obj o p p' H|o p p' H|p p' H] in Hw, Hs |- *.
  - by eapply Push_quiet.
  - revert H. unfold Close, bind, get. destruct (p_conn _); [by apply lib_quiet|].
    intros [= _ <-]. done.
  - inversion H as [? ? l1 ? Hl|? ? l1 ? Hl]; rewrite Hw in Hl; by destruct l1.
Qed.

Lemma steps_deaf p p' : deaf p → rtc step p p' → quiet p p'.
Proof.
  intros Hd Hr. induction Hr as [p|p1 p2 p3 H12 _ IH]; [done|].
  pose proof (step_deaf _ _ Hd H12) as Hq. transitivity p2; [done|]. apply IH.
  destruct Hd, Hq as (?&?&_&_). split; congruence.
Qed.

(** A signal is consumed before the publisher reconnects. *)
Lemma Push_reconnect_fails obj p e p1 :
  p_signals p ≠ 0 → connect (take_signal p) = (Err e, p1) →
  Push Marshal obj p = (Err (wrap e "could not reconnect to rabbitmq"), p1).
Proof.
  intros Hs Hc. unfold Push, bind at 1, get. destruct (p_signals p) eqn:E; [done|].
  unfold bind at 1. unfold bind at 1, modify. unfold wrapping at 1. by rewrite Hc.
Qed.

(** C32: A publisher that could not reconnect never tries again.  When the
    signal of its closed connection is pending and the broker refuses five
    dials, [Push] fails and the signal is gone: whatever the job pushes later,
    and however long the broker has been back, the publisher does not dial, and
    the connection it lost stays unset. *)
Theorem Push_never_reconnects obj p w1 :
  p_watched p = [] → p_signals p = 1 →
  dial_failures (p_uri p) 5 (p_world p) w1 →
  ∃ p1, Push Marshal obj p =
          (Err (wrap (New "rabbitmq connection retry limit reached: 5")
                  "could not reconnect to rabbitmq"), p1) ∧
    dials (p_calls p1) = dials (p_calls p) + 5 ∧
    p_conn p1 = None ∧ p_channel p1 = p_channel p ∧
    ∀ p2, rtc step p1 p2 → p_conn p2 = None ∧ dials (p_calls p2) = dials (p_calls p1).
Proof.
  intros Hw Hs Hf.
  pose proof (connect_loop_retries 5 0 (take_signal p) w1 Hf) as Hc.
  eexists (after (take_signal p) None (p_channel p) [] w1 (replicate 5 (AmDial (p_uri p)))).
  split; [apply Push_reconnect_fails; [by rewrite Hs|exact Hc]|].
  split; [apply dials_app|]. split_and!; [done..|].
  intros p2 H2. apply steps_deaf in H2 as (_ & _ & Hn & H2); [done|].
  split; simpl; [done|by rewrite Hs].
Qed.

(** A reconnection that dials but gets no channel leaves the nil channel in
    the publisher: this [Push] fails with an error, and the next one, with a
    message that can be marshalled and no new signal, dereferences nil. *)
Theorem Push_nil_channel obj obj' data p conn w1 e w2 :
  p_signals p = 1 →
  am_Dial (p_uri p) (p_world p) = (Ok conn, w1) → am_Channel conn w1 = (Err e, w2) →
  Marshal obj' = Ok data →
  ∃ err p1 m, Push Marshal obj p = (Err err, p1) ∧ p_conn p1 = Some conn ∧
    Push Marshal obj' p1 = (Panic m, p1).
Proof.
  intros Hs Hd Hc Hm. do 3 eexists. split; [|split].
  - apply Push_reconnect_fails; [by rewrite Hs|].
    unfold connect, connectionRetryLimit, connect_loop.
    unfold bind at 1, get, try, lib. unfold bind at 1. simpl. rewrite Hd.
    unfold bind, modify; simpl. rewrite Hc. reflexivity.
  - done.
  - unfold Push, bind at 1, get. simpl. rewrite Hs. simpl.
    unfold bind at 1, ret. unfold bind at 1, lift_outcome. rewrite Hm. reflexivity.
Qed.
End properties.

(** ** A broker in memory *)

(** It refuses the next [b_refuse] dials, and channels while [b_busy]. *)
Record broker := mkBroker {
  b_refuse : nat;
  b_busy : bool;
  b_next : nat;
  b_queues : list string;
  b_messages : list (string * string);
}.

#[export] Instance broker_amqp : Amqp broker := {|
  am_Dial := λ uri b,
    match b_refuse b with
    | S n => (Err (New "connection refused"),
              mkBroker n (b_busy b) (b_next b) (b_queues b) (b_messages b))
    | O => (Ok (b_next b), mkBroker 0 (b_busy b) (S (b_next b)) (b_queues b) (b_messages b))
    end;
  am_Channel := λ conn b,
    if b_busy b then (Err (New "no free channel"), b)
    else (Ok (b_next b),
          mkBroker (b_refuse b) false (S (b_next b)) (b_queues b) (b_messages b));
  am_QueueDeclare := λ ch d b,
    (Ok (qd_name d), mkBroker (b_refuse b) (b_busy b) (b_next b) (qd_name d :: b_queues b)
                       (b_messages b));
  am_Publish := λ ch m b,
    if bool_decide (pb_key m ∈ b_queues b) then
      (Ok tt, mkBroker (b_refuse b) (b_busy b) (b_next b) (b_queues b)
                ((pb_key m, pb_Body m) :: b_messages b))
    else (Err (New "no route"), b);
  am_Close := λ conn b, (Ok tt, b);
|}.

Module PublisherSample.
Definition marshal (s : string) : outcome string := Ok s.
(** A publisher with a connection [0] and a channel [1] of it. *)
Definition connected (signals : nat) (watched : list nat) (b : broker) : publisher broker :=
  mkPublisher "amqp://broker" "builds" (Some 0) (Some 1) watched signals b [].

Lemma connect_retries_witness :
  connect (connected 0 [] (mkBroker 2 false 2 [] [])) =
  (Ok tt, after (connected 0 [] (mkBroker 2 false 2 [] [])) (Some 2) (Some 3) [2]
            (mkBroker 0 false 4 [] [])
            [AmDial "amqp://broker"; AmDial "amqp://broker"; AmDial "amqp://broker"; AmChannel 2]).
Proof.
  assert (dial_failures "amqp://broker" 2 (mkBroker 2 false 2 [] []) (mkBroker 0 false 2 [] []))
    as Hf by (repeat econstructor).
  destruct (connect_retries 2 (connected 0 [] (mkBroker 2 false 2 [] [])) _ Hf) as [_ H].
  exact (H 2 _ (Ok 3) _ ltac:(unfold connectionRetryLimit; lia) eq_refl eq_refl).
Defined.

Lemma Push_steady_witness :
  Push marshal "{}" (connected 0 [0] (mkBroker 0 false 2 [] [])) =
  (Ok tt, after (connected 0 [0] (mkBroker 0 false 2 [] [])) (Some 0) (Some 1) []
            (mkBroker 0 false 2 ["builds"] [("builds", "{}")])
            [AmQueueDeclare 1 (queue_declaration "builds");
             AmPublish 1 (queue_message "builds" "{}")]).
Proof.
  exact (Push_steady marshal "{}" (connected 0 [0] (mkBroker 0 false 2 [] [])) 1 eq_refl eq_refl).
Defined.

(** The broker refuses five dials and is back afterwards. *)
Lemma Push_never_reconnects_witness :
  ∃ p1, p_conn p1 = None ∧ b_refuse (p_world p1) = 0 ∧
    ∀ p2, rtc (step marshal) p1 p2 → dials (p_calls p2) = 5.
Proof.
  assert (dial_failures "amqp://broker" 5 (mkBroker 5 false 2 [] []) (mkBroker 0 false 2 [] []))
    as Hf by (repeat econstructor).
  destruct (Push_never_reconnects marshal "{}" (connected 1 [] (mkBroker 5 false 2 [] [])) _
              eq_refl eq_refl Hf) as (p1 & Hp & Hd & Hc & _ & H).
  exists p1. split; [exact Hc|]. split.
  - vm_compute in Hp. injection Hp as <-. reflexivity.
  - intros p2 H2. destruct (H p2 H2) as [_ ->]. rewrite Hd. reflexivity.
Defined.

Lemma Push_nil_channel_witness :
  ∃ p1 m, (Push marshal "{}" (connected 1 [] (mkBroker 0 true 2 [] []))).2 = p1 ∧
    Push marshal "{}" p1 = (Panic m, p1).
Proof.
  destruct (Push_nil_channel (AM:=broker_amqp) marshal "{}" "{}" "{}"
              (connected 1 [] (mkBroker 0 true 2 [] []))
              2 (mkBroker 0 true 3 [] []) (New "no free channel") (mkBroker 0 true 3 [] [])
              eq_refl eq_refl eq_refl eq_refl) as (err & p1 & m & H1 & _ & H2).
  exists p1, m. split; [by rewrite H1|exact H2].
Defined.
End PublisherSample.
