(* ===== verification/FullJob.v ===== *)
(** * FullJob: a build job with its driver and its producer

    [BuildJob] is about a job whose image builder and message producer are
    parameters.  Here they are the embedded driver of [Driver] and the AMQP
    publisher of [Publisher], as [New] of [internal/buildjob] puts them together:
    the state of a job is that of the API server, of the driver and of the
    publisher, a call changes one of them, and the promises [BuildJob] relies on
    follow from those of the parts. *)
From stdpp Require Import gmap strings list.
From Stdlib Require Import ZArith Lia.
From S2P Require Import Prelude Go GoStd Types Config Kube Credentials Resources RegistryConfig BuildJob Reference SolveRequest Driver Publisher.
#[local] Open Scope forge_scope.

(** ** What a producer publishes *)

(** The messages among the calls of a publisher. *)
Fixpoint publishes (calls : list amqp_call) : list publishing :=
  match calls with
  | [] => []
  | AmPublish _ m :: rest => m :: publishes rest
  | _ :: rest => publishes rest
  end.

Lemma publishes_app l1 l2 : publishes (l1 ++ l2) = publishes l1 ++ publishes l2.
Proof. induction l1 as [|[] l1 IH]; simpl; congruence. Qed.

Section producer.
Context {A : Type} {AM : Amqp A} {Msg : Type} (Marshal : Msg → outcome string).
#[local] Notation P := (publisher A).

Definition silent (p p' : P) : Prop := publishes (p_calls p') = publishes (p_calls p).

#[local] Instance silent_preorder : PreOrder silent.
Proof. split; [done|]. intros p1 p2 p3 H1 H2. unfold silent in *. congruence. Qed.

Lemma lib_silent {B} ev (c : M A B) : publishes [ev] = [] → always silent (lib ev c).
Proof.
  intros He p o p' (_ & Hc & _)%lib_inv. unfold silent. by rewrite Hc, publishes_app, He, app_nil_r.
Qed.

Lemma modify_silent f : (∀ p, p_calls (f p) = p_calls p) → always silent (modify f).
Proof. intros Hf. apply (always_modify silent). intros p. unfold silent. by rewrite Hf. Qed.

Lemma connect_loop_silent n : always silent (connect_loop n).
Proof.
  induction n as [|n IH]; [apply always_throw; apply _|]. cbn [connect_loop].
  apply (always_bind silent); [auto with forge|]. intros p.
  apply (always_bind silent); [apply (always_try silent), lib_silent; done|]. intros [e|conn].
  - apply (always_bind silent); [by apply modify_silent|]. intros _. exact IH.
  - do 2 (apply (always_bind silent); [by apply modify_silent|intros _]).
    apply (always_bind silent); [apply (always_try silent), lib_silent; done|]. intros [e|ch].
    + apply (always_bind silent); [by apply modify_silent|auto with forge].
    + by apply modify_silent.
Qed.

Lemma reconnect_silent n :
  always silent (match n with
                 | O => ret tt
                 | S _ => do! modify take_signal in wrapping "could not reconnect to rabbitmq" connect
                 end).
Proof.
  destruct n; [auto with forge|]. apply (always_bind silent); [by apply modify_silent|]. intros _.
  apply (always_wrapping silent), connect_loop_silent.
Qed.

Lemma on_channel_silent {B} (k : nat → M P B) : (∀ ch, always silent (k ch)) → always silent (on_channel k).
Proof.
  intros Hk. apply (always_bind silent); [auto with forge|]. intros p.
  destruct (p_channel p); [apply Hk|auto with forge].
Qed.

Lemma publish_message m msg p o p' :
  wrapping msg (on_channel (λ ch, lib (AmPublish ch m) (am_Publish ch m))) p = (o, p') →
  (silent p p' ∧ is_Ok o = false) ∨ publishes (p_calls p') = publishes (p_calls p) ++ [m].
Proof.
  unfold wrapping, on_channel, bind, get. destruct (p_channel p) as [ch|].
  - destruct (lib _ _ p) as [o1 p1] eqn:E. intros [= <- <-].
    apply lib_inv in E as (_ & Hc & _). right. by rewrite Hc, publishes_app.
  - intros [= <- <-]. by left.
Qed.

(** [Push] publishes the text of its message, once, or fails without. *)
Lemma Push_publishing obj p o p' :
  Push Marshal obj p = (o, p') →
  (silent p p' ∧ is_Ok o = false) ∨
  ∃ q data, Marshal obj = Ok data ∧
    publishes (p_calls p') = publishes (p_calls p) ++ [queue_message q data].
Proof.
  unfold Push. unfold bind at 1, get.
  intros [([] & p1 & H1 & H)|[(e & H1 & ->)|(m & H1 & ->)]]%bind_inv; apply reconnect_silent in H1; [|by left..].
  apply bind_inv in H as [(data & p2 & H2 & H)|[(e & H2 & ->)|(m & H2 & ->)]];
    injection H2 as Hm <-; [|by left..].
  assert (Marshal obj = Ok data) as Hd by (by destruct (Marshal obj); simplify_eq/=).
  assert (∀ ch d, always silent (lib (AmQueueDeclare ch d) (am_QueueDeclare ch d))) as Hq
    by (intros; by apply lib_silent).
  apply bind_inv in H as [(q & p3 & H3 & H)|[(e & H3 & ->)|(m & H3 & ->)]];
    apply (always_wrapping silent _ _ (on_channel_silent _ (λ ch, Hq ch _))) in H3;
    [|left; split; [by etrans|done]..].
  assert (silent p p3) as Hs by (by etrans).
  apply publish_message in H as [[Hs' Hno]|H].
  - left. split; [by etrans|done].
  - right. exists q, data. split; [done|]. by rewrite H, Hs.
Qed.
End producer.

(** ** The assembled job *)

(** The states of the API server with the clock and the files, of the driver, and of
    the publisher, with the updates it was asked to publish the text of. *)
Record full (B W A : Type) := mkFull {
  fj_server : B;
  fj_driver : driver W;
  fj_producer : publisher A;
  fj_announced : list StatusUpdate;
}.
Arguments mkFull {B W A}.
Arguments fj_server {B W A}.
Arguments fj_driver {B W A}.
Arguments fj_producer {B W A}.
Arguments fj_announced {B W A}.

Section full.
Context {B W A : Type} {JC : JobClients B} {JH : JobHost B}.
Context {BK : Buildkit W} {RP : ReferenceParser} {AM : Amqp A}.
Context (getenv : string → string).
(** [json.Marshal] of a status update. *)
Context (Marshal : StatusUpdate → outcome string).
#[local] Notation F := (full B W A).

Definition set_server (b : B) (w : F) : F :=
  mkFull b (fj_driver w) (fj_producer w) (fj_announced w).
Definition set_driver (d : driver W) (w : F) : F :=
  mkFull (fj_server w) d (fj_producer w) (fj_announced w).

(** A step of the publisher for [u]. *)
Definition announcing (u : StatusUpdate) (p p' : publisher A) : list StatusUpdate :=
  if bool_decide (length (publishes (p_calls p')) = length (publishes (p_calls p))) then [] else [u].

Definition set_producer (u : StatusUpdate) (p' : publisher A) (w : F) : F :=
  mkFull (fj_server w) (fj_driver w) p' (fj_announced w ++ announcing u (fj_producer w) p').

Definition at_server {X} (c : M B X) : M F X := zoom fj_server set_server c.
Definition at_driver {X} (c : M (driver W) X) : M F X := zoom fj_driver set_driver c.
Definition at_producer {X} (u : StatusUpdate) (c : M (publisher A) X) : M F X :=
  zoom fj_producer (set_producer u) c.

(** The job of [New]: its builder is the driver and its producer the publisher. *)
#[export] Instance full_clients : JobClients F := {|
  fc_Get k := at_server (fc_Get k);
  fc_UpdateStatus c := at_server (fc_UpdateStatus c);
  pr_Push u := at_producer u (Push Marshal u);
  bld_BuildAndPush opts := at_driver (BuildAndPush getenv opts);
  time_Now := at_server time_Now;
  log_Info s := at_server (log_Info s);
|}.

#[export] Instance full_host : JobHost F := {|
  jh_GetSecret ns n := at_server (jh_GetSecret ns n);
  jh_Stat p := at_server (jh_Stat p);
  jh_ReadFile p := at_server (jh_ReadFile p);
  jh_IsNotExist := jh_IsNotExist (W:=B);
  jh_range X m := at_server (jh_range m);
|}.

(** *** Projections *)

Lemma at_server_inv {X} (c : M B X) (w : F) o w' :
  at_server c w = (o, w') → ∃ b, c (fj_server w) = (o, b) ∧ w' = set_server b w.
Proof. unfold at_server, zoom. destruct (c (fj_server w)). intros [= <- <-]. eauto. Qed.

Lemma at_driver_inv {X} (c : M (driver W) X) (w : F) o w' :
  at_driver c w = (o, w') → ∃ d, c (fj_driver w) = (o, d) ∧ w' = set_driver d w.
Proof. unfold at_driver, zoom. destruct (c (fj_driver w)). intros [= <- <-]. eauto. Qed.

Lemma at_producer_inv {X} u (c : M (publisher A) X) (w : F) o w' :
  at_producer u c w = (o, w') → ∃ p, c (fj_producer w) = (o, p) ∧ w' = set_producer u p w.
Proof. unfold at_producer, zoom. destruct (c (fj_producer w)). intros [= <- <-]. eauto. Qed.

(** A call of the server is seen as one by a relation on servers. *)
Lemma at_server_always {X} (R : relation B) (c : M B X) :
  always R c → always (λ w w' : F, R (fj_server w) (fj_server w') ∧
                        fj_driver w' = fj_driver w ∧ fj_producer w' = fj_producer w ∧
                        fj_announced w' = fj_announced w) (at_server c).
Proof. intros Hc w o w' (b & H & ->)%at_server_inv. split; [by eapply Hc|done]. Qed.

(** Only the build changes the driver. *)
Lemma full_keeps_driver : keeps (W:=F) fj_driver.
Proof.
  split; intros; cbn; intros w o w';
    first [by intros (? & _ & ->)%at_server_inv|by intros (? & _ & ->)%at_producer_inv].
Qed.

Context {JR : JobReads B} {JS : JobServer B} {RL : ReferenceLaws} {IS : ImageStore W}.

#[export] Instance full_reads : JobReads F.
Proof.
  refine {| secret_of w := secret_of (fj_server w); file_of w := file_of (fj_server w) |}.
  - intros ns n w o w' (b & H & ->)%at_server_inv. exact (GetSecret_env ns n _ _ _ H).
  - intros p w o w' (b & H & ->)%at_server_inv. exact (Stat_env p _ _ _ H).
  - intros p w o w' (b & H & ->)%at_server_inv. exact (ReadFile_env p _ _ _ H).
  - intros X m w o w' (b & H & ->)%at_server_inv. exact (range_env X m _ _ _ H).
  - intros ns n w s w' (b & H & ->)%at_server_inv. exact (GetSecret_fresh ns n _ _ _ H).
  - intros p w d w' (b & H & ->)%at_server_inv. exact (ReadFile_fresh p _ _ _ H).
  - intros X m w o w' (b & H & ->)%at_server_inv. exact (range_perm X m _ _ _ H).
Defined.

Lemma announcing_silent u p p' : silent p p' → announcing u p p' = [].
Proof. unfold silent, announcing. intros ->. by rewrite bool_decide_eq_true_2. Qed.

Lemma announcing_message u p p' m :
  publishes (p_calls p') = publishes (p_calls p) ++ [m] → announcing u p p' = [u].
Proof.
  intros H. unfold announcing. rewrite H, bool_decide_eq_false_2; [done|]. rewrite length_app. simpl. lia.
Qed.

(** The parts keep the promises the job relies on. *)
#[export] Instance full_job_server : JobServer F.
Proof.
  assert (∀ X (c : M B X), always BuildJob.quiet c →
    always (λ w w' : F, builds_at (fj_server w') = builds_at (fj_server w) ∧
                        fj_announced w' = fj_announced w) (at_server c)) as Hq.
  { intros X c Hc w o w' H. destruct (at_server_always _ _ Hc _ _ _ H) as ([HB _] & _ & _ & ->). done. }
  refine {| builds_at w := builds_at (fj_server w); published := fj_announced |}.
  - intros k. apply Hq, fcGet_reads.
  - intros k w c w' (b & H & _)%at_server_inv. by eapply fcGet_fresh.
  - intros c w o w' (b & H & ->)%at_server_inv. split; [done|].
    by apply UpdateStatus_writes in H as [_ H].
  - intros u w o w' (p & H & ->)%at_producer_inv. split; [done|]. cbn.
    apply Push_publishing in H as [[Hs Hno]|(q & data & Hd & Hp)].
    + left. rewrite (announcing_silent _ _ _ Hs), app_nil_r. done.
    + right. by rewrite (announcing_message _ _ _ _ Hp).
  - intros opts w o w' (d & _ & ->)%at_driver_inv. done.
  - apply Hq, Now_quiet.
  - intros l. apply Hq, log_quiet.
  - intros ns n p X m. destruct (reads_quiet (W:=B) ns n p X m) as (? & ? & ? & ?). by split_and!; apply Hq.
Defined.

(** C1: A build counts as completed only when its image is in every registry.
    Whatever the outcome of a run of a job with its driver and its producer, when
    it stored a build as completed that was not, then the driver fetched the
    context, let every plugin prepare it, solved one request, and pushed the image
    under its name in each push registry of the build, in order, with the
    credentials that the registries of the build resolved to once the run had
    stored it as building, and made no other of these calls.  Between the build and
    the first push the driver looked up the size of the image that the store has
    under the first of these names; every push is of the digest of this image.  The
    names are the URLs in the status of the build, and the size there is this size,
    within the limit of the build. *)
Theorem completed_means_pushed j (w : F) o w' c c' :
  let k := mkKey (j_namespace j) (j_name j) in
  well_keyed (builds_at w) → Run j w = (o, w') →
  builds_at w !! k = Some c → st_State (cib_Status c) ≠ BuildStateCompleted →
  builds_at w' !! k = Some c' → st_State (cib_Status c') = BuildStateCompleted →
  ∃ v t registries w0 w1 head dir ref sess rq im size,
    let opts := build_options (cib_Spec c) registries in
    let urls := st_ImageURLs (cib_Status c') in
    begins j w (building v t c) w0 ∧
    buildRegistryConfigs (spec_Registries (cib_Spec c)) w0 = (Ok registries, w1) ∧
    hd_error urls = Some head ∧
    Forall2 (λ r i, image_name opts r = Ok i) (spec_PushRegistries (cib_Spec c)) urls ∧
    solveRequestWithContext getenv ref sess head (d_cacheImageLayers (fj_driver w)) opts = Ok rq ∧
    d_calls (fj_driver w') = d_calls (fj_driver w)
      ++ build_calls opts dir (d_preparerPlugins (fj_driver w)) [CallSolve rq (configured opts)]
      ++ checked_pushes (configured opts) head im size urls ∧
    st_ImageSize (cib_Status c') = uint64_of size ∧
    within (spec_ImageSizeLimit (cib_Spec c)) (st_ImageSize (cib_Status c')).
Proof.
  intros k Hk H Hc Hs Hc' Hs'.
  destruct (Run_completed j w o w' c c' Hk H Hc Hs Hc' Hs')
    as (v & t & v' & t' & image & regs & w0 & w1 & w2 & -> & Hb0 & Hr & Hb & Hf1 & Hf2).
  apply at_driver_inv in Hb as (d & Hb & ->).
  rewrite (Hf1 _ _ full_keeps_driver) in Hb.
  assert (fj_driver w' = d) as Hd by exact (Hf2 _ _ full_keeps_driver).
  destruct (BuildAndPush_success getenv _ _ _ _ Hb)
    as (head & dir & solved & im & size & Hh & Hn & (ref & sess & rq & Hrq & ->) & Hcalls & Hsize & Hw).
  exists v, t, regs, w0, w1, head, dir, ref, sess, rq, im, size. by rewrite Hd.
Qed.

(** *** Messages *)

(** The message for an update: its text, for the queue. *)
Definition carries (m : publishing) (u : StatusUpdate) : Prop :=
  ∃ q data, Marshal u = Ok data ∧ m = queue_message q data.

(** What was published is what was announced. *)
Definition in_step (w w' : F) : Prop :=
  ∃ new us, publishes (p_calls (fj_producer w')) = publishes (p_calls (fj_producer w)) ++ new ∧
            fj_announced w' = fj_announced w ++ us ∧ Forall2 carries new us.

#[local] Instance in_step_preorder : PreOrder in_step.
Proof.
  split.
  - intros w. exists [], []. by rewrite !app_nil_r.
  - intros w1 w2 w3 (n1 & u1 & Hp1 & Ha1 & H1) (n2 & u2 & Hp2 & Ha2 & H2).
    exists (n1 ++ n2), (u1 ++ u2). rewrite Hp2, Hp1, Ha2, Ha1, !app_assoc.
    split_and!; [done..|by apply Forall2_app].
Qed.

Lemma in_step_kept w w' :
  fj_producer w' = fj_producer w → fj_announced w' = fj_announced w → in_step w w'.
Proof. intros Hp Ha. exists [], []. by rewrite Hp, Ha, !app_nil_r. Qed.

Lemma server_in_step {X} (c : M B X) : always in_step (at_server c).
Proof. intros w o w' (b & _ & ->)%at_server_inv. by apply in_step_kept. Qed.

Lemma Run_in_step j : always in_step (Run (W:=F) j).
Proof.
  apply (always_Run in_step); intros; try apply server_in_step.
  - intros w o w' (p & H & ->)%at_producer_inv.
    apply Push_publishing in H as [[Hs _]|(q & data & Hd & Hp)].
    + exists [], []. cbn. by rewrite (announcing_silent _ _ _ Hs), !app_nil_r.
    + exists [queue_message q data], [u]. cbn. rewrite (announcing_message _ _ _ _ Hp).
      split_and!; [done..|]. constructor; [by exists q, data|constructor].
  - intros w o w' (d & _ & ->)%at_driver_inv. by apply in_step_kept.
Qed.

(** C4: What subscribers of the queue learn.  Whatever the outcome of a run of a
    job with its driver and its producer, the messages its publisher sent to the
    broker are the texts of status updates for a prefix of the versions of the
    build it stored, in their order and once each: a subscriber never hears of a
    state the build was not in.  After a run that succeeds, and had a producer,
    these are the start and the completion. *)
Theorem messages_tell_history j (w : F) o w' :
  let k := mkKey (j_namespace j) (j_name j) in
  well_keyed (builds_at w) → Run j w = (o, w') →
  ∃ sent messages,
    publishes (p_calls (fj_producer w')) = publishes (p_calls (fj_producer w)) ++ messages ∧
    Forall2 carries messages (status_update <$> sent) ∧
    ((builds_at w' = builds_at w ∧ sent = [] ∧ is_Ok o = false) ∨
     ∃ c hist, builds_at w !! k = Some c ∧ progress c hist ∧
       builds_at w' = commit k hist (builds_at w) ∧ sent `prefix_of` hist ∧
       (o = Ok tt → (sent = if j_producer j then hist else []) ∧ ∃ v t v' t' image,
          hist = [building v t c; completed v' t' image (building v t c)])).
Proof.
  intros k Hk H. pose proof (Run_in_step j _ _ _ H) as (new & us & Hp & Ha & HF).
  destruct (Run_history j w o w' Hk H)
    as [[[HB HP] Hno]|(c & hist & sent & Hc & Hpr & HB & HP & Hpre & _ & Hok)];
    cbn [published full_job_server] in HP; rewrite Ha in HP.
  - rewrite <- (app_nil_r (fj_announced w)) in HP at 2. apply app_inv_head in HP. subst us.
    exists [], new. split_and!; [done|done|by left].
  - apply app_inv_head in HP. subst us. exists sent, new. split_and!; [done|done|].
    right. exists c, hist. split_and!; [done..|].
    intros ->. destruct (Hok eq_refl) as [Hs (v & t & v' & t' & image & _ & _ & _ & Hh & _)].
    split; [done|]. by exists v, t, v', t', image.
Qed.
End full.

(** ** A job in memory *)

(** The text of a message, as far as the examples look at it. *)
Definition text_of (u : StatusUpdate) : outcome string := Ok (su_Name u +:+ " " +:+ su_CurrentState u).

Module FullSample.
Import SimpleParser.

Definition world : full jobworld machine broker :=
  mkFull JobSample.good (DriverSample.embedded 42 []) (PublisherSample.connected 0 [] (mkBroker 0 false 2 [] [])) [].
Definition getenv (s : string) : string := "".
#[local] Instance clients : JobClients (full jobworld machine broker) := full_clients getenv text_of.
#[local] Instance server : JobServer (full jobworld machine broker) :=
  full_job_server getenv text_of.

Definition stored : ContainerImageBuild :=
  default JobSample.cib (builds_at (Run JobSample.job world).2 !! mkKey "ns" "b").

Lemma completed_means_pushed_witness :
  (Run JobSample.job world).1 = Ok tt ∧
  st_ImageURLs (cib_Status stored) = ["reg.io/img:latest"] ∧
  ∃ opts head dir rq im size,
    d_calls (fj_driver (Run JobSample.job world).2)
    = [] ++ build_calls opts dir ["p"; "q"] [CallSolve rq (configured opts)]
         ++ checked_pushes (configured opts) head im size (st_ImageURLs (cib_Status stored)) ∧
    st_ImageSize (cib_Status stored) = uint64_of size ∧
    within 0 (st_ImageSize (cib_Status stored)).
Proof.
  split; [vm_compute; reflexivity|]. split; [vm_compute; reflexivity|].
  edestruct (completed_means_pushed getenv text_of JobSample.job world
    (Run JobSample.job world).1 (Run JobSample.job world).2 JobSample.cib stored)
    as (v & t & regs & w0 & w1 & head & dir & ref & sess & rq & im & size & _ & _ & _ & _ & _ & H).
  - exact (JobSample.keyed _ _).
  - apply run_split. reflexivity.
  - reflexivity.
  - discriminate.
  - vm_compute. reflexivity.
  - vm_compute. reflexivity.
  - eexists _, head, dir, rq, im, size. exact H.
Defined.

Lemma messages_tell_history_witness :
  pb_Body <$> publishes (p_calls (fj_producer (Run JobSample.job world).2)) = ["b Building"; "b Completed"] ∧
  ∃ sent messages,
    publishes (p_calls (fj_producer (Run JobSample.job world).2)) = messages ∧
    Forall2 (carries text_of) messages (status_update <$> sent).
Proof.
  split; [vm_compute; reflexivity|].
  destruct (messages_tell_history getenv text_of JobSample.job world (Run JobSample.job world).1
    (Run JobSample.job world).2 (JobSample.keyed _ _) (run_split _ _ _ eq_refl)) as (sent & ms & H1 & H2 & _).
  exists sent, ms. split; [exact H1|exact H2].
Defined.
End FullSample.
