(* ===== verification/JobInterleaving.v ===== *)
(** * JobInterleaving: a build job among other clients

    A job reads its ContainerImageBuild once, builds for minutes, and writes its
    status twice; users and controllers may edit, remove and replace the resource
    meanwhile.  Every update carries the version the job knows, and the server
    takes it only for that version.  Here every call of the job may be preceded
    and followed by writes of others. *)
From stdpp Require Import gmap strings list.
From Stdlib Require Import ZArith Ascii.
From S2P Require Import Prelude Go GoStd Types Config Kube Credentials Resources RegistryConfig BuildJob.
#[local] Open Scope forge_scope.

(** ** The shared server *)

(** [passing w w']: only others wrote between [w] and [w'].  [before w0 w]: the
    server was in [w0] before it was in [w].  A version is given to one content of
    a resource only, and is not given again once it was replaced; an update is taken for the version it was made for, and one
    whose call fails may have arrived or not. *)
Class SharedJobServer (W : Type) {JC : JobClients W} {JH : JobHost W} := {
  jv_builds : W → gmap NamespacedName ContainerImageBuild;
  jv_keyed w : well_keyed (jv_builds w);
  passing : relation W;
  passing_preorder :: PreOrder passing;
  before : relation W;
  before_preorder :: PreOrder before;
  passing_before w w' : passing w w' → before w w';
  versions_set w k c : jv_builds w !! k = Some c → cib_version c ≠ "";
  versions_once w w' k c c' :
    before w w' → jv_builds w !! k = Some c → jv_builds w' !! k = Some c' →
    cib_version c = cib_version c' → c' = c;
  versions_gone w0 w w' k c :
    before w0 w → before w w' → jv_builds w0 !! k = Some c → jv_builds w' !! k = Some c →
    jv_builds w !! k = Some c;
  Get_during k w o w' : fc_Get k w = (o, w') →
    passing w w' ∧
    ∀ c, o = Ok c → ∃ w1, passing w w1 ∧ passing w1 w' ∧ jv_builds w1 !! k = Some c;
  UpdateStatus_during c w o w' : fc_UpdateStatus c w = (o, w') →
    (passing w w' ∧ is_Ok o = false) ∨
    ∃ w1 w2 v old, passing w w1 ∧ jv_builds w1 !! cib_key c = Some old ∧ accepts c old ∧
      jv_builds w2 = <[cib_key c := put_status v c old]> (jv_builds w1) ∧ before w1 w2 ∧
      passing w2 w' ∧ ∀ c', o = Ok c' → c' = put_status v c old;
  Push_during u : always passing (pr_Push u);
  BuildAndPush_during opts : always passing (bld_BuildAndPush opts);
  Now_during : always passing time_Now;
  log_during s : always passing (log_Info s);
  GetSecret_during ns n : always passing (jh_GetSecret ns n);
  Stat_during p : always passing (jh_Stat p);
  ReadFile_during p : always passing (jh_ReadFile p);
  range_during A (m : gmap string A) : always passing (jh_range m);
}.

Section interleaved.
Context {W : Type} {JC : JobClients W} {JH : JobHost W} {SJ : SharedJobServer W}.
Implicit Types (w : W) (c cib : ContainerImageBuild).

(** Among the writes of others, the contents [hist] of the build [k] are stored one
    after the other: the first in place of [c], and each other one in place of the
    one before it. *)
Inductive overwrites (k : NamespacedName)
    : ContainerImageBuild → list ContainerImageBuild → relation W :=
| overwrites_none c w w' : passing w w' → overwrites k c [] w w'
| overwrites_next c c' hist w w1 w2 w' :
    passing w w1 → jv_builds w1 !! k = Some c →
    jv_builds w2 = <[k := c']> (jv_builds w1) → before w1 w2 →
    overwrites k c' hist w2 w' → overwrites k c (c' :: hist) w w'.

Lemma overwrites_passing_l k c hist w0 w w' :
  passing w0 w → overwrites k c hist w w' → overwrites k c hist w0 w'.
Proof.
  intros H0 Hw. revert H0. destruct Hw as [c0 w1 w2 H|c0 c' h w1 wa wb w2 H H1 H2 H3 H4]; intros H0.
  - apply overwrites_none. etrans; [exact H0|exact H].
  - eapply overwrites_next; [etrans; [exact H0|exact H]|done..].
Qed.

Lemma publish_during j c : always passing (publish j c).
Proof. unfold publish. destruct (j_producer j); auto using always_wrapping, Push_during with forge. Qed.

(** ** One update *)

(** [cib] was read or written at some time before. *)
Definition known cib w : Prop := ∃ w0, before w0 w ∧ jv_builds w0 !! cib_key cib = Some cib.

Lemma known_before cib w w' : known cib w → before w w' → known cib w'.
Proof. intros (w0 & H0 & H) Hw. exists w0. split; [etrans; [exact H0|exact Hw]|done]. Qed.

Lemma known_passing cib w w' : known cib w → passing w w' → known cib w'.
Proof. intros Hk Hp. apply (known_before _ w); [done|by apply passing_before]. Qed.

(** A known content is replaced by [c'], which is known from then on; the call
    returned [res]. *)
Definition replaced cib c' w (res : option ContainerImageBuild) w' : Prop :=
  (∃ w1 w2, passing w w1 ∧ jv_builds w1 !! cib_key cib = Some cib ∧
     jv_builds w2 = <[cib_key cib := c']> (jv_builds w1) ∧ before w1 w2 ∧ passing w2 w') ∧
  known c' w' ∧ ∀ x, res = Some x → x = c'.

Definition result {A} (o : outcome A) : option A := match o with Ok a => Some a | _ => None end.

(** The server takes the update of a known content only over that content. *)
Lemma UpdateStatus_over cib s w o w' :
  known cib w → fc_UpdateStatus (with_status s cib) w = (o, w') →
  (passing w w' ∧ is_Ok o = false) ∨
  ∃ v, replaced cib (put_status v (with_status s cib) cib) w (result o) w'.
Proof.
  intros (w0 & H0 & Hc) [H|(w1 & w2 & v & old & H1 & Hold & Ha & HB & H12 & H2 & Hr)]%UpdateStatus_during;
    [by left|right]. change (cib_key (with_status s cib)) with (cib_key cib) in *.
  assert (before w0 w1) as Hb by (etrans; [exact H0|by apply passing_before]).
  assert (old = cib) as ->.
  { destruct Ha as [Ha|Ha]; [by destruct (versions_set _ _ _ Hc)|].
    by eapply versions_once. }
  exists v. split_and!.
  - by exists w1, w2.
  - exists w2. split; [by apply passing_before|]. change (cib_key (put_status _ _ _)) with (cib_key cib).
    by rewrite HB, lookup_insert_eq.
  - intros x Hx. apply Hr. by destruct o; simplify_eq/=.
Qed.

Lemma replaced_passing cib c' w0 w res w' w1 res' :
  passing w0 w → replaced cib c' w res w' → passing w' w1 → (∀ x, res' = Some x → res = Some x) →
  replaced cib c' w0 res' w1.
Proof.
  intros H0 ((wa & wb & Ha & Hl & HB & Hab & Hb) & Hk & Hr) H1 Hres. split_and!.
  - exists wa, wb. split_and!; [etrans; [exact H0|exact Ha]|done..|etrans; [exact Hb|exact H1]].
  - by eapply known_passing.
  - intros x Hx. auto.
Qed.

(** A transition: the time, the update and its message. *)
Lemma transition_over j cib (f : Z → ContainerImageBuildStatus) w o w' :
  known cib w →
  bind time_Now (λ t, updateStatus j (with_status (f t) cib)) w = (o, w') →
  (passing w w' ∧ is_Ok o = false) ∨
  ∃ v t, replaced cib (put_status v (with_status (f t) cib) cib) w (result o) w'.
Proof.
  intros Hk [(t & w1 & H1 & H)|[(e & H1 & ->)|(m & H1 & ->)]]%bind_inv; apply Now_during in H1; [|by left..].
  pose proof (known_passing _ _ _ Hk H1) as Hk1.
  unfold updateStatus, bind at 1, wrapping at 1 in H.
  destruct (fc_UpdateStatus _ w1) as [o2 w2] eqn:H2.
  apply UpdateStatus_over in H2 as [[H2 Hno]|[v H2]]; [| |done].
  - left. destruct o2; [done|..]; injection H as <- <-; (split; [etrans; [exact H1|exact H2]|done]).
  - right. exists v, t. destruct o2 as [c'|e|m]; cbn [wrap_err] in H;
      [|injection H as <- <-; by eapply replaced_passing..].
    apply bind_inv in H as [([] & w3 & H3 & [= <- <-])|[(e & H3 & ->)|(m & H3 & ->)]];
      apply publish_during in H3; by eapply replaced_passing.
Qed.

(** The same with the result dropped. *)
Lemma transition_over_ j cib (f : Z → ContainerImageBuildStatus) w o w' :
  known cib w →
  bind time_Now (λ t, bind (updateStatus j (with_status (f t) cib)) (λ _, ret tt)) w = (o, w') →
  (passing w w' ∧ is_Ok o = false) ∨
  ∃ v t, overwrites (cib_key cib) cib [put_status v (with_status (f t) cib) cib] w w'.
Proof.
  intros Hk. rewrite <- bind_assoc.
  intros [(c' & w1 & H1 & [= <- <-])|[(e & H1 & ->)|(m & H1 & ->)]]%bind_inv;
    apply transition_over in H1 as [[H1 Hno]|(v & t & (wa & wb & Ha & Hl & HB & Hab & Hb) & _)]; try done;
    try (by left); right; exists v, t; (eapply overwrites_next; [done..|by apply overwrites_none]).
Qed.

(** ** A run *)

Lemma generateBuildOptions_during cib : always passing (generateBuildOptions cib).
Proof.
  apply (always_generateBuildOptions passing);
    auto using GetSecret_during, Stat_during, ReadFile_during, range_during.
Qed.

(** A failure is stored over the known content, or not at all. *)
Lemma fail_build_over j cib err w o w' :
  known cib w → fail_build j cib err w = (o, w') →
  is_Ok o = false ∧
  (passing w w' ∨ ∃ v t, overwrites (cib_key cib) cib [failed v t err cib] w w').
Proof.
  intros Hk H. unfold fail_build, bind, try in H.
  destruct (transitionToFailure j cib err w) as [o1 w1] eqn:E.
  assert (is_Ok o = false ∧ w' = w1) as [Hno ->] by (destruct o1; by injection H as <- <-).
  split; [done|]. apply transition_over_ in E as [[E _]|E]; [by left|by right|done].
Qed.

(** The end of a run that stored [c1] as building. *)
Definition finishes c1 w (o : outcome unit) w' : Prop :=
  (passing w w' ∧ is_Ok o = false) ∨
  (is_Ok o = false ∧ ∃ v t err, overwrites (cib_key c1) c1 [failed v t err c1] w w') ∨
  ∃ v t image registries wa wb,
    overwrites (cib_key c1) c1 [completed v t image c1] w w' ∧
    bld_BuildAndPush (build_options (cib_Spec c1) registries) wa = (Ok image, wb).

Lemma finishes_passing c1 w0 w o w' : passing w0 w → finishes c1 w o w' → finishes c1 w0 o w'.
Proof.
  intros H0 [[H Hno]|[(Hno & v & t & err & H)|(v & t & im & rs & wa & wb & H & Hb)]].
  - left. split; [etrans; [exact H0|exact H]|done].
  - right. left. split; [done|]. exists v, t, err. by eapply overwrites_passing_l.
  - right. right. exists v, t, im, rs, wa, wb. split; [by eapply overwrites_passing_l|done].
Qed.

Lemma run_build_finishes j c1 w o w' :
  known c1 w → run_build j c1 w = (o, w') → finishes c1 w o w'.
Proof.
  intros Hk H. unfold run_build in H.
  assert (∀ w1 err, passing w w1 → fail_build j c1 err w1 = (o, w') → finishes c1 w o w') as Hfail.
  { intros w1 err Hp [Hno Hf]%fail_build_over; [|by eapply known_passing].
    apply (finishes_passing _ _ w1); [done|]. destruct Hf as [Hf|(v & t & Hf)]; [by left|right; left]. eauto. }
  unfold bind at 1, try at 1 in H. destruct (generateBuildOptions c1 w) as [o1 w1] eqn:E1.
  pose proof (generateBuildOptions_during _ _ _ _ E1) as H1.
  destruct o1 as [opts|e|m]; [|by eapply Hfail|injection H as <- <-; by left].
  apply bind_Ok_inv in E1 as (regs & wr & _ & [= <- <-]).
  unfold bind at 1, try in H. destruct (bld_BuildAndPush _ wr) as [o2 w2] eqn:E2.
  pose proof (BuildAndPush_during _ _ _ _ E2) as H2.
  assert (passing w w2) as Hp by (etrans; [exact H1|exact H2]).
  destruct o2 as [image|e|m]; [| |injection H as <- <-; by left].
  - apply (finishes_passing _ _ w2); [done|].
    apply transition_over_ in H as [H|(v & t & H)]; [by left| |by eapply known_passing].
    right. right. by exists v, t, image, regs, wr, w2.
  - apply bind_inv in H as [([] & w3 & H3 & H4)|[(e' & H3 & ->)|(m & H3 & ->)]];
      apply (always_for_each passing _ _ log_during) in H3;
      (assert (passing w w3) as Hp3 by (etrans; [exact Hp|exact H3])) ||
      (left; split; [etrans; [exact Hp|exact H3]|done]).
    by eapply Hfail.
Qed.

(** C8: A job overwrites nothing but what it knows.  Whatever others write to the
    resource while a job runs, and whatever fails, the writes of the job are a
    path of the build state machine: the start is stored in place of the very
    resource it read, and the end in place of its own start, as nobody has touched
    it; a resource that was edited, removed or replaced meanwhile keeps what it
    has.  A run that succeeds stored both, the end with the image of the builder. *)
Theorem Run_interleaved j w o w' :
  let k := mkKey (j_namespace j) (j_name j) in
  Run j w = (o, w') →
  (passing w w' ∧ is_Ok o = false) ∨
  ∃ c hist,
    progress c hist ∧ overwrites k c hist w w' ∧
    (o = Ok tt → ∃ v t v' t' image registries wa wb,
       hist = [building v t c; completed v' t' image (building v t c)] ∧
       bld_BuildAndPush (build_options (cib_Spec c) registries) wa = (Ok image, wb)).
Proof.
  intros k H. unfold Run, bind at 1, wrapping in H. fold k in H.
  destruct (fc_Get k w) as [o1 w1] eqn:E1. apply Get_during in E1 as [H1 Hget].
  destruct o1 as [c|e|m]; [|injection H as <- <-; by left..]. cbn [wrap_err] in H.
  destruct (Hget _ eq_refl) as (w0 & H01 & H02 & Hc). pose proof (jv_keyed w0 _ _ Hc) as Hkey.
  assert (known c w1) as Hk by (exists w0; rewrite Hkey; split; [by apply passing_before|done]).
  apply bind_inv in H as [(c1 & w2 & H2 & H)|[(e & H2 & ->)|(m & H2 & ->)]];
    apply transition_over in H2 as [[H2 Hno]|(v & t & (wa & wb & Ha & Hl & HB & Hab & Hb) & Hk1 & Hr)]; try done;
    try (left; split; [etrans; [exact H1|exact H2]|done]);
    rewrite Hkey in *; right; exists c;
    assert (∀ hist, overwrites k (building v t c) hist wb w' →
      overwrites k c (building v t c :: hist) w w') as Hnext
      by (intros hist Hh; eapply overwrites_next; [etrans; [exact H1|exact Ha]|done..]).
  - rewrite (Hr _ eq_refl) in H. apply run_build_finishes in H; [|done]. unfold finishes in H.
    change (cib_key _) with (cib_key c) in H. rewrite Hkey in H.
    destruct H as [[H Hno]|[(Hno & v' & t' & err & H)|(v' & t' & im & rs & wc & wd & H & Hbld)]].
    + exists [building v t c]. split_and!; [constructor| |by intros ->].
      apply Hnext, overwrites_none. etrans; [exact Hb|exact H].
    + eexists. split_and!; [by eapply progress_failed|by eapply Hnext, overwrites_passing_l|by intros ->].
    + eexists. split_and!; [by eapply progress_completed|by eapply Hnext, overwrites_passing_l|].
      intros _. by exists v, t, v', t', im, rs, wc, wd.
  - exists [building v t c]. split_and!; [constructor|by apply Hnext, overwrites_none|done].
  - exists [building v t c]. split_and!; [constructor|by apply Hnext, overwrites_none|done].
Qed.

(** What a job holds after its first transition. *)
Lemma transitionToBuilding_known j c w b w' :
  known c w → transitionToBuilding j c w = (Ok b, w') →
  known b w' ∧ cib_key b = cib_key c ∧ st_State (cib_Status b) = BuildStateBuilding.
Proof.
  intros Hk [[_ Hno]|(v & t & _ & Hb & Hr)]%transition_over; [done| |done].
  by rewrite (Hr _ eq_refl).
Qed.

(** The final update of a content somebody else replaced is refused. *)
Lemma transitionToComplete_refused j b image w o w' :
  known b w → jv_builds w !! cib_key b ≠ Some b → transitionToComplete j b image w = (o, w') →
  is_Ok o = false ∧ passing w w'.
Proof.
  intros Hk Hne [[Hp Hno]|(v & t & H)]%transition_over_; [done| |done].
  inversion H as [|? ? ? ? wa ? ? Ha Hl ? ? ?]; subst. destruct Hk as (w0 & Hw0 & Hb).
  destruct Hne. by apply (versions_gone w0 w wa); [|apply passing_before|..].
Qed.

(** C31: An edit of the resource strands its build.  The job moved the resource to
    the building state and the builder built and pushed the image; by then somebody
    has edited the resource, say its labels, or removed it, so that the server does
    not hold the version the job wrote.  Then the run fails and the job writes
    nothing any more: neither the images nor the failure are recorded, and a
    resource whose status was not edited is left in the building state. *)
Theorem edit_strands_build j w c w1 b w2 opts w3 image w4 o w' :
  let k := mkKey (j_namespace j) (j_name j) in
  fc_Get k w = (Ok c, w1) → transitionToBuilding j c w1 = (Ok b, w2) →
  generateBuildOptions b w2 = (Ok opts, w3) → bld_BuildAndPush opts w3 = (Ok image, w4) →
  jv_builds w4 !! k ≠ Some b →
  Run j w = (o, w') →
  is_Ok o = false ∧ passing w4 w' ∧
  ∀ edited, jv_builds w4 !! k = Some edited → cib_Status edited = cib_Status b →
    st_State (cib_Status edited) = BuildStateBuilding.
Proof.
  intros k Hget Hstart Hopts Hbuild Hne. unfold Run, bind at 1, wrapping. fold k.
  rewrite Hget. cbn [wrap_err]. rewrite (bind_run _ _ _ _ _ Hstart).
  unfold run_build, bind at 1, try at 1. rewrite Hopts. unfold bind at 1, try. rewrite Hbuild.
  intros Hrun. apply Get_during in Hget as [H1 Hc].
  destruct (Hc _ eq_refl) as (w0 & H01 & H02 & Hc0). pose proof (jv_keyed w0 _ _ Hc0) as Hkey.
  destruct (transitionToBuilding_known j c w1 b w2) as (Hk & Hkb & Hst); [|done|].
  { exists w0. rewrite Hkey. split; [by apply passing_before|done]. }
  rewrite Hkey in Hkb. rewrite <- Hkb in Hne.
  apply transitionToComplete_refused in Hrun as [Hno Hp]; [| |done].
  - split_and!; [done..|]. intros x _ Hx. by rewrite Hx.
  - apply (known_passing _ w2); [done|].
    etrans; [by eapply generateBuildOptions_during|by eapply BuildAndPush_during].
Qed.
End interleaved.

(** ** A server with a ledger *)

Module Ledger.
(** A write: a resource is stored, or removed. *)
Inductive write := Put (b : ContainerImageBuild) | Remove (k : NamespacedName).

(** The writes so far, the last one first, each with whether the job made it; what
    others will write before the next calls; the clock; and what the builder
    answers. *)
Record ledger := mkLedger {
  lg_writes : list (bool * write);
  lg_others : list (list write);
  lg_clock : Z;
  lg_builder : BuildOptions → outcome Image;
}.

(** The version of the [n]th write. *)
Fixpoint numbered (n : nat) : string :=
  match n with O => "" | S n => String "1" (numbered n) end.

(** The resources, each with the version of the write that stored it. *)
Fixpoint view (l : list (bool * write)) : gmap NamespacedName ContainerImageBuild :=
  match l with
  | [] => ∅
  | (_, Put b) :: l' => <[cib_key b := with_version (numbered (S (length l'))) b]> (view l')
  | (_, Remove k) :: l' => delete k (view l')
  end.

Definition wrote (mine : bool) (x : write) (w : ledger) : ledger :=
  mkLedger ((mine, x) :: lg_writes w) (lg_others w) (lg_clock w) (lg_builder w).

Definition interfere (w : ledger) : ledger :=
  match lg_others w with
  | [] => w
  | xs :: rest =>
      foldl (λ w x, wrote false x w) (mkLedger (lg_writes w) rest (lg_clock w) (lg_builder w)) xs
  end.

#[local] Instance ledger_clients : JobClients ledger := {|
  fc_Get k w0 :=
    let w := interfere w0 in
    (match view (lg_writes w) !! k with
     | Some c => Ok c
     | None => Err (not_found (nn_Name k))
     end, w);
  fc_UpdateStatus c w0 :=
    let w := interfere w0 in
    match view (lg_writes w) !! cib_key c with
    | Some old =>
        if bool_decide (accepts c old) then
          (Ok (put_status (numbered (S (length (lg_writes w)))) c old),
           wrote true (Put (put_status "" c old)) w)
        else (Err (conflict (cib_Name c)), w)
    | None => (Err (not_found (cib_Name c)), w)
    end;
  pr_Push u w := (Ok tt, w);
  bld_BuildAndPush opts w := (lg_builder w opts, interfere w);
  time_Now w := (Ok (lg_clock w), mkLedger (lg_writes w) (lg_others w) (lg_clock w + 1) (lg_builder w));
  log_Info s w := (Ok tt, w);
|}.

#[local] Instance ledger_host : JobHost ledger := {|
  jh_GetSecret ns n w := (Err (not_found n), w);
  jh_Stat p w := (Err (not_found p), w);
  jh_ReadFile p w := (Err (not_found p), w);
  jh_IsNotExist := IsNotFound;
  jh_range A m w := (Ok (map_to_list m), w);
|}.

Definition since (w w' : ledger) : Prop := lg_writes w `suffix_of` lg_writes w'.
Definition by_others (w w' : ledger) : Prop :=
  ∃ l, lg_writes w' = l ++ lg_writes w ∧ Forall (λ x : bool * write, x.1 = false) l.

#[local] Instance since_preorder : PreOrder since.
Proof.
  split; [intros w; unfold since; reflexivity|].
  intros x y z H1 H2. unfold since in *. etrans; [exact H1|exact H2].
Qed.

#[local] Instance by_others_preorder : PreOrder by_others.
Proof.
  split; [intros w; by exists []|]. intros x y z (l1 & E1 & F1) (l2 & E2 & F2).
  exists (l2 ++ l1). rewrite E2, E1, (assoc_L (++)). split; [done|by apply Forall_app].
Qed.

Lemma ledger_interfere_others w : by_others w (interfere w).
Proof.
  unfold interfere. destruct (lg_others w) as [|xs rest]; [done|].
  assert (by_others w (mkLedger (lg_writes w) rest (lg_clock w) (lg_builder w))) as H by (by exists []).
  revert H. generalize (mkLedger (lg_writes w) rest (lg_clock w) (lg_builder w)).
  induction xs as [|x xs IH]; intros w1 H1; [done|]. simpl. apply IH.
  etrans; [exact H1|]. exists [(false, x)]. by repeat constructor.
Qed.

(** A resource in view was stored by one write, whose number is its version. *)
Lemma view_written l k c :
  view l !! k = Some c →
  cib_key c = k ∧ ∃ l1 m b l2, l = l1 ++ (m, Put b) :: l2 ∧ c = with_version (numbered (S (length l2))) b.
Proof.
  induction l as [|[m [b|k']] l IH]; cbn [view]; [done|..].
  - intros [[<- <-]|[_ H]]%lookup_insert_Some; [split; [done|]; by exists [], m, b, l|].
    destruct (IH H) as (Hk & l1 & m' & b' & l2 & -> & ->). split; [done|]. by exists ((m, Put b) :: l1), m', b', l2.
  - intros [_ H]%lookup_delete_Some. destruct (IH H) as (Hk & l1 & m' & b' & l2 & -> & ->).
    split; [done|]. by exists ((m, Remove k') :: l1), m', b', l2.
Qed.

Lemma numbered_length n : String.length (numbered n) = n.
Proof. induction n as [|n IH]; [done|]. cbn. by rewrite IH. Qed.

Lemma numbered_inj n m : numbered n = numbered m → n = m.
Proof. intros H. by rewrite <- (numbered_length n), H, numbered_length. Qed.

Lemma version_once l l' k c c' :
  l `suffix_of` l' → view l !! k = Some c → view l' !! k = Some c' →
  cib_version c = cib_version c' → c' = c.
Proof.
  intros [l0 ->] (_ & l1 & m & b & l2 & -> & ->)%view_written
    (_ & l1' & m' & b' & l2' & E & ->)%view_written [= Hv].
  apply numbered_inj in Hv. rewrite (assoc_L (++)) in E.
  apply app_inj_2 in E as [_ [= -> -> ->]]; [done|]. simpl. lia.
Qed.

Lemma view_kept l0 l k c n :
  view (l0 ++ l) !! k = Some c → cib_version c = numbered n → n ≤ length l → view l !! k = Some c.
Proof.
  induction l0 as [|[m [b|k']] l0 IH]; cbn [view app]; [done|..].
  - intros [[<- <-]|[_ H]]%lookup_insert_Some; [|by apply IH].
    intros E%(numbered_inj (S (length (l0 ++ l)))). rewrite length_app in E. lia.
  - intros [_ H]%lookup_delete_Some. by apply IH.
Qed.

#[local] Instance ledger_server : SharedJobServer ledger.
Proof.
  refine {| jv_builds w := view (lg_writes w); passing := by_others; before := since |}.
  - intros w k c H. by apply view_written in H as [<- _].
  - intros w w' (l & E & _). by exists l.
  - intros w k c (_ & l1 & m & b & l2 & _ & ->)%view_written. done.
  - intros w w' k c c'. apply version_once.
  - intros w0 w w' k c [la Ha] [lb Hb] H0 Hc. rewrite Hb in Hc.
    destruct (view_written _ _ _ H0) as (_ & l1 & m & b & l2 & E & ->).
    eapply view_kept; [exact Hc|reflexivity|]. rewrite Ha, E, !length_app. simpl. lia.
  - intros k w o w' [= <- <-]. split; [apply ledger_interfere_others|]. intros c Hc. exists (interfere w).
    split_and!; [apply ledger_interfere_others|reflexivity|]. by destruct (view _ !! k); simplify_eq.
  - intros c w o w'. simpl. pose proof (ledger_interfere_others w) as Hi.
    destruct (view (lg_writes (interfere w)) !! cib_key c) as [old|] eqn:E;
      [|intros [= <- <-]; by left].
    case_bool_decide as Ha; intros [= <- <-]; [|by left].
    right. exists (interfere w), (wrote true (Put (put_status "" c old)) (interfere w)).
    exists (numbered (S (length (lg_writes (interfere w))))), old.
    split_and!; [done|done|done| |by exists [(true, Put (put_status "" c old))]|reflexivity|by intros c' [= <-]].
    simpl. apply view_written in E as [E _].
    change (cib_key (put_status "" c old)) with (cib_key old). by rewrite E.
  - by intros u w o w' [= _ <-].
  - intros opts w o w' [= <- <-]. apply ledger_interfere_others.
  - intros w o w' [= <- <-]. by exists [].
  - by intros s w o w' [= _ <-].
  - by intros ns n w o w' [= _ <-].
  - by intros p w o w' [= _ <-].
  - by intros p w o w' [= _ <-].
  - by intros A m w o w' [= _ <-].
Defined.

(** A build without registries of its own. *)
Definition spec (image : string) : ContainerImageBuildSpec :=
  mkSpec image "http://ctx" 0 ["reg.io"] [] [] ∅ "" "" no_resources 0 0 ∅ false false "" [].
Definition submitted : ContainerImageBuild :=
  mkBuild (mkObjectMeta "b" "ns" "1" "" "" None ∅ [] 1 None) (spec "img") (mkStatus "" "" [] 0 "" None None).
Definition job : Job := mkJob "b" "ns" true.
Definition image : Image := mkImage ["reg.io/img:latest"] 42.

Definition started (others : list (list write)) : ledger :=
  mkLedger [(false, Put submitted)] others 100 (λ _, Ok image).

(** Another build is submitted while the job fetches its own. *)
Definition busy : ledger :=
  started [[Put (mkBuild (mkObjectMeta "c" "ns" "2" "" "" None ∅ [] 2 None) (spec "other")
                   (mkStatus "" "" [] 0 "" None None))]].

Lemma Run_interleaved_witness :
  ∃ c hist, progress c hist ∧ overwrites (mkKey "ns" "b") c hist busy (Run job busy).2.
Proof.
  destruct (Run_interleaved job busy (Ok tt) (Run job busy).2) as [[_ H]|(c & hist & H1 & H2 & _)].
  - apply run_split. vm_compute. reflexivity.
  - discriminate H.
  - exists c, hist. split; [exact H1|exact H2].
Defined.

(** A user labels the resource while its image is being built: nothing before the
    fetch and the first update, and then the label. *)
Definition labelled : ContainerImageBuild :=
  mkBuild (mkObjectMeta "b" "ns" "1" "" "" (Some {["team" := "a"]}) ∅ [] 1 None) (spec "img")
    (cib_Status (building "" 100 submitted)).
Definition edited : ledger := started [[]; []; [Put labelled]].

(** The run, call by call. *)
Definition fetched : ledger := (fc_Get (mkKey "ns" "b") edited).2.
Definition under_way : outcome ContainerImageBuild * ledger :=
  transitionToBuilding job (with_version (numbered 1) submitted) fetched.
Definition pushed : ledger := (bld_BuildAndPush (build_options (spec "img") []) under_way.2).2.

Lemma edit_strands_build_witness :
  is_Ok (Run job edited).1 = false ∧ passing pushed (Run job edited).2 ∧
  jv_builds (Run job edited).2 !! mkKey "ns" "b" = Some (with_version (numbered 3) labelled).
Proof.
  destruct (edit_strands_build job edited (with_version (numbered 1) submitted) fetched
              (with_version (numbered 2) (building "" 100 submitted)) under_way.2
              (build_options (spec "img") []) under_way.2 image pushed (Run job edited).1 (Run job edited).2)
    as (H1 & H2 & _); [vm_compute; reflexivity..|vm_compute; discriminate|apply surjective_pairing|].
  split_and!; [exact H1|exact H2|vm_compute; reflexivity].
Defined.
End Ledger.
