(* ===== verification/Filepath.v ===== *)
(** * Filepath: what joining a name to a directory gives

    Lemmas on [filepath.Join] and [filepath.Clean] of package path/filepath: the
    components of a joined path, when it stays inside the directory and when it
    does not. *)
From stdpp Require Import gmap strings list.
From Stdlib Require Import Ascii.
From S2P Require Import Prelude GoStd.

(** ** Components *)

Lemma strings_Join_app l1 l2 sep :
  l1 ≠ [] → l2 ≠ [] →
  strings_Join (l1 ++ l2) sep = strings_Join l1 sep +:+ sep +:+ strings_Join l2 sep.
Proof.
  intros H1 H2. induction l1 as [|x l1 IH]; [done|].
  destruct l1 as [|y l1]; [by destruct l2|].
  change (strings_Join ((x :: y :: l1) ++ l2) sep)
    with (x +:+ sep +:+ strings_Join ((y :: l1) ++ l2) sep).
  rewrite IH by done. change (strings_Join (x :: y :: l1) sep)
    with (x +:+ sep +:+ strings_Join (y :: l1) sep).
  by rewrite !string_app_assoc.
Qed.

(** A component of a cleaned path. *)
Definition normal (c : string) : Prop :=
  c ≠ "" ∧ c ≠ "." ∧ c ≠ ".." ∧ slash ∉ chars c.

#[export] Instance normal_dec c : Decision (normal c).
Proof. unfold normal. apply _. Defined.

(** [p] is absolute and clean, with the components [cs]. *)
Definition normal_path (p : string) (cs : list string) : Prop :=
  cs ≠ [] ∧ Forall normal cs ∧ p = "/" +:+ strings_Join cs "/".

(** [p] is the directory [dir] or below it. *)
Definition under (dir p : string) : Prop := p = dir ∨ ∃ rest, p = dir +:+ "/" +:+ rest.

(** ** Names that stay inside *)

(** The components never climb above where they start. *)
Fixpoint stays (depth : nat) (comps : list string) : bool :=
  match comps with
  | [] => true
  | c :: rest =>
      if bool_decide (c = "" ∨ c = ".") then stays depth rest
      else if bool_decide (c = "..") then
        match depth with
        | O => false
        | S d => stays d rest
        end
      else stays (S depth) rest
  end.

Definition local (name : string) : bool := stays 0 (Split name slash).

Lemma clean_components_stays rooted comps s base :
  Forall (.≠ "..") s → stays (length s) comps = true →
  ∃ l, clean_components rooted (s ++ base) comps = rev base ++ l.
Proof.
  revert s. induction comps as [|c comps IH]; intros s Hs; simpl.
  { intros _. exists (rev s). by rewrite rev_app_distr. }
  case_bool_decide; [by apply IH|]. case_bool_decide as Hup.
  - destruct s as [|top s]; [done|]. simpl. inversion Hs; subst.
    rewrite bool_decide_eq_false_2 by done. by apply IH.
  - intros Hst. apply (IH (c :: s)); [by constructor|done].
Qed.

Lemma clean_components_normal cs stack comps :
  Forall normal cs →
  clean_components true stack (cs ++ comps) = clean_components true (rev cs ++ stack) comps.
Proof.
  intros Hcs. revert stack. induction Hcs as [|c cs (?&?&?&_) _ IH]; intros stack; [done|].
  simpl. rewrite !bool_decide_eq_false_2 by naive_solver. rewrite IH.
  by rewrite <- app_assoc.
Qed.

(** The components of a name joined to a clean directory. *)
Lemma Join_normal dir cs name :
  normal_path dir cs →
  filepath_Join [dir; name] =
  "/" +:+ strings_Join (clean_components true (rev cs) (Split name slash)) "/".
Proof.
  intros (Hne & Hcs & ->).
  change (filepath_Join ["/" +:+ strings_Join cs "/"; name]) with
    (Clean (String slash (strings_Join cs "/" +:+ String slash name))).
  unfold Clean. simpl IsAbs. cbv iota. cbn [Split].
  rewrite bool_decide_eq_true_2 by done. rewrite Split_app, Split_Join; [|done|].
  - simpl clean_components. rewrite clean_components_normal by done.
    by rewrite app_nil_r.
  - eapply Forall_impl; [exact Hcs|]. by intros ? (?&?&?&?).
Qed.

Lemma Join_under dir cs name :
  normal_path dir cs → local name = true → under dir (filepath_Join [dir; name]).
Proof.
  intros Hdir Hl. rewrite (Join_normal _ _ _ Hdir).
  destruct (clean_components_stays true (Split name slash) [] (rev cs)) as [l Hc]; [done..|].
  simpl in Hc. rewrite Hc, rev_involutive. destruct Hdir as (Hne & _ & ->).
  destruct l as [|x l]; [left; by rewrite app_nil_r|right].
  rewrite strings_Join_app by done. exists (strings_Join (x :: l) "/").
  by rewrite string_app_assoc.
Qed.

(** A name that starts with ".." leaves the directory. *)
Lemma Join_parent dir cs base x :
  Forall normal cs → normal base → normal x → dir = "/" +:+ strings_Join (cs ++ [base]) "/" →
  filepath_Join [dir; "../" +:+ x] = "/" +:+ strings_Join (cs ++ [x]) "/".
Proof.
  intros Hcs Hb Hx Hdir.
  assert (normal_path dir (cs ++ [base])) as Hn.
  { split_and!; [by destruct cs| |done]. apply Forall_app; auto. }
  rewrite (Join_normal _ _ _ Hn).
  change ("../" +:+ x) with (".." +:+ String slash x). rewrite Split_app.
  destruct Hx as (?&?&?&?). rewrite (Split_no_sep x) by done.
  change (Split ".." slash) with [".."]. rewrite rev_app_distr. simpl.
  destruct Hb as (?&?&?&?). rewrite (bool_decide_eq_false_2 (base = "..")) by done.
  rewrite !bool_decide_eq_false_2 by naive_solver. simpl. by rewrite rev_involutive.
Qed.

(** A path of one normal component below a directory. *)
Lemma Join_child dir cs x :
  normal_path dir cs → normal x → normal_path (filepath_Join [dir; x]) (cs ++ [x]).
Proof.
  intros Hdir Hx. split_and!; [by destruct cs|destruct Hdir as (_&?&_); apply Forall_app; auto|].
  rewrite (Join_normal _ _ _ Hdir). destruct Hx as (?&?&?&?). rewrite Split_no_sep by done.
  simpl. rewrite !bool_decide_eq_false_2 by naive_solver. simpl. by rewrite rev_involutive.
Qed.

(** ** Joins of segments *)

Lemma Split_Join_slash l :
  l ≠ [] → Forall (λ s, slash ∉ chars s) l → Split (strings_Join l "/") slash = l.
Proof. apply Split_Join. Qed.

(** An element of a join that is left out or a component of its own. *)
Definition segment (c : string) : Prop := c = "" ∨ normal c.

Lemma segment_no_slash c : segment c → slash ∉ chars c.
Proof. intros [->|(_&_&_&?)]; [by apply (bool_decide_unpack _)|done]. Qed.

Lemma clean_components_segments rooted stack cs comps :
  Forall segment cs →
  clean_components rooted stack (cs ++ comps)
  = clean_components rooted (rev (filter (.≠ "") cs) ++ stack) comps.
Proof.
  intros Hcs. revert stack. induction Hcs as [|c cs Hc _ IH]; intros stack; [done|].
  rewrite filter_cons. simpl. destruct Hc as [->|(?&?&?&_)].
  - rewrite bool_decide_eq_true_2 by auto. rewrite decide_False by auto. apply IH.
  - rewrite !bool_decide_eq_false_2 by naive_solver. rewrite decide_True by done. rewrite IH.
    simpl. by rewrite <- app_assoc.
Qed.

Lemma filter_normal cs : Forall normal cs → filter (.≠ "") cs = cs.
Proof. induction 1 as [|c cs (?&_) _ IH]; [done|]. by rewrite filter_cons, decide_True, IH. Qed.

Lemma strings_Join_concat yss sep :
  Forall (.≠ []) yss → strings_Join ((λ ys, strings_Join ys sep) <$> yss) sep = strings_Join (concat yss) sep.
Proof.
  induction 1 as [|ys yss Hy Hyss IH]; [done|]. destruct yss as [|zs yss].
  - simpl. by rewrite app_nil_r.
  - rewrite fmap_cons. change (concat (ys :: zs :: yss)) with (ys ++ concat (zs :: yss)).
    rewrite strings_Join_app, <- IH; [done|done|]. inversion Hyss; subst. by destruct zs.
Qed.

(** Elements of segments joined to a directory. *)
Lemma Join_segments dir cs yss :
  normal_path dir cs → Forall (.≠ []) yss → Forall segment (concat yss) →
  filepath_Join (dir :: ((λ ys, strings_Join ys "/") <$> yss))
  = "/" +:+ strings_Join (cs ++ filter (.≠ "") (concat yss)) "/".
Proof.
  intros (Hne & Hcs & ->) Hyss Hseg.
  assert ("/" +:+ strings_Join cs "/" = strings_Join ("" :: cs) "/") as E by (by destruct cs).
  assert (filepath_Join (("/" +:+ strings_Join cs "/") :: ((λ ys, strings_Join ys "/") <$> yss))
          = Clean (strings_Join (("" :: cs) ++ concat yss) "/")) as ->.
  { cbn [filepath_Join]. rewrite bool_decide_eq_false_2 by done. f_equal. rewrite E.
    change (strings_Join ("" :: cs) "/" :: ((λ ys, strings_Join ys "/") <$> yss))
      with ((λ ys, strings_Join ys "/") <$> (("" :: cs) :: yss)).
    rewrite strings_Join_concat; [done|]. by constructor. }
  assert (IsAbs (strings_Join (("" :: cs) ++ concat yss) "/") = true) as Habs by (by destruct cs).
  unfold Clean. rewrite Habs, Split_Join_slash; [|done|].
  - assert (clean_components true [] (("" :: cs) ++ concat yss)
            = cs ++ filter (.≠ "") (concat yss)) as ->; [|done].
    rewrite <- (app_nil_r (("" :: cs) ++ concat yss)), clean_components_segments.
    + cbn [clean_components]. rewrite app_nil_r, rev_involutive, filter_app, filter_cons.
      by rewrite decide_False, (filter_normal cs) by auto.
    + apply Forall_app. split; [constructor; [by left|]|done].
      eapply Forall_impl; [exact Hcs|]. by right.
  - apply Forall_app. split; [constructor|].
    + by apply (bool_decide_unpack _).
    + eapply Forall_impl; [exact Hcs|]. by intros ? (_&_&_&?).
    + eapply Forall_impl; [exact Hseg|]. apply segment_no_slash.
Qed.

Lemma normal_app dir cs xs :
  normal_path dir cs → Forall normal xs → normal_path ("/" +:+ strings_Join (cs ++ xs) "/") (cs ++ xs).
Proof.
  intros (Hne & Hcs & _) Hxs. split_and!; [by destruct cs|by apply Forall_app|done].
Qed.

(** Two components below a directory. *)
Lemma Join_grandchild dir cs x y :
  normal_path dir cs → normal x → normal y →
  normal_path (filepath_Join [dir; x; y]) (cs ++ [x; y]).
Proof.
  intros Hdir Hx Hy. assert (Forall normal [x; y]) as Hxy by (by constructor; [|apply Forall_singleton]).
  assert (filepath_Join [dir; x; y] = "/" +:+ strings_Join (cs ++ [x; y]) "/") as ->;
    [|by eapply normal_app].
  rewrite <- (filter_normal [x; y] Hxy) at 2.
  apply (Join_segments dir cs [[x]; [y]]); [done|by repeat constructor|].
  eapply Forall_impl; [exact Hxy|]. by right.
Qed.

(** A component and the components of a joined name below a directory; an empty
    last element changes nothing. *)
Lemma Join_name dir cs x subs :
  normal_path dir cs → normal x → Forall normal subs →
  normal_path (filepath_Join [dir; x; strings_Join subs "/"; ""]) (cs ++ x :: subs).
Proof.
  intros Hdir Hx Hs. assert (Forall normal (x :: subs)) as Hxs by (by constructor).
  assert (filepath_Join [dir; x; strings_Join subs "/"; ""]
          = "/" +:+ strings_Join (cs ++ x :: subs) "/") as ->; [|by eapply normal_app].
  set (ys := match subs with [] => [""] | _ => subs end).
  assert (strings_Join subs "/" = strings_Join ys "/") as -> by (by destruct subs).
  assert (x :: subs = filter (.≠ "") (x :: ys ++ [""])) as ->.
  { rewrite filter_cons, decide_True by apply Hx. rewrite filter_app, app_nil_r. f_equal.
    destruct subs; [done|]. by rewrite filter_normal. }
  apply (Join_segments dir cs [[x]; ys; [""]]); [done| |].
  - repeat constructor; try done. by destruct subs.
  - simpl. constructor; [by right|]. apply Forall_app. split; [|by apply Forall_singleton; left].
    destruct subs; [by apply Forall_singleton; left|]. eapply Forall_impl; [exact Hs|]. by right.
Qed.

(** Segments joined on their own. *)
Lemma Join_relative ys :
  Forall segment ys → filepath_Join ys = strings_Join (filter (.≠ "") ys) "/".
Proof.
  intros Hys. induction ys as [|c ys IH]; [done|].
  inversion Hys as [|? ? Hc Hys']; subst. cbn [filepath_Join]. rewrite filter_cons. case_bool_decide as E.
  - rewrite decide_False by auto. by apply IH.
  - rewrite decide_True by done. destruct Hc as [|Hc]; [done|].
    assert (IsAbs (strings_Join (c :: ys) "/") = false) as Habs.
    { destruct c as [|a c]; [done|]. destruct Hc as (_&_&_&Hs). simpl in Hs.
      assert (IsAbs (String a c) = false) as H by (apply bool_decide_eq_false_2; set_solver).
      by destruct ys. }
    unfold Clean. rewrite Habs, Split_Join_slash;
      [|done|eapply Forall_impl; [exact Hys|apply segment_no_slash]].
    rewrite <- (app_nil_r (c :: ys)), clean_components_segments by done.
    cbn [clean_components]. rewrite app_nil_r, rev_involutive, filter_cons, decide_True by done.
    done.
Qed.

(** ** Order of paths *)

Lemma slash_prefixes d q r r' :
  d +:+ "/" +:+ r = q +:+ "/" +:+ r' →
  d = q ∨ (∃ x, d = q +:+ "/" +:+ x) ∨ (∃ x, q = d +:+ "/" +:+ x).
Proof.
  revert q. induction d as [|a d IH]; intros [|b q]; rewrite ?string_app_cons; cbn.
  - by left.
  - intros [= <- _]. right; right. by exists q.
  - intros [= -> _]. right; left. by exists d.
  - intros [= -> H]. destruct (IH q H) as [->|[[x ->]|[x ->]]]; [by left|..].
    + right; left. by exists x.
    + right; right. by exists x.
Qed.

(** Two paths above a third one are ordered. *)
Lemma under_ordered d q t : under d t → under q t → under d q ∨ under q d.
Proof.
  intros [->|[r ->]] [E|[r' E]].
  - left. by left.
  - right. right. by exists r'.
  - subst. left. right. by exists r.
  - apply slash_prefixes in E as [->|[[x ->]|[x ->]]].
    + left. by left.
    + right. right. by exists x.
    + left. right. by exists x.
Qed.

Lemma Split_normal_path p cs : normal_path p cs → Split p slash = "" :: cs.
Proof.
  intros (Hne & Hcs & ->). change ("/" +:+ strings_Join cs "/") with (String slash (strings_Join cs "/")).
  cbn [Split]. rewrite bool_decide_eq_true_2 by done. rewrite Split_Join; [done..|].
  eapply Forall_impl; [exact Hcs|]. by intros ? (?&?&?&?).
Qed.

Lemma under_components d p cs cs' :
  normal_path d cs → normal_path p cs' → under d p → ∃ l, cs' = cs ++ l.
Proof.
  intros Hd Hp [->|[rest ->]]; apply Split_normal_path in Hd, Hp.
  - rewrite Hd in Hp. injection Hp as ->. exists []. by rewrite app_nil_r.
  - change (d +:+ "/" +:+ rest) with (d +:+ String slash rest) in Hp.
    rewrite Split_app, Hd in Hp. injection Hp as <-. eauto.
Qed.

(** ** Clean names *)

(** The absolute names [filepath.Clean] gives; each file has one of them. *)
Definition clean (p : string) : Prop :=
  ∃ cs, Forall normal cs ∧ p = "/" +:+ strings_Join cs "/".

Lemma Split_no_slash s c : Forall (λ x, c ∉ chars x) (Split s c).
Proof.
  induction s as [|a s IH]; simpl; [repeat constructor; set_solver|].
  case_bool_decide; [constructor; [set_solver|done]|].
  destruct IH; constructor; simpl; set_solver.
Qed.

Lemma clean_components_normals stack comps :
  Forall normal stack → Forall (λ x, slash ∉ chars x) comps →
  Forall normal (clean_components true stack comps).
Proof.
  intros Hst Hcs. revert stack Hst. induction Hcs as [|c comps Hc _ IH]; intros stack Hst; simpl.
  { by apply Forall_rev. }
  case_bool_decide as H1; [by apply IH|]. case_bool_decide as H2.
  - destruct stack as [|top stack]; [by apply IH|]. inversion Hst as [|? ? (?&?&?&?)]; subst.
    rewrite bool_decide_eq_false_2 by done. by apply IH.
  - apply IH. constructor; [|done]. unfold normal. naive_solver.
Qed.

Lemma normal_path_clean p cs : normal_path p cs → clean p.
Proof. intros (_ & ? & ?). by exists cs. Qed.

Lemma Join_clean dir cs name : normal_path dir cs → clean (filepath_Join [dir; name]).
Proof.
  intros Hd. rewrite (Join_normal _ _ _ Hd). eexists. split; [|done].
  apply clean_components_normals; [apply Forall_rev, Hd|apply Split_no_slash].
Qed.

#[export] Hint Resolve normal_path_clean Join_clean : forge.
