(* ===== verification/Archive.v ===== *)
(** * Archive: the build context

    [internal/archive/extract.go]: the context of a build is downloaded with
    retries, its type is detected, and it is unpacked below the working
    directory; with [internal/util/fileutils.go] and the backoff loop of
    [k8s.io/apimachinery/pkg/util/wait].  The operating system, the HTTP client
    and the decoders of the archive formats are parameters. *)
From stdpp Require Import gmap strings list pretty.
From Stdlib Require Import ZArith Ascii QArith Qround.
From S2P Require Import Prelude Go GoStd Filepath.
#[local] Close Scope Q_scope.
#[local] Open Scope forge_scope.

(** ** Responses, streams and entries *)

(** The bytes a reader gives, and the error after them if it is not the end. *)
Record stream := mkStream {
  st_data : string;
  st_err : option error;
}.

Record Response := mkResponse {
  resp_StatusCode : Z;
  resp_Body : stream;
}.

(** A failed [Get]; a [*url.Error] in its chain has the three properties that
    decide whether the request is retried. *)
Record urlError := mkUrlError {
  ue_Timeout : bool;
  ue_Temporary : bool;
  ue_OpError : bool;
}.

Record get_failure := mkGetFailure {
  gf_error : error;
  gf_urlError : option urlError;
}.

(** The type flags the extraction tells apart. *)
Inductive Typeflag := TypeDir | TypeReg | TypeOther.

Record Header := mkHeader {
  hd_Name : string;
  hd_Typeflag : Typeflag;
  hd_Mode : Z;
}.

(** An entry of an archive: its header and its data. *)
Record entry := mkEntry {
  en_Header :> Header;
  hd_Data : stream;
}.

Record Extraction := mkExtraction {
  ex_Archive : string;
  ex_ContentsDir : string;
}.

Definition mimeTypeTar : string := "application/x-tar".
Definition mimeTypeGzip : string := "application/gzip".

(** ** What the package calls *)

(** The context is given by its timeout; [ah_Copy] and [ah_CopyEntry] write at the
    start of a file that was just opened.  One archive is open at a time: [ah_Open]
    opens it for the reader of tar files, through that of gzip files when it is one;
    [ah_Next] goes on to the next header, which is none at the end; and
    [ah_CopyEntry] copies the data of the entry the reader is at. *)
Class ArchiveHost (W : Type) := {
  ah_Get : string → M W (get_failure + Response);
  ah_Sleep : Z → M W unit;
  ah_Float64 : M W Q;
  ah_ctx_Err : option Z → M W (option error);
  ah_Stat : string → M W bool;
  ah_MkdirAll : string → M W unit;
  ah_Create : string → M W unit;
  ah_OpenFile : string → Z → M W unit;
  ah_Copy : string → stream → M W unit;
  ah_ReadFile : string → M W string;
  ah_Open : string → bool → M W unit;
  ah_Next : M W (option Header);
  ah_CopyEntry : string → M W unit;
}.

(** [filetype.Match], [gzip.NewReader] and the entries of [tar.NewReader], with
    the error that ends them if it is not [io.EOF]. *)
Class Formats := {
  fm_Match : string → outcome string;
  fm_gzip : string → outcome stream;
  fm_tar : stream → list entry * option error;
}.

(** ** The backoff loop *)

(** [wait.Backoff] with an integral factor: the products are below [2^53], so
    the floating-point arithmetic is exact. *)
Record Backoff := mkBackoff {
  bo_Duration : Z;
  bo_Factor : Z;
  bo_Jitter : Q;
  bo_Steps : Z;
  bo_Cap : Z;
}.

Definition defaultBackoff : Backoff := mkBackoff Second 2 (1 # 10)%Q 10 (30 * Second).

(** The duration and the number of steps after a [Step]. *)
Definition next_backoff (b : Backoff) : Backoff :=
  if (bo_Steps b <? 1)%Z then b else
  let steps := (bo_Steps b - 1)%Z in
  if (bo_Factor b =? 0)%Z
  then mkBackoff (bo_Duration b) (bo_Factor b) (bo_Jitter b) steps (bo_Cap b)
  else
    let d := (bo_Duration b * bo_Factor b)%Z in
    if ((0 <? bo_Cap b) && (bo_Cap b <? d))%Z
    then mkBackoff (bo_Cap b) (bo_Factor b) (bo_Jitter b) 0 (bo_Cap b)
    else mkBackoff d (bo_Factor b) (bo_Jitter b) steps (bo_Cap b).

Definition ErrWaitTimeout : error := New "timed out waiting for the condition".

Section archive.
Context {W : Type} {AH : ArchiveHost W}.

(** [wait.Jitter], with the product of the random number, the factor and the
    duration before it is rounded to a floating-point number. *)
Definition Jitter (duration : Z) (maxFactor : Q) : M W Z :=
  let maxFactor := if Qle_bool maxFactor 0 then 1%Q else maxFactor in
  let! random := ah_Float64 in
  ret (duration + Qfloor (random * maxFactor * inject_Z duration))%Z.

(** [Backoff.Step]: the time to sleep and the next backoff. *)
Definition Step (b : Backoff) : M W (Z * Backoff) :=
  let! duration := (if Qle_bool (bo_Jitter b) 0 then ret (bo_Duration b)
                    else Jitter (bo_Duration b) (bo_Jitter b)) in
  ret (duration, next_backoff b).

(** Every round that goes on takes at least one of the steps. *)
Fixpoint backoff_loop (fuel : nat) (b : Backoff) (condition : M W bool) : M W unit :=
  match fuel with
  | O => throw ErrWaitTimeout
  | S fuel' =>
      if (bo_Steps b <=? 0)%Z then throw ErrWaitTimeout else
      let! ok := condition in
      if (ok : bool) then ret tt
      else if (bo_Steps b =? 1)%Z then throw ErrWaitTimeout
      else let! step := Step b in
           do! ah_Sleep step.1 in backoff_loop fuel' step.2 condition
  end.

Definition ExponentialBackoff (b : Backoff) (condition : M W bool) : M W unit :=
  backoff_loop (Z.to_nat (bo_Steps b)) b condition.

(** ** Download *)

Definition retryable (err : urlError) : bool :=
  ue_Timeout err || ue_Temporary err || ue_OpError err.

(** [downloadFile]: done, to be retried, or failed; a failed copy is done with
    an error, which its caller treats as a failure. *)
Definition downloadFile (fileUrl fp : string) : M W bool :=
  let! got := ah_Get fileUrl in
  match got with
  | inl failure =>
      match gf_urlError failure with
      | Some ue => if retryable ue then ret false else throw (gf_error failure)
      | None => throw (gf_error failure)
      end
  | inr resp =>
      if bool_decide (resp_StatusCode resp ∈ [502; 504; 503]%Z) then ret false
      else if (resp_StatusCode resp =? 200)%Z then
        do! ah_Create fp in
        do! ah_Copy fp (resp_Body resp) in
        ret true
      else throw (New ("file download failed with status " +:+ pretty (resp_StatusCode resp)))
  end.

(** The condition of the backoff loop. *)
Definition attempt (timeout : option Z) (url archive : string) : M W bool :=
  let! done := ah_ctx_Err timeout in
  match done with
  | Some err => throw err
  | None => downloadFile url archive
  end.

(** ** Detection and extraction *)

(** The first 512 bytes, filled up with zeros. *)
Definition head_buffer (content : string) : string :=
  String.substring 0 512 (content +:+ Repeat (String (ascii_of_nat 0) "") 512).

Definition getFileContentType {FM : Formats} (fp : string) : M W string :=
  let! content := ah_ReadFile fp in
  if bool_decide (content = "") then throw (New "EOF")
  else lift_outcome (fm_Match (head_buffer content)).

(** What the loop of [extract] does with a header. *)
Definition extract_entry (dst : string) (header : Header) : M W unit :=
  let target := filepath_Join [dst; hd_Name header] in
  match hd_Typeflag header with
  | TypeDir => ah_MkdirAll target
  | TypeReg =>
      do! ah_OpenFile target (hd_Mode header) in
      ah_CopyEntry target
  | TypeOther => ret tt
  end.

(** The loop reads on while it writes; a call with too little [fuel] panics. *)
Fixpoint extract_loop (fuel : nat) (dst : string) : M W unit :=
  match fuel with
  | O => panic "out of fuel"
  | S fuel' =>
      let! next := ah_Next in
      match next with
      | None => ret tt
      | Some header => do! extract_entry dst header in extract_loop fuel' dst
      end
  end.

Definition extract (fuel : nat) (fp ct dst : string) : M W unit :=
  do! ah_Open fp (bool_decide (ct = mimeTypeGzip)) in
  extract_loop fuel dst.

Definition AssertDir (path : string) : M W unit :=
  let! isDir := ah_Stat path in
  if (isDir : bool) then ret tt else throw (New (fmt_q path +:+ " is not a directory")).

Definition FetchAndExtract {FM : Formats} (fuel : nat) (url wd : string) (timeout : Z)
    : M W Extraction :=
  let ctx := if (0 <? timeout)%Z then Some timeout else None in
  let! dir := try (AssertDir wd) in
  match dir with
  | inl err => throw (wrapError "invalid build context directory" err)
  | inr _ =>
      let archive := filepath_Join [wd; "archive"] in
      do! ExponentialBackoff defaultBackoff (attempt ctx url archive) in
      let! ct := getFileContentType archive in
      if negb (bool_decide (ct = mimeTypeGzip)) && negb (bool_decide (ct = mimeTypeTar))
      then throw (New ("unsupported file type " +:+ fmt_q ct))
      else
        let dest := filepath_Join [wd; "extracted"] in
        do! ah_MkdirAll dest in
        do! extract fuel archive ct dest in
        ret (mkExtraction archive dest)
  end.
End archive.

(** The entries the readers give for the bytes of an archive. *)
Definition archive_entries {FM : Formats} (content : string) (gz : bool)
    : outcome (list entry * option error) :=
  let? r := (if gz then fm_gzip content else Ok (mkStream content None)) in
  Ok (fm_tar r).

(** ** The file system *)

Inductive node := Dir | File (content : string).

(** [data] written over the start of [old], which is not truncated. *)
Fixpoint overlay (data old : string) : string :=
  match data, old with
  | EmptyString, _ => old
  | String a data', EmptyString => data
  | String a data', String _ old' => String a (overlay data' old')
  end.

(** [p] is [q] or below it. *)
Definition above (q p : string) : Prop := q = "/" ∨ (q ≠ "" ∧ under q p).

(** What the operating system and the readers document of the calls, for a process
    that has the files to itself and makes no links: [ah_files] is the tree, by
    clean absolute names.  [ah_path] is the open archive, [ah_current] are the data
    of the entry its reader is at, and [ah_rest] is what the reader would still give
    with the file as it is: it stays the same as long as nothing is written to the
    file. *)
Class ArchiveFiles (W : Type) {AH : ArchiveHost W} {FM : Formats} := {
  ah_files : W → gmap string node;
  ah_path : W → string;
  ah_current : W → stream;
  ah_rest : W → list entry * option error;
  Get_files u w o w' : ah_Get u w = (o, w') → ah_files w' = ah_files w;
  Sleep_files d w o w' : ah_Sleep d w = (o, w') → ah_files w' = ah_files w;
  Float64_files w o w' : ah_Float64 w = (o, w') → ah_files w' = ah_files w;
  ctx_Err_files c w o w' : ah_ctx_Err c w = (o, w') → ah_files w' = ah_files w;
  Stat_files p w o w' : ah_Stat p w = (o, w') → ah_files w' = ah_files w;
  ReadFile_files p w o w' : ah_ReadFile p w = (o, w') → ah_files w' = ah_files w;
  ReadFile_content p w c w' :
    clean p → ah_ReadFile p w = (Ok c, w') → ah_files w !! p = Some (File c);
  MkdirAll_frame p w o w' q :
    clean p → ah_MkdirAll p w = (o, w') →
    ah_files w' !! q = ah_files w !! q ∨
    (above q p ∧ ah_files w !! q = None ∧ ah_files w' !! q = Some Dir);
  MkdirAll_reader p w o w' :
    ah_MkdirAll p w = (o, w') → ah_path w' = ah_path w ∧ ah_rest w' = ah_rest w;
  Create_frame p w o w' q :
    clean p → ah_Create p w = (o, w') → q ≠ p → ah_files w' !! q = ah_files w !! q;
  Create_empty p w w' :
    clean p → ah_Create p w = (Ok tt, w') → ah_files w' !! p = Some (File "");
  OpenFile_frame p m w o w' q :
    clean p → ah_OpenFile p m w = (o, w') → q ≠ p → ah_files w' !! q = ah_files w !! q;
  OpenFile_opens p m w w' :
    clean p → ah_OpenFile p m w = (Ok tt, w') →
    (ah_files w !! p = None ∧ ah_files w' !! p = Some (File "")) ∨
    (∃ c, ah_files w !! p = Some (File c) ∧ ah_files w' !! p = Some (File c));
  OpenFile_reader p m w o w' :
    ah_OpenFile p m w = (o, w') →
    ah_path w' = ah_path w ∧ ah_current w' = ah_current w ∧ ah_rest w' = ah_rest w;
  Copy_frame p s w o w' q :
    clean p → ah_Copy p s w = (o, w') → q ≠ p → ah_files w' !! q = ah_files w !! q;
  Copy_writes p s w w' old :
    clean p → ah_Copy p s w = (Ok tt, w') → ah_files w !! p = Some (File old) →
    st_err s = None ∧ ah_files w' !! p = Some (File (overlay (st_data s) old));
  Open_opens p gz w w' c :
    clean p → ah_Open p gz w = (Ok tt, w') → ah_files w !! p = Some (File c) →
    ah_path w' = p ∧ archive_entries c gz = Ok (ah_rest w');
  Open_files p gz w o w' : ah_Open p gz w = (o, w') → ah_files w' = ah_files w;
  Next_files w o w' : ah_Next w = (o, w') → ah_files w' = ah_files w ∧ ah_path w' = ah_path w;
  Next_gives w next w' :
    ah_Next w = (Ok next, w') →
    match ah_rest w with
    | ([], fin) => next = None ∧ fin = None
    | (e :: es, fin) =>
        next = Some (en_Header e) ∧ ah_current w' = hd_Data e ∧ ah_rest w' = (es, fin)
    end;
  CopyEntry_frame p w o w' q :
    clean p → ah_CopyEntry p w = (o, w') → q ≠ p → ah_files w' !! q = ah_files w !! q;
  CopyEntry_reader p w o w' :
    ah_CopyEntry p w = (o, w') →
    ah_path w' = ah_path w ∧ (p ≠ ah_path w → ah_rest w' = ah_rest w);
  CopyEntry_writes p w w' old :
    clean p → p ≠ ah_path w → ah_CopyEntry p w = (Ok tt, w') → ah_files w !! p = Some (File old) →
    st_err (ah_current w) = None ∧
    ah_files w' !! p = Some (File (overlay (st_data (ah_current w)) old));
}.

(** A file system and readers that do what they are asked for: the process may use
    the files, and nothing fails. *)
Class ArchiveProgress (W : Type) {AH : ArchiveHost W} {FM : Formats} {AF : ArchiveFiles W} := {
  calm : W → Prop;
  Open_calm p gz w c es :
    calm w → clean p → ah_files w !! p = Some (File c) → archive_entries c gz = Ok es →
    ∃ w', ah_Open p gz w = (Ok tt, w') ∧ calm w';
  Next_calm w :
    calm w → (ah_rest w).1 ≠ [] ∨ (ah_rest w).2 = None →
    ∃ next w', ah_Next w = (Ok next, w') ∧ calm w';
  OpenFile_calm d x m w :
    calm w → normal x → ah_files w !! d = Some Dir → ah_files w !! filepath_Join [d; x] ≠ Some Dir →
    ∃ w', ah_OpenFile (filepath_Join [d; x]) m w = (Ok tt, w') ∧ calm w';
  CopyEntry_calm p w old :
    calm w → clean p → ah_files w !! p = Some (File old) → st_err (ah_current w) = None →
    ∃ w', ah_CopyEntry p w = (Ok tt, w') ∧ calm w';
}.

(** What [time.Sleep] and [rand.Float64] document. *)
Class ArchiveTime (W : Type) {AH : ArchiveHost W} := {
  Sleep_returns d w o w' : ah_Sleep d w = (o, w') → o = Ok tt;
  Float64_range w o w' : ah_Float64 w = (o, w') → ∃ q, o = Ok q ∧ (0 <= q)%Q ∧ (q < 1)%Q;
}.

Lemma overlay_empty data : overlay data "" = data.
Proof. by destruct data. Qed.

Section retries.
Context {W : Type} {AH : ArchiveHost W} {AT : ArchiveTime W}.
Implicit Types (w : W).

(** ** Retries *)

(** Attempts in a row ask for a retry, with the sleeps [ts] after them: their
    durations start with [d] and double, each with the jitter of the backoff. *)
Inductive retried (condition : M W bool) : Z → list Z → W → W → Prop :=
| retried_nil d w : retried condition d [] w w
| retried_cons d t ts w w1 w2 w3 w4 :
    condition w = (Ok false, w1) → Jitter d (1 # 10)%Q w1 = (Ok t, w2) → ah_Sleep t w2 = (Ok tt, w3) →
    retried condition (d * 2) ts w3 w4 → retried condition d (t :: ts) w w4.

(** A sleep of [d], or up to a tenth longer. *)
Definition sleeps_for (d t : Z) : Prop := (d <= t <= d + d / 10)%Z.

Lemma Jitter_range d w o w' :
  (0 <= d)%Z → Jitter d (1 # 10)%Q w = (o, w') → ∃ t, o = Ok t ∧ sleeps_for d t.
Proof.
  intros Hd. unfold Jitter. cbn [Qle_bool Qnum Qden].
  destruct (ah_Float64 w) as [f w1] eqn:E. pose proof E as (q & -> & Hq0 & Hq1)%Float64_range.
  rewrite (bind_run _ _ _ _ _ E). intros [= <- <-]. eexists. split; [done|].
  assert (0 <= inject_Z d)%Q as Hd' by (by rewrite <- (Zle_Qle 0)).
  assert (0 <= q * (1 # 10) * inject_Z d)%Q as H0 by (apply Qmult_le_0_compat; [|done]; by apply Qmult_le_0_compat).
  assert (q * (1 # 10) * inject_Z d <= d # 10)%Q as H1.
  { assert (d # 10 == 1 * (1 # 10) * inject_Z d)%Q as -> by (unfold Qeq; simpl; lia).
    apply Qmult_le_compat_r; [|done]. apply Qmult_le_compat_r; [by apply Qlt_le_weak|done]. }
  apply Qfloor_resp_le in H0, H1. unfold sleeps_for. simpl in H0, H1. rewrite Z.div_1_r in H0. simpl in *. lia.
Qed.

(** One round of the loop: the condition decides, or the loop sleeps and goes on. *)
Lemma backoff_round fuel b condition w o w' :
  (1 < bo_Steps b)%Z → (0 <= bo_Duration b)%Z → bo_Jitter b = (1 # 10)%Q →
  backoff_loop (S fuel) b condition w = (o, w') →
  (∃ a, condition w = (a, w') ∧ a ≠ Ok false ∧ o = (let? _ := a in Ok tt)) ∨
  ∃ t w1 w2 w3, condition w = (Ok false, w1) ∧ Jitter (bo_Duration b) (1 # 10)%Q w1 = (Ok t, w2) ∧
    ah_Sleep t w2 = (Ok tt, w3) ∧ sleeps_for (bo_Duration b) t ∧
    backoff_loop fuel (next_backoff b) condition w3 = (o, w').
Proof.
  intros Hb Hd Hj. cbn [backoff_loop]. rewrite (proj2 (Z.leb_gt _ _)) by lia.
  unfold bind at 1. destruct (condition w) as [a w1] eqn:Hc.
  destruct a as [[]|e|m]; [intros [= <- <-]; left; by eexists| |intros [= <- <-]; left; by eexists..].
  rewrite (proj2 (Z.eqb_neq _ _)) by lia.
  destruct (Jitter (bo_Duration b) (1 # 10)%Q w1) as [j w2] eqn:Hjt.
  pose proof Hjt as (t & -> & Ht)%Jitter_range; [|done].
  assert (Step b w1 = (Ok (t, next_backoff b), w2)) as Hstep
    by (unfold Step; rewrite Hj; by rewrite (bind_run _ _ _ _ _ Hjt)).
  rewrite (bind_run _ _ _ _ _ Hstep). cbn [fst snd].
  destruct (ah_Sleep t w2) as [u w3] eqn:Hs. pose proof Hs as ->%Sleep_returns.
  rewrite (bind_run _ _ _ _ _ Hs).
  intros H. right. by exists t, w1, w2, w3.
Qed.

(** C29: The download is tried at most five times.  However a call of the loop ends,
    it made some attempts in a row that asked for a retry, each followed by a sleep:
    the sleeps are of 1, 2, 4, 8 and 16 seconds, each lengthened by up to a tenth.
    Either these are fewer than five, and the next attempt decided: its success,
    error or panic is the one of the loop; or they are five, and the loop timed out
    without a further attempt, although ten steps are configured, because the next
    sleep would exceed the cap. *)
Theorem download_retries condition w o w' :
  ExponentialBackoff defaultBackoff condition w = (o, w') →
  ∃ ts w1, retried condition Second ts w w1 ∧
    Forall2 sleeps_for (take (length ts) (Z.mul Second <$> [1; 2; 4; 8; 16]%Z)) ts ∧
    ((length ts < 5 ∧ ∃ a, condition w1 = (a, w') ∧ a ≠ Ok false ∧ o = (let? _ := a in Ok tt)) ∨
     (length ts = 5 ∧ w' = w1 ∧ o = Err ErrWaitTimeout)).
Proof.
  unfold ExponentialBackoff. change (Z.to_nat (bo_Steps defaultBackoff)) with 10.
  intros H.
  do 5 (apply backoff_round in H as [Ha|(? & ? & ? & ? & ? & ? & ? & ? & H)]; [..|done|done|done];
        [eexists _, _; split; [repeat (eapply retried_cons; [eassumption..|]); apply retried_nil|];
         split; [cbn [take length fmap list_fmap]; repeat (constructor; [assumption|]); constructor|]; left; split; [simpl; lia|exact Ha]|]).
  injection H as <- <-.
  eexists _, _. split; [repeat (eapply retried_cons; [eassumption..|]); apply retried_nil|].
  split; [cbn [take length fmap list_fmap]; repeat (constructor; [assumption|]); constructor|]. by right.
Qed.
End retries.

Section properties.
Context {W : Type} {AH : ArchiveHost W} {FM : Formats} {AF : ArchiveFiles W}.
Implicit Types (w : W) (e : entry).

(** ** What an entry does *)

Definition target (dst : string) (h : Header) : string := filepath_Join [dst; hd_Name h].

(** The entry [h] writes the file [p]. *)
Definition writes (dst p : string) (h : Header) : Prop :=
  hd_Typeflag h = TypeReg ∧ target dst h = p.

(** The reader gave the entries [es] and all of them were extracted. *)
Inductive unpacked (dst : string) : list entry → W → W → Prop :=
| unpacked_nil w : unpacked dst [] w w
| unpacked_cons h es w w1 w2 w3 :
    ah_Next w = (Ok (Some h), w1) → extract_entry dst h w1 = (Ok tt, w2) → unpacked dst es w2 w3 →
    unpacked dst (mkEntry h (ah_current w1) :: es) w w3.


Lemma unpacked_app_inv dst l1 l2 w w' :
  unpacked dst (l1 ++ l2) w w' → ∃ w1, unpacked dst l1 w w1 ∧ unpacked dst l2 w1 w'.
Proof.
  revert w. induction l1 as [|e l1 IH]; intros w; simpl; [intros H; exists w; split; [constructor|done]|].
  inversion 1 as [|h es ? w1 w2 ? Hn He Hr]; subst. destruct (IH w2 Hr) as (w4 & H1 & H2).
  exists w4. split; [by eapply unpacked_cons|done].
Qed.

(** The directories on the way to [dst] exist. *)
Definition rooted_at (dst : string) (w : W) : Prop :=
  ∀ q, above q dst → ¬ under dst q → ah_files w !! q = Some Dir.

(** Nothing outside [dst] changes, when the way to it exists. *)
Definition confined (dst : string) (w w' : W) : Prop :=
  rooted_at dst w → ∀ q, ¬ under dst q → ah_files w' !! q = ah_files w !! q.

#[local] Instance confined_preorder dst : PreOrder (confined dst).
Proof.
  split; [done|]. intros w1 w2 w3 H12 H23 Hr q Hq. rewrite H23; [by apply H12| |done].
  intros q' Ha Hq'. rewrite H12 by done. by apply Hr.
Qed.

(** An archive of the content [c] has only names that stay inside. *)
Definition local_archive (c : string) : Prop :=
  ∀ gz es, archive_entries c gz = Ok es → Forall (λ e : entry, local (hd_Name e) = true) es.1.

Section extraction.
Context (dst : string) (cs : list string) (Hdst : normal_path dst cs).
#[local] Notation target := (target dst).
#[local] Notation writes := (writes dst).

Lemma target_clean h : clean (target h).
Proof. eauto with forge. Qed.
#[local] Hint Resolve target_clean : forge.

(** An entry keeps every file that it does not write. *)
Lemma entry_frame h p w o w' :
  ¬ writes p h → extract_entry dst h w = (o, w') →
  ah_files w' !! p = ah_files w !! p ∨ (ah_files w !! p = None ∧ ah_files w' !! p = Some Dir).
Proof.
  intros Hne. unfold extract_entry. fold (target h). destruct (hd_Typeflag h) eqn:Ht.
  - intros H. destruct (MkdirAll_frame _ _ _ _ p (target_clean h) H) as [?|(_ & ? & ?)]; auto.
  - assert (p ≠ target h) as Hp by (intros ->; by apply Hne). intros H. left. revert H.
    intros [(u & w1 & H1 & H2)|[(e1 & H1 & _)|(m & H1 & _)]]%bind_inv;
      apply (OpenFile_frame _ _ _ _ _ p (target_clean h)) in H1; try done.
    apply (CopyEntry_frame _ _ _ _ p (target_clean h)) in H2; [congruence|done].
  - intros [= _ <-]. by left.
Qed.

(** An entry changes what is still to be read only when it writes the archive. *)
Lemma entry_reader h w o w' :
  extract_entry dst h w = (o, w') →
  ah_path w' = ah_path w ∧ (¬ writes (ah_path w) h → ah_rest w' = ah_rest w).
Proof.
  unfold extract_entry, writes. fold (target h). destruct (hd_Typeflag h) eqn:Ht.
  - intros [-> ->]%MkdirAll_reader. done.
  - intros [(u & w1 & H1 & H2)|[(e1 & H1 & _)|(m & H1 & _)]]%bind_inv;
      apply OpenFile_reader in H1 as (Hp & _ & Hr); [|done..].
    apply CopyEntry_reader in H2 as [Hp2 Hr2]. rewrite Hp in *. split; [done|].
    intros Hn. rewrite Hr2; [done|]. intros E. by apply Hn.
  - by intros [= _ <-].
Qed.

(** A regular file that could be extracted holds its data over what was
    there. *)
Lemma entry_writes h w w' :
  hd_Typeflag h = TypeReg → target h ≠ ah_path w → extract_entry dst h w = (Ok tt, w') →
  ∃ old, (ah_files w !! target h = Some (File old) ∨
          (ah_files w !! target h = None ∧ old = "")) ∧
    ah_files w' !! target h = Some (File (overlay (st_data (ah_current w)) old)).
Proof.
  intros Ht Hp. unfold extract_entry. rewrite Ht. fold (target h).
  intros ([] & w1 & H1 & H2)%bind_Ok_inv.
  pose proof (OpenFile_reader _ _ _ _ _ H1) as (Ep & Ec & _). rewrite <- Ep in Hp. rewrite <- Ec.
  apply (OpenFile_opens _ _ _ _ (target_clean h)) in H1 as [[Hn H1]|(c & Hc & H1)];
    destruct (CopyEntry_writes _ _ _ _ (target_clean h) Hp H2 H1); eauto.
Qed.

Lemma unpacked_path es w w' : unpacked dst es w w' → ah_path w' = ah_path w.
Proof.
  induction 1 as [|h es w w1 w2 w3 H1 H2 _ IH]; [done|].
  apply Next_files in H1 as [_ H1]. apply entry_reader in H2 as [H2 _]. congruence.
Qed.


Lemma unpacked_keep_file es p c w w' :
  unpacked dst es w w' → Forall (λ e : entry, ¬ writes p e) es →
  ah_files w !! p = Some (File c) → ah_files w' !! p = Some (File c).
Proof.
  induction 1 as [|h es w w1 w2 w3 H1 H2 _ IH]; [done|]. intros [Hh Hes]%Forall_cons Hc.
  apply Next_files in H1 as [H1 _]. apply (entry_frame _ p) in H2; [|done]. rewrite H1 in H2.
  apply IH; [done|]. destruct H2 as [H2|[? _]]; congruence.
Qed.

Lemma unpacked_no_file es p w w' :
  unpacked dst es w w' → Forall (λ e : entry, ¬ writes p e) es →
  (∀ c, ah_files w !! p ≠ Some (File c)) → ∀ c, ah_files w' !! p ≠ Some (File c).
Proof.
  induction 1 as [|h es w w1 w2 w3 H1 H2 _ IH]; [done|]. intros [Hh Hes]%Forall_cons Hc.
  apply Next_files in H1 as [H1 _]. apply (entry_frame _ p) in H2; [|done]. rewrite H1 in H2.
  apply IH; [done|]. intros c. destruct H2 as [->|[_ ->]]; [apply Hc|done].
Qed.

(** The entries [l1 ++ e :: l2], where [e] is the last that writes its file. *)
Lemma unpacked_write l1 e l2 w w' :
  unpacked dst (l1 ++ e :: l2) w w' →
  hd_Typeflag e = TypeReg → target e ≠ ah_path w →
  Forall (λ e' : entry, ¬ writes (target e) e') l2 →
  ∃ w1 old, unpacked dst l1 w w1 ∧
    (ah_files w1 !! target e = Some (File old) ∨
     (ah_files w1 !! target e = None ∧ old = "")) ∧
    ah_files w' !! target e = Some (File (overlay (st_data (hd_Data e)) old)).
Proof.
  intros (w1 & H1 & H2)%unpacked_app_inv Ht Hp Hl2. pose proof (unpacked_path _ _ _ H1) as E1.
  inversion H2 as [|h es ? w2 w3 ? Hn He Hr]; subst. cbn [en_Header] in *.
  apply Next_files in Hn as [En Ep].
  destruct (entry_writes h w2 w3) as (old & Hold & Hnew); [done|congruence|done|].
  rewrite En in Hold. exists w1, old. split_and!; [done..|]. by eapply unpacked_keep_file.
Qed.

Lemma unpacked_write_new l1 e l2 w w' :
  unpacked dst (l1 ++ e :: l2) w w' →
  hd_Typeflag e = TypeReg → target e ≠ ah_path w →
  Forall (λ e' : entry, ¬ writes (target e) e') l1 →
  Forall (λ e' : entry, ¬ writes (target e) e') l2 →
  (∀ c, ah_files w !! target e ≠ Some (File c)) →
  ah_files w' !! target e = Some (File (st_data (hd_Data e))).
Proof.
  intros H Ht Hp Hl1 Hl2 Hno.
  destruct (unpacked_write _ _ _ _ _ H Ht Hp Hl2) as (w1 & old & H1 & Hold & Hnew).
  pose proof (unpacked_no_file _ _ _ _ H1 Hl1 Hno) as Hno'.
  destruct Hold as [Hold|[_ ->]]; [by destruct (Hno' old)|]. by rewrite overlay_empty in Hnew.
Qed.

(** A loop with more fuel than there are entries does not run out of it. *)
Lemma extract_loop_fuel n m w :
  Forall (λ e : entry, ¬ writes (ah_path w) e) (ah_rest w).1 →
  length (ah_rest w).1 < n → n ≤ m → extract_loop n dst w = extract_loop m dst w.
Proof.
  revert m w. induction n as [|n IH]; intros [|m] w Hw Hn Hm; try lia. simpl.
  unfold bind at 1 3. destruct (ah_Next w) as [[[h|]|e|k] w1] eqn:E; try done.
  pose proof (Next_files _ _ _ E) as [_ E1]. apply Next_gives in E.
  destruct (ah_rest w) as [[|e rest] fin]; [by destruct E|]. destruct E as ([= ->] & _ & Er).
  apply Forall_cons in Hw as [He Hw]. unfold bind. destruct (extract_entry dst e w1) as [[[]| |] w2] eqn:E2; try done.
  apply entry_reader in E2 as [E2 Hr]. rewrite E1 in *. rewrite Er in Hr. simpl in Hn.
  apply IH; [|rewrite Hr by done; simpl; lia|lia]. rewrite Hr, E2 by done. done.
Qed.

(** ** Confinement *)

Lemma MkdirAll_confined p : clean p → under dst p → always (confined dst) (ah_MkdirAll p).
Proof.
  intros Hcl Hp w o w' H Hr q Hq.
  destruct (MkdirAll_frame _ _ _ _ q Hcl H) as [->|(Ha & Hn & _)]; [done|exfalso].
  enough (above q dst) as Ha' by (by rewrite (Hr q Ha' Hq) in Hn).
  destruct Ha as [->|[Hne Ha]]; [by left|right]. split; [done|].
  by destruct (under_ordered _ _ _ Hp Ha).
Qed.

Lemma extract_entry_confined h :
  local (hd_Name h) = true → always (confined dst) (extract_entry dst h).
Proof.
  intros Hl. pose proof (Join_under _ _ _ Hdst Hl) as Hu. pose proof (target_clean h) as Hcl.
  unfold extract_entry. fold (target h) in *.
  destruct (hd_Typeflag h); [by apply MkdirAll_confined| |apply always_ret, _].
  apply always_bind; [apply _|..].
  - intros w o w' H _ q Hq. eapply OpenFile_frame; [done|exact H|]. by intros ->.
  - intros _ w o w' H _ q Hq. eapply CopyEntry_frame; [done|exact H|]. by intros ->.
Qed.

Lemma same_confined w w' : ah_files w' = ah_files w → confined dst w w'.
Proof. intros E _ q _. by rewrite E. Qed.

Lemma extract_loop_confined fuel w o w' :
  ¬ under dst (ah_path w) → Forall (λ e : entry, local (hd_Name e) = true) (ah_rest w).1 →
  extract_loop fuel dst w = (o, w') → confined dst w w'.
Proof.
  revert w. induction fuel as [|fuel IH]; intros w Hp Hl; simpl; [by intros [= _ <-]|].
  intros [(next & w1 & H1 & H2)|[(e1 & H1 & _)|(m & H1 & _)]]%bind_inv;
    pose proof (Next_files _ _ _ H1) as [E1 Ep]; [|by apply same_confined..].
  etrans; [by apply same_confined|]. destruct next as [h|]; [|by injection H2 as _ <-].
  apply Next_gives in H1. destruct (ah_rest w) as [[|e rest] fin]; [by destruct H1|].
  destruct H1 as ([= ->] & _ & Er). apply Forall_cons in Hl as [He Hl].
  apply bind_inv in H2 as [([] & w2 & H2 & H3)|[(e1 & H2 & _)|(m & H2 & _)]];
    pose proof (extract_entry_confined _ He _ _ _ H2) as H12; [|done..].
  etrans; [exact H12|]. apply entry_reader in H2 as [Ep2 Hr]. rewrite Ep in *.
  apply (IH w2); [by rewrite Ep2|rewrite Hr, Er; [done|]|done].
  intros [_ E]. apply Hp. rewrite <- E. by eapply Join_under.
Qed.

Lemma extract_confined fuel fp ct c w o w' :
  clean fp → ¬ under dst fp → ah_files w !! fp = Some (File c) → local_archive c →
  extract fuel fp ct dst w = (o, w') → confined dst w w'.
Proof.
  intros Hcl Hfp Hf Hl. unfold extract.
  intros [([] & w1 & H1 & H2)|[(e1 & H1 & _)|(m & H1 & _)]]%bind_inv;
    pose proof (Open_files _ _ _ _ _ H1) as E; [|by apply same_confined..].
  destruct (Open_opens _ _ _ _ _ Hcl H1 Hf) as [Ep Hes]. etrans; [by apply same_confined|].
  eapply extract_loop_confined; [by rewrite Ep|by eapply Hl|done].
Qed.
End extraction.

(** ** The download *)

(** Only the file [p] may change. *)
Definition only (p : string) (w w' : W) : Prop :=
  ∀ q, q ≠ p → ah_files w' !! q = ah_files w !! q.

#[local] Instance only_preorder p : PreOrder (only p).
Proof. split; [done|]. intros w1 w2 w3 H12 H23 q Hq. by rewrite H23, H12. Qed.

Lemma same_only {A} p (c : M W A) :
  (∀ w o w', c w = (o, w') → ah_files w' = ah_files w) → always (only p) c.
Proof. intros H w o w' Hc q _. by rewrite (H _ _ _ Hc). Qed.

Lemma downloadFile_only url fp : clean fp → always (only fp) (downloadFile url fp).
Proof.
  intros Hcl. unfold downloadFile. apply always_bind; [apply _|apply same_only, Get_files|].
  intros [f|resp].
  - destruct (gf_urlError f) as [ue|]; [destruct (retryable ue)|]; eauto with forge.
  - repeat case_match; eauto with forge.
    apply always_bind; [apply _|intros w o w' Hw q; by apply (Create_frame _ _ _ _ _ Hcl Hw)|].
    intros _. apply always_bind; [apply _| |eauto with forge].
    intros w o w' Hw q. by apply (Copy_frame _ _ _ _ _ _ Hcl Hw).
Qed.

Lemma attempt_only ctx url fp : clean fp → always (only fp) (attempt ctx url fp).
Proof.
  intros Hcl. apply always_bind; [apply _|apply same_only, ctx_Err_files|].
  intros [e|]; [eauto with forge|by apply downloadFile_only].
Qed.

Lemma Step_always (R : relation W) `{!PreOrder R} b :
  always R ah_Float64 → always R (Step b).
Proof.
  intros Hf. unfold Step, Jitter. apply always_bind; [apply _| |intros; apply always_ret, _].
  case_match; [apply always_ret, _|]. apply always_bind; [apply _|done|]. intros. apply always_ret, _.
Qed.

Lemma backoff_always (R : relation W) `{!PreOrder R} fuel b condition :
  always R condition → (∀ d, always R (ah_Sleep d)) → always R ah_Float64 →
  always R (backoff_loop fuel b condition).
Proof.
  intros Hc Hs Hf. revert b. induction fuel as [|fuel IH]; intros b; [apply always_throw, _|].
  simpl. case_match; [apply always_throw, _|]. apply always_bind; [apply _|done|].
  intros []; [apply always_ret, _|]. case_match; [apply always_throw, _|].
  apply always_bind; [apply _|by apply Step_always|]. intros step.
  apply always_bind; [apply _|done|]. intros _. apply IH.
Qed.

(** A loop that succeeds ends with an attempt that was done. *)
Lemma backoff_Ok fuel b condition w w' :
  backoff_loop fuel b condition w = (Ok tt, w') → ∃ w1, condition w1 = (Ok true, w').
Proof.
  revert b w. induction fuel as [|fuel IH]; intros b w; simpl; [done|].
  case_match; [done|]. intros ([] & w1 & H1 & H2)%bind_Ok_inv.
  - injection H2 as <-. eauto.
  - revert H2. case_match; [done|].
    intros (step & w2 & _ & (? & w3 & _ & H2)%bind_Ok_inv)%bind_Ok_inv. by eapply IH.
Qed.

(** The server answers the URL with the content [c]. *)
Definition served (url c : string) : Prop :=
  ∃ w resp w', ah_Get url w = (Ok (inr resp), w') ∧ resp_StatusCode resp = 200%Z ∧
    resp_Body resp = mkStream c None.

Lemma attempt_done ctx url fp w w' :
  clean fp → attempt ctx url fp w = (Ok true, w') →
  ∃ c, served url c ∧ ah_files w' !! fp = Some (File c).
Proof.
  intros Hcl ([e|] & w1 & _ & H)%bind_Ok_inv; [done|].
  apply bind_Ok_inv in H as (got & w2 & Hg & H). destruct got as [f|resp].
  { by destruct (gf_urlError f) as [ue|]; [destruct (retryable ue)|]. }
  revert H. case_match; [done|]. destruct (Z.eqb_spec (resp_StatusCode resp) 200); [|done].
  intros ([] & w3 & H3 & ([] & w4 & H4 & [= <-])%bind_Ok_inv)%bind_Ok_inv.
  apply Create_empty in H3; [|done]. destruct (Copy_writes _ _ _ _ _ Hcl H4 H3) as [He Hf].
  rewrite overlay_empty in Hf. exists (st_data (resp_Body resp)). split; [|done].
  exists w1, resp, w2. split_and!; [done..|]. destruct (resp_Body resp). simpl in *. by subst.
Qed.

Lemma getFileContentType_inv fp c w o w' :
  clean fp → ah_files w !! fp = Some (File c) → getFileContentType fp w = (o, w') →
  ah_files w' = ah_files w ∧ ∀ ct, o = Ok ct → c ≠ "" ∧ fm_Match (head_buffer c) = Ok ct.
Proof.
  intros Hcl Hc. unfold getFileContentType.
  intros [(c' & w1 & H1 & H2)|[(e1 & H1 & ->)|(m & H1 & ->)]]%bind_inv;
    (split; [|intros ct Ho; try done]).
  2: { apply ReadFile_content in H1; [|done]. assert (c' = c) as -> by congruence. subst o.
       revert H2. case_bool_decide; [done|]. by intros [= -> _]. }
  1: apply ReadFile_files in H1; revert H2; by case_bool_decide; intros [= _ <-].
  all: by eapply ReadFile_files.
Qed.

(** ** The whole call *)

(** How far a call came: it ended with the download or the detection, or it
    has the archive of the server and went on to unpack it. *)
Lemma FetchAndExtract_stages fuel url wd cs timeout w o w' :
  normal_path wd cs → FetchAndExtract fuel url wd timeout w = (o, w') →
  let archive := filepath_Join [wd; "archive"] in
  let dest := filepath_Join [wd; "extracted"] in
  (only archive w w' ∧ is_Ok o = false) ∨
  ∃ c ct w1 om w2, served url c ∧ only archive w w1 ∧ ah_files w1 !! archive = Some (File c) ∧
    fm_Match (head_buffer c) = Ok ct ∧ (ct = mimeTypeGzip ∨ ct = mimeTypeTar) ∧
    ah_MkdirAll dest w1 = (om, w2) ∧
    match om with
    | Ok _ => ∃ oe, extract fuel archive ct dest w2 = (oe, w') ∧
                o = (let? _ := oe in Ok (mkExtraction archive dest))
    | _ => w' = w2 ∧ is_Ok o = false
    end.
Proof.
  intros Hwd H archive dest. unfold FetchAndExtract in H. fold archive dest in H.
  assert (clean archive) as Hcl by eauto with forge.
  set (ctx := if (0 <? timeout)%Z then _ else _) in H.
  assert (∀ A p (c : M W A) w o w', always (only p) c → c w = (o, w') → only p w w') as Hof
    by (intros; eauto).
  apply bind_inv in H as [(dir & w1 & H1 & H)|[(e & H1 & ->)|(m & H1 & ->)]].
  all: apply (Hof _ archive) in H1;
    [|apply always_try, always_bind; [apply _|apply same_only, Stat_files|];
      intros []; eauto with forge].
  2,3: by left.
  destruct dir as [e|?]; [injection H as <- <-; by left|].
  apply bind_inv in H as [([] & w2 & H2 & H)|[(e & H2 & ->)|(m & H2 & ->)]].
  all: apply (Hof _ archive) in H2 as H2';
    [|apply backoff_always; [apply _|by apply attempt_only|intros; apply same_only, Sleep_files|
                                  apply same_only, Float64_files]].
  2,3: left; split; [by transitivity w1|done].
  apply backoff_Ok in H2 as [w0 H2]. apply attempt_done in H2 as (c & Hc & Hf); [|done].
  assert (only archive w w2) as Hw2 by (by transitivity w1).
  apply bind_inv in H as [(ct & w3 & H3 & H)|[(e & H3 & ->)|(m & H3 & ->)]];
    destruct (getFileContentType_inv _ _ _ _ _ Hcl Hf H3) as [E Hct].
  2,3: left; split; [intros q Hq; rewrite E; by apply Hw2|done].
  assert (only archive w w3) as Hw3 by (intros q Hq; rewrite E; by apply Hw2).
  destruct (Hct ct eq_refl) as [_ Hm]. rewrite <- E in Hf.
  destruct (negb _ && negb _) eqn:Hsup; [injection H as <- <-; by left|].
  right. unfold bind at 1 in H. destruct (ah_MkdirAll dest w3) as [om w4] eqn:H4.
  exists c, ct, w3, om, w4. split_and!; [done..| |done|].
  - apply andb_false_iff in Hsup. rewrite !negb_false_iff, !bool_decide_eq_true in Hsup. done.
  - destruct om; [|by injection H as <- <-..].
    unfold bind in H. destruct (extract fuel archive ct dest w4) as [oe w5] eqn:H5.
    exists oe. by destruct oe; injection H as <- <-.
Qed.

(** Nothing but the working directory is above its child. *)
Lemma above_child wd cs x q :
  normal_path wd cs → normal x → above q (filepath_Join [wd; x]) →
  ¬ under (filepath_Join [wd; x]) q → above q wd.
Proof.
  intros Hwd Hx [->|[Hne Hq]] Hnu; [by left|right; split; [done|]].
  assert (filepath_Join [wd; x] = wd +:+ "/" +:+ x) as E.
  { destruct (Join_child _ _ _ Hwd Hx) as (_ & _ & ->). destruct Hwd as (? & _ & ->).
    rewrite strings_Join_app by done. by rewrite string_app_assoc. }
  rewrite E in *.
  destruct (under_ordered wd q _ (or_intror (ex_intro _ x eq_refl)) Hq) as [Hu|Hu]; [|done].
  destruct Hu as [->|[y ->]]; [by left|exfalso]. destruct Hq as [Hq|[r Hq]].
  - apply Hnu. by left.
  - rewrite !string_app_assoc in Hq. apply string_app_inj_l in Hq.
    apply string_app_inj_l in Hq. destruct Hx as (_&_&_&Hs). apply Hs.
    rewrite Hq, chars_app. change (chars ("/" +:+ r)) with (slash :: chars r). set_solver.
Qed.

(** ** Properties of the build context *)

Lemma normal_archive : normal "archive".
Proof. by apply (bool_decide_unpack _). Qed.
Lemma normal_extracted : normal "extracted".
Proof. by apply (bool_decide_unpack _). Qed.

(** A child of the working directory is not below another one. *)
Lemma sibling_outside wd cs x :
  normal_path wd cs → normal x → x ≠ "extracted" →
  ¬ under (filepath_Join [wd; "extracted"]) (filepath_Join [wd; x]).
Proof.
  intros Hwd Hx Hne Hu.
  pose proof (Join_child _ _ _ Hwd normal_extracted) as Hdest.
  pose proof (Join_child _ _ _ Hwd Hx) as Hp.
  apply (under_components _ _ _ _ Hdest Hp) in Hu as [l Hl].
  rewrite <- app_assoc in Hl. by apply app_inv_head in Hl as [= ?].
Qed.

(** C14: Safety.  When every archive the server may answer with has only names
    that do not climb out of it, a call changes, whatever its outcome and
    wherever it fails, nothing in the file system but the downloaded archive
    and what is below the contents directory. *)
Theorem FetchAndExtract_confined fuel url wd cs timeout w o w' :
  normal_path wd cs → (∀ q, above q wd → ah_files w !! q = Some Dir) →
  (∀ c, served url c → local_archive c) →
  FetchAndExtract fuel url wd timeout w = (o, w') →
  ∀ q, q ≠ filepath_Join [wd; "archive"] → ¬ under (filepath_Join [wd; "extracted"]) q →
  ah_files w' !! q = ah_files w !! q.
Proof.
  intros Hwd Hdirs Hl H q Hqa Hqd.
  pose proof (Join_child _ _ _ Hwd normal_archive) as Harch.
  pose proof (Join_child _ _ _ Hwd normal_extracted) as Hdest.
  destruct (FetchAndExtract_stages _ _ _ _ _ _ _ _ Hwd H)
    as [[Ho _]|(c & ct & w1 & om & w2 & Hc & Ho & Hf & _ & _ & Hm & Hend)]; [by apply Ho|].
  set (archive := filepath_Join [wd; "archive"]) in *.
  set (dest := filepath_Join [wd; "extracted"]) in *.
  assert (rooted_at dest w1) as Hr.
  { intros q' Ha Hq'. pose proof (above_child _ _ _ _ Hwd normal_extracted Ha Hq') as Ha'.
    rewrite Ho; [by apply Hdirs|]. intros ->. destruct Ha' as [E|[_ Hu]].
    - apply Split_normal_path in Harch. rewrite E in Harch. by destruct cs as [|? []].
    - apply (under_components _ _ _ _ Harch Hwd) in Hu as [l Hl'].
      apply (f_equal length) in Hl'. rewrite !length_app in Hl'. simpl in Hl'. lia. }
  assert (clean archive ∧ clean dest) as [Hca Hcd] by eauto with forge.
  pose proof (MkdirAll_confined dest dest Hcd (or_introl eq_refl) _ _ _ Hm) as H12.
  rewrite <- Ho by done. rewrite <- (H12 Hr q Hqd).
  assert (rooted_at dest w2) as Hr2.
  { intros q' Ha Hq'. rewrite (H12 Hr q' Hq'). by apply Hr. }
  assert (ah_files w2 !! archive = Some (File c)) as Hf2.
  { destruct (MkdirAll_frame _ _ _ _ archive Hcd Hm) as [->|(_ & E & _)]; congruence. }
  destruct om; [|by destruct Hend as [-> _]..]. destruct Hend as (oe & He & _).
  eapply (extract_confined _ _ Hdest _ _ _ _ _ _ _ Hca); [|exact Hf2|eauto..].
  by apply (sibling_outside wd cs "archive" Hwd normal_archive).
Qed.


(** An archive can have a file twice (a tar file that was appended to); the
    second one is written over the first without truncating it, so when it is
    shorter, the end of the first one stays. *)
Theorem extract_duplicate dst cs l1 e1 l2 e2 l3 w w' :
  normal_path dst cs →
  unpacked dst (l1 ++ e1 :: l2 ++ e2 :: l3) w w' → target dst e2 ≠ ah_path w →
  writes dst (target dst e2) e1 → hd_Typeflag e2 = TypeReg →
  Forall (λ e : entry, ¬ writes dst (target dst e2) e) (l1 ++ l2 ++ l3) →
  (∀ c, ah_files w !! target dst e2 ≠ Some (File c)) →
  ah_files w' !! target dst e2 =
    Some (File (overlay (st_data (hd_Data e2)) (st_data (hd_Data e1)))).
Proof.
  intros Hdst H Hp [Ht1 Htg] Ht2 Hl Hno.
  apply Forall_app in Hl as [Hl1 Hl]. apply Forall_app in Hl as [Hl2 Hl3].
  change (e1 :: l2 ++ e2 :: l3) with ((e1 :: l2) ++ e2 :: l3) in H. rewrite app_assoc in H.
  destruct (unpacked_write _ _ Hdst _ _ _ _ _ H Ht2 Hp Hl3) as (w1 & old & H1 & Hold & Hnew).
  rewrite <- Htg in Hl1, Hl2, Hno, Hp.
  pose proof (unpacked_write_new _ _ Hdst _ _ _ _ _ H1 Ht1 Hp Hl1 Hl2 Hno) as Hw1. rewrite Htg in Hw1.
  destruct Hold as [Hold|[Hold _]]; [|congruence]. rewrite Hnew. congruence.
Qed.

Context {AP : ArchiveProgress W}.

(** C37: An archive can write outside of the contents directory.  The downloaded
    archive has one entry, a regular file with the name [../x], where [x] is neither
    the archive nor the contents directory nor another directory, and the operating
    system does what it is asked for.  Then the extraction into the contents
    directory succeeds, and afterwards the file [x] beside this directory, which is
    not below it, holds the data of the entry, over what it held before. *)
Theorem extract_escapes wd cs x fuel ct c e w :
  let archive := filepath_Join [wd; "archive"] in
  let dest := filepath_Join [wd; "extracted"] in
  let p := filepath_Join [wd; x] in
  normal_path wd cs → normal x → x ≠ "extracted" → x ≠ "archive" → 2 ≤ fuel →
  calm w → ah_files w !! wd = Some Dir → ah_files w !! archive = Some (File c) →
  ah_files w !! p ≠ Some Dir →
  archive_entries c (bool_decide (ct = mimeTypeGzip)) = Ok ([e], None) →
  hd_Typeflag e = TypeReg → hd_Name e = "../" +:+ x → st_err (hd_Data e) = None →
  ¬ under dest p ∧
  ∃ w' old, extract fuel archive ct dest w = (Ok tt, w') ∧
    (ah_files w !! p = Some (File old) ∨ (ah_files w !! p = None ∧ old = "")) ∧
    ah_files w' !! p = Some (File (overlay (st_data (hd_Data e)) old)).
Proof.
  intros archive dest p Hwd Hx Hxe Hxa Hfuel Hw Hdir Hf Hnd Hes Ht Hname Herr.
  split; [by apply (sibling_outside _ cs)|].
  pose proof (Join_child _ _ _ Hwd normal_extracted) as Hdest. fold dest in Hdest.
  pose proof (Join_child _ _ _ Hwd Hx) as Hp. fold p in Hp.
  assert (clean archive ∧ clean p) as [Hca Hcp] by eauto with forge.
  assert (target dest e = p) as Etp.
  { unfold target. rewrite Hname. rewrite (Join_parent dest cs "extracted" x); [symmetry; apply Hp|apply Hwd|..].
    - apply normal_extracted.
    - done.
    - apply Hdest. }
  destruct (Open_calm archive _ w c _ Hw Hca Hf Hes) as (w1 & H1 & Hw1).
  pose proof (Open_files _ _ _ _ _ H1) as E1. destruct (Open_opens _ _ _ _ _ Hca H1 Hf) as [Ep1 Er1].
  rewrite Hes in Er1. injection Er1 as Er1.
  destruct (Next_calm w1 Hw1) as (next & w2 & H2 & Hw2); [rewrite <- Er1; by left|].
  pose proof (Next_files _ _ _ H2) as [E2 Ep2]. pose proof (Next_gives _ _ _ H2) as G2.
  rewrite <- Er1 in G2. destruct G2 as (-> & Ec & Er2).
  destruct (OpenFile_calm wd x (hd_Mode e) w2 Hw2 Hx) as (w3 & H3 & Hw3); [by rewrite E2, E1..|].
  fold p in H3.
  destruct (OpenFile_reader _ _ _ _ _ H3) as (Ep3 & Ec3 & Er3).
  assert (p ≠ ah_path w3) as Hpa.
  { rewrite Ep3, Ep2, Ep1. intros E.
    pose proof (Join_child _ _ _ Hwd normal_archive) as Ha. fold archive in Ha. rewrite <- E in Ha.
    destruct (under_components _ _ _ _ Hp Ha (or_introl eq_refl)) as [l Hl].
    rewrite <- app_assoc in Hl. by apply app_inv_head in Hl as [= ?]. }
  assert (∃ old, (ah_files w !! p = Some (File old) ∨ (ah_files w !! p = None ∧ old = "")) ∧
    ah_files w3 !! p = Some (File old)) as (old & Hold & Hold3).
  { rewrite <- E1, <- E2.
    apply (OpenFile_opens _ _ _ _ Hcp) in H3 as [[Hn H3]|(c' & Hc' & H3)]; eauto. }
  destruct (CopyEntry_calm p w3 old Hw3 Hcp Hold3) as (w4 & H4 & Hw4); [by rewrite Ec3, Ec|].
  destruct (CopyEntry_reader _ _ _ _ H4) as [_ Er4]. specialize (Er4 Hpa). rewrite Er3, Er2 in Er4.
  destruct (CopyEntry_writes _ _ _ _ Hcp Hpa H4 Hold3) as [_ Hnew].
  destruct (Next_calm w4 Hw4) as (next & w5 & H5 & Hw5); [rewrite Er4; by right|].
  pose proof (Next_files _ _ _ H5) as [E5 _]. pose proof (Next_gives _ _ _ H5) as G5.
  rewrite Er4 in G5. destruct G5 as [-> _].
  exists w5, old. split_and!; [|done|by rewrite E5, Hnew, Ec3, Ec].
  destruct fuel as [|[|fuel]]; [lia..|]. unfold extract.
  rewrite (bind_run _ _ _ _ _ H1). cbn [extract_loop]. rewrite (bind_run _ _ _ _ _ H2).
  assert (extract_entry dest e w2 = (Ok tt, w4)) as He.
  { unfold extract_entry. fold (target dest e). rewrite Ht, Etp. by rewrite (bind_run _ _ _ _ _ H3). }
  rewrite (bind_run _ _ _ _ _ He). by rewrite (bind_run _ _ _ _ _ H5).
Qed.
End properties.

(** ** A machine in memory *)

(** The archive that is open: its path, the data of the current entry, and what is
    still to be read. *)
Record reader := mkReader {
  rd_path : string;
  rd_current : stream;
  rd_rest : list entry * option error;
}.

(** A tree of files, a server that is unavailable for some requests before
    it answers with a page, and the open archive. *)
Record disk := mkDisk {
  dk_tree : gmap string node;
  dk_unavailable : nat;
  dk_reader : reader;
}.

(** The directories a name goes through, [acc] read so far. *)
Fixpoint dirs_of (acc s : string) : list string :=
  match s with
  | EmptyString => []
  | String a s' =>
      (if bool_decide (a = slash) then [acc] else []) ++ dirs_of (acc +:+ String a "") s'
  end.

Definition ancestors (p : string) : list string :=
  "/" :: List.filter (λ q, negb (bool_decide (q = ""))) (dirs_of "" p) ++ [p].

Definition add_dir (t : gmap string node) (q : string) : gmap string node :=
  match t !! q with
  | None => <[q := Dir]> t
  | Some _ => t
  end.

Definition is_file (n : option node) : bool :=
  match n with Some (File _) => true | _ => false end.

Definition set_tree (t : gmap string node) (d : disk) : disk :=
  mkDisk t (dk_unavailable d) (dk_reader d).
Definition set_reader (rd : reader) (d : disk) : disk := mkDisk (dk_tree d) (dk_unavailable d) rd.

Section disk.
Context (page : Response) {FM : Formats}.

#[local] Instance disk_host : ArchiveHost disk := {|
  ah_Get := λ url d,
    match dk_unavailable d with
    | O => (Ok (inr page), d)
    | S n => (Ok (inr (mkResponse 503 (mkStream "" None))), mkDisk (dk_tree d) n (dk_reader d))
    end;
  ah_Sleep := λ _, ret tt;
  ah_Float64 := ret (1 # 2)%Q;
  ah_ctx_Err := λ _, ret None;
  ah_Stat := λ p d,
    (match dk_tree d !! p with
     | Some Dir => Ok true
     | Some (File _) => Ok false
     | None => Err (New "no such file or directory")
     end, d);
  ah_MkdirAll := λ p d,
    if existsb (λ q, is_file (dk_tree d !! q)) (ancestors p)
    then (Err (New "not a directory"), d)
    else (Ok tt, set_tree (foldl add_dir (dk_tree d) (ancestors p)) d);
  ah_Create := λ p d,
    match dk_tree d !! p with
    | Some Dir => (Err (New "is a directory"), d)
    | _ => (Ok tt, set_tree (<[p := File ""]> (dk_tree d)) d)
    end;
  ah_OpenFile := λ p _ d,
    match dk_tree d !! p with
    | Some Dir => (Err (New "is a directory"), d)
    | Some (File _) => (Ok tt, d)
    | None => (Ok tt, set_tree (<[p := File ""]> (dk_tree d)) d)
    end;
  ah_Copy := λ p s d,
    match dk_tree d !! p with
    | Some (File old) =>
        (of_err (st_err s), set_tree (<[p := File (overlay (st_data s) old)]> (dk_tree d)) d)
    | _ => (Err (New "bad file descriptor"), d)
    end;
  ah_ReadFile := λ p d,
    (match dk_tree d !! p with
     | Some (File c) => Ok c
     | _ => Err (New "no such file")
     end, d);
  ah_Open := λ p gz d,
    match dk_tree d !! p with
    | Some (File c) =>
        match archive_entries c gz with
        | Ok es => (Ok tt, set_reader (mkReader p (mkStream "" None) es) d)
        | Err e => (Err e, d)
        | Panic m => (Panic m, d)
        end
    | _ => (Err (New "no such file"), d)
    end;
  ah_Next := λ d,
    match rd_rest (dk_reader d) with
    | ([], None) => (Ok None, d)
    | ([], Some err) => (Err err, d)
    | (e :: es, fin) =>
        (Ok (Some (en_Header e)),
         set_reader (mkReader (rd_path (dk_reader d)) (hd_Data e) (es, fin)) d)
    end;
  ah_CopyEntry := λ p d,
    let rd := dk_reader d in
    match dk_tree d !! p with
    | Some (File old) =>
        (of_err (st_err (rd_current rd)),
         set_reader (mkReader (rd_path rd) (rd_current rd)
                       (if bool_decide (p = rd_path rd) then ([], None) else rd_rest rd))
           (set_tree (<[p := File (overlay (st_data (rd_current rd)) old)]> (dk_tree d)) d))
    | _ => (Err (New "bad file descriptor"), d)
    end;
|}.

Lemma dirs_of_prefix acc s q : q ∈ dirs_of acc s → ∃ r, acc +:+ s = q +:+ "/" +:+ r.
Proof.
  revert acc. induction s as [|a s IH]; intros acc; simpl; [set_solver|].
  rewrite elem_of_app. intros [H|H].
  - case_bool_decide as Ha; [|set_solver]. apply list_elem_of_singleton in H. subst. by exists s.
  - destruct (IH _ H) as [r Hr]. exists r. rewrite <- Hr, string_app_assoc. done.
Qed.

Lemma ancestors_above p q : p ≠ "" → q ∈ ancestors p → above q p.
Proof.
  unfold ancestors. rewrite elem_of_cons, elem_of_app, list_elem_of_singleton.
  intros Hp [->|[H| ->]]; [by left| |right; split; [done|by left]].
  apply list_elem_of_In, filter_In in H as [H Hq]. apply list_elem_of_In, dirs_of_prefix in H as [r Hr].
  right. split; [by destruct (bool_decide_reflect (q = ""))|]. right. by exists r.
Qed.

Lemma add_dirs_lookup l t q :
  foldl add_dir t l !! q = t !! q ∨
  (q ∈ l ∧ t !! q = None ∧ foldl add_dir t l !! q = Some Dir).
Proof.
  revert t. induction l as [|x l IH]; intros t; simpl; [by left|].
  assert (add_dir t x !! q = t !! q ∨ (q = x ∧ t !! q = None ∧ add_dir t x !! q = Some Dir)) as Ht.
  { unfold add_dir. destruct (t !! x) eqn:Hx; [by left|].
    destruct (decide (q = x)) as [->|]; [right|left; by rewrite lookup_insert_ne].
    by rewrite lookup_insert_eq. }
  destruct (IH (add_dir t x)) as [E|(Hq & Hn & E)], Ht as [E'|(-> & Hn' & E')];
    rewrite E; [left; congruence|right; rewrite elem_of_cons; split_and!; auto; congruence..].
Qed.

#[local] Instance disk_files : ArchiveFiles disk.
Proof.
  refine {| ah_files := dk_tree; ah_path d := rd_path (dk_reader d);
            ah_current d := rd_current (dk_reader d); ah_rest d := rd_rest (dk_reader d) |}; simpl.
  - intros u w o w'. by destruct (dk_unavailable w); intros [= _ <-].
  - by intros d w o w' [= _ <-].
  - by intros w o w' [= _ <-].
  - by intros c w o w' [= _ <-].
  - by intros p w o w' [= _ <-].
  - by intros p w o w' [= _ <-].
  - intros p w c w' _. destruct (dk_tree w !! p) as [[]|]; intros [= -> _]; done.
  - intros p w o w' q [cs [_ ->]]. case_match; intros [= _ <-]; [by left|]. simpl.
    destruct (add_dirs_lookup (ancestors ("/" +:+ strings_Join cs "/")) (dk_tree w) q)
      as [E|(Hq & Hn & Hd)]; [left; exact E|right].
    split; [by apply ancestors_above|split; [exact Hn|exact Hd]].
  - intros p w o w'. case_match; by intros [= _ <-].
  - intros p w o w' q _. repeat case_match; intros [= _ <-] Hq; simpl; try done;
      by rewrite lookup_insert_ne.
  - intros p w w' _. repeat case_match; intros [= <-]; simpl; by rewrite lookup_insert_eq.
  - intros p m w o w' q _. repeat case_match; intros [= _ <-] Hq; simpl; try done;
      by rewrite lookup_insert_ne.
  - intros p m w w' _. repeat case_match; intros [= <-]; simpl; [right; eauto|left].
    by rewrite lookup_insert_eq.
  - intros p m w o w'. repeat case_match; by intros [= _ <-].
  - intros p s w o w' q _. repeat case_match; intros [= _ <-] Hq; simpl; try done;
      by rewrite lookup_insert_ne.
  - intros p s w w' old _ Hc Hold. rewrite Hold in Hc. destruct (st_err s); [done|].
    injection Hc as <-. split; [done|]. apply lookup_insert_eq.
  - intros p gz w w' c _ H Hc. rewrite Hc in H. destruct (archive_entries c gz); [|done..].
    by injection H as <-.
  - intros p gz w o w'. repeat case_match; by intros [= _ <-].
  - intros w o w'. destruct (rd_rest (dk_reader w)) as [[|e es] [err|]]; by intros [= _ <-].
  - intros w next w'. destruct (rd_rest (dk_reader w)) as [[|e es] [err|]]; by intros [= <- <-].
  - intros p w o w' q _. repeat case_match; intros [= _ <-] Hq; simpl; try done;
      by rewrite lookup_insert_ne.
  - intros p w o w'. destruct (dk_tree w !! p) as [[|old]|]; intros [= _ <-]; simpl; try done.
    split; [done|]. intros Hne. by rewrite bool_decide_eq_false_2.
  - intros p w w' old _ _ Hc Hold. rewrite Hold in Hc. destruct (st_err (rd_current (dk_reader w))); [done|].
    injection Hc as <-. split; [done|]. apply lookup_insert_eq.
Defined.

#[local] Instance disk_progress : ArchiveProgress disk.
Proof.
  refine {| calm _ := True |}; simpl.
  - intros p gz w c es _ _ -> ->. by eexists.
  - intros w _. destruct (rd_rest (dk_reader w)) as [[|e es] [err|]]; simpl;
      [intros [?|?]; done|by eexists _, _..].
  - intros d x m w _ _ _ Hd. destruct (dk_tree w !! _) as [[]|]; [by destruct Hd|by eexists..].
  - intros p w old _ _ -> ->. by eexists.
Defined.

#[local] Instance disk_time : ArchiveTime disk.
Proof.
  split; simpl.
  - by intros d w o w' [= <- _].
  - intros w o w' [= <- _]. by exists (1 # 2)%Q.
Defined.
End disk.

Lemma dirs_of_complete acc q r : acc +:+ q ∈ dirs_of acc (q +:+ "/" +:+ r).
Proof.
  revert acc. induction q as [|a q IH]; intros acc.
  - rewrite string_app_nil_r. change ("" +:+ "/" +:+ r) with (String slash r). simpl.
    apply elem_of_cons. by left.
  - rewrite string_app_cons. simpl. rewrite elem_of_app. right.
    specialize (IH (acc +:+ String a "")). by rewrite string_app_assoc in IH.
Qed.

Lemma above_ancestors p q : above q p → q ∈ ancestors p.
Proof.
  unfold ancestors. rewrite elem_of_cons, elem_of_app, list_elem_of_singleton.
  intros [->|[Hne [->|[r ->]]]]; [by left|by right; right|right; left].
  apply list_elem_of_In, filter_In. split; [|by rewrite bool_decide_eq_false_2].
  apply list_elem_of_In. apply (dirs_of_complete "" q r).
Qed.

Module ArchiveSample.
Definition page : Response := mkResponse 200 (mkStream "tarball" None).

Definition reg (name data : string) : entry :=
  mkEntry (mkHeader name TypeReg 420) (mkStream data None).

(** A format in which the archive has the entries [es]. *)
Definition formats (es : list entry) : Formats := {|
  fm_Match := λ _, Ok mimeTypeTar;
  fm_gzip := λ s, Ok (mkStream s None);
  fm_tar := λ _, (es, None);
|}.

Definition wd : string := "/mnt/ctx".
Definition closed : reader := mkReader "" (mkStream "" None) ([], None).
Definition start : disk := mkDisk {["/" := Dir; "/mnt" := Dir; "/mnt/ctx" := Dir]} 2 closed.
Definition src_dir : entry := mkEntry (mkHeader "src" TypeDir 493) (mkStream "" None).
Definition app : list entry := [src_dir; reg "Dockerfile" "FROM a"; reg "src/../app.py" "run"].

#[local] Instance app_formats : Formats := formats app.
#[local] Instance app_host : ArchiveHost disk := disk_host page.
#[local] Instance app_files : ArchiveFiles disk := disk_files page.

Lemma wd_normal : normal_path wd ["mnt"; "ctx"].
Proof.
  split_and!; [done| |done]. by apply (bool_decide_unpack _).
Qed.

Definition condition : M disk bool := attempt None "http://s" "/mnt/ctx/archive".

(** Two answers ask for a retry, the third one is downloaded. *)
Lemma download_retries_witness :
  ∃ ts w1, retried condition Second ts start w1 ∧ length ts = 2 ∧ condition w1 =
    (Ok true, mkDisk (<["/mnt/ctx/archive" := File "tarball"]> (dk_tree start)) 0 closed).
Proof.
  destruct (download_retries (AT:=disk_time page) condition start (Ok tt)
              (ExponentialBackoff defaultBackoff condition start).2)
    as (ts & w1 & Hr & Hs & Hend); [apply run_split; vm_compute; reflexivity|].
  assert (ts = [1050000000; 2100000000]%Z ∧ w1 = mkDisk (dk_tree start) 0 closed) as [-> ->].
  { inversion Hr as [|? ? ? ? ? ? ? ? Hc Hj Hsl Hr1]; subst.
    { destruct Hend as [[_ (a & Ha & Hne & _)]|[? _]]; [|discriminate].
      exfalso. apply Hne. exact (eq_sym (f_equal fst Ha)). }
    apply (f_equal snd) in Hc. vm_compute in Hc. subst. injection Hj as <- <-. injection Hsl as <-.
    inversion Hr1 as [|? ? ? ? ? ? ? ? Hc Hj Hsl Hr2]; subst.
    { destruct Hend as [[_ (a & Ha & Hne & _)]|[? _]]; [|discriminate].
      exfalso. apply Hne. exact (eq_sym (f_equal fst Ha)). }
    apply (f_equal snd) in Hc. vm_compute in Hc. subst. injection Hj as <- <-. injection Hsl as <-.
    inversion Hr2 as [|? ? ? ? ? ? ? ? Hc Hj Hsl Hr3]; subst; [split; reflexivity|].
    exfalso. apply (f_equal fst) in Hc. vm_compute in Hc. discriminate. }
  eexists _, _. split; [exact Hr|]. split; [reflexivity|]. vm_compute. reflexivity.
Defined.

Lemma FetchAndExtract_confined_witness :
  is_Ok (FetchAndExtract 4 "http://s" wd 0 start).1 = true ∧
  ah_files (FetchAndExtract 4 "http://s" wd 0 start).2 !! "/mnt/secret" = None.
Proof.
  split; [vm_compute; reflexivity|].
  refine (FetchAndExtract_confined 4 "http://s" wd ["mnt"; "ctx"] 0 start _ _
            wd_normal _ _ (surjective_pairing _) "/mnt/secret" _ _).
  - intros q Hq%above_ancestors. revert q Hq. apply Forall_forall. repeat constructor.
  - intros c _ [] es [= <-]; repeat constructor.
  - discriminate.
  - vm_compute. intros [?|[r ?]]; discriminate.
Defined.


(** The archive writes a file beside the contents directory. *)
Definition evil : list entry := [reg "../x" "evil"].
Definition downloaded : disk :=
  mkDisk (<["/mnt/ctx/archive" := File "tarball"]> (dk_tree start)) 0 closed.

Lemma extract_escapes_witness :
  ∃ w' old,
    extract (AH:=disk_host (FM:=formats evil) page) 2 (filepath_Join [wd; "archive"]) mimeTypeTar
      (filepath_Join [wd; "extracted"]) downloaded = (Ok tt, w') ∧
    dk_tree w' !! "/mnt/ctx/x" = Some (File (overlay "evil" old)).
Proof.
  destruct (extract_escapes (FM:=formats evil) (AH:=disk_host (FM:=formats evil) page)
              (AF:=disk_files (FM:=formats evil) page) (AP:=disk_progress (FM:=formats evil) page)
              wd ["mnt"; "ctx"] "x" 2 mimeTypeTar "tarball" (reg "../x" "evil") downloaded)
    as (_ & w' & old & H & _ & Hf); try done.
  - exact wd_normal.
  - by apply (bool_decide_unpack _).
  - exists w', old. split; [exact H|exact Hf].
Defined.

(** The second copy is shorter; the end of the first one stays. *)
Example duplicate :
  let fm := formats [reg "app.py" "print(2)"; reg "app.py" "exit"] in
  dk_tree (FetchAndExtract (AH:=disk_host (FM:=fm) page) (FM:=fm) 3 "http://s" wd 0 start).2
    !! "/mnt/ctx/extracted/app.py" = Some (File "exitt(2)").
Proof. vm_compute. reflexivity. Qed.
End ArchiveSample.
