(* ===== verification/Regexp.v ===== *)
(** * Regexp: the regular expressions of the source

    Package regexp on ASCII text, for the operators the source uses: classes,
    literals, greedy repetition of a class, options, alternatives and the start
    anchor.  A match is the one of the Go package: leftmost, and among the
    matches from there the first one in the order of the alternatives, with
    greedy repetitions. *)
From stdpp Require Import gmap strings list.
From Stdlib Require Import Ascii.
From S2P Require Import Prelude GoStd.

Inductive regexp :=
| Class (p : ascii → bool)
| Lit (s : string)
| Many (p : ascii → bool)
| Opt (e : regexp)
| Seq (e1 e2 : regexp)
| Alt (e1 e2 : regexp).

(** The rests of [s] after a literal prefix. *)
Fixpoint strip (p s : string) : list string :=
  match p, s with
  | EmptyString, _ => [s]
  | String a p', String b s' => if bool_decide (a = b) then strip p' s' else []
  | String _ _, EmptyString => []
  end.

(** The rests after a greedy repetition, the longest repetition first. *)
Fixpoint many (p : ascii → bool) (s : string) : list string :=
  match s with
  | EmptyString => [""]
  | String a s' => (if p a then many p s' else []) ++ [s]
  end.

(** The rests of [s] after a match at its start, in the order of preference. *)
Fixpoint rests (e : regexp) (s : string) : list string :=
  match e with
  | Class p => match s with
               | String a s' => if p a then [s'] else []
               | EmptyString => []
               end
  | Lit l => strip l s
  | Many p => many p s
  | Opt e => rests e s ++ [s]
  | Seq e1 e2 => flat_map (rests e2) (rests e1 s)
  | Alt e1 e2 => rests e1 s ++ rests e2 s
  end.

(** A pattern, with or without the start anchor. *)
Record pattern := mkPattern {
  pt_anchored : bool;
  pt_body : regexp;
}.

(** [Regexp.MatchString]. *)
Fixpoint match_anywhere (e : regexp) (s : string) : bool :=
  match rests e s with
  | _ :: _ => true
  | [] => match s with
          | EmptyString => false
          | String _ s' => match_anywhere e s'
          end
  end.

Definition MatchString (p : pattern) (s : string) : bool :=
  if pt_anchored p then negb (bool_decide (rests (pt_body p) s = []))
  else match_anywhere (pt_body p) s.

(** The part of [s] before its suffix [r]. *)
Definition before (s r : string) : string :=
  String.substring 0 (String.length s - String.length r) s.

(** [Regexp.FindAllString] with no limit, for a pattern without an anchor that
    matches no empty text; every round uses at least one byte. *)
Fixpoint find_all (fuel : nat) (e : regexp) (s : string) : list string :=
  match fuel with
  | O => []
  | S fuel' =>
      match rests e s with
      | r :: _ => before s r :: find_all fuel' e r
      | [] => match s with
              | EmptyString => []
              | String _ s' => find_all fuel' e s'
              end
      end
  end.

Definition FindAllString (e : regexp) (s : string) : list string :=
  find_all (S (String.length s)) e s.

(** ** Classes *)

Definition in_range (lo hi : ascii) (a : ascii) : bool :=
  ((N_of_ascii lo <=? N_of_ascii a) && (N_of_ascii a <=? N_of_ascii hi))%N.

Definition is_alnum (a : ascii) : bool :=
  in_range "a" "z" a || in_range "A" "Z" a || in_range "0" "9" a.

(** Any byte but the line feed. *)
Definition dot (a : ascii) : bool := negb (bool_decide (a = ascii_of_nat 10)).

(** ** Reasoning about matches *)

Lemma strip_app l s : strip l (l +:+ s) = [s].
Proof.
  induction l as [|a l IH]; [by destruct s|]. rewrite string_app_cons. simpl.
  by rewrite bool_decide_eq_true_2.
Qed.

Lemma strip_short l s : String.length s < String.length l → strip l s = [].
Proof.
  revert s. induction l as [|a l IH]; intros s; simpl; [lia|].
  destruct s as [|b s]; simpl; [done|]. intros H. case_bool_decide; [|done]. apply IH. lia.
Qed.

Lemma strip_inv l s r : r ∈ strip l s → s = l +:+ r.
Proof.
  revert s. induction l as [|a l IH]; intros s; simpl.
  - intros ->%list_elem_of_singleton. done.
  - destruct s as [|b s]; [by intros ?%not_elem_of_nil|]. case_bool_decide as E; [|by intros ?%not_elem_of_nil].
    intros H%IH. subst. done.
Qed.

(** A repetition of a class that covers [s] before a literal that ends the text:
    the whole text is the preferred match. *)
Lemma many_lit_whole p s l :
  Forall (λ a, p a = true) (chars (s +:+ l)) → l ≠ "" →
  head (rests (Seq (Many p) (Lit l)) (s +:+ l)) = Some "".
Proof.
  intros Hp Hl. cbn [rests].
  assert (∀ t, Forall (λ a, p a = true) (chars t) → String.length t < String.length l →
            flat_map (strip l) (many p t) = []) as Hshort.
  { induction t as [|a t IH]; intros Ht Hlen; simpl.
    - by rewrite strip_short.
    - inversion Ht as [|? ? Ha Ht']; subst. rewrite Ha, flat_map_app. simpl in *.
      rewrite IH by (done || lia). simpl. rewrite strip_short by (simpl; lia). done. }
  induction s as [|a s IH].
  - change ("" +:+ l) with l in *. destruct l as [|b l]; [done|]. simpl in Hp.
    inversion Hp as [|? ? Hb Hp']; subst. cbn [many]. rewrite Hb, flat_map_app.
    rewrite Hshort by (done || (simpl; lia)). cbn [flat_map app].
    pose proof (strip_app (String b l) "") as E. rewrite string_app_nil_r in E. by rewrite E.
  - rewrite string_app_cons in *. simpl in Hp. inversion Hp as [|? ? Ha Hp']; subst.
    cbn [many]. rewrite Ha, flat_map_app. specialize (IH Hp').
    destruct (flat_map (strip l) (many p (s +:+ l))); [done|]. exact IH.
Qed.

(** ** The language of an expression *)

Inductive lang : regexp → string → Prop :=
| lang_class (p : ascii → bool) a : p a = true → lang (Class p) (String a "")
| lang_lit l : lang (Lit l) l
| lang_many (p : ascii → bool) s : Forall (λ a, p a = true) (chars s) → lang (Many p) s
| lang_opt_none e : lang (Opt e) ""
| lang_opt e s : lang e s → lang (Opt e) s
| lang_seq e1 e2 s1 s2 : lang e1 s1 → lang e2 s2 → lang (Seq e1 e2) (s1 +:+ s2)
| lang_alt_l e1 e2 s : lang e1 s → lang (Alt e1 e2) s
| lang_alt_r e1 e2 s : lang e2 s → lang (Alt e1 e2) s.

#[export] Hint Constructors lang : forge.

Lemma lang_class_iff p s : lang (Class p) s ↔ ∃ a, s = String a "" ∧ p a = true.
Proof. split; [inversion 1; eauto|intros (a & -> & Ha); by constructor]. Qed.

Lemma lang_lit_iff l s : lang (Lit l) s ↔ s = l.
Proof. split; [by inversion 1|intros ->; constructor]. Qed.

Lemma lang_many_iff p s : lang (Many p) s ↔ Forall (λ a, p a = true) (chars s).
Proof. split; [by inversion 1|by constructor]. Qed.

Lemma lang_opt_iff e s : lang (Opt e) s ↔ s = "" ∨ lang e s.
Proof. split; [inversion 1; auto|intros [->|H]; by constructor]. Qed.

Lemma lang_seq_iff e1 e2 s : lang (Seq e1 e2) s ↔ ∃ s1 s2, s = s1 +:+ s2 ∧ lang e1 s1 ∧ lang e2 s2.
Proof. split; [inversion 1; eauto 6|intros (s1 & s2 & -> & H1 & H2); by constructor]. Qed.

Lemma lang_alt_iff e1 e2 s : lang (Alt e1 e2) s ↔ lang e1 s ∨ lang e2 s.
Proof. split; [inversion 1; auto|intros [H|H]; eauto with forge]. Qed.

Lemma many_spec p s r :
  r ∈ many p s ↔ ∃ w, s = w +:+ r ∧ Forall (λ a, p a = true) (chars w).
Proof.
  revert r. induction s as [|a s IH]; intros r; simpl.
  - rewrite list_elem_of_singleton. split.
    + intros ->. by exists "".
    + intros ([|b w] & E & _); [by rewrite E|by rewrite string_app_cons in E].
  - rewrite elem_of_app, list_elem_of_singleton. split.
    + intros [H| ->]; [|by exists ""]. destruct (p a) eqn:Ha; [|by apply not_elem_of_nil in H].
      apply IH in H as (w & -> & Hw). exists (String a w). split; [done|]. by constructor.
    + intros ([|b w] & E & Hw); [by right|]. rewrite string_app_cons in E.
      injection E as -> ->. simpl in Hw. inversion Hw as [|? ? Hb Hw']; subst.
      left. rewrite Hb. apply IH. eauto.
Qed.

(** The executable matcher finds exactly the words of the language. *)
Lemma rests_lang e s r : r ∈ rests e s ↔ ∃ w, s = w +:+ r ∧ lang e w.
Proof.
  revert s r. induction e as [p|l|p|e IH|e1 IH1 e2 IH2|e1 IH1 e2 IH2]; intros s r; simpl.
  - split.
    + destruct s as [|a s]; [by intros ?%not_elem_of_nil|].
      destruct (p a) eqn:Ha; [|by intros ?%not_elem_of_nil].
      intros ->%list_elem_of_singleton. exists (String a ""). eauto with forge.
    + intros (w & -> & Hw). inversion Hw; subst.
      rewrite string_app_cons. change ("" +:+ r) with r.
      match goal with H : p _ = true |- _ => rewrite H end. by left.
  - split.
    + intros ->%strip_inv. eauto with forge.
    + intros (w & -> & Hw). inversion Hw; subst. rewrite strip_app. by left.
  - rewrite many_spec. split; intros (w & -> & Hw); exists w; (split; [done|]).
    + by constructor.
    + by inversion Hw.
  - rewrite elem_of_app, IH, list_elem_of_singleton. split.
    + intros [(w & -> & Hw)| ->]; [eauto with forge|]. exists "". eauto with forge.
    + intros (w & -> & Hw). inversion Hw; subst; [by right|left; eauto].
  - split.
    + intros H%list_elem_of_In%in_flat_map. destruct H as (m & Hm & Hr).
      apply list_elem_of_In, IH1 in Hm as (w1 & -> & Hw1).
      apply list_elem_of_In, IH2 in Hr as (w2 & -> & Hw2).
      exists (w1 +:+ w2). rewrite string_app_assoc. eauto with forge.
    + intros (w & -> & Hw). inversion Hw; subst. apply list_elem_of_In, in_flat_map.
      exists (s2 +:+ r). split; apply list_elem_of_In.
      * apply IH1. exists s1. by rewrite string_app_assoc.
      * apply IH2. eauto.
  - rewrite elem_of_app, IH1, IH2. split.
    + intros [(w & -> & Hw)|(w & -> & Hw)]; eauto with forge.
    + intros (w & -> & Hw). inversion Hw; subst; eauto.
Qed.

Lemma rests_not_nil e s : rests e s ≠ [] ↔ ∃ w r, s = w +:+ r ∧ lang e w.
Proof.
  split.
  - intros H. destruct (rests e s) as [|r l] eqn:E; [done|].
    assert (r ∈ rests e s) as Hr by (rewrite E; by left). apply rests_lang in Hr as (w & ? & ?). eauto.
  - intros (w & r & Hs & Hw) E. assert (r ∈ rests e s) as Hr by (apply rests_lang; eauto).
    rewrite E in Hr. by apply not_elem_of_nil in Hr.
Qed.

Lemma match_anywhere_lang e s :
  match_anywhere e s = true ↔ ∃ pre w post, s = pre +:+ w +:+ post ∧ lang e w.
Proof.
  assert (∀ s, (∃ w post, s = w +:+ post ∧ lang e w) → match_anywhere e s = true) as Hhere.
  { intros t Ht%rests_not_nil. destruct t; cbn [match_anywhere];
      by destruct (rests e _). }
  induction s as [|a s IH].
  - split.
    + cbn [match_anywhere]. destruct (rests e "") as [|r l] eqn:E; [done|]. intros _.
      assert (rests e "" ≠ []) as H by (by rewrite E).
      apply rests_not_nil in H as (w & r' & Hs & Hw). by exists "", w, r'.
    + intros ([|b pre] & w & post & Hs & Hw); [apply Hhere; by exists w, post|done].
  - split.
    + cbn [match_anywhere]. destruct (rests e (String a s)) as [|r l] eqn:E.
      * intros (pre & w & post & -> & Hw)%IH. by exists (String a pre), w, post.
      * intros _. assert (rests e (String a s) ≠ []) as H by (by rewrite E).
        apply rests_not_nil in H as (w & r' & Hs & Hw). by exists "", w, r'.
    + intros ([|b pre] & w & post & Hs & Hw); [apply Hhere; by exists w, post|].
      rewrite string_app_cons in Hs. injection Hs as -> Hs. cbn [match_anywhere].
      destruct (rests e (String b s)); [|done]. apply IH. eauto.
Qed.

Lemma MatchString_lang p s :
  MatchString p s = true ↔
  ∃ pre w post, s = pre +:+ w +:+ post ∧ lang (pt_body p) w ∧ (pt_anchored p = true → pre = "").
Proof.
  unfold MatchString. destruct (pt_anchored p).
  - rewrite negb_true_iff, bool_decide_eq_false, rests_not_nil. split.
    + intros (w & r & Hs & Hw). by exists "", w, r.
    + intros (pre & w & post & Hs & Hw & Hp). rewrite (Hp eq_refl) in Hs. by exists w, post.
  - rewrite match_anywhere_lang. naive_solver.
Qed.
