(* ===== verification/Cloud.v ===== *)
(** * Cloud: credentials of the cloud registries

    [internal/cloud]: the registry of providers, the challenge of a login
    server, and the providers for ECR, ACR and GCR.  The cloud SDKs, the HTTP
    clients and the clock are parameters. *)
From stdpp Require Import gmap strings list pretty.
From Stdlib Require Import ZArith Ascii.
From S2P Require Import Prelude Go GoStd Base64 Types Kube Credentials Resources Regexp.
#[local] Open Scope forge_scope.

(** ** Patterns of server names *)

Definition word (a : ascii) : bool :=
  is_alnum a || bool_decide (a = "-"%char) || bool_decide (a = "_"%char).

(** [[a-zA-Z0-9][a-zA-Z0-9-_]*]. *)
Definition ident : regexp := Seq (Class is_alnum) (Many word).

(** ecr: [urlRegex]; the text is the one the error message shows. *)
Definition urlRegex_text : string :=
  "^(?P<aws_account_id>[a-zA-Z0-9][a-zA-Z0-9-_]*)\.dkr\.ecr(-fips)?\.([a-zA-Z0-9][a-zA-Z0-9-_]*)\.amazonaws\.com(\.cn)?".
Definition urlRegex : pattern :=
  mkPattern true
    (Seq ident (Seq (Lit ".dkr.ecr") (Seq (Opt (Lit "-fips")) (Seq (Lit ".")
      (Seq ident (Seq (Lit ".amazonaws.com") (Opt (Lit ".cn")))))))).

(** acr: [acrRegex]. *)
Definition acrRegex_text : string :=
  ".*\.azurecr\.io|.*\.azurecr\.cn|.*\.azurecr\.de|.*\.azurecr\.us".
Definition acr_domain (d : string) : regexp := Seq (Many dot) (Lit d).
Definition acrRegex : pattern :=
  mkPattern false
    (Alt (acr_domain ".azurecr.io") (Alt (acr_domain ".azurecr.cn")
      (Alt (acr_domain ".azurecr.de") (acr_domain ".azurecr.us")))).

(** gcr: [gcrRegex]. *)
Definition gcrRegex_text : string := ".*-docker\.pkg\.dev|(?:.*\.)?gcr\.io".
Definition gcrRegex : pattern :=
  mkPattern false
    (Alt (Seq (Many dot) (Lit "-docker.pkg.dev"))
         (Seq (Opt (Seq (Many dot) (Lit "."))) (Lit "gcr.io"))).

(** ** What the package calls *)

(** The result of the version check of a login server: the response, when
    there is one, and the error. *)
Record check_result := mkCheck {
  ck_StatusCode : option Z;
  ck_Header : gmap string (list string);
  ck_err : option error;
}.

(** [AuthDirective]. *)
Record AuthDirective := mkDirective {
  ad_Service : string;
  ad_Realm : string;
}.

(** The request for a registry token: the URL with its query and the user
    information. *)
Record token_request := mkTokenRequest {
  tr_URL : string;
  tr_query : list (string * string);
  tr_User : string;
  tr_Password : string;
}.

Inductive provider := ECR | ACR | GCR.

#[export] Instance provider_eq_dec : EqDecision provider.
Proof. solve_decision. Defined.

Class CloudHost (W : Type) := {
  (** the loop over the map of loaders *)
  ch_range : list provider → M W (list provider);
  (** cloud.challenge *)
  ch_Check : string → M W check_result;
  (** ecr *)
  ch_LoadDefaultConfig : M W unit;
  ch_GetAuthorizationToken : M W (list (option string));
  (** acr: tenant and client of the environment, the two sources of a service
      principal token, its refresh, and the exchange for a registry token *)
  ch_Settings : M W (string * string);
  ch_GetClientCredentials : M W unit;
  ch_ClientToken : M W unit;
  ch_MSIToken : M W unit;
  ch_EnsureFresh : M W unit;
  ch_OAuthToken : M W string;
  ch_GetFromExchange : string → string → string → string → M W (option string);
  ch_Delay : nat → M W bool;
  ch_ctx_Err : M W error;
  (** gcr *)
  ch_FindDefaultCredentials : M W unit;
  ch_Token : M W string;
  ch_NewRequest : string → outcome unit;
  (** the status and the content, or the error of the request or of reading it *)
  ch_Do : token_request → M W (Z * string);
  ch_Unmarshal : string → document;
}.

(** ** The challenge of a login server *)

(** [strings.TrimSpace] on ASCII text. *)
Definition is_space (a : ascii) : bool :=
  bool_decide (N_of_ascii a ∈ [9; 10; 11; 12; 13; 32]%N).

Fixpoint trim_space_left (s : string) : string :=
  match s with
  | String a s' => if is_space a then trim_space_left s' else s
  | EmptyString => ""
  end.

Fixpoint trim_space_right (s : string) : string :=
  match s with
  | EmptyString => ""
  | String a s' =>
      let t := trim_space_right s' in
      if is_space a && bool_decide (t = "") then "" else String a t
  end.

Definition TrimSpace (s : string) : string := trim_space_right (trim_space_left s).

Definition quote : ascii := ascii_of_nat 34.

(** The loop over the parameters of the header; [parts[1]] panics for a
    parameter without a value. *)
Fixpoint auth_params (params : list string) (m : gmap string string)
    : outcome (gmap string string) :=
  match params with
  | [] => Ok m
  | p :: rest =>
      match SplitN2 (TrimSpace p) "="%char with
      | [k; v] => auth_params rest (<[k := Trim v quote]> m)
      | _ => Panic "index out of range [1] with length 1"
      end
  end.

(** The directive of the value of a [Www-Authenticate] header. *)
Definition parse_challenge (header : string) : outcome AuthDirective :=
  let authSections := SplitN2 header " "%char in
  let scheme := match authSections with s :: _ => s | [] => "" end in
  if negb (EqualFold "Bearer" scheme) then
    Err (New ("Www-Authenticate: expected realm: Bearer, actual: " +:+ scheme))
  else
    match authSections with
    | [_; params] =>
        let? authParams := auth_params (Split params ","%char) ∅ in
        let realm := default "" (authParams !! "realm") in
        if bool_decide (realm = "") then
          Err (New ("Www-Authenticate: missing header " +:+ fmt_q "realm"))
        else Ok (mkDirective (default "" (authParams !! "service")) realm)
    | _ => Panic "index out of range [1] with length 1"
    end.

(** What [ChallengeLoginServer] makes of the check. *)
Definition challenge_directive (challenge : check_result) : outcome AuthDirective :=
  if negb (bool_decide (ck_StatusCode challenge = Some 401%Z)) then
    match ck_err challenge, ck_StatusCode challenge with
    | Some err, _ => Err err
    | None, Some code =>
        Err (New ("registry did not issue a valid AAD challenge, status: " +:+ pretty code))
    | None, None => Panic "invalid memory address or nil pointer dereference"
    end
  else
    match ck_Header challenge !! "Www-Authenticate" with
    | None => Err (New "challenge response does not contain header 'Www-Authenticate'")
    | Some [header] => parse_challenge header
    | Some headers =>
        Err (New ("registry did not issue a valid challenge, authenticate header ["
                  +:+ strings_Join headers ", " +:+ "]"))
    end.

Section cloud.
Context {W : Type} {CH : CloudHost W}.

Definition ChallengeLoginServer (loginServerURL : string) : M W AuthDirective :=
  let! challenge := ch_Check loginServerURL in
  lift_outcome (challenge_directive challenge).

(** ** ECR *)

Definition decodeAuth (auth : string) : outcome (string * string) :=
  if bool_decide (auth = "") then Err (New "docker auth token cannot be blank")
  else match DecodeString auth with
       | None => Err (wrap (New "illegal base64 data") "failed to decode docker auth token")
       | Some decoded =>
           match SplitN2 decoded ":"%char with
           | [u; p] => Ok (u, p)
           | creds => Err (New ("invalid docker auth token: [" +:+ strings_Join (fmt_q <$> creds) " " +:+ "]"))
           end
       end.

(** [authenticate]: [errors.Wrapf] of the nil error is nil, so a response
    without exactly one token gives neither credentials nor an error. *)
Definition ecr_authenticate (url : string) : M W (option AuthConfig) :=
  if negb (MatchString urlRegex url) then
    throw (New ("invalid ecr url: " +:+ fmt_q url +:+ " should match " +:+ urlRegex_text))
  else
    let! tokens := wrapping "failed to get ecr auth token" ch_GetAuthorizationToken in
    match tokens with
    | [token] =>
        let! up := lift_outcome (wrap_err "invalid ecr authorization token"
                                   (decodeAuth (default "" token))) in
        ret (Some (basic_auth up.1 up.2))
    | _ => ret None
    end.

(** ** ACR *)

Definition acrUserForRefreshToken : string := "00000000-0000-0000-0000-000000000000".

(** [retry]: the loop from attempt [i], with the error of the attempt before. *)
Fixpoint retry_loop (fuel i : nat) (err : option error) (f : M W unit) : M W unit :=
  match fuel with
  | O => match err with Some e => throw e | None => ret tt end
  | S fuel' =>
      let! res := try f in
      match res with
      | inr _ => ret tt
      | inl e =>
          let! delayed := ch_Delay i in
          if (delayed : bool) then retry_loop fuel' (S i) (Some e) f
          else let! cancelled := ch_ctx_Err in throw cancelled
      end
  end.

Definition retry (attempts : nat) (f : M W unit) : M W unit := retry_loop attempts 0 None f.

Definition acr_authenticate (tenantID server : string) : M W (option AuthConfig) :=
  match FindAllString (pt_body acrRegex) server with
  | [loginServer] =>
      do! retry 3 ch_EnsureFresh in
      let! armAccessToken := ch_OAuthToken in
      let loginServerURL := "https://" +:+ loginServer in
      let! directive := ChallengeLoginServer loginServerURL in
      let! refreshToken :=
        ch_GetFromExchange loginServerURL (ad_Service directive) tenantID armAccessToken in
      ret (Some (basic_auth acrUserForRefreshToken (default "" refreshToken)))
  | _ => throw (New ("invalid acr url: " +:+ fmt_q server +:+ " should match " +:+ acrRegex_text))
  end.

(** ** GCR *)

(** The token of the response: [access_token] when it is set. *)
Definition token_response (content : document) : outcome string :=
  match content with
  | NoDocument => Err (New "unexpected end of JSON input")
  | Malformed => Err (New "invalid character in JSON")
  | Document JNull => Ok ""
  | Document (JObj fields) =>
      let? token := string_field "token" "" fields in
      let? access := string_field "access_token" "" fields in
      let? _ := string_field "refresh_token" "" fields in
      Ok (if bool_decide (access ≠ "") then access else token)
  | Document _ =>
      Err (New "json: cannot unmarshal value into Go value of type gcr.tokenResponse")
  end.

Definition gcr_authenticate (server : string) : M W (option AuthConfig) :=
  match FindAllString (pt_body gcrRegex) server with
  | [loginServer] =>
      let! token := ch_Token in
      let! directive := ChallengeLoginServer ("https://" +:+ loginServer) in
      do! lift_outcome (ch_NewRequest (ad_Realm directive)) in
      let! resp := ch_Do (mkTokenRequest (ad_Realm directive)
                            [("client_id", "forge"); ("service", ad_Service directive)]
                            "oauth2accesstoken" token) in
      if negb (resp.1 =? 200)%Z then
        throw (New ("failed to obtain token:" +:+ newline +:+ " " +:+ resp.2))
      else
        let! registryToken := lift_outcome (token_response (ch_Unmarshal resp.2)) in
        if bool_decide (registryToken = "") then
          throw (New ("no token in bearer response:" +:+ newline +:+ resp.2))
        else ret (Some (mkAuthConfig "oauth2accesstoken" token "" "" "" "" registryToken))
  | _ => throw (New ("invalid gcr url: " +:+ fmt_q server +:+ " should match " +:+ gcrRegex_text))
  end.

(** ** The registry *)

(** [Registry]: the providers that registered themselves; the tenant is the one
    of the ACR provider. *)
Record CloudRegistry := mkCloudRegistry {
  rg_loaders : list provider;
  rg_tenantID : string;
}.

Definition provider_pattern (p : provider) : pattern :=
  match p with ECR => urlRegex | ACR => acrRegex | GCR => gcrRegex end.

Definition loader (r : CloudRegistry) (p : provider) : string → M W (option AuthConfig) :=
  match p with
  | ECR => ecr_authenticate
  | ACR => acr_authenticate (rg_tenantID r)
  | GCR => gcr_authenticate
  end.

(** The loop over the loaders in the order [ps]. *)
Fixpoint first_loader (r : CloudRegistry) (server : string) (ps : list provider)
    : M W (option AuthConfig) :=
  match ps with
  | [] => throw (New "no loader found")
  | p :: rest =>
      if MatchString (provider_pattern p) server then loader r p server
      else first_loader r server rest
  end.

Definition RetrieveAuthorization (r : CloudRegistry) (server : string) : M W (option AuthConfig) :=
  let! ps := ch_range (rg_loaders r) in
  first_loader r server ps.

(** [Register]: a second registration of a pattern replaces the first. *)
Definition register (p : provider) (r : CloudRegistry) : CloudRegistry :=
  mkCloudRegistry (if bool_decide (p ∈ rg_loaders r) then rg_loaders r else rg_loaders r ++ [p])
    (rg_tenantID r).

(** ** Registration of the providers *)

Definition ecr_Register (r : CloudRegistry) : M W CloudRegistry :=
  let! cfg := try ch_LoadDefaultConfig in
  match cfg with
  | inl _ => ret r
  | inr _ => ret (register ECR r)
  end.

(** [newProvider] of ACR: the tenant; [None] stands for [noCredsErr]. *)
Definition acr_newProvider : M W (option string) :=
  let! settings := ch_Settings in
  if bool_decide (settings.1 = "") || bool_decide (settings.2 = "") then ret None
  else
    let! cc := try ch_GetClientCredentials in
    match cc with
    | inr _ => do! ch_ClientToken in ret (Some settings.1)
    | inl _ =>
        let! spt := try (retry 3 ch_MSIToken) in
        match spt with
        | inl err =>
            throw (wrapError "retreiving Service Principal Token from MSI failed" err)
        | inr _ => ret (Some settings.1)
        end
    end.

Definition acr_Register (r : CloudRegistry) : M W CloudRegistry :=
  let! tenant := acr_newProvider in
  match tenant with
  | None => ret r
  | Some t => ret (register ACR (mkCloudRegistry (rg_loaders r) t))
  end.

(** [strings.Contains]. *)
Fixpoint Contains (s sub : string) : bool :=
  String.prefix sub s ||
  match s with
  | EmptyString => false
  | String _ s' => Contains s' sub
  end.

Definition gcr_Register (r : CloudRegistry) : M W CloudRegistry :=
  let! creds := try ch_FindDefaultCredentials in
  match creds with
  | inl err =>
      if Contains (Error err) "could not find default credentials" then ret r else throw err
  | inr _ => ret (register GCR r)
  end.

(** The registrations of [StartManager], left at the first error. *)
Definition register_providers : M W CloudRegistry :=
  let! r := ecr_Register (mkCloudRegistry [] "") in
  let! r := acr_Register r in
  gcr_Register r.
End cloud.

(** ** Examples of the tests *)

Example ecr_matches :
  forallb (MatchString urlRegex)
    ["0123456789012.dkr.ecr.us-west-2.amazonaws.com";
     "0123456789012.dkr.ecr-fips.us-gov-east-1.amazonaws.com";
     "0123456789012.dkr.ecr.cn-north-1.amazonaws.com.cn"] = true.
Proof. reflexivity. Qed.

Example acr_finds : FindAllString (pt_body acrRegex) "foo.azurecr.io:443" = ["foo.azurecr.io"].
Proof. reflexivity. Qed.

Example gcr_finds :
  FindAllString (pt_body gcrRegex) <$> ["us.gcr.io"; "gcr.io/p"; "us-docker.pkg.dev"; "a.io"]
  = [["us.gcr.io"]; ["gcr.io"]; ["us-docker.pkg.dev"]; []].
Proof. reflexivity. Qed.

(** ** The patterns as substring tests *)

Lemma prefix_app p s : String.prefix p (p +:+ s) = true.
Proof.
  induction p as [|a p IH]; [by destruct s|]. rewrite string_app_cons. simpl.
  by destruct (ascii_dec a a).
Qed.

Lemma prefix_inv p s : String.prefix p s = true → ∃ t, s = p +:+ t.
Proof.
  revert s. induction p as [|a p IH]; intros s; [by exists s|].
  destruct s as [|b s]; [done|]. simpl. destruct (ascii_dec a b) as [->|]; [|done].
  intros (t & ->)%IH. by exists t.
Qed.

Lemma Contains_spec s sub : Contains s sub = true ↔ ∃ pre post, s = pre +:+ sub +:+ post.
Proof.
  induction s as [|a s IH]; cbn [Contains]; rewrite orb_true_iff.
  - split.
    + intros [(t & Ht)%prefix_inv|]; [|done]. by exists "", t.
    + intros ([|b pre] & post & E); [|done]. left. rewrite E. exact (prefix_app sub post).
  - split.
    + intros [(t & Ht)%prefix_inv|(pre & post & ->)%IH]; [by exists "", t|].
      by exists (String a pre), post.
    + intros ([|b pre] & post & E); [left; rewrite E; exact (prefix_app sub post)|].
      rewrite string_app_cons in E. injection E as -> E. right. apply IH. eauto.
Qed.

(** The text contains a word of the expression. *)
Definition occurs (e : regexp) (s : string) : Prop :=
  ∃ pre w post, s = pre +:+ w +:+ post ∧ lang e w.

Lemma occurs_alt e1 e2 s : occurs (Alt e1 e2) s ↔ occurs e1 s ∨ occurs e2 s.
Proof.
  unfold occurs. split.
  - intros (pre & w & post & -> & Hw). inversion Hw; subst; [left|right]; eauto 6.
  - intros [(pre & w & post & -> & Hw)|(pre & w & post & -> & Hw)];
      eexists _, _, _; eauto with forge.
Qed.

(** A prefix that may be empty does not change which texts match. *)
Lemma occurs_seq_nullable e d s : lang e "" → occurs (Seq e (Lit d)) s ↔ Contains s d = true.
Proof.
  intros He. rewrite Contains_spec. unfold occurs. split.
  - intros (pre & w & post & -> & Hw). inversion Hw as [| | | | |? ? s1 s2 H1 H2| |]; subst.
    inversion H2; subst. exists (pre +:+ s1), post. by rewrite !string_app_assoc.
  - intros (pre & post & ->). exists pre, d, post. split; [done|].
    change d with ("" +:+ d) at 2. eauto with forge.
Qed.

Lemma match_occurs p s : pt_anchored p = false → MatchString p s = true ↔ occurs (pt_body p) s.
Proof. intros Hp. rewrite MatchString_lang, Hp. unfold occurs. naive_solver. Qed.

Lemma lang_many_nil p : lang (Many p) "".
Proof. constructor. constructor. Qed.
#[local] Hint Resolve lang_many_nil : forge.

Definition azure_domains : list string := [".azurecr.io"; ".azurecr.cn"; ".azurecr.de"; ".azurecr.us"].
Definition google_domains : list string := ["-docker.pkg.dev"; "gcr.io"].

Lemma acr_match_contains s : MatchString acrRegex s = existsb (Contains s) azure_domains.
Proof.
  apply eq_true_iff_eq. rewrite match_occurs by done. unfold acrRegex, acr_domain. cbn [pt_body].
  rewrite !occurs_alt, !occurs_seq_nullable by eauto with forge.
  unfold azure_domains. cbn [existsb]. rewrite !orb_true_iff. naive_solver.
Qed.

Lemma gcr_match_contains s : MatchString gcrRegex s = existsb (Contains s) google_domains.
Proof.
  apply eq_true_iff_eq. rewrite match_occurs by done. unfold gcrRegex. cbn [pt_body].
  rewrite !occurs_alt, !occurs_seq_nullable by eauto with forge.
  unfold google_domains. cbn [existsb]. rewrite !orb_true_iff. naive_solver.
Qed.

(** The first part of an ECR server name. *)
Definition plain_name (s : string) : bool :=
  match s with
  | String a s' => is_alnum a && forallb word (chars s')
  | EmptyString => false
  end.

Lemma lang_ident s : lang ident s ↔ plain_name s = true.
Proof.
  unfold ident. rewrite lang_seq_iff. split.
  - intros (s1 & s2 & -> & (a & -> & Ha)%lang_class_iff & Hs%lang_many_iff).
    rewrite string_app_cons. change ("" +:+ s2) with s2. simpl.
    apply andb_true_iff. split; [done|]. apply forallb_forall. intros x Hx%list_elem_of_In.
    by eapply Forall_forall in Hs.
  - destruct s as [|a s]; [done|]. simpl. intros [Ha Hs]%andb_true_iff.
    exists (String a ""), s. split; [done|]. split; constructor; [done|].
    apply Forall_forall. intros x Hx%list_elem_of_In. by eapply forallb_forall in Hs.
Qed.

(** An ECR server name: an account and a region, then anything. *)
Definition ecr_host (account region : string) (fips : bool) : string :=
  account +:+ ".dkr.ecr" +:+ (if fips then "-fips" else "") +:+ "." +:+ region +:+ ".amazonaws.com".

Lemma ecr_match_host s :
  MatchString urlRegex s = true ↔
  ∃ account region fips rest,
    plain_name account = true ∧ plain_name region = true ∧ s = ecr_host account region fips +:+ rest.
Proof.
  rewrite MatchString_lang. unfold ecr_host. cbn [pt_body urlRegex]. split.
  - setoid_rewrite lang_seq_iff. setoid_rewrite lang_ident.
    intros (pre & w & post & -> & (account & r1 & -> & Ha & H1) & Hp).
    rewrite (Hp eq_refl). clear pre Hp.
    apply lang_seq_iff in H1 as (? & r2 & -> & ->%lang_lit_iff & H2).
    apply lang_seq_iff in H2 as (f & r3 & -> & Hf & H3).
    apply lang_seq_iff in H3 as (? & r4 & -> & ->%lang_lit_iff & H4).
    apply lang_seq_iff in H4 as (region & r5 & -> & Hr%lang_ident & H5).
    apply lang_seq_iff in H5 as (? & r6 & -> & ->%lang_lit_iff & _).
    exists account, region, (negb (bool_decide (f = ""))), (r6 +:+ post).
    split; [done|]. split; [done|]. rewrite !string_app_assoc.
    apply lang_opt_iff in Hf as [->| ->%lang_lit_iff]; done.
  - intros (account & region & fips & rest & Ha & Hr & ->).
    exists "", (account +:+ ".dkr.ecr" +:+ (if fips then "-fips" else "") +:+ "." +:+ region +:+ ".amazonaws.com" +:+ ""), rest.
    split; [by rewrite !string_app_assoc|]. split; [|done].
    repeat (apply lang_seq); eauto with forge; try by apply lang_ident.
    destruct fips; eauto with forge.
Qed.

(** ** Server names as components *)

Definition period : ascii := "."%char.

Definition HasSuffix (s suf : string) : bool :=
  bool_decide (suf ∈ (fix tails s := s :: match s with String _ s' => tails s' | _ => [] end) s).

(** Two neighbours of which one ends with [x] and the next begins with [y]. *)
Fixpoint adjacent (x y : string) (l : list string) : bool :=
  match l with
  | a :: (b :: _) as rest => HasSuffix a x && HasPrefix b y || adjacent x y rest
  | _ => false
  end.

Lemma HasSuffix_app s t : HasSuffix (s +:+ t) t = true.
Proof.
  unfold HasSuffix. apply bool_decide_eq_true_2. induction s as [|a s IH].
  - change ("" +:+ t) with t. destruct t; by left.
  - rewrite string_app_cons. by right.
Qed.

Lemma adjacent_app x y l a b r :
  HasSuffix a x = true → HasPrefix b y = true → adjacent x y (l ++ a :: b :: r) = true.
Proof.
  intros Ha Hb. induction l as [|c l IH]; cbn [app adjacent]; [by rewrite Ha, Hb|].
  destruct (l ++ a :: b :: r) eqn:E; [by destruct l|]. by rewrite IH, orb_true_r.
Qed.

Lemma Split_last s c x : c ∉ chars x → ∃ l a, Split (s +:+ x) c = l ++ [a +:+ x].
Proof.
  intros Hx. induction s as [|b s (l & a & IH)].
  - exists [], "". by apply Split_no_sep.
  - rewrite string_app_cons. simpl. case_bool_decide.
    + exists ("" :: l), a. by rewrite IH.
    + rewrite IH. destruct l as [|d l]; [by exists [], (String b a)|].
      by exists (String b d :: l), a.
Qed.

Lemma Split_first s c y : c ∉ chars y → ∃ b l, Split (y +:+ s) c = (y +:+ b) :: l.
Proof.
  intros Hy. induction y as [|a y IH].
  - change ("" +:+ s) with s. destruct (Split s c) as [|b l] eqn:E; [by apply Split_not_nil in E|].
    by exists b, l.
  - rewrite string_app_cons. simpl in *. rewrite bool_decide_eq_false_2 by set_solver.
    destruct IH as (b & l & ->); [set_solver|]. by exists b, l.
Qed.

(** A text that contains [x.y] has neighbouring components around the period. *)
Lemma Contains_adjacent x y s :
  period ∉ chars x → period ∉ chars y →
  Contains s (x +:+ String period y) = true → adjacent x y (Split s period) = true.
Proof.
  intros Hx Hy (pre & post & ->)%Contains_spec.
  replace (pre +:+ (x +:+ String period y) +:+ post)
    with ((pre +:+ x) +:+ String period (y +:+ post))
    by (by rewrite !string_app_assoc, string_app_cons).
  rewrite Split_app. destruct (Split_last pre period x Hx) as (l & a & ->).
  destruct (Split_first post period y Hy) as (b & r & ->).
  rewrite <- app_assoc. apply adjacent_app; [apply HasSuffix_app|apply prefix_app].
Qed.

Lemma Contains_part s a d b : Contains s (a +:+ d +:+ b) = true → Contains s d = true.
Proof.
  rewrite !Contains_spec. intros (pre & post & ->). exists (pre +:+ a), (b +:+ post).
  by rewrite !string_app_assoc.
Qed.

(** The server names the cloud documentation gives. *)
Inductive server_name : provider → list string → Prop :=
| ecr_name account region fips :
    plain_name account = true → plain_name region = true →
    server_name ECR [account; "dkr"; if (fips : bool) then "ecr-fips" else "ecr";
                     region; "amazonaws"; "com"]
| ecr_cn_name account region fips :
    plain_name account = true → plain_name region = true →
    server_name ECR [account; "dkr"; if (fips : bool) then "ecr-fips" else "ecr";
                     region; "amazonaws"; "com"; "cn"]
| acr_name registry tld :
    plain_name registry = true → tld ∈ ["io"; "cn"; "de"; "us"] →
    server_name ACR [registry; "azurecr"; tld]
| gcr_name : server_name GCR ["gcr"; "io"]
| gcr_host_name host : plain_name host = true → server_name GCR [host; "gcr"; "io"]
| gar_name location :
    plain_name location = true → server_name GCR [location +:+ "-docker"; "pkg"; "dev"].

Definition server_text (comps : list string) : string := strings_Join comps ".".

Lemma name_no_period s : plain_name s = true → period ∉ chars s.
Proof.
  destruct s as [|a s]; [done|]. simpl. intros [Ha Hs]%andb_true_iff [E|Hin]%elem_of_cons; [by rewrite <- E in Ha|].
  rewrite forallb_forall in Hs. by apply list_elem_of_In, Hs in Hin.
Qed.
#[local] Hint Resolve name_no_period : forge.

Lemma server_name_split p comps : server_name p comps → Split (server_text comps) period = comps.
Proof.
  intros H. apply Split_Join; [by inversion H|].
  destruct H as [? ? []|? ? []|? ? ? Ht| | |]; repeat constructor;
    try (by apply name_no_period); try by apply (bool_decide_unpack _).
  - assert (Forall (λ t, period ∉ chars t) ["io"; "cn"; "de"; "us"]) as F
      by (by apply (bool_decide_unpack _)).
    exact (proj1 (Forall_forall _ _) F _ Ht).
  - rewrite chars_app, elem_of_app. intros [Hn|Hn]; [by apply name_no_period in Hn|].
    revert Hn. by apply (bool_decide_unpack _).
Qed.

(** ** Which patterns match a server name *)

(** What a match of each pattern leaves in the components. *)
Lemma match_adjacent p s :
  MatchString (provider_pattern p) s = true →
  match p with
  | ECR => adjacent "dkr" "ecr" (Split s period)
  | ACR => existsb (λ y, adjacent "azurecr" y (Split s period)) ["io"; "cn"; "de"; "us"]
  | GCR => adjacent "-docker" "pkg" (Split s period) || adjacent "gcr" "io" (Split s period)
  end = true.
Proof.
  destruct p; cbn [provider_pattern].
  - intros (account & region & fips & rest & _ & _ & ->)%ecr_match_host.
    apply Contains_adjacent; [by apply (bool_decide_unpack _)..|]. apply Contains_spec.
    exists (account +:+ "."). eexists. unfold ecr_host. rewrite !string_app_assoc.
    by f_equal.
  - rewrite acr_match_contains. unfold azure_domains.
    rewrite existsb_exists. intros (d & Hd & Hc). apply existsb_exists.
    exists (String.substring 9 2 d).
    simpl in Hd. destruct_or! Hd; try done; subst d; (split; [simpl; tauto|]);
      (apply Contains_adjacent; [by apply (bool_decide_unpack _)..|]);
      by eapply (Contains_part _ "." _ "").
  - rewrite gcr_match_contains. unfold google_domains. cbn [existsb].
    rewrite orb_false_r, !orb_true_iff. intros [Hc|Hc]; [left|right];
      (apply Contains_adjacent; [by apply (bool_decide_unpack _)..|]); [|done].
    by eapply (Contains_part _ "" _ ".dev").
Qed.

(** A server name the provider documents matches the provider's pattern. *)
Lemma server_name_match p comps :
  server_name p comps → MatchString (provider_pattern p) (server_text comps) = true.
Proof.
  intros H. destruct H as [account region fips Ha Hr|account region fips Ha Hr|r tld Hr Ht| |h Hh|l Hl];
    cbn [provider_pattern].
  - apply ecr_match_host. exists account, region, fips, "". split; [done|]. split; [done|].
    rewrite string_app_nil_r. by destruct fips.
  - apply ecr_match_host. exists account, region, fips, ".cn". split; [done|]. split; [done|].
    unfold ecr_host. rewrite !string_app_assoc. by destruct fips.
  - rewrite acr_match_contains. apply existsb_exists. exists (".azurecr." +:+ tld).
    split; [|apply Contains_spec; exists r, ""; by rewrite !string_app_nil_r].
    set_unfold in Ht. destruct_or! Ht; subst; simpl; tauto.
  - reflexivity.
  - rewrite gcr_match_contains. cbn [existsb google_domains].
    rewrite orb_false_r, orb_true_iff. right. apply Contains_spec.
    exists (h +:+ "."), "". by rewrite string_app_assoc.
  - rewrite gcr_match_contains. cbn [existsb google_domains]. apply orb_true_iff. left.
    apply Contains_spec. exists l, "". unfold server_text. cbn [strings_Join].
    by rewrite !string_app_assoc.
Qed.

(** Evaluates the comparisons of known components. *)
Ltac eval_part t :=
  let v := eval vm_compute in t in
  match v with true => change t with true | false => change t with false end.
Ltac eval_parts :=
  repeat match goal with
         | |- context [HasSuffix ?a ?b] => eval_part (HasSuffix a b)
         | |- context [HasPrefix ?a ?b] => eval_part (HasPrefix a b)
         end.

(** It matches no other provider's. *)
Lemma server_name_only p q comps :
  server_name p comps → MatchString (provider_pattern q) (server_text comps) = true → q = p.
Proof.
  intros H Hq%match_adjacent. rewrite (server_name_split _ _ H) in Hq. revert Hq.
  destruct H as [a r []|a r []|a t Ha Ht| |h|l]; destruct q; try done;
    cbn [adjacent existsb]; eval_parts; by rewrite ?andb_false_r.
Qed.

(** ** The multiplexer *)

(** A loop over a map visits its keys in some order. *)
Class CloudRange (W : Type) {CH : CloudHost W} :=
  cloud_range_perm : ∀ l w, ∃ l', ch_range l w = (Ok l', w) ∧ l' ≡ₚ l.

Section registry.
Context {W : Type} {CH : CloudHost W} {CR : CloudRange W}.

Lemma first_loader_unique r s p ps w :
  (∀ q, q ∈ ps → MatchString (provider_pattern q) s = true ↔ q = p) →
  first_loader r s ps w =
  if bool_decide (p ∈ ps) then loader r p s w else throw (New "no loader found") w.
Proof.
  induction ps as [|q ps IH]; intros H; [done|]. cbn [first_loader].
  destruct (MatchString (provider_pattern q) s) eqn:E.
  - apply H in E as ->; [|by left]. rewrite bool_decide_eq_true_2 by (by left). done.
  - rewrite IH by (intros; apply H; by right). assert (q ≠ p) as Hne.
    { intros ->. rewrite (proj2 (H p ltac:(by left))) in E; done. }
    rewrite (bool_decide_ext (p ∈ q :: ps) (p ∈ ps)); [done|]. set_solver.
Qed.

Lemma RetrieveAuthorization_named r p comps w :
  server_name p comps →
  RetrieveAuthorization r (server_text comps) w =
  if bool_decide (p ∈ rg_loaders r) then loader r p (server_text comps) w
  else (Err (New "no loader found"), w).
Proof.
  intros H. unfold RetrieveAuthorization. destruct (cloud_range_perm (rg_loaders r) w) as (ps & Hps & Hp).
  rewrite (bind_run _ _ _ _ _ Hps), (first_loader_unique _ _ p).
  - rewrite (bool_decide_ext (p ∈ ps) (p ∈ rg_loaders r)); [done|by rewrite Hp].
  - intros q _. split; [by apply server_name_only|intros ->; by apply server_name_match].
Qed.

(** C23: The credentials of a server whose name a cloud documents come from that
    cloud's provider, whatever the order in which the loop visits the map of
    loaders; without that provider there are no credentials. *)
Theorem RetrieveAuthorization_by_name (r : CloudRegistry) p comps w :
  server_name p comps →
  RetrieveAuthorization r (server_text comps) w =
  if bool_decide (p ∈ rg_loaders r) then loader r p (server_text comps) w
  else (Err (New "no loader found"), w).
Proof. apply RetrieveAuthorization_named. Qed.

(** With a name that two patterns match, the order decides. *)
Lemma first_loader_ambiguous r w :
  let s := "1.dkr.ecr.r.amazonaws.com.azurecr.io" in
  first_loader r s [ECR; ACR] w = ecr_authenticate s w ∧
  first_loader r s [ACR; ECR] w = acr_authenticate (rg_tenantID r) s w.
Proof. done. Qed.

(** What a loader returns is a user and a password. *)
Lemma loader_plain r p s w ac w' :
  loader r p s w = (Ok (Some ac), w') → ac_Auth ac = "".
Proof.
  destruct p; cbn [loader].
  - unfold ecr_authenticate. destruct (MatchString urlRegex s); [|done]. simpl.
    intros (tokens & w1 & _ & H)%bind_Ok_inv. destruct tokens as [|t []]; try done.
    apply bind_Ok_inv in H as (up & w2 & _ & [= <- _]). done.
  - unfold acr_authenticate. destruct (FindAllString _ _) as [|m []]; try done.
    intros (? & ? & _ & H)%bind_Ok_inv. apply bind_Ok_inv in H as (? & ? & _ & H).
    apply bind_Ok_inv in H as (? & ? & _ & H). apply bind_Ok_inv in H as (? & ? & _ & [= <- _]).
    done.
  - unfold gcr_authenticate. destruct (FindAllString _ _) as [|m []]; try done.
    intros (? & ? & _ & H)%bind_Ok_inv. apply bind_Ok_inv in H as (? & ? & _ & H).
    apply bind_Ok_inv in H as (? & ? & _ & H). apply bind_Ok_inv in H as (resp & ? & _ & H).
    destruct (negb _); [done|]. apply bind_Ok_inv in H as (? & ? & _ & H).
    case_bool_decide; [done|]. by injection H as <- _.
Qed.

Lemma RetrieveAuthorization_plain r s w ac w' :
  RetrieveAuthorization r s w = (Ok (Some ac), w') → ac_Auth ac = "".
Proof.
  intros (ps & w1 & _ & H)%bind_Ok_inv. revert H. induction ps as [|p ps IH]; [done|].
  cbn [first_loader]. destruct (MatchString _ s); [apply loader_plain|apply IH].
Qed.
End registry.

(** What the calls to the clouds leave alone, their callers leave alone. *)
Class CloudAlways {W : Type} {CH : CloudHost W} (R : relation W) := {
  range_always : ∀ l, always R (ch_range l);
  Check_always : ∀ u, always R (ch_Check u);
  GetAuthorizationToken_always : always R ch_GetAuthorizationToken;
  EnsureFresh_always : always R ch_EnsureFresh;
  OAuthToken_always : always R ch_OAuthToken;
  GetFromExchange_always : ∀ u s t k, always R (ch_GetFromExchange u s t k);
  Delay_always : ∀ i, always R (ch_Delay i);
  ctx_Err_always : always R ch_ctx_Err;
  Token_always : always R ch_Token;
  Do_always : ∀ q, always R (ch_Do q);
}.
#[export] Hint Resolve range_always Check_always GetAuthorizationToken_always EnsureFresh_always
  OAuthToken_always GetFromExchange_always Delay_always ctx_Err_always Token_always Do_always : forge.

Section frame.
Context {W : Type} {CH : CloudHost W} (R : relation W) {PR : PreOrder R} {CA : CloudAlways R}.

Lemma retry_always n f : always R f → always R (retry n f).
Proof.
  intros Hf. unfold retry. generalize 0, (@None error).
  induction n as [|n IH]; intros i err; cbn [retry_loop]; [destruct err; eauto with forge|].
  apply (always_bind R); [by apply (always_try R)|]. intros [e|]; [|eauto with forge].
  apply (always_bind R); [eauto with forge|]. intros []; eauto with forge.
Qed.
#[local] Hint Resolve retry_always : forge.

Lemma ChallengeLoginServer_always u : always R (ChallengeLoginServer u).
Proof. unfold ChallengeLoginServer. eauto with forge. Qed.
#[local] Hint Resolve ChallengeLoginServer_always : forge.

Lemma loader_always r p s : always R (loader r p s).
Proof.
  destruct p; cbn [loader].
  - unfold ecr_authenticate. destruct (negb _); [eauto with forge|].
    apply (always_bind R); [eauto with forge|]. intros [|t []]; eauto with forge.
  - unfold acr_authenticate. destruct (FindAllString _ _) as [|m []]; eauto with forge.
    do 4 (apply (always_bind R); [eauto with forge|intros ?]). eauto with forge.
  - unfold gcr_authenticate. destruct (FindAllString _ _) as [|m []]; eauto with forge.
    do 4 (apply (always_bind R); [eauto with forge|intros ?]). destruct (negb _); [eauto with forge|].
    apply (always_bind R); [eauto with forge|]. intros t. case_bool_decide; eauto with forge.
Qed.

Lemma RetrieveAuthorization_always r s : always R (RetrieveAuthorization r s).
Proof.
  apply (always_bind R); [eauto with forge|]. intros ps. induction ps as [|p ps IH]; cbn [first_loader].
  - eauto with forge.
  - destruct (MatchString _ s); [apply loader_always|done].
Qed.
End frame.

(** ** Where a token is sent *)

Lemma find_whole e s : head (rests e s) = Some "" → rests e "" = [] → FindAllString e s = [s].
Proof.
  intros Hs He. unfold FindAllString. cbn [find_all]. destruct (rests e s) as [|r l]; [done|].
  injection Hs as ->. unfold before. rewrite Nat.sub_0_r, substring_whole.
  destruct (String.length s); cbn [find_all]; [done|]. by rewrite He.
Qed.

Lemma head_app {A} (l1 l2 : list A) x : head l1 = Some x → head (l1 ++ l2) = Some x.
Proof. by destruct l1. Qed.

Definition one_line (s : string) : Prop := Forall (λ a, dot a = true) (chars s).

#[export] Instance one_line_dec s : Decision (one_line s).
Proof. unfold one_line. apply _. Defined.

Lemma one_line_app s t : one_line s → one_line t → one_line (s +:+ t).
Proof. unfold one_line. rewrite chars_app, Forall_app. done. Qed.

(** The whole of a text that ends in the first domain of the pattern is the
    login server. *)
Lemma acr_finds_whole h :
  one_line h → FindAllString (pt_body acrRegex) (h +:+ ".azurecr.io") = [h +:+ ".azurecr.io"].
Proof.
  intros Hh. apply find_whole; [|done]. apply head_app, many_lit_whole; [|done].
  apply one_line_app; [done|]. by apply (bool_decide_unpack _).
Qed.

Lemma gcr_finds_whole h :
  one_line h →
  FindAllString (pt_body gcrRegex) (h +:+ "-docker.pkg.dev") = [h +:+ "-docker.pkg.dev"].
Proof.
  intros Hh. apply find_whole; [|done]. apply head_app, many_lit_whole; [|done].
  apply one_line_app; [done|]. by apply (bool_decide_unpack _).
Qed.

Section tokens.
Context {W : Type} {CH : CloudHost W}.

(** C38: The ACR provider challenges the server as the build spells it and
    exchanges its Azure token there: nothing ties the host to the Azure domain,
    which may be the end of a path. *)
Theorem acr_token_destination (tenantID host path : string) :
  one_line host → one_line path →
  let server := host +:+ "/" +:+ path +:+ ".azurecr.io" in
  MatchString acrRegex server = true ∧
  acr_authenticate tenantID server =
    (do! retry 3 ch_EnsureFresh in
     let! token := ch_OAuthToken in
     let! directive := ChallengeLoginServer ("https://" +:+ host +:+ "/" +:+ path +:+ ".azurecr.io") in
     let! refreshToken :=
       ch_GetFromExchange ("https://" +:+ host +:+ "/" +:+ path +:+ ".azurecr.io")
         (ad_Service directive) tenantID token in
     ret (Some (basic_auth acrUserForRefreshToken (default "" refreshToken)))).
Proof.
  intros Hh Hp server. subst server. split.
  - rewrite acr_match_contains. cbn [existsb azure_domains]. apply orb_true_iff. left.
    apply Contains_spec. exists (host +:+ "/" +:+ path), "".
    by rewrite !string_app_assoc.
  - unfold acr_authenticate.
    replace (host +:+ "/" +:+ path +:+ ".azurecr.io")
      with ((host +:+ "/" +:+ path) +:+ ".azurecr.io") by (by rewrite !string_app_assoc).
    rewrite acr_finds_whole; [done|]. apply one_line_app; [done|].
    apply one_line_app; [by apply (bool_decide_unpack _)|done].
Qed.

(** Every attempt that fails is followed by a delay, the last one too. *)
Lemma retry_delays n (f : M W unit) (tick : W → W) e :
  (∀ w, f w = (Err e, w)) → (∀ i w, ch_Delay i w = (Ok true, tick w)) →
  ∀ w, retry (S n) f w = (Err e, Nat.iter (S n) tick w).
Proof.
  intros Hf Hd. unfold retry. generalize 0, (@None error).
  assert (∀ m i err w, retry_loop (S m) i err f w = retry_loop m (S i) (Some e) f (tick w)) as Hstep.
  { intros m i err w. cbn [retry_loop]. unfold bind at 1, try. rewrite Hf. cbv beta iota.
    unfold bind at 1. by rewrite Hd. }
  induction n as [|n IH]; intros i err w; rewrite Hstep; [done|].
  by rewrite IH, <- Nat.iter_succ_r.
Qed.
End tokens.

(** ** The challenge header *)

(** The header a registry sends (RFC 6750). *)
Definition challenge_header (realm service : string) : string :=
  "Bearer realm=" +:+ fmt_q realm +:+ ",service=" +:+ fmt_q service.

Lemma trim_space_right_end s a : is_space a = false → trim_space_right (s +:+ String a "") = s +:+ String a "".
Proof.
  intros Ha. induction s as [|b s IH].
  - change ("" +:+ String a "") with (String a ""). simpl. by rewrite Ha.
  - rewrite string_app_cons. cbn [trim_space_right]. rewrite IH.
    rewrite bool_decide_eq_false_2 by (by destruct s). by rewrite andb_false_r.
Qed.

Lemma TrimSpace_id b s a :
  is_space b = false → is_space a = false →
  TrimSpace (String b s +:+ String a "") = String b s +:+ String a "".
Proof.
  intros Hb Ha. unfold TrimSpace. rewrite <- (trim_space_right_end (String b s) a Ha) at 2.
  f_equal. rewrite string_app_cons. cbn [trim_space_left]. by rewrite Hb.
Qed.

Lemma trim_left_id c s : c ∉ chars s → trim_left c s = s.
Proof.
  destruct s as [|a s]; [done|]. simpl. intros H. by rewrite bool_decide_eq_false_2 by set_solver.
Qed.

Lemma trim_right_id c s : c ∉ chars s → trim_right c s = s.
Proof.
  induction s as [|a s IH]; [done|]. simpl. intros H. rewrite IH by set_solver.
  by rewrite bool_decide_eq_false_2 by set_solver.
Qed.

Lemma trim_right_end c s : trim_right c (s +:+ String c "") = trim_right c s.
Proof.
  induction s as [|a s IH].
  - change ("" +:+ String c "") with (String c ""). simpl. by rewrite bool_decide_eq_true_2.
  - rewrite string_app_cons. cbn [trim_right]. by rewrite IH.
Qed.

Lemma Trim_fmt_q s : quote ∉ chars s → Trim (fmt_q s) quote = s.
Proof.
  intros H. unfold Trim, fmt_q, dquote.
  change (String (ascii_of_nat 34) "" +:+ s +:+ String (ascii_of_nat 34) "")
    with (String quote (s +:+ String quote "")).
  cbn [trim_left]. rewrite bool_decide_eq_true_2 by done. destruct s as [|a s].
  - reflexivity.
  - rewrite string_app_cons. cbn [trim_left]. rewrite bool_decide_eq_false_2 by set_solver.
    rewrite <- string_app_cons, trim_right_end. by apply trim_right_id.
Qed.

(** One parameter of the header. *)
Lemma auth_params_quoted b k v rest m :
  is_space b = false → "="%char ∉ chars (String b k) → quote ∉ chars v →
  auth_params ((String b k +:+ "=" +:+ fmt_q v) :: rest) m = auth_params rest (<[String b k := v]> m).
Proof.
  intros Hb Hk Hv. cbn [auth_params]. unfold fmt_q at 1, dquote at 2.
  rewrite string_app_cons, <- !string_app_assoc, <- string_app_cons, TrimSpace_id by done.
  rewrite string_app_cons, !string_app_assoc, <- string_app_cons.
  unfold SplitN2. change ("=" +:+ ?x) with (String "="%char x). rewrite Cut_app by done.
  change (dquote +:+ v +:+ String (ascii_of_nat 34) "") with (fmt_q v). by rewrite Trim_fmt_q.
Qed.

(** The directive read from a challenge header is the realm and the service
    the registry wrote in it. *)
Theorem parse_challenge_roundtrip (realm service : string) :
  ","%char ∉ chars realm ++ chars service → quote ∉ chars realm ++ chars service → realm ≠ "" →
  parse_challenge (challenge_header realm service) = Ok (mkDirective service realm).
Proof.
  rewrite !not_elem_of_app. intros [Hr Hs] [Qr Qs] Hne. unfold parse_challenge.
  assert (challenge_header realm service =
    "Bearer" +:+ String " "%char (("realm" +:+ "=" +:+ fmt_q realm) +:+
      String ","%char ("service" +:+ "=" +:+ fmt_q service))) as ->.
  { unfold challenge_header. by rewrite !string_app_assoc. }
  unfold SplitN2. rewrite Cut_app by (by apply (bool_decide_unpack _)). cbv zeta iota.
  change (negb (EqualFold "Bearer" "Bearer")) with false. cbv iota.
  rewrite Split_cons, Split_no_sep.
  2,3: unfold fmt_q; rewrite !chars_app, !elem_of_app;
    intros Hc; destruct_or! Hc; try done; revert Hc; by apply (bool_decide_unpack _).
  rewrite !auth_params_quoted by (done || by apply (bool_decide_unpack _)).
  cbn [auth_params obind]. simplify_map_eq. by rewrite bool_decide_eq_false_2.
Qed.

Lemma auth_params_panics params m :
  (∃ e, auth_params params m = Panic e) ↔ Exists (λ p, "="%char ∉ chars (TrimSpace p)) params.
Proof.
  revert m. induction params as [|p params IH]; intros m; cbn [auth_params].
  - rewrite Exists_nil. naive_solver.
  - rewrite Exists_cons. unfold SplitN2. destruct (Cut (TrimSpace p) "="%char) as [[k v]|] eqn:E.
    + rewrite IH. apply Cut_spec in E as [E _]. rewrite E, chars_app. simpl. set_solver.
    + apply Cut_None_inv in E. naive_solver.
Qed.

(** The header that makes the provider panic: the bearer scheme alone, or a
    parameter without a value. *)
Theorem parse_challenge_panics (header : string) :
  (∃ m, parse_challenge header = Panic m) ↔
  match Cut header " "%char with
  | None => EqualFold "Bearer" header = true
  | Some (scheme, params) =>
      EqualFold "Bearer" scheme = true ∧
      Exists (λ p, "="%char ∉ chars (TrimSpace p)) (Split params ","%char)
  end.
Proof.
  unfold parse_challenge, SplitN2.
  destruct (Cut header " "%char) as [[scheme params]|] eqn:E; cbv iota;
    destruct (EqualFold "Bearer" _); cbn [negb]; try naive_solver.
  rewrite <- (auth_params_panics _ ∅).
  destruct (auth_params _ ∅) eqn:Ha; cbn [obind]; [case_bool_decide|..]; naive_solver.
Qed.

(** ** ECR tokens *)

Lemma EncodeToString_not_nil s : s ≠ "" → EncodeToString s ≠ "".
Proof.
  intros Hs E. pose proof (DecodeString_EncodeToString s) as H. rewrite E in H. by injection H.
Qed.

Lemma decodeAuth_encoded u p :
  ":"%char ∉ chars u → decodeAuth (EncodeToString (u +:+ ":" +:+ p)) = Ok (u, p).
Proof.
  intros Hu. unfold decodeAuth. rewrite bool_decide_eq_false_2.
  - rewrite DecodeString_EncodeToString. unfold SplitN2.
    change (":" +:+ p) with (String ":"%char p). by rewrite Cut_app.
  - apply EncodeToString_not_nil. by destruct u.
Qed.

Section ecr.
Context {W : Type} {CH : CloudHost W} {CR : CloudRange W}.

(** The ECR provider returns the user and the password of the token AWS
    encodes, the password with the colons it may have. *)
Theorem ecr_credentials url u p w w' :
  MatchString urlRegex url = true → ":"%char ∉ chars u →
  ch_GetAuthorizationToken w = (Ok [Some (EncodeToString (u +:+ ":" +:+ p))], w') →
  ecr_authenticate url w = (Ok (Some (basic_auth u p)), w').
Proof.
  intros Hm Hu Ht. unfold ecr_authenticate. rewrite Hm. cbn [negb].
  unfold bind, wrapping. rewrite Ht. unfold wrap_err at 1.
  unfold lift_outcome, default, id. cbv beta iota. by rewrite decodeAuth_encoded.
Qed.

(** When AWS returns no token, or more than one, the ECR provider returns
    neither credentials nor an error, and the reconciliation that asked for them
    panics. *)
Theorem ecr_no_token_panics `{KC : KubeClient W} (registry : CloudRegistry) comps cib reg rest
    (r : Reconciler W) tokens w' :
  server_name ECR comps → ECR ∈ rg_loaders registry →
  spec_Registries (cib_Spec cib) = reg :: rest →
  reg_Server reg = server_text comps → reg_DynamicCloudCredentials reg = true →
  ch_GetAuthorizationToken (r_world r) = (Ok tokens, w') → length tokens ≠ 1 →
  fst (checkCloudRegistrySecrets (RetrieveAuthorization registry) cib r)
  = Panic "invalid memory address or nil pointer dereference".
Proof.
  intros Hn Hin Hr Hs Hd Ht Hl. unfold checkCloudRegistrySecrets. rewrite Hr. cbn [dynamic_auths].
  rewrite Hd. cbn [negb]. unfold bind at 1, bind at 1, kube, zoom. rewrite Hs.
  assert (RetrieveAuthorization registry (server_text comps) (r_world r) = (Ok None, w')) as ->.
  { rewrite (RetrieveAuthorization_named _ _ _ _ Hn), bool_decide_eq_true_2 by done.
    cbn [loader]. unfold ecr_authenticate.
    rewrite (server_name_match _ _ Hn : MatchString urlRegex _ = true).
    cbn [negb]. unfold bind, wrapping. rewrite Ht. by destruct tokens as [|t []]. }
  done.
Qed.
End ecr.

(** ** Concrete runs *)

Module CloudSample.
(** Clouds that answer, with the tokens ECR returns and the header of the
    challenge. *)
Definition answering {W : Type} (tokens : list (option string)) (header : string) : CloudHost W := {|
  ch_range l := ret (rev l);
  ch_Check u := ret (mkCheck (Some 401%Z) {[ "Www-Authenticate" := [header] ]} (Some (New "401")));
  ch_LoadDefaultConfig := ret tt;
  ch_GetAuthorizationToken := ret tokens;
  ch_Settings := ret ("tenant", "client");
  ch_GetClientCredentials := ret tt;
  ch_ClientToken := ret tt;
  ch_MSIToken := ret tt;
  ch_EnsureFresh := ret tt;
  ch_OAuthToken := ret "arm";
  ch_GetFromExchange u s t k := ret (Some (u +:+ " " +:+ s +:+ " " +:+ t +:+ " " +:+ k));
  ch_Delay i := ret true;
  ch_ctx_Err := ret (New "context canceled");
  ch_FindDefaultCredentials := ret tt;
  ch_Token := ret "oauth";
  ch_NewRequest u := Ok tt;
  ch_Do q := ret (200%Z, tr_URL q);
  ch_Unmarshal s := Document (JObj [("token", JStr s)]);
|}.

#[local] Instance clouds tokens header : CloudHost cluster := answering tokens header.

#[local] Instance clouds_range tokens header : @CloudRange cluster (clouds tokens header).
Proof. intros l w. exists (rev l). split; [done|]. symmetry. apply Permutation_rev. Qed.

#[local] Instance clouds_always tokens header R :
  PreOrder R → @CloudAlways cluster (clouds tokens header) R.
Proof. intros HR. split; intros; apply always_ret; apply HR. Qed.

Definition header : string := challenge_header "https://auth" "reg".
Definition empty : cluster := mkCluster ∅ ∅ [].
Definition all : CloudRegistry := mkCloudRegistry [ECR; ACR; GCR] "tenant".

Example registers_all :
  register_providers (CH:=clouds [] header) empty = (Ok all, empty).
Proof. reflexivity. Qed.

Lemma RetrieveAuthorization_by_name_witness :
  RetrieveAuthorization (CH:=clouds [] header) all "us-west1-docker.pkg.dev" empty
  = loader (CH:=clouds [] header) all GCR "us-west1-docker.pkg.dev" empty.
Proof.
  exact (RetrieveAuthorization_by_name (CH:=clouds [] header) all GCR ["us-west1-docker"; "pkg"; "dev"]
           empty (gar_name "us-west1" eq_refl)).
Defined.

Lemma acr_token_destination_witness :
  acr_authenticate (CH:=clouds [] header) "tenant" "evil.com/x.azurecr.io" empty
  = (Ok (Some (basic_auth acrUserForRefreshToken "https://evil.com/x.azurecr.io reg tenant arm")),
     empty).
Proof.
  pose proof (proj2 (acr_token_destination (CH:=clouds [] header) "tenant" "evil.com" "x"
             ltac:(by apply (bool_decide_unpack _)) ltac:(by apply (bool_decide_unpack _)))) as E.
  change ("evil.com" +:+ "/" +:+ "x" +:+ ".azurecr.io") with "evil.com/x.azurecr.io" in E.
  rewrite E.
  vm_compute. reflexivity.
Defined.

Lemma parse_challenge_roundtrip_witness :
  parse_challenge (challenge_header "https://x.azurecr.io/oauth2/token" "x.azurecr.io")
  = Ok (mkDirective "x.azurecr.io" "https://x.azurecr.io/oauth2/token").
Proof.
  apply parse_challenge_roundtrip; [by apply (bool_decide_unpack _)..|done].
Defined.

Lemma ecr_credentials_witness :
  ecr_authenticate (CH:=clouds [Some (EncodeToString "AWS:a:b")] header)
    "1.dkr.ecr.us-west-2.amazonaws.com" empty
  = (Ok (Some (basic_auth "AWS" "a:b")), empty).
Proof.
  apply (ecr_credentials (CH:=clouds [Some (EncodeToString "AWS:a:b")] header));
    [reflexivity|by apply (bool_decide_unpack _)|reflexivity].
Defined.

Definition registry : Registry :=
  mkRegistry "1.dkr.ecr.us-west-2.amazonaws.com" false (mkBasicAuthConfig "" "" "" "") true.
Definition spec : ContainerImageBuildSpec :=
  mkSpec "img" "http://ctx" 0 ["reg.io"] [registry] [] ∅ "1" "" no_resources 0 0 ∅ false false "" [].
Definition build : ContainerImageBuild :=
  mkBuild (mkObjectMeta "b" "ns" "b" "" "" None ∅ [] 0 None) spec (mkStatus "" "" [] 0 "" None None).
Definition jobConfig : BuildJobConfig :=
  mkBuildJobConfig "forge:1" "" "" "" ∅ ∅ ∅ "" false true "" "" None [] [] [] false [] [].
Definition reconciler : Reconciler cluster := mkReconciler jobConfig empty [] ∅ ∅.

Lemma ecr_no_token_panics_witness :
  fst (checkCloudRegistrySecrets (RetrieveAuthorization (CH:=clouds [] header) all) build reconciler)
  = Panic "invalid memory address or nil pointer dereference".
Proof.
  apply (ecr_no_token_panics (CH:=clouds [] header) all
           ["1"; "dkr"; "ecr"; "us-west-2"; "amazonaws"; "com"] build registry [] reconciler [] empty);
    try done; [by apply (ecr_name "1" "us-west-2" false)|by left].
Defined.
End CloudSample.
