(* ===== verification/AuthProvider.v ===== *)
(** * AuthProvider: the credentials service of a build session

    [internal/builder/embedded/bkimage/authprovider.go]: BuildKit asks the
    provider for credentials, registry tokens and token authorities.  The token
    endpoints and the source of randomness are parameters, and so is the
    cryptography, with the laws its packages document. *)
From stdpp Require Import gmap strings list.
From Stdlib Require Import ZArith Ascii.
From S2P Require Import Prelude Go GoStd Config RegistryConfig.

(** ** Messages *)

Record CredentialsResponse := mkCredentials {
  cr_Username : string;
  cr_Secret : string;
}.

Record FetchTokenRequest := mkFetchToken {
  ft_Host : string;
  ft_Realm : string;
  ft_Service : string;
  ft_Scopes : list string;
}.

(** [authutil.TokenOptions]. *)
Record TokenOptions := mkTokenOptions {
  to_Realm : string;
  to_Service : string;
  to_Scopes : list string;
  to_Username : string;
  to_Secret : string;
}.

(** The token of a response; the time is none when it is zero. *)
Record issued_token := mkIssued {
  it_Token : string;
  it_IssuedAt : option Z;
  it_ExpiresIn : Z;
}.

Record FetchTokenResponse := mkTokenResponse {
  fr_Token : string;
  fr_ExpiresIn : Z;
  fr_IssuedAt : Z;
}.

Definition toTokenResponse (t : issued_token) : FetchTokenResponse :=
  mkTokenResponse (it_Token t) (it_ExpiresIn t) (default 0%Z (it_IssuedAt t)).

(** ** What the provider calls *)

Class TokenHost (W : Type) := {
  th_FetchToken : TokenOptions → M W issued_token;
  th_FetchTokenWithOAuth : string → TokenOptions → M W issued_token;
  (** 16 random bytes *)
  th_Read : M W string;
}.

(** [errors.As] to [ErrUnexpectedStatus]: the status code of such an error. *)
Class TokenErrors := unexpected_status : error → option Z.

(** HMAC with SHA-256, ed25519 keys, and the signatures of package nacl/sign. *)
Class TokenCrypto := {
  hmac_sha256 : string → string → string;
  NewKeyFromSeed : string → string;
  nacl_Sign : string → string → string;
  nacl_Open : string → string → option string;
}.

Definition SeedSize : nat := 32.

Definition skip (n : nat) (s : string) : string := String.substring n (String.length s - n) s.

(** A sum has 32 bytes.  The private key of a seed of 32 bytes has 64 bytes, of
    which the last 32 are the public key; the public key opens what the private key
    signed. *)
Class TokenCryptoLaws {TC : TokenCrypto} := {
  sum_length : ∀ key data, String.length (hmac_sha256 key data) = SeedSize;
  key_length : ∀ s, String.length s = SeedSize → String.length (NewKeyFromSeed s) = 64;
  open_sign : ∀ s m, String.length s = SeedSize →
    nacl_Open (nacl_Sign m (NewKeyFromSeed s)) (skip 32 (NewKeyFromSeed s)) = Some m;
}.

(** [copy] into an array of 64 zero bytes. *)
Definition copy64 (key : string) : string :=
  String.substring 0 64 (key +:+ Repeat (String (ascii_of_nat 0) "") 64).

(** The provider with the outside world. *)
Record dynamicAuthProvider (W : Type) := mkProvider {
  ap_seeds : gmap string string;
  ap_world : W;
}.
Arguments mkProvider {W}.
Arguments ap_seeds {W}.
Arguments ap_world {W}.

Section provider.
Context {W : Type} {TH : TokenHost W} {TE : TokenErrors} {TC : TokenCrypto}.
Context (getenv : string → string).
Context (credFn : string → outcome (string * string)).

#[local] Notation P := (dynamicAuthProvider W).

Definition world {A} : M W A → M P A :=
  zoom ap_world (λ w ap, mkProvider (ap_seeds ap) w).

Definition NewDynamicAuthProvider (w : W) : P := mkProvider ∅ w.

Definition credentials (host : string) : outcome CredentialsResponse :=
  let host := if bool_decide (host = "registry-1.docker.io")
              then "https://index.docker.io/v1/" else host in
  let? up := wrap_err ("credential fetch failed for " +:+ fmt_q host) (credFn host) in
  Ok (mkCredentials up.1 up.2).

Definition Credentials (host : string) : M P CredentialsResponse :=
  lift_outcome (credentials host).

(** Which failures of the GET request are retried with POST. *)
Definition retry_with_post (to : TokenOptions) (code : Z) : bool :=
  ((code =? 405)%Z && negb (bool_decide (to_Username to = "")))
  || (code =? 404)%Z || (code =? 401)%Z.

(** [FetchToken]: the deferred wrapper assigns to a local variable after the
    result is fixed, and changes nothing. *)
Definition FetchToken (req : FetchTokenRequest) : M P FetchTokenResponse :=
  let! creds := lift_outcome (credentials (ft_Host req)) in
  let to := mkTokenOptions (ft_Realm req) (ft_Service req) (ft_Scopes req)
              (cr_Username creds) (cr_Secret creds) in
  if negb (bool_decide (cr_Secret creds = "")) then
    let! resp := try (world (th_FetchToken to)) in
    match resp with
    | inl err =>
        match unexpected_status err with
        | Some code =>
            if retry_with_post to code then
              let! resp := world (th_FetchTokenWithOAuth "buildkit-client" to) in
              ret (toTokenResponse resp)
            else throw err
        | None => throw err
        end
    | inr resp => ret (toTokenResponse resp)
    end
  else
    let! resp := wrapping "failed to fetch anonymous token" (world (th_FetchToken to)) in
    ret (toTokenResponse resp).

(** [getSeed], under the lock of the seeds. *)
Definition getSeed (host : string) : M P string :=
  let! ap := get in
  let! v := match ap_seeds ap !! host with
            | Some v => ret v
            | None => world th_Read
            end in
  do! modify (λ ap, mkProvider (<[host := v]> (ap_seeds ap)) (ap_world ap)) in
  ret v.

Definition getAuthorityKey (host salt : string) : M P string :=
  if bool_decide (ParseBool (getenv "BUILDKIT_NO_CLIENT_TOKEN") = Some true) then
    throw (New "rpc error: code = Unavailable desc = client side tokens disabled")
  else
    let! creds := lift_outcome (credentials host) in
    let! seed := getSeed host in
    let sum := hmac_sha256 salt (if negb (bool_decide (cr_Secret creds = "")) then seed else "") in
    ret (NewKeyFromSeed (String.substring 0 SeedSize sum)).

Definition GetTokenAuthority (host salt : string) : M P string :=
  let! key := getAuthorityKey host salt in
  ret (skip 32 key).

Definition VerifyTokenAuthority (host salt payload : string) : M P string :=
  let! key := getAuthorityKey host salt in
  ret (nacl_Sign payload (copy64 key)).

(** ** The service *)

(** One request of BuildKit, whatever its outcome. *)
Inductive served : P → P → Prop :=
| served_Credentials host o ap ap' : Credentials host ap = (o, ap') → served ap ap'
| served_FetchToken req o ap ap' : FetchToken req ap = (o, ap') → served ap ap'
| served_Get host salt o ap ap' : GetTokenAuthority host salt ap = (o, ap') → served ap ap'
| served_Verify host salt payload o ap ap' :
    VerifyTokenAuthority host salt payload ap = (o, ap') → served ap ap'.

(** ** Seeds are kept *)

Definition keeps_seeds (ap ap' : P) : Prop := ap_seeds ap ⊆ ap_seeds ap'.

#[local] Instance keeps_seeds_preorder : PreOrder keeps_seeds.
Proof. split; [intros ap|intros a b c]; unfold keeps_seeds; [reflexivity|apply transitivity]. Qed.

Lemma world_keeps {A} (c : M W A) : always keeps_seeds (world c).
Proof.
  intros ap o ap'. unfold world, zoom. destruct (c (ap_world ap)). intros [= <- <-].
  unfold keeps_seeds. reflexivity.
Qed.
#[local] Hint Resolve world_keeps : forge.

Lemma getSeed_spec host ap v ap' :
  getSeed host ap = (Ok v, ap') →
  ap_seeds ap' = <[host := v]> (ap_seeds ap) ∧ (∀ u, ap_seeds ap !! host = Some u → v = u).
Proof.
  unfold getSeed. intros (ap1 & ? & [= <- <-] & H)%bind_Ok_inv.
  apply bind_Ok_inv in H as (u & ap2 & Hu & (? & ? & [= <- <-] & [= <- <-])%bind_Ok_inv).
  cbn [ap_seeds]. destruct (ap_seeds ap !! host) as [w|] eqn:E.
  - injection Hu as <- <-. split; [done|]. by intros ? [= <-].
  - split; [|done]. revert Hu. unfold world, zoom. destruct (th_Read (ap_world ap)).
    by intros [= _ <-].
Qed.

Lemma getSeed_keeps host : always keeps_seeds (getSeed host).
Proof.
  intros ap o ap' H. destruct o as [v| |].
  - apply getSeed_spec in H as [E Hv]. unfold keeps_seeds. rewrite E.
    destruct (ap_seeds ap !! host) as [u|] eqn:Eu; [|by apply insert_subseteq].
    by rewrite (Hv u eq_refl), insert_id.
  - revert H. unfold getSeed, bind, get, modify, ret.
    destruct (ap_seeds ap !! host); [done|]. destruct (world th_Read ap) as [[] ?] eqn:E; try done.
    intros [= _ <-]. by eapply world_keeps.
  - revert H. unfold getSeed, bind, get, modify, ret.
    destruct (ap_seeds ap !! host); [done|]. destruct (world th_Read ap) as [[] ?] eqn:E; try done.
    intros [= _ <-]. by eapply world_keeps.
Qed.
#[local] Hint Resolve getSeed_keeps : forge.

Lemma getAuthorityKey_keeps host salt : always keeps_seeds (getAuthorityKey host salt).
Proof. unfold getAuthorityKey. case_bool_decide; eauto with forge. Qed.
#[local] Hint Resolve getAuthorityKey_keeps : forge.

Lemma served_keeps ap ap' : served ap ap' → keeps_seeds ap ap'.
Proof.
  intros [host o ? ? H|req o ? ? H|host salt o ? ? H|host salt payload o ? ? H]; revert H.
  - eapply always_lift_outcome, _.
  - assert (always keeps_seeds (FetchToken req)) as Ha; [|apply Ha]. unfold FetchToken.
    apply (always_bind _); [eauto with forge|]. intros creds. destruct (negb _); [|eauto with forge].
    apply (always_bind _); [eauto with forge|]. intros [err|resp]; [|eauto with forge].
    destruct (unexpected_status err); [|eauto with forge]. destruct (retry_with_post _ _); eauto with forge.
  - assert (always keeps_seeds (GetTokenAuthority host salt)) as Ha; [|apply Ha].
    unfold GetTokenAuthority. eauto with forge.
  - assert (always keeps_seeds (VerifyTokenAuthority host salt payload)) as Ha; [|apply Ha].
    unfold VerifyTokenAuthority. eauto with forge.
Qed.

Lemma served_all_keep ap ap' : rtc served ap ap' → keeps_seeds ap ap'.
Proof. induction 1 as [|? ? ? H _ IH]; [done|]. etrans; [by apply served_keeps|done]. Qed.

(** ** Token authorities *)

(** The key of a host depends on its seed, which the call leaves in the map. *)
Lemma getAuthorityKey_spec host salt ap key ap' :
  getAuthorityKey host salt ap = (Ok key, ap') →
  ∃ creds seed, credentials host = Ok creds ∧ ap_seeds ap' !! host = Some seed ∧
    (∀ u, ap_seeds ap !! host = Some u → seed = u) ∧
    key = NewKeyFromSeed (String.substring 0 SeedSize
            (hmac_sha256 salt (if negb (bool_decide (cr_Secret creds = "")) then seed else ""))).
Proof.
  unfold getAuthorityKey. case_bool_decide; [done|].
  intros (creds & ap1 & [= Hc <-] & (seed & ap2 & Hs & [= <- <-])%bind_Ok_inv)%bind_Ok_inv.
  apply getSeed_spec in Hs as [E Hu]. exists creds, seed. rewrite E. by simplify_map_eq.
Qed.

Lemma length_substring s n : n ≤ String.length s → String.length (String.substring 0 n s) = n.
Proof.
  revert s. induction n as [|n IH]; intros [|a s]; simpl; try lia. intros H. rewrite IH; lia.
Qed.

Lemma sum_seed `{!TokenCryptoLaws} key data :
  String.length (String.substring 0 SeedSize (hmac_sha256 key data)) = SeedSize.
Proof. apply length_substring. by rewrite sum_length. Qed.

Lemma copy64_key `{!TokenCryptoLaws} s :
  String.length s = SeedSize → copy64 (NewKeyFromSeed s) = NewKeyFromSeed s.
Proof.
  intros Hs. unfold copy64. assert (∀ n k t, String.length k = n → String.substring 0 n (k +:+ t) = k) as Hsub.
  { intros n k. revert n. induction k as [|a k IH]; intros n t <-; [by destruct t|].
    rewrite string_app_cons. simpl. by rewrite IH. }
  by apply Hsub, key_length.
Qed.

(** C18: A token authority answers for itself.  After the provider gave out the
    public key of a host and a salt, and served any other requests, what it signs
    for this host and salt opens under that key. *)
Theorem token_authority `{!TokenCryptoLaws} host salt ap pub ap1 ap2 payload signed ap3 :
  GetTokenAuthority host salt ap = (Ok pub, ap1) →
  rtc served ap1 ap2 →
  VerifyTokenAuthority host salt payload ap2 = (Ok signed, ap3) →
  nacl_Open signed pub = Some payload.
Proof.
  intros (key & ap1' & Hg & [= <- <-])%bind_Ok_inv Hs (key' & ap3' & Hv & [= <- <-])%bind_Ok_inv.
  apply getAuthorityKey_spec in Hg as (creds & seed & Hc & Hseed & _ & ->).
  apply getAuthorityKey_spec in Hv as (creds' & seed' & Hc' & _ & Hu & ->).
  rewrite Hc in Hc'. injection Hc' as <-. rewrite (Hu seed).
  - rewrite copy64_key by apply sum_seed. apply open_sign, sum_seed.
  - eapply lookup_weaken; [exact Hseed|by apply served_all_keep].
Qed.

(** Without a secret for the host the authority is no proof of identity: its
    key is a function of the salt in the request, and everybody can compute it. *)
Theorem anonymous_authority host salt ap key ap' creds :
  credentials host = Ok creds → cr_Secret creds = "" →
  getAuthorityKey host salt ap = (Ok key, ap') →
  key = NewKeyFromSeed (String.substring 0 SeedSize (hmac_sha256 salt "")).
Proof.
  intros Hc E (c & s & H & _ & _ & ->)%getAuthorityKey_spec.
  rewrite Hc in H. injection H as <-. by rewrite E.
Qed.

(** ** Tokens *)

(** What the provider sends for a host with a user and a secret. *)
Definition token_options (req : FetchTokenRequest) (creds : CredentialsResponse) : TokenOptions :=
  mkTokenOptions (ft_Realm req) (ft_Service req) (ft_Scopes req)
    (cr_Username creds) (cr_Secret creds).

(** A token is fetched with GET; with a secret, and after the statuses 401
    and 404, or 405 when there is a user, with POST.  An error is returned as it
    is, or with the note on the anonymous token when there is no secret. *)
Theorem FetchToken_exact req creds ap :
  credentials (ft_Host req) = Ok creds →
  FetchToken req ap =
  let to := token_options req creds in
  let reply {A} (r : outcome A * W) (k : A → FetchTokenResponse) :=
    (match r.1 with Ok a => Ok (k a) | Err e => Err e | Panic m => Panic m end,
     mkProvider (ap_seeds ap) r.2) in
  match th_FetchToken to (ap_world ap) with
  | (Ok t, w) => (Ok (toTokenResponse t), mkProvider (ap_seeds ap) w)
  | (Panic m, w) => (Panic m, mkProvider (ap_seeds ap) w)
  | (Err e, w) =>
      if bool_decide (cr_Secret creds = "") then
        (Err (wrap e "failed to fetch anonymous token"), mkProvider (ap_seeds ap) w)
      else if from_option (retry_with_post to) false (unexpected_status e) then
        reply (th_FetchTokenWithOAuth "buildkit-client" to w) toTokenResponse
      else (Err e, mkProvider (ap_seeds ap) w)
  end.
Proof.
  intros Hc. unfold FetchToken, token_options, bind, lift_outcome, try, wrapping, world, zoom.
  rewrite Hc. cbv beta iota zeta.
  case_bool_decide; cbn [negb]; destruct (th_FetchToken _ _) as [[t|e|m] w]; try done.
  destruct (unexpected_status e) as [code|]; [|done]. cbn [from_option].
  destruct (retry_with_post _ _); [|done]. cbn [ap_world ap_seeds].
  destruct (th_FetchTokenWithOAuth _ _ _) as [[] w2]; done.
Qed.
End provider.

(** ** The credentials of the Docker Hub *)

Lemma rHostMap_last registries host :
  rHostMap registries !! host = last (filter (λ c, rc_Host c = host) registries).
Proof.
  unfold rHostMap. induction registries as [|c l IH] using rev_ind; [done|].
  rewrite foldl_snoc, filter_app, filter_cons, filter_nil. case_decide as Hc.
  - rewrite last_snoc, <- Hc. apply lookup_insert_eq.
  - rewrite app_nil_r, lookup_insert_ne by done. exact IH.
Qed.

(** The registry host of the Docker Hub gets the credentials of its index
    URL, and a configuration of the host itself is never used; every other host
    gets its own configuration. *)
Theorem credentials_of_hub (registries : list RegistryConfig) (host : string) :
  credentials (generateRegistryFunc registries).1 host =
  let key := if bool_decide (host = "registry-1.docker.io")
             then "https://index.docker.io/v1/" else host in
  match last (filter (λ c, rc_Host c = key) registries) with
  | Some c => Ok (mkCredentials (rc_Username c) (rc_Password c))
  | None => Ok (mkCredentials "" "")
  end.
Proof.
  unfold credentials, generateRegistryFunc. cbn [fst]. rewrite rHostMap_last.
  by destruct (last _).
Qed.

(** ** Concrete runs *)

Module AuthSample.
(** A toy signature scheme: a key is its seed, twice, and a signed text carries
    the seed. *)
Definition pad32 (s : string) : string :=
  String.substring 0 32 (s +:+ Repeat "0" 32).

#[local] Instance toy : TokenCrypto := {|
  hmac_sha256 salt data := pad32 (salt +:+ data);
  NewKeyFromSeed s := pad32 s +:+ pad32 s;
  nacl_Sign m key := skip 32 key +:+ m;
  nacl_Open signed pub :=
    if String.prefix pub signed then Some (skip (String.length pub) signed) else None;
|}.

#[local] Instance endpoint : TokenHost (list string) := {|
  th_FetchToken to :=
    if bool_decide (to_Username to = "gcr") then throw (New "404")
    else ret (mkIssued ("get " +:+ to_Username to) None 60);
  th_FetchTokenWithOAuth client to :=
    do! modify (cons "POST") in ret (mkIssued ("post " +:+ client) (Some 5%Z) 60);
  th_Read := let! w := get in do! modify (cons "read") in ret (Repeat "r" (16 + length w));
|}.

#[local] Instance statuses : TokenErrors := λ e,
  if bool_decide (Error e = "404") then Some 404%Z else None.

Lemma length_app s t : String.length (s +:+ t) = String.length s + String.length t.
Proof. induction s as [|a s IH]; [done|]. rewrite string_app_cons. simpl. by rewrite IH. Qed.

Lemma skip_app s t : skip (String.length s) (s +:+ t) = t.
Proof.
  unfold skip. rewrite length_app. replace (String.length s + String.length t - String.length s)
    with (String.length t) by lia.
  induction s as [|a s IH]; [|by rewrite string_app_cons].
  change ("" +:+ t) with t. change (String.length "") with 0.
  induction t as [|b t IH]; [done|]. simpl. by rewrite IH.
Qed.

Lemma length_pad32 s : String.length (pad32 s) = 32.
Proof. apply length_substring. rewrite length_app. simpl. lia. Qed.

#[local] Instance toy_laws : TokenCryptoLaws.
Proof.
  split.
  - intros key data. apply length_pad32.
  - intros s _. cbn [NewKeyFromSeed toy]. by rewrite length_app, !length_pad32.
  - intros s m _. cbn [NewKeyFromSeed nacl_Open nacl_Sign toy]. pose proof (skip_app (pad32 s) (pad32 s)) as E.
    rewrite length_pad32 in E. rewrite E.
    assert (String.prefix (pad32 s) (pad32 s +:+ m) = true) as ->; [|by rewrite skip_app].
    generalize (pad32 s). intros k. induction k as [|a k IH]; [by destruct m|].
    rewrite string_app_cons. simpl. by destruct (ascii_dec a a).
Qed.

Definition getenv (s : string) : string := "".
Definition registries : list RegistryConfig :=
  [mkRegistryConfig "gcr.io" false "gcr" "secret";
   mkRegistryConfig "registry-1.docker.io" false "lost" "secret"].
Definition credFn := (generateRegistryFunc registries).1.
Definition fresh : dynamicAuthProvider (list string) := mkProvider ∅ [].
Definition request : FetchTokenRequest := mkFetchToken "gcr.io" "realm" "service" [].

Lemma token_authority_witness :
  ∃ signed,
    fst (VerifyTokenAuthority getenv credFn "gcr.io" "salt" "payload"
           (snd (FetchToken credFn request
              (snd (GetTokenAuthority getenv credFn "gcr.io" "salt" fresh))))) = Ok signed ∧
    nacl_Open signed (pad32 "saltrrrrrrrrrrrrrrrr") = Some "payload".
Proof.
  eexists. split; [vm_compute; reflexivity|].
  eapply (token_authority getenv credFn "gcr.io" "salt" fresh).
  - apply run_split. vm_compute. reflexivity.
  - eapply rtc_once, (served_FetchToken _ _ request). apply surjective_pairing.
  - apply run_split. vm_compute. reflexivity.
Defined.

Lemma anonymous_authority_witness :
  ∃ key, fst (getAuthorityKey getenv credFn "a.io" "salt" fresh) = Ok key ∧
    key = NewKeyFromSeed (pad32 "salt").
Proof.
  eexists. split; [vm_compute; reflexivity|].
  refine (anonymous_authority getenv credFn "a.io" "salt" fresh _ _ (mkCredentials "" "")
            eq_refl eq_refl _).
  apply run_split. vm_compute. reflexivity.
Defined.

Lemma FetchToken_exact_witness :
  FetchToken credFn request fresh
  = (Ok (mkTokenResponse "post buildkit-client" 60 5), mkProvider ∅ ["POST"]).
Proof.
  rewrite (FetchToken_exact credFn request (mkCredentials "gcr" "secret") fresh eq_refl).
  vm_compute. reflexivity.
Defined.

Example hub_credentials_lost :
  credentials credFn "registry-1.docker.io" = Ok (mkCredentials "" "").
Proof. reflexivity. Qed.
End AuthSample.
