(* ===== verification/Clientset.v ===== *)
(** * Clientset: requests of the typed clients and the role of a build

    The generated client of ContainerImageBuild resources
    ([internal/clientset/typed/forge/v1alpha1/containerimagebuild.go]) over the
    request builder of client-go ([rest/request.go]): what is sent, with which
    path, and what is refused before it is sent.  The encoding of parameters and
    bodies and the transport are parameters.  The role the controller creates for
    a build is compared with the requests of its job. *)
From stdpp Require Import gmap strings list.
From Stdlib Require Import ZArith Ascii.
From S2P Require Import Prelude Go GoStd Types Config Kube Resources Filepath.
#[local] Open Scope forge_scope.

(** ** The request builder *)

Record Request := mkRequest {
  rq_verb : string;
  rq_pathPrefix : string;
  rq_namespace : string;
  rq_namespaceSet : bool;
  rq_resource : string;
  rq_resourceName : string;
  rq_subresource : string;
  rq_params : gmap string (list string);
  rq_timeout : Z;
  rq_contentType : string;
  rq_body : option string;
  rq_err : option error;
}.

Definition NameMayNotBe : list string := ["."; ".."].
Definition NameMayNotContain : list ascii := ["/"; "%"]%char.

Definition IsValidPathSegmentName (name : string) : list string :=
  match List.find (λ illegal, bool_decide (name = illegal)) NameMayNotBe with
  | Some illegal => ["may not be '" +:+ illegal +:+ "'"]
  | None =>
      (λ c, "may not contain '" +:+ String c "'") <$>
        filter (λ c, c ∈ chars name) NameMayNotContain
  end.

(** [DefaultVersionedAPIPath]. *)
Definition DefaultVersionedAPIPath (apiPath group version : string) : string :=
  let p := filepath_Join ["/"; apiPath] in
  if bool_decide (group ≠ "") then filepath_Join [p; group; version]
  else filepath_Join [p; version].

(** [NewRequest] of a client without a base path, with a verb. *)
Definition NewRequest (versionedAPIPath verb : string) : Request :=
  mkRequest verb (filepath_Join ["/"; versionedAPIPath]) "" false "" "" "" ∅ 0 "" None None.

Definition fail (e : error) (r : Request) : Request :=
  mkRequest (rq_verb r) (rq_pathPrefix r) (rq_namespace r) (rq_namespaceSet r) (rq_resource r)
    (rq_resourceName r) (rq_subresource r) (rq_params r) (rq_timeout r) (rq_contentType r)
    (rq_body r) (Some e).

(** A builder method does nothing after an error. *)
Definition unless_err (f : Request → Request) (r : Request) : Request :=
  match rq_err r with Some _ => r | None => f r end.

Definition fmt_list (l : list string) : string := "[" +:+ strings_Join l " " +:+ "]".

Definition Namespace (namespace : string) : Request → Request := unless_err (λ r,
  if rq_namespaceSet r then
    fail (New ("namespace already set to " +:+ fmt_q (rq_namespace r) +:+ ", cannot change to "
               +:+ fmt_q namespace)) r
  else match IsValidPathSegmentName namespace with
       | [] => mkRequest (rq_verb r) (rq_pathPrefix r) namespace true (rq_resource r)
                 (rq_resourceName r) (rq_subresource r) (rq_params r) (rq_timeout r)
                 (rq_contentType r) (rq_body r) None
       | msgs => fail (New ("invalid namespace " +:+ fmt_q namespace +:+ ": " +:+ fmt_list msgs)) r
       end).

Definition Resource (resource : string) : Request → Request := unless_err (λ r,
  if bool_decide (rq_resource r ≠ "") then
    fail (New ("resource already set to " +:+ fmt_q (rq_resource r) +:+ ", cannot change to "
               +:+ fmt_q resource)) r
  else match IsValidPathSegmentName resource with
       | [] => mkRequest (rq_verb r) (rq_pathPrefix r) (rq_namespace r) (rq_namespaceSet r) resource
                 (rq_resourceName r) (rq_subresource r) (rq_params r) (rq_timeout r)
                 (rq_contentType r) (rq_body r) None
       | msgs => fail (New ("invalid resource " +:+ fmt_q resource +:+ ": " +:+ fmt_list msgs)) r
       end).

Definition Name (resourceName : string) : Request → Request := unless_err (λ r,
  if bool_decide (resourceName = "") then fail (New "resource name may not be empty") r
  else if bool_decide (rq_resourceName r ≠ "") then
    fail (New ("resource name already set to " +:+ fmt_q (rq_resourceName r)
               +:+ ", cannot change to " +:+ fmt_q resourceName)) r
  else match IsValidPathSegmentName resourceName with
       | [] => mkRequest (rq_verb r) (rq_pathPrefix r) (rq_namespace r) (rq_namespaceSet r)
                 (rq_resource r) resourceName (rq_subresource r) (rq_params r) (rq_timeout r)
                 (rq_contentType r) (rq_body r) None
       | msgs =>
           fail (New ("invalid resource name " +:+ fmt_q resourceName +:+ ": " +:+ fmt_list msgs)) r
       end).

(** The error of the first subresource that is no path segment. *)
Fixpoint invalid_subresource (subresources : list string) : option error :=
  match subresources with
  | [] => None
  | s :: rest =>
      match IsValidPathSegmentName s with
      | [] => invalid_subresource rest
      | msgs => Some (New ("invalid subresource " +:+ fmt_q s +:+ ": " +:+ fmt_list msgs))
      end
  end.

Definition SubResource (subresources : list string) : Request → Request := unless_err (λ r,
  let subresource := filepath_Join subresources in
  if bool_decide (rq_subresource r ≠ "") then
    fail (New ("subresource already set to " +:+ fmt_q (rq_subresource r) +:+ ", cannot change to "
               +:+ fmt_q subresource)) r
  else match invalid_subresource subresources with
       | Some e => fail e r
       | None => mkRequest (rq_verb r) (rq_pathPrefix r) (rq_namespace r) (rq_namespaceSet r)
                   (rq_resource r) (rq_resourceName r) subresource (rq_params r) (rq_timeout r)
                   (rq_contentType r) (rq_body r) None
       end).

(** Query parameters, as the codec encodes the options; they add to the others. *)
Definition VersionedParams (encoded : error + gmap string (list string)) : Request → Request :=
  unless_err (λ r,
    match encoded with
    | inr params =>
        mkRequest (rq_verb r) (rq_pathPrefix r) (rq_namespace r) (rq_namespaceSet r) (rq_resource r)
          (rq_resourceName r) (rq_subresource r)
          (union_with (λ old new, Some (old ++ new)) (rq_params r) params) (rq_timeout r)
          (rq_contentType r) (rq_body r) None
    | inl e => fail e r
    end).

Definition Timeout (d : Z) : Request → Request := unless_err (λ r,
  mkRequest (rq_verb r) (rq_pathPrefix r) (rq_namespace r) (rq_namespaceSet r) (rq_resource r)
    (rq_resourceName r) (rq_subresource r) (rq_params r) d (rq_contentType r) (rq_body r) None).

(** A body of the content type, or of its own for a patch. *)
Definition Body (contentType : string) (encoded : error + string) : Request → Request :=
  unless_err (λ r,
    match encoded with
    | inr data =>
        mkRequest (rq_verb r) (rq_pathPrefix r) (rq_namespace r) (rq_namespaceSet r) (rq_resource r)
          (rq_resourceName r) (rq_subresource r) (rq_params r) (rq_timeout r) contentType
          (Some data) None
    | inl e => fail e r
    end).

(** The path of [URL]. *)
Definition URL_path (r : Request) : string :=
  let p := rq_pathPrefix r in
  let p := if rq_namespaceSet r && bool_decide (rq_namespace r ≠ "")
           then filepath_Join [p; "namespaces"; rq_namespace r] else p in
  let p := if bool_decide (rq_resource r ≠ "")
           then filepath_Join [p; ToLower (rq_resource r)] else p in
  if bool_decide (rq_resourceName r ≠ "") || bool_decide (rq_subresource r ≠ "")
  then filepath_Join [p; rq_resourceName r; rq_subresource r; ""] else p.

Definition requestPreflightCheck (r : Request) : option error :=
  if negb (rq_namespaceSet r) then None
  else if bool_decide (rq_namespace r ≠ "") then None
  else if bool_decide (rq_verb r = "POST") then
    Some (New "an empty namespace may not be set during creation")
  else if bool_decide (rq_verb r ∈ ["GET"; "PUT"; "DELETE"]) then
    if bool_decide (rq_resourceName r ≠ "") then
      Some (New "an empty namespace may not be set when a resource name is provided")
    else None
  else None.

(** What stops a request before it is sent. *)
Definition refused (r : Request) : option error :=
  match rq_err r with
  | Some e => Some e
  | None => requestPreflightCheck r
  end.

(** ** The client of the builds *)

Record ListOptions := mkListOptions {
  lo_LabelSelector : string;
  lo_FieldSelector : string;
  lo_Watch : bool;
  lo_TimeoutSeconds : option Z;
}.

Record DeleteOptions := mkDeleteOptions {
  del_GracePeriodSeconds : option Z;
  del_PropagationPolicy : string;
}.

Inductive options :=
| GetOptions (resourceVersion : string)
| OfList (opts : ListOptions)
| CreateOptions (fieldManager : string)
| UpdateOptions (fieldManager : string)
| PatchOptions (fieldManager : string).

Class Codec := {
  EncodeParameters : options → error + gmap string (list string);
  EncodeBuild : ContainerImageBuild → error + string;
  EncodeDelete : DeleteOptions → error + string;
}.

Class RestServer (W : Type) := {
  rest_build : Request → M W ContainerImageBuild;
  rest_builds : Request → M W (list ContainerImageBuild);
  rest_watch : Request → M W unit;
  rest_delete : Request → M W unit;
}.

Definition APIPath : string := "/apis".
Definition SchemeVersion : string := "v1alpha1".

(** The path prefix of [setConfigDefaults]. *)
Definition forge_path : string := DefaultVersionedAPIPath APIPath SchemeGroup SchemeVersion.

Definition opts_timeout (opts : ListOptions) : Z :=
  match lo_TimeoutSeconds opts with
  | Some s => mul_int64 s Second
  | None => 0
  end.

Section requests.
Context {CO : Codec}.

Definition on_builds (verb ns : string) : Request :=
  Resource "containerimagebuilds" (Namespace ns (NewRequest forge_path verb)).

Definition request_Get (ns name : string) (opts : options) : Request :=
  VersionedParams (EncodeParameters opts) (Name name (on_builds "GET" ns)).

Definition request_List (ns : string) (opts : ListOptions) : Request :=
  Timeout (opts_timeout opts)
    (VersionedParams (EncodeParameters (OfList opts)) (on_builds "GET" ns)).

Definition request_Watch (ns : string) (opts : ListOptions) : Request :=
  let opts := mkListOptions (lo_LabelSelector opts) (lo_FieldSelector opts) true
                (lo_TimeoutSeconds opts) in
  request_List ns opts.

Definition request_Create (ns : string) (cib : ContainerImageBuild) (opts : options) : Request :=
  Body "application/json" (EncodeBuild cib)
    (VersionedParams (EncodeParameters opts) (on_builds "POST" ns)).

Definition request_Update (ns : string) (cib : ContainerImageBuild) (opts : options) : Request :=
  Body "application/json" (EncodeBuild cib)
    (VersionedParams (EncodeParameters opts) (Name (cib_Name cib) (on_builds "PUT" ns))).

Definition request_UpdateStatus (ns : string) (cib : ContainerImageBuild) (opts : options) : Request :=
  Body "application/json" (EncodeBuild cib)
    (VersionedParams (EncodeParameters opts)
       (SubResource ["status"] (Name (cib_Name cib) (on_builds "PUT" ns)))).

Definition request_Delete (ns name : string) (opts : DeleteOptions) : Request :=
  Body "application/json" (EncodeDelete opts) (Name name (on_builds "DELETE" ns)).

Definition request_DeleteCollection (ns : string) (opts : DeleteOptions) (listOpts : ListOptions)
    : Request :=
  Body "application/json" (EncodeDelete opts)
    (Timeout (opts_timeout listOpts)
       (VersionedParams (EncodeParameters (OfList listOpts)) (on_builds "DELETE" ns))).

Definition request_Patch (ns name pt data : string) (opts : options) (subresources : list string)
    : Request :=
  Body pt (inr data)
    (VersionedParams (EncodeParameters opts)
       (SubResource subresources (Name name (on_builds "PATCH" ns)))).

Context {W : Type} {RS : RestServer W}.

(** [Do]: nothing is sent after an error. *)
Definition Do {A} (send : Request → M W A) (r : Request) : M W A :=
  match refused r with
  | Some e => throw e
  | None => send r
  end.

Definition builds_Get ns name opts := Do rest_build (request_Get ns name opts).
Definition builds_List ns opts := Do rest_builds (request_List ns opts).
(** [Watch] has no preflight check. *)
Definition builds_Watch ns opts : M W unit :=
  let r := request_Watch ns opts in
  match rq_err r with
  | Some e => throw e
  | None => rest_watch r
  end.
Definition builds_Create ns cib opts := Do rest_build (request_Create ns cib opts).
Definition builds_Update ns cib opts := Do rest_build (request_Update ns cib opts).
Definition builds_UpdateStatus ns cib opts := Do rest_build (request_UpdateStatus ns cib opts).
Definition builds_Delete ns name opts := Do rest_delete (request_Delete ns name opts).
Definition builds_DeleteCollection ns opts listOpts :=
  Do rest_delete (request_DeleteCollection ns opts listOpts).
Definition builds_Patch ns name pt data opts subresources :=
  Do rest_build (request_Patch ns name pt data opts subresources).
End requests.

(** The client of secrets: [Secrets(ns).Get] of client-go. *)
Definition core_path : string := DefaultVersionedAPIPath "/api" "" "v1".

Definition request_GetSecret `{Codec} (ns name : string) (opts : options) : Request :=
  VersionedParams (EncodeParameters opts)
    (Name name (Resource "secrets" (Namespace ns (NewRequest core_path "GET")))).

Example forge_path_is : forge_path = "/apis/forge.dominodatalab.com/v1alpha1".
Proof. reflexivity. Qed.

Example core_path_is : core_path = "/api/v1".
Proof. reflexivity. Qed.

(** ** The fields of a request *)

(** What a request addresses. *)
Record target := mkTarget {
  tg_verb : string;
  tg_prefix : string;
  tg_namespace : string;
  tg_namespaceSet : bool;
  tg_resource : string;
  tg_name : string;
  tg_subresource : string;
}.

Definition target_of (r : Request) : target :=
  mkTarget (rq_verb r) (rq_pathPrefix r) (rq_namespace r) (rq_namespaceSet r) (rq_resource r)
    (rq_resourceName r) (rq_subresource r).

(** A method that succeeded was called on a request without an error. *)
Ltac builder :=
  let r := fresh "r" in intros r; unfold unless_err; destruct (rq_err r) eqn:?; [congruence|].

Lemma VersionedParams_ok p : ∀ r,
  rq_err (VersionedParams p r) = None →
  rq_err r = None ∧ target_of (VersionedParams p r) = target_of r.
Proof. unfold VersionedParams. builder. by destruct p. Qed.

Lemma Timeout_ok d : ∀ r,
  rq_err (Timeout d r) = None → rq_err r = None ∧ target_of (Timeout d r) = target_of r.
Proof. unfold Timeout. by builder. Qed.

Lemma Body_ok ct b : ∀ r,
  rq_err (Body ct b r) = None → rq_err r = None ∧ target_of (Body ct b r) = target_of r.
Proof. unfold Body. builder. by destruct b. Qed.

Lemma Namespace_ok ns : ∀ r,
  rq_err (Namespace ns r) = None →
  rq_err r = None ∧ IsValidPathSegmentName ns = [] ∧
  target_of (Namespace ns r) =
    mkTarget (rq_verb r) (rq_pathPrefix r) ns true (rq_resource r) (rq_resourceName r)
      (rq_subresource r).
Proof.
  unfold Namespace. builder. destruct (rq_namespaceSet _); [done|].
  by destruct (IsValidPathSegmentName ns).
Qed.

Lemma Resource_ok res : ∀ r,
  rq_err (Resource res r) = None →
  rq_err r = None ∧
  target_of (Resource res r) =
    mkTarget (rq_verb r) (rq_pathPrefix r) (rq_namespace r) (rq_namespaceSet r) res
      (rq_resourceName r) (rq_subresource r).
Proof.
  unfold Resource. builder. case_bool_decide; [done|]. by destruct (IsValidPathSegmentName res).
Qed.

Lemma Name_ok name : ∀ r,
  rq_err (Name name r) = None →
  rq_err r = None ∧ name ≠ "" ∧ IsValidPathSegmentName name = [] ∧
  target_of (Name name r) =
    mkTarget (rq_verb r) (rq_pathPrefix r) (rq_namespace r) (rq_namespaceSet r) (rq_resource r)
      name (rq_subresource r).
Proof.
  unfold Name. builder. case_bool_decide; [done|]. case_bool_decide; [done|].
  by destruct (IsValidPathSegmentName name).
Qed.

Lemma SubResource_ok subs : ∀ r,
  rq_err (SubResource subs r) = None →
  rq_err r = None ∧ invalid_subresource subs = None ∧
  target_of (SubResource subs r) =
    mkTarget (rq_verb r) (rq_pathPrefix r) (rq_namespace r) (rq_namespaceSet r) (rq_resource r)
      (rq_resourceName r) (filepath_Join subs).
Proof.
  unfold SubResource. builder. case_bool_decide; [done|]. by destruct (invalid_subresource subs).
Qed.

Lemma valid_segment name : IsValidPathSegmentName name = [] → segment name.
Proof.
  unfold IsValidPathSegmentName, NameMayNotBe. cbn [List.find].
  case_bool_decide; [done|]. case_bool_decide; [done|]. intros Hv.
  destruct (decide (name = "")) as [|Hne]; [by left|]. right. split_and!; try done.
  intros Hin. apply (f_equal length) in Hv. rewrite length_fmap in Hv. revert Hv.
  unfold NameMayNotContain. rewrite filter_cons, decide_True by done. done.
Qed.

Lemma valid_subresources subs : invalid_subresource subs = None → Forall segment subs.
Proof.
  induction subs as [|s subs IH]; cbn [invalid_subresource]; [constructor|].
  destruct (IsValidPathSegmentName s) eqn:E; [|done]. intros H. constructor; [by apply valid_segment|auto].
Qed.

(** ** Every request of the client *)

Section operations.
Context {CO : Codec}.

Inductive operation :=
| OpGet (name : string) (opts : options)
| OpList (opts : ListOptions)
| OpWatch (opts : ListOptions)
| OpCreate (cib : ContainerImageBuild) (opts : options)
| OpUpdate (cib : ContainerImageBuild) (opts : options)
| OpUpdateStatus (cib : ContainerImageBuild) (opts : options)
| OpDelete (name : string) (opts : DeleteOptions)
| OpDeleteCollection (opts : DeleteOptions) (listOpts : ListOptions)
| OpPatch (name pt data : string) (opts : options) (subresources : list string).

Definition request_of (ns : string) (op : operation) : Request :=
  match op with
  | OpGet name opts => request_Get ns name opts
  | OpList opts => request_List ns opts
  | OpWatch opts => request_Watch ns opts
  | OpCreate cib opts => request_Create ns cib opts
  | OpUpdate cib opts => request_Update ns cib opts
  | OpUpdateStatus cib opts => request_UpdateStatus ns cib opts
  | OpDelete name opts => request_Delete ns name opts
  | OpDeleteCollection opts listOpts => request_DeleteCollection ns opts listOpts
  | OpPatch name pt data opts subresources => request_Patch ns name pt data opts subresources
  end.

Definition op_verb (op : operation) : string :=
  match op with
  | OpGet _ _ | OpList _ | OpWatch _ => "GET"
  | OpCreate _ _ => "POST"
  | OpUpdate _ _ | OpUpdateStatus _ _ => "PUT"
  | OpDelete _ _ | OpDeleteCollection _ _ => "DELETE"
  | OpPatch _ _ _ _ _ => "PATCH"
  end.

(** The resource an operation names, if it names one. *)
Definition op_name (op : operation) : option string :=
  match op with
  | OpGet name _ | OpDelete name _ | OpPatch name _ _ _ _ => Some name
  | OpUpdate cib _ | OpUpdateStatus cib _ => Some (cib_Name cib)
  | OpList _ | OpWatch _ | OpCreate _ _ | OpDeleteCollection _ _ => None
  end.

Definition op_subs (op : operation) : list string :=
  match op with
  | OpUpdateStatus _ _ => ["status"]
  | OpPatch _ _ _ _ subresources => filter (.≠ "") subresources
  | _ => []
  end.

Lemma on_builds_ok verb ns :
  rq_err (on_builds verb ns) = None →
  segment ns ∧ target_of (on_builds verb ns) =
    mkTarget verb forge_path ns true "containerimagebuilds" "" "".
Proof.
  unfold on_builds. intros [H1 E1]%Resource_ok. apply Namespace_ok in H1 as (_ & Hns & E2).
  split; [by apply valid_segment|]. revert E1 E2.
  generalize (Resource "containerimagebuilds" (Namespace ns (NewRequest forge_path verb))) as r1.
  generalize (Namespace ns (NewRequest forge_path verb)) as r2. intros r2 r1 -> [= -> -> -> -> _ -> ->].
  done.
Qed.

Lemma named_ok verb ns name :
  rq_err (Name name (on_builds verb ns)) = None →
  segment ns ∧ normal name ∧ target_of (Name name (on_builds verb ns)) =
    mkTarget verb forge_path ns true "containerimagebuilds" name "".
Proof.
  intros (H & Hne & Hv & E)%Name_ok. apply on_builds_ok in H as [Hns E2]. split; [done|].
  split; [by destruct (valid_segment name Hv)|]. rewrite E.
  revert E2. generalize (on_builds verb ns) as r. by intros r [= -> -> -> -> -> _ ->].
Qed.

Lemma sub_ok verb ns name subs :
  rq_err (SubResource subs (Name name (on_builds verb ns))) = None →
  segment ns ∧ normal name ∧ Forall segment subs ∧
  target_of (SubResource subs (Name name (on_builds verb ns))) =
    mkTarget verb forge_path ns true "containerimagebuilds" name
      (strings_Join (filter (.≠ "") subs) "/").
Proof.
  intros (H & Hs%valid_subresources & E)%SubResource_ok. apply named_ok in H as (Hns & Hn & E2).
  rewrite E, Join_relative by done. split_and!; [done..|].
  revert E2. generalize (Name name (on_builds verb ns)) as r. by intros r [= -> -> -> -> -> -> _].
Qed.

Lemma segments_normal l : Forall segment l → Forall normal (filter (.≠ "") l).
Proof.
  induction 1 as [|c l Hc _ IH]; [constructor|]. rewrite filter_cons. case_decide; [|done].
  constructor; [by destruct Hc|done].
Qed.

#[local] Ltac split_target := split_and!; try done; try by apply Forall_singleton.

Lemma request_target ns op :
  rq_err (request_of ns op) = None →
  segment ns ∧ Forall normal (option_list (op_name op)) ∧ Forall normal (op_subs op) ∧
  target_of (request_of ns op) =
    mkTarget (op_verb op) forge_path ns true "containerimagebuilds" (default "" (op_name op))
      (strings_Join (op_subs op) "/").
Proof.
  destruct op; cbn [request_of op_verb op_name op_subs option_list default].
  - unfold request_Get. intros [H ->]%VersionedParams_ok.
    apply named_ok in H as (? & ? & ->). split_target.
  - unfold request_List. intros [H ->]%Timeout_ok. apply VersionedParams_ok in H as [H ->].
    apply on_builds_ok in H as [? ->]. split_target.
  - unfold request_Watch, request_List. intros [H ->]%Timeout_ok.
    apply VersionedParams_ok in H as [H ->]. apply on_builds_ok in H as [? ->]. split_target.
  - unfold request_Create. intros [H ->]%Body_ok. apply VersionedParams_ok in H as [H ->].
    apply on_builds_ok in H as [? ->]. split_target.
  - unfold request_Update. intros [H ->]%Body_ok. apply VersionedParams_ok in H as [H ->].
    apply named_ok in H as (? & ? & ->). split_target.
  - unfold request_UpdateStatus. intros [H ->]%Body_ok. apply VersionedParams_ok in H as [H ->].
    apply sub_ok in H as (? & ? & _ & ->). split_target.
    by apply (bool_decide_unpack _).
  - unfold request_Delete. intros [H ->]%Body_ok.
    apply named_ok in H as (? & ? & ->). split_target.
  - unfold request_DeleteCollection. intros [H ->]%Body_ok. apply Timeout_ok in H as [H ->].
    apply VersionedParams_ok in H as [H ->]. apply on_builds_ok in H as [? ->]. split_target.
  - unfold request_Patch. intros [H ->]%Body_ok. apply VersionedParams_ok in H as [H ->].
    apply sub_ok in H as (? & ? & Hs & ->). split_target.
    by apply segments_normal.
Qed.
(** ** Paths *)

(** The components of the path of an operation. *)
Definition op_path (ns : string) (op : operation) : list string :=
  ["apis"; SchemeGroup; SchemeVersion]
  ++ (if bool_decide (ns = "") then [] else ["namespaces"; ns])
  ++ ["containerimagebuilds"] ++ option_list (op_name op) ++ op_subs op.

Lemma forge_path_normal : normal_path forge_path ["apis"; SchemeGroup; SchemeVersion].
Proof. split_and!; [done|by apply (bool_decide_unpack _)|reflexivity]. Qed.

(** The path of a request whose fields are known. *)
Lemma URL_path_components r base ns res name subs :
  normal_path (rq_pathPrefix r) base → rq_namespaceSet r = true → rq_namespace r = ns →
  segment ns → rq_resource r = res → ToLower res = res → normal res →
  rq_resourceName r = default "" name → Forall normal (option_list name) →
  rq_subresource r = strings_Join subs "/" → Forall normal subs → (name = None → subs = []) →
  normal_path (URL_path r)
    (base ++ (if bool_decide (ns = "") then [] else ["namespaces"; ns])
     ++ [res] ++ option_list name ++ subs).
Proof.
  intros Hb Hset Hns Hsns Hres Hl Hnres Hname Hn Hsub Hsubs Hno. unfold URL_path.
  rewrite Hset, Hns, Hres, Hl, Hname, Hsub. cbn [andb].
  assert (∃ p cs, (if bool_decide (ns ≠ "") then filepath_Join [rq_pathPrefix r; "namespaces"; ns]
                   else rq_pathPrefix r) = p ∧ normal_path p cs ∧
                  cs = base ++ (if bool_decide (ns = "") then [] else ["namespaces"; ns]))
    as (p & cs & -> & Hp & Ecs).
  { destruct (decide (ns = "")) as [->|Hne]; [by eexists _, _; rewrite app_nil_r|].
    rewrite (bool_decide_eq_true_2 (ns ≠ "")), bool_decide_eq_false_2 by done.
    destruct Hsns as [|Hsns]; [done|]. eexists _, _. split; [done|]. split; [|done].
    apply Join_grandchild; [done|by apply (bool_decide_unpack _)|done]. }
  rewrite (bool_decide_eq_true_2 (res ≠ "")) by (by destruct Hnres).
  pose proof (Join_child p cs res Hp Hnres) as Hp2.
  rewrite app_assoc, <- Ecs. rewrite app_assoc.
  destruct name as [n|]; cbn [option_list default].
  - change (option_list (Some n)) with [n] in *. rewrite Forall_singleton in Hn.
    rewrite (bool_decide_eq_true_2 (n ≠ "")) by apply Hn. cbn [orb].
    by apply Join_name.
  - change (option_list (@None string)) with (@nil string). rewrite (Hno eq_refl), !app_nil_r.
    exact Hp2.
Qed.

Lemma op_path_normal ns op :
  rq_err (request_of ns op) = None → normal_path (URL_path (request_of ns op)) (op_path ns op).
Proof.
  intros (Hns & Hn & Hs & E)%request_target. unfold op_path.
  revert E. generalize (request_of ns op) as r.
  intros r [= _ Hp E1 E2 E3 E4 E5]. apply (URL_path_components r); try done.
  - rewrite Hp. apply forge_path_normal.
  - by apply (bool_decide_unpack _).
  - by destruct op.
Qed.

Lemma preflight_named r :
  rq_namespaceSet r = true → rq_namespace r = "" → rq_verb r ∈ ["GET"; "PUT"; "DELETE"] →
  rq_resourceName r ≠ "" → requestPreflightCheck r ≠ None.
Proof.
  intros Hs Hns Hv Hn. unfold requestPreflightCheck. rewrite Hs, Hns. cbn [negb].
  rewrite (bool_decide_eq_false_2 ("" ≠ "")) by auto. case_bool_decide; [done|].
  by rewrite !bool_decide_eq_true_2.
Qed.

Lemma normal_path_split p cs : normal_path p cs → Split p slash = "" :: cs.
Proof.
  intros (Hne & Hc & ->).
  assert ("/" +:+ strings_Join cs "/" = strings_Join ("" :: cs) "/") as -> by (by destruct cs).
  apply Split_Join_slash; [done|]. constructor; [by apply (bool_decide_unpack _)|].
  eapply Forall_impl; [exact Hc|]. by intros ? (_&_&_&?).
Qed.

Lemma Split_path ns op :
  rq_err (request_of ns op) = None → Split (URL_path (request_of ns op)) slash = "" :: op_path ns op.
Proof. intros E. by apply normal_path_split, op_path_normal. Qed.

Lemma blank_namespace op :
  refused (request_of "" op) = None → op_name op = None ∨ op_verb op = "PATCH".
Proof.
  unfold refused. destruct (rq_err (request_of "" op)) eqn:E; [done|].
  apply request_target in E as (_ & Hn & _ & E). revert E.
  generalize (request_of "" op) as r. intros r [= Ev _ Ens Eset _ En _] Hpre.
  destruct op; cbn [op_name op_verb] in *; auto; exfalso; revert Hpre;
    apply preflight_named; rewrite ?Ev, ?En; try done; try set_solver;
    by inversion Hn as [|? ? (? & _)].
Qed.

(** Where a request of the client goes.  Whatever the namespace and the name
    are, a request that is sent has the path of the builds of the namespace, with
    the name and the subresource as components of their own; no name can reach
    another resource or another namespace.  Without a namespace only requests on
    all builds, and patches, are sent. *)
Theorem request_confined ns op :
  refused (request_of ns op) = None →
  Split (URL_path (request_of ns op)) slash = "" :: op_path ns op ∧
  (ns = "" → op_name op = None ∨ op_verb op = "PATCH").
Proof.
  intros H. split; [|intros ->; by apply blank_namespace].
  apply Split_path. unfold refused in H. by destruct (rq_err _).
Qed.
End operations.

(** ** The role of a build *)

(** What the authorizer of the API server is asked, as its documentation says. *)
Record attributes := mkAttributes {
  at_verb : string;
  at_group : string;
  at_resource : string;
  at_namespace : string;
  at_name : string;
}.

Definition named_verb (method : string) : string :=
  if bool_decide (method = "GET") then "get"
  else if bool_decide (method = "PUT") then "update"
  else if bool_decide (method = "PATCH") then "patch"
  else if bool_decide (method = "DELETE") then "delete" else "".

Definition collection_verb (method : string) : string :=
  if bool_decide (method = "GET") then "list"
  else if bool_decide (method = "POST") then "create"
  else if bool_decide (method = "DELETE") then "deletecollection" else "".

(** The path conventions: [/apis/GROUP/VERSION/namespaces/NS/RESOURCE/NAME/SUB],
    and [/api/VERSION/...] for the core group. *)
Definition namespaced (method group : string) (comps : list string) : option attributes :=
  match comps with
  | kw :: ns :: res :: rest =>
      if bool_decide (kw = "namespaces") then
        match rest with
        | [] => Some (mkAttributes (collection_verb method) group res ns "")
        | name :: subs =>
            Some (mkAttributes (named_verb method) group (strings_Join (res :: subs) "/") ns name)
        end
      else None
  | _ => None
  end.

Definition request_attributes (r : Request) : option attributes :=
  match Split (URL_path r) slash with
  | _ :: root :: rest =>
      if bool_decide (root = "apis") then
        match rest with
        | group :: _ :: comps => namespaced (rq_verb r) group comps
        | _ => None
        end
      else match rest with
           | _ :: comps => namespaced (rq_verb r) "" comps
           | _ => None
           end
  | _ => None
  end.

(** A rule covers a request when it lists its group, resource and verb, and its
    name if it lists names. *)
Definition rule_covers (rule : PolicyRule) (a : attributes) : bool :=
  bool_decide (at_group a ∈ pr_APIGroups rule) && bool_decide (at_resource a ∈ pr_Resources rule)
  && bool_decide (at_verb a ∈ pr_Verbs rule)
  && (bool_decide (pr_ResourceNames rule = []) || bool_decide (at_name a ∈ pr_ResourceNames rule)).

(** A role grants what its rules cover in its own namespace. *)
Definition role_grants (role : object) (a : option attributes) : bool :=
  match a, obj_body role with
  | Some a, Role rules =>
      bool_decide (at_namespace a = om_Namespace (obj_meta role)) && existsb (λ r, rule_covers r a) rules
  | _, _ => false
  end.

Section role.
Context {CO : Codec}.

(** The operations the build job performs on its resource. *)
Definition job_operation (op : operation) : bool :=
  match op with
  | OpGet _ _ | OpUpdateStatus _ _ => true
  | _ => false
  end.

(** The rules every role has. *)
Definition base_rules : list PolicyRule := take 3 (role_rules (mkBuildJobConfig "" "" "" "" ∅ ∅ ∅ "" false
  false "" "" None [] [] [] false [] [])).

Lemma rules_covers jc a :
  at_group a ∈ [SchemeGroup; ""] →
  existsb (λ r, rule_covers r a) (role_rules jc) = existsb (λ r, rule_covers r a) base_rules.
Proof.
  intros Hg. unfold role_rules. rewrite !existsb_app.
  assert (∀ g rs vs ns (b : bool), g ∉ [SchemeGroup; ""] →
    existsb (λ r, rule_covers r a) (if b then [mkPolicyRule [g] rs vs ns] else []) = false) as H.
  { intros g rs vs ns [] Hng; [|done]. simpl. unfold rule_covers. cbn [pr_APIGroups].
    rewrite bool_decide_eq_false_2; [done|]. intros E%list_elem_of_singleton. by rewrite E in Hg. }
  rewrite !H, !orb_false_r by (by apply (bool_decide_unpack _)). reflexivity.
Qed.

Lemma base_rules_verb a :
  at_verb a ∉ ["get"; "update"] → existsb (λ r, rule_covers r a) base_rules = false.
Proof.
  intros Hv. unfold base_rules, role_rules. simpl. unfold rule_covers. cbn [pr_Verbs].
  rewrite (bool_decide_eq_false_2 (at_verb a ∈ ["get"])), (bool_decide_eq_false_2 (at_verb a ∈ ["update"]))
    by set_solver. by rewrite !andb_false_r.
Qed.

(** The attributes of an operation in a namespace. *)
Definition op_attributes (ns : string) (op : operation) : attributes :=
  match op_name op with
  | Some name =>
      mkAttributes (named_verb (op_verb op)) SchemeGroup
        (strings_Join ("containerimagebuilds" :: op_subs op) "/") ns name
  | None => mkAttributes (collection_verb (op_verb op)) SchemeGroup "containerimagebuilds" ns ""
  end.

Lemma request_attributes_op ns op :
  rq_err (request_of ns op) = None → ns ≠ "" →
  request_attributes (request_of ns op) = Some (op_attributes ns op).
Proof.
  intros E Hns. unfold request_attributes. rewrite (Split_path ns op E).
  apply request_target in E as (_ & _ & _ & E). revert E. generalize (request_of ns op) as r.
  intros r [= -> _ _ _ _ _ _]. unfold op_path. rewrite bool_decide_eq_false_2 by done.
  unfold op_attributes. destruct op; reflexivity.
Qed.

Lemma blank_attributes op :
  refused (request_of "" op) = None → request_attributes (request_of "" op) = None.
Proof.
  unfold refused. destruct (rq_err _) eqn:E; [done|]. intros _. unfold request_attributes.
  rewrite (Split_path "" op E). unfold op_path. rewrite bool_decide_eq_true_2 by done.
  cbn [app]. rewrite bool_decide_eq_true_2 by done. unfold namespaced.
  destruct (option_list (op_name op) ++ op_subs op) as [|x [|y l]]; done.
Qed.

(** C15: Least privilege.  Of the requests the typed client can send, the role the
    controller creates for a build grants the read of a build and the update of a
    status, in the namespace of the build, and nothing else. *)
Theorem role_exact jc cib ns op :
  refused (request_of ns op) = None →
  role_grants (role jc cib) (request_attributes (request_of ns op)) =
  bool_decide (ns = cib_Namespace cib) && job_operation op.
Proof.
  intros H. destruct (decide (ns = "")) as [->|Hns].
  - rewrite (blank_attributes op H). assert (job_operation op = false) as ->; [|by rewrite andb_false_r].
    apply blank_namespace in H. destruct op; naive_solver.
  - unfold refused in H. destruct (rq_err _) eqn:E; [done|].
    rewrite (request_attributes_op _ _ E Hns). unfold role_grants, role. cbn [obj_body obj_meta].
    rewrite rules_covers by (unfold op_attributes; destruct (op_name op); by left).
    assert (at_namespace (op_attributes ns op) = ns) as -> by (unfold op_attributes; by destruct (op_name op)).
    f_equal. destruct op; try reflexivity; by apply base_rules_verb, (bool_decide_unpack _).
Qed.

Lemma secret_target ns name opts :
  rq_err (request_GetSecret ns name opts) = None →
  segment ns ∧ normal name ∧
  target_of (request_GetSecret ns name opts) = mkTarget "GET" core_path ns true "secrets" name "".
Proof.
  unfold request_GetSecret. intros [H ->]%VersionedParams_ok.
  apply Name_ok in H as (H & Hne & Hv & ->). apply Resource_ok in H as [H E1].
  apply Namespace_ok in H as (_ & Hns & E2).
  split; [by apply valid_segment|]. split; [by destruct (valid_segment name Hv)|]. revert E1 E2.
  generalize (Resource "secrets" (Namespace ns (NewRequest core_path "GET"))) as r1.
  generalize (Namespace ns (NewRequest core_path "GET")) as r2.
  intros r2 r1 [= -> -> -> -> -> _ ->] [= -> -> -> -> _ _ ->]. done.
Qed.

(** The job reads a secret of a registry with its role if and only if the
    secret is in the namespace of the build. *)
Theorem role_secrets jc cib ns name opts :
  refused (request_GetSecret ns name opts) = None →
  role_grants (role jc cib) (request_attributes (request_GetSecret ns name opts)) =
  bool_decide (ns = cib_Namespace cib).
Proof.
  unfold refused. destruct (rq_err _) eqn:E; [done|].
  apply secret_target in E as (Hns & Hn & E). revert E. generalize (request_GetSecret ns name opts) as r.
  intros r [= Ev Ep Ens Eset Eres En Esub] Hpre.
  destruct Hns as [->|Hns].
  { exfalso. revert Hpre. apply preflight_named; rewrite ?Ev, ?En; try done; [set_solver|apply Hn]. }
  assert (ns ≠ "") as Hne by apply Hns.
  assert (request_attributes r = Some (mkAttributes "get" "" "secrets" ns name)) as ->.
  { unfold request_attributes.
    rewrite (normal_path_split _ (["api"; "v1"] ++ ["namespaces"; ns] ++ ["secrets"] ++ [name] ++ []));
      [by rewrite Ev|].
    pose proof (URL_path_components r ["api"; "v1"] ns "secrets" (Some name) []) as H.
    rewrite bool_decide_eq_false_2 in H by done. apply H; try done.
    - rewrite Ep. split_and!; [done|by apply (bool_decide_unpack _)|reflexivity].
    - by right.
    - by apply (bool_decide_unpack _).
    - by apply Forall_singleton. }
  unfold role_grants, role. cbn [obj_body obj_meta]. rewrite rules_covers by (by right; left).
  cbn [at_namespace]. apply andb_true_r.
Qed.
End role.

(** ** Concrete requests *)

Module ClientSample.
#[local] Instance codec : Codec := {|
  EncodeParameters o :=
    match o with
    | OfList l => inr (if lo_Watch l then {[ "watch" := ["true"] ]} else ∅)
    | _ => inr ∅
    end;
  EncodeBuild cib := inr (cib_Name cib);
  EncodeDelete o := inr (del_PropagationPolicy o);
|}.

Definition spec : ContainerImageBuildSpec :=
  mkSpec "img" "http://ctx" 0 ["reg.io"] [] [] ∅ "1" "" no_resources 0 0 ∅ false false "" [].
Definition build : ContainerImageBuild :=
  mkBuild (mkObjectMeta "b" "ns" "b" "" "" None ∅ [] 0 None) spec (mkStatus "" "" [] 0 "" None None).
Definition jobConfig : BuildJobConfig :=
  mkBuildJobConfig "forge:1" "" "" "" ∅ ∅ ∅ "" false true "psp" "" None [] [] [] false [] [].

Example status_path :
  URL_path (request_UpdateStatus "ns" build (UpdateOptions ""))
  = "/apis/forge.dominodatalab.com/v1alpha1/namespaces/ns/containerimagebuilds/b/status".
Proof. reflexivity. Qed.

Example traversal_refused :
  Error <$> refused (request_Get "ns" "../secrets" (GetOptions ""))
  = Some (("invalid resource name " +:+ fmt_q "../secrets") +:+ ": [may not contain '/']").
Proof. reflexivity. Qed.

(** Without a namespace a deletion of all builds reaches every namespace. *)
Example delete_everywhere :
  let r := request_DeleteCollection "" (mkDeleteOptions None "") (mkListOptions "" "" false None) in
  refused r = None ∧
  URL_path r = "/apis/forge.dominodatalab.com/v1alpha1/containerimagebuilds".
Proof. split; reflexivity. Qed.

(** The product of a timeout in seconds wraps. *)
Example timeout_wraps :
  rq_timeout (request_List "ns" (mkListOptions "" "" false (Some 9223372037%Z))) = (-9223372036709551616)%Z.
Proof. reflexivity. Qed.

Lemma request_confined_witness :
  Split (URL_path (request_of "ns" (OpUpdateStatus build (UpdateOptions "")))) slash
  = [""; "apis"; SchemeGroup; "v1alpha1"; "namespaces"; "ns"; "containerimagebuilds"; "b"; "status"].
Proof. exact (proj1 (request_confined "ns" (OpUpdateStatus build (UpdateOptions "")) eq_refl)). Defined.

Lemma role_exact_witness :
  role_grants (role jobConfig build)
    (request_attributes (request_of "ns" (OpUpdateStatus build (UpdateOptions "")))) = true ∧
  role_grants (role jobConfig build)
    (request_attributes (request_of "ns" (OpUpdate build (UpdateOptions "")))) = false.
Proof.
  split.
  - exact (role_exact jobConfig build "ns" (OpUpdateStatus build (UpdateOptions "")) eq_refl).
  - exact (role_exact jobConfig build "ns" (OpUpdate build (UpdateOptions "")) eq_refl).
Defined.

Lemma role_secrets_witness :
  role_grants (role jobConfig build)
    (request_attributes (request_GetSecret "other" "pull" (GetOptions ""))) = false.
Proof. exact (role_secrets jobConfig build "other" "pull" (GetOptions "") eq_refl). Defined.
End ClientSample.
