(* ===== verification/Scheme.v ===== *)
(** * Scheme: the kinds the program knows

    [api/forge/v1alpha1/groupversion_info.go] with the registration of the types,
    and the schemes of [internal/clientset/scheme] and [internal/clientset/fake]:
    a scheme maps kinds to types and types to their kinds.  Registering a kind for
    another type panics. *)
From stdpp Require Import gmap strings list.
From S2P Require Import Prelude Go GoStd Types Kube Resources Clientset.
#[local] Open Scope forge_scope.

(** A group and a version; a kind or a resource of them. *)
Abbreviation GroupVersion := (string * string)%type.
Abbreviation GroupVersionKind := (string * string * string)%type.
Abbreviation GroupVersionResource := (string * string * string)%type.

(** ** Maps with few long keys *)

Section assoc.
Context {K V : Type} `{EqDecision K}.

Fixpoint assoc (l : list (K * V)) (k : K) : option V :=
  match l with
  | [] => None
  | (k', v) :: l' => if bool_decide (k' = k) then Some v else assoc l' k
  end.

Fixpoint assoc_set (l : list (K * V)) (k : K) (v : V) : list (K * V) :=
  match l with
  | [] => [(k, v)]
  | (k', v') :: l' => if bool_decide (k' = k) then (k, v) :: l' else (k', v') :: assoc_set l' k v
  end.

Lemma assoc_set_lookup l k v k' :
  assoc (assoc_set l k v) k' = if bool_decide (k = k') then Some v else assoc l k'.
Proof.
  induction l as [|[a b] l IH]; cbn [assoc_set assoc]; [done|].
  repeat (case_bool_decide; simplify_eq; cbn [assoc]; try done).
Qed.

Lemma assoc_set_eq l k v : assoc (assoc_set l k v) k = Some v.
Proof. rewrite assoc_set_lookup. by rewrite bool_decide_eq_true_2. Qed.

Lemma assoc_set_ne l k v k' : k ≠ k' → assoc (assoc_set l k v) k' = assoc l k'.
Proof. intros H. rewrite assoc_set_lookup. by rewrite bool_decide_eq_false_2. Qed.

Lemma assoc_set_id l k v : assoc l k = Some v → assoc_set l k v = l.
Proof.
  induction l as [|[a b] l IH]; [done|]. cbn [assoc assoc_set].
  case_bool_decide as E; [subst; by intros [= ->]|]. intros H. by rewrite IH.
Qed.
End assoc.

(** ** Schemes *)

(** A Go type by its package and its name. *)
Abbreviation go_type := (string * string)%type.

(** [runtime.Scheme]. *)
Record Scheme := mkScheme {
  gvkToType : list (GroupVersionKind * go_type);
  typeToGVK : list (go_type * list GroupVersionKind);
  unversionedTypes : list (go_type * GroupVersionKind);
  unversionedKinds : list (string * go_type);
}.

Definition NewScheme : Scheme := mkScheme [] [] [] [].

(** A type other than [t] is registered. *)
Definition conflicts (t : go_type) (registered : option go_type) : bool :=
  match registered with Some old => negb (bool_decide (old = t)) | None => false end.

Definition AddKnownTypeWithName (gvk : GroupVersionKind) (t : go_type) (s : Scheme) : outcome Scheme :=
  if bool_decide (gvk.1.2 = "") then Panic "version is required on all types"
  else if conflicts t (assoc (gvkToType s) gvk)
  then Panic "Double registration of different types"
  else
    let kinds := default [] (assoc (typeToGVK s) t) in
    Ok (mkScheme (assoc_set (gvkToType s) gvk t)
          (if bool_decide (gvk ∈ kinds) then typeToGVK s else assoc_set (typeToGVK s) t (kinds ++ [gvk]))
          (unversionedTypes s) (unversionedKinds s)).

(** The name of the type is the kind. *)
Fixpoint AddKnownTypes (gv : GroupVersion) (types : list go_type) (s : Scheme) : outcome Scheme :=
  match types with
  | [] => Ok s
  | t :: types' =>
      let? s := AddKnownTypeWithName (gv.1, gv.2, t.2) t s in AddKnownTypes gv types' s
  end.

Fixpoint mark_unversioned (gv : GroupVersion) (types : list go_type) (s : Scheme) : outcome Scheme :=
  match types with
  | [] => Ok s
  | t :: types' =>
      if conflicts t (assoc (unversionedKinds s) t.2)
      then Panic "already registered as unversioned kind"
      else
        mark_unversioned gv types'
          (mkScheme (gvkToType s) (typeToGVK s) (assoc_set (unversionedTypes s) t (gv.1, gv.2, t.2))
             (assoc_set (unversionedKinds s) t.2 t))
  end.

Definition AddUnversionedTypes (gv : GroupVersion) (types : list go_type) (s : Scheme) : outcome Scheme :=
  let? s := AddKnownTypes gv types s in mark_unversioned gv types s.

Definition metav1_types (names : list string) : list go_type := (λ n, ("meta/v1", n)) <$> names.

(** [metav1.AddToGroupVersion]. *)
Definition AddToGroupVersion (gv : GroupVersion) (s : Scheme) : outcome Scheme :=
  let? s := AddKnownTypeWithName (gv.1, gv.2, "WatchEvent") ("meta/v1", "WatchEvent") s in
  let? s := AddKnownTypeWithName (gv.1, "__internal", "WatchEvent") ("meta/v1", "InternalEvent") s in
  let? s := AddKnownTypes gv (metav1_types ["ListOptions"; "GetOptions"; "DeleteOptions"; "CreateOptions";
                                            "UpdateOptions"; "PatchOptions"]) s in
  AddUnversionedTypes ("", "v1")
    (metav1_types ["Status"; "APIVersions"; "APIGroupList"; "APIGroup"; "APIResourceList"]) s.

(** ** The types of the program *)

Definition SchemeGroupVersion : GroupVersion := (SchemeGroup, SchemeVersion).

Definition build_type : go_type := ("forge/v1alpha1", "ContainerImageBuild").
Definition build_list_type : go_type := ("forge/v1alpha1", "ContainerImageBuildList").

(** The functions [SchemeBuilder.Register] collected, in their order. *)
Definition SchemeBuilder : list (Scheme → outcome Scheme) :=
  [λ s, let? s := AddKnownTypes SchemeGroupVersion [build_type; build_list_type] s in
        AddToGroupVersion SchemeGroupVersion s].

(** [AddToScheme]. *)
Fixpoint apply_builders (sb : list (Scheme → outcome Scheme)) (s : Scheme) : outcome Scheme :=
  match sb with
  | [] => Ok s
  | f :: sb' => let? s := f s in apply_builders sb' s
  end.

Definition AddToScheme : Scheme → outcome Scheme := apply_builders SchemeBuilder.

(** [init] of [internal/clientset/scheme], and of [internal/clientset/fake] for a
    scheme of its own. *)
Definition clientset_scheme : outcome Scheme :=
  let? s := AddToGroupVersion ("", "v1") NewScheme in AddToScheme s.

Definition fake_scheme : outcome Scheme :=
  let? s := AddToGroupVersion ("", "v1") NewScheme in AddToScheme s.

(** [Scheme.New]: the type of an object of a kind. *)
Definition Scheme_New (s : Scheme) (gvk : GroupVersionKind) : outcome go_type :=
  match assoc (gvkToType s) gvk with
  | Some t => Ok t
  | None =>
      match assoc (unversionedKinds s) gvk.2 with
      | Some t => Ok t
      | None => Err (New ("no kind " +:+ fmt_q gvk.2 +:+ " is registered for version "
                          +:+ fmt_q (gvk.1.1 +:+ "/" +:+ gvk.1.2)))
      end
  end.

(** [Scheme.ObjectKinds]. *)
Definition ObjectKinds (s : Scheme) (t : go_type) : outcome (list GroupVersionKind) :=
  match assoc (typeToGVK s) t with
  | Some gvks => Ok gvks
  | None => Err (New ("no kind is registered for the type " +:+ t.1 +:+ "." +:+ t.2))
  end.

(** ** Schemes are consistent *)

(** Every kind of a type is known as a kind of this type, once, and every known
    kind is one of its type. *)
Record consistent (s : Scheme) : Prop := {
  kinds_known t gvks gvk : assoc (typeToGVK s) t = Some gvks → gvk ∈ gvks → assoc (gvkToType s) gvk = Some t;
  known_kinds gvk t : assoc (gvkToType s) gvk = Some t →
    ∃ gvks, assoc (typeToGVK s) t = Some gvks ∧ gvk ∈ gvks;
  kinds_once t gvks : assoc (typeToGVK s) t = Some gvks → NoDup gvks;
}.

Lemma NewScheme_consistent : consistent NewScheme.
Proof. split; [intros t gvks gvk H|intros gvk t H|intros t gvks H]; done. Qed.

(** ** Registration *)

Section registration.
Implicit Types (s : Scheme) (gvk : GroupVersionKind) (t : go_type).

Lemma AddKnownTypeWithName_known gvk t s s' :
  consistent s → AddKnownTypeWithName gvk t s = Ok s' →
  consistent s' ∧ gvkToType s' = assoc_set (gvkToType s) gvk t.
Proof.
  intros [H1 H2 H3]. unfold AddKnownTypeWithName. case_bool_decide; [done|].
  destruct (conflicts t _) eqn:Hc; [done|]. intros [= <-]. set (kinds := default [] (assoc (typeToGVK s) t)).
  assert (∀ g, g ∈ kinds → assoc (gvkToType s) g = Some t) as Hk.
  { intros g Hg. unfold kinds in Hg. destruct (assoc (typeToGVK s) t) eqn:Et; [by eapply H1|by apply elem_of_nil in Hg]. }
  assert (∀ t', t' ≠ t → assoc (gvkToType s) gvk ≠ Some t') as Hf.
  { intros t' Ht E. rewrite E in Hc. simpl in Hc. by rewrite bool_decide_eq_false_2 in Hc. }
  split; [|done]. case_bool_decide as Hn.
  { assert (assoc_set (gvkToType s) gvk t = gvkToType s) as E by (by apply assoc_set_id, Hk).
    split; simpl; rewrite ?E; [exact H1|exact H2|exact H3]. }
  split; simpl.
  - intros t' gvks g. destruct (decide (t' = t)) as [->|Hne].
    + rewrite assoc_set_eq. intros [= <-] [Hg| ->%list_elem_of_singleton]%elem_of_app;
        [|by rewrite assoc_set_eq].
      rewrite assoc_set_ne by (by intros ->). by apply Hk.
    + rewrite assoc_set_ne by done. intros Ht Hg. pose proof (H1 _ _ _ Ht Hg) as Hl.
      rewrite assoc_set_ne by (intros ->; by apply (Hf t')). exact Hl.
  - intros g t'. destruct (decide (g = gvk)) as [->|Hne].
    + rewrite assoc_set_eq. intros [= <-]. exists (kinds ++ [gvk]). rewrite assoc_set_eq. set_solver.
    + rewrite assoc_set_ne by done. intros (gvks & Hg & Hin)%H2.
      destruct (decide (t' = t)) as [->|Hnt].
      * exists (kinds ++ [gvk]). rewrite assoc_set_eq. unfold kinds. rewrite Hg. simpl. set_solver.
      * exists gvks. by rewrite assoc_set_ne.
  - intros t' gvks. destruct (decide (t' = t)) as [->|Hne].
    + rewrite assoc_set_eq. intros [= <-]. apply NoDup_app. split_and!.
      * unfold kinds. destruct (assoc (typeToGVK s) t) eqn:Et; [by eapply H3|constructor].
      * set_solver.
      * apply NoDup_singleton.
    + rewrite assoc_set_ne by done. apply H3.
Qed.

Lemma AddKnownTypes_consistent gv types s s' :
  consistent s → AddKnownTypes gv types s = Ok s' → consistent s'.
Proof.
  revert s. induction types as [|t types IH]; intros s Hs; [by intros [= <-]|].
  cbn [AddKnownTypes]. destruct (AddKnownTypeWithName _ t s) as [s1| |] eqn:E; [|done..].
  apply AddKnownTypeWithName_known in E as [Hs1 _]; [|done]. by apply IH.
Qed.

(** Unversioned types are extra. *)
Lemma mark_unversioned_consistent gv types s s' :
  consistent s → mark_unversioned gv types s = Ok s' → consistent s'.
Proof.
  revert s. induction types as [|t types IH]; intros s Hs; [by intros [= <-]|].
  cbn [mark_unversioned]. destruct (conflicts t _); [done|]. apply IH. destruct Hs as [H1 H2 H3].
  by split.
Qed.

Lemma AddToGroupVersion_consistent gv s s' :
  consistent s → AddToGroupVersion gv s = Ok s' → consistent s'.
Proof.
  intros Hs. unfold AddToGroupVersion, AddUnversionedTypes.
  destruct (AddKnownTypeWithName _ _ s) as [s1| |] eqn:E1; [|done..]. cbn [obind].
  apply AddKnownTypeWithName_known in E1 as [H1 _]; [|done].
  destruct (AddKnownTypeWithName _ _ s1) as [s2| |] eqn:E2; [|done..]. cbn [obind].
  apply AddKnownTypeWithName_known in E2 as [H2 _]; [|done].
  destruct (AddKnownTypes gv _ s2) as [s3| |] eqn:E3; [|done..]. cbn [obind].
  apply AddKnownTypes_consistent in E3; [|done].
  destruct (AddKnownTypes _ _ s3) as [s4| |] eqn:E4; [|done..]. cbn [obind].
  apply AddKnownTypes_consistent in E4; [|done]. by apply mark_unversioned_consistent.
Qed.

Lemma AddToScheme_consistent s s' : consistent s → AddToScheme s = Ok s' → consistent s'.
Proof.
  intros Hs. unfold AddToScheme, SchemeBuilder. cbn [apply_builders].
  destruct (AddKnownTypes _ _ s) as [s1| |] eqn:E1; [|done..]. cbn [obind].
  apply AddKnownTypes_consistent in E1; [|done].
  destruct (AddToGroupVersion _ s1) as [s2| |] eqn:E2; [|done..]. cbn [obind]. intros [= <-].
  by apply AddToGroupVersion_consistent in E2.
Qed.
End registration.

Definition build_kind : GroupVersionKind := (SchemeGroup, SchemeVersion, "ContainerImageBuild").
Definition build_list_kind : GroupVersionKind := (SchemeGroup, SchemeVersion, "ContainerImageBuildList").

(** The scheme the packages of the client set start with. *)
Definition clientset_types : Scheme := match clientset_scheme with Ok s => s | _ => NewScheme end.

Lemma clientset_scheme_Ok : clientset_scheme = Ok clientset_types.
Proof. vm_compute. reflexivity. Qed.

(** The fake knows the same types. *)
Lemma fake_scheme_Ok : fake_scheme = Ok clientset_types.
Proof. vm_compute. reflexivity. Qed.

Lemma clientset_scheme_consistent s : clientset_scheme = Ok s → consistent s.
Proof.
  unfold clientset_scheme. destruct (AddToGroupVersion _ NewScheme) as [s1| |] eqn:E1; [|done..].
  apply AddToGroupVersion_consistent in E1; [|apply NewScheme_consistent].
  cbn [obind]. by apply AddToScheme_consistent.
Qed.

(** The scheme of the client set: the packages start without panic, kinds and
    types agree, each of the two types of the program has the one kind of its
    group and version, and registering the types again changes nothing. *)
Theorem clientset_scheme_registered :
  clientset_scheme = Ok clientset_types ∧ consistent clientset_types ∧
  ObjectKinds clientset_types build_type = Ok [build_kind] ∧
  ObjectKinds clientset_types build_list_type = Ok [build_list_kind] ∧
  Scheme_New clientset_types build_kind = Ok build_type ∧
  Scheme_New clientset_types build_list_kind = Ok build_list_type ∧
  AddToScheme clientset_types = Ok clientset_types.
Proof.
  split; [exact clientset_scheme_Ok|]. split; [apply clientset_scheme_consistent, clientset_scheme_Ok|].
  split_and!; vm_compute; reflexivity.
Qed.

(** ** The scheme of the controller *)

(** [init] of [controllers/start.go]: the kinds of Kubernetes, which
    [clientgo_AddToScheme] adds, and those of the program; registering returns no
    error, it can only panic. *)
Definition controller_scheme (clientgo_AddToScheme : Scheme → outcome Scheme) : outcome Scheme :=
  let? s := clientgo_AddToScheme NewScheme in AddToScheme s.
