(* ===== verification/ClientConfig.v ===== *)
(** * ClientConfig: making the clients

    [internal/clientset/clientset.go] and the constructors of
    [typed/forge/v1alpha1/forge_client.go], with the parts of client-go that make
    a REST client and its rate limiter.  A limiter has an identity: clients that
    hold the same one share its tokens. *)
From stdpp Require Import gmap strings list.
From Stdlib Require Import ZArith SpecFloat.
From S2P Require Import Prelude Go GoStd Strconv Types Kube Resources Clientset Scheme.
#[local] Open Scope forge_scope.

(** ** Configurations *)

(** A token bucket; [lim_id] tells buckets apart. *)
Record limiter := mkLimiter {
  lim_id : nat;
  lim_qps : spec_float;
  lim_burst : Z;
}.

(** [rest.Config] as far as the constructors read or write it; [cf_Target] stands
    for the address, the credentials and the transport. *)
Record rest_Config := mkRestConfig {
  cf_Target : string;
  cf_APIPath : string;
  cf_GroupVersion : option GroupVersion;
  cf_Serializer : option string;
  cf_UserAgent : string;
  cf_QPS : spec_float;
  cf_Burst : Z;
  cf_RateLimiter : option limiter;
  cf_Timeout : Z;
}.

(** The clients. *)
Record RESTClient := mkRESTClient {
  rc_target : string;
  rc_path : string;
  rc_GroupVersion : GroupVersion;
  rc_UserAgent : string;
  rc_limiter : option limiter;
  rc_timeout : Z;
}.

Record ForgeV1alpha1Client := mkForgeClient { restClient : RESTClient }.
Record DiscoveryClient := mkDiscoveryClient { dc_restClient : option RESTClient; dc_LegacyPrefix : string }.

Record Clientset := mkClientset {
  cs_DiscoveryClient : DiscoveryClient;
  cs_forgeV1alpha1 : ForgeV1alpha1Client;
}.

(** ** client-go *)

Class RestHost := {
  (** [defaultServerUrlFor] and [TransportFor]: why a target cannot be used *)
  rest_target : rest_Config → option error;
  DefaultKubernetesUserAgent : string;
}.

Definition DefaultQPS : spec_float := float64_of 5.
Definition DefaultBurst : Z := 10.
Definition discoveryTimeout : Z := (32 * Second)%Z.

Definition positive_qps (qps : spec_float) : bool := SFltb (float64_of 0) qps.

(** The state is the number of limiters made so far. *)
Definition NewTokenBucketRateLimiter (qps : spec_float) (burst : Z) : M nat limiter :=
  λ n, (Ok (mkLimiter n qps burst), S n).

(** The limiter of a client: the one of the configuration, or one of its own. *)
Definition client_limiter (c : rest_Config) : M nat (option limiter) :=
  match cf_RateLimiter c with
  | Some l => ret (Some l)
  | None =>
      let qps := if SFeqb (cf_QPS c) (float64_of 0) then DefaultQPS else cf_QPS c in
      let burst := if (cf_Burst c =? 0)%Z then DefaultBurst else cf_Burst c in
      if positive_qps qps then let! l := NewTokenBucketRateLimiter qps burst in ret (Some l)
      else ret None
  end.

Section clients.
Context {RH : RestHost}.

(** [RESTClientFor] after its checks. *)
Definition make_client (gv : GroupVersion) (c : rest_Config) : M nat RESTClient :=
  do! lift_outcome (of_err (rest_target c)) in
  let! l := client_limiter c in
  ret (mkRESTClient (cf_Target c)
         (let gv := default ("", "") (cf_GroupVersion c) in
          DefaultVersionedAPIPath (cf_APIPath c) gv.1 gv.2) gv (cf_UserAgent c) l (cf_Timeout c)).

Definition RESTClientFor (c : rest_Config) : M nat RESTClient :=
  match cf_GroupVersion c with
  | None => throw (New "GroupVersion is required when initializing a RESTClient")
  | Some gv =>
      if bool_decide (cf_Serializer c = None)
      then throw (New "NegotiatedSerializer is required when initializing a RESTClient")
      else make_client gv c
  end.

Definition UnversionedRESTClientFor (c : rest_Config) : M nat RESTClient :=
  if bool_decide (cf_Serializer c = None)
  then throw (New "NegotiatedSerializer is required when initializing a RESTClient")
  else make_client (default ("meta.k8s.io", "v1") (cf_GroupVersion c)) c.

Definition setDiscoveryDefaults (c : rest_Config) : rest_Config :=
  mkRestConfig (cf_Target c) "" None (Some "universal")
    (if bool_decide (cf_UserAgent c = "") then DefaultKubernetesUserAgent else cf_UserAgent c)
    (cf_QPS c)
    (if (cf_Burst c =? 0)%Z && SFltb (cf_QPS c) (float64_of 100) then 100%Z else cf_Burst c)
    (cf_RateLimiter c)
    (if (cf_Timeout c =? 0)%Z then discoveryTimeout else cf_Timeout c).

(** [NewDiscoveryClientForConfig]. *)
Definition NewDiscoveryClientForConfig (c : rest_Config) : M nat DiscoveryClient :=
  let! client := UnversionedRESTClientFor (setDiscoveryDefaults c) in
  ret (mkDiscoveryClient (Some client) "/api").

(** An error becomes a panic. *)
Definition or_die {A} (m : M nat A) : M nat A := λ n,
  match m n with
  | (Err e, n') => (Panic (Error e), n')
  | r => r
  end.

(** ** The constructors of the program *)

Definition setConfigDefaults (c : rest_Config) : rest_Config :=
  mkRestConfig (cf_Target c) APIPath (Some SchemeGroupVersion) (Some "clientset")
    (if bool_decide (cf_UserAgent c = "") then DefaultKubernetesUserAgent else cf_UserAgent c)
    (cf_QPS c) (cf_Burst c) (cf_RateLimiter c) (cf_Timeout c).

(** [NewForConfig], [NewForConfigOrDie] and [New] of the group. *)
Definition forge_NewForConfig (c : rest_Config) : M nat ForgeV1alpha1Client :=
  let! client := RESTClientFor (setConfigDefaults c) in ret (mkForgeClient client).

Definition forge_NewForConfigOrDie (c : rest_Config) : M nat ForgeV1alpha1Client :=
  or_die (forge_NewForConfig c).

Definition forge_New (c : RESTClient) : ForgeV1alpha1Client := mkForgeClient c.

(** [ForgeV1alpha1Client.RESTClient] on a client that may be nil. *)
Definition forge_RESTClient (c : option ForgeV1alpha1Client) : option RESTClient := restClient <$> c.

Definition set_limiter (l : option limiter) (c : rest_Config) : rest_Config :=
  mkRestConfig (cf_Target c) (cf_APIPath c) (cf_GroupVersion c) (cf_Serializer c) (cf_UserAgent c)
    (cf_QPS c) (cf_Burst c) l (cf_Timeout c).

(** [NewForConfig] of the client set: one limiter for both clients. *)
Definition NewForConfig (c : rest_Config) : M nat Clientset :=
  let! c :=
    (if bool_decide (cf_RateLimiter c = None) && positive_qps (cf_QPS c) then
       if (cf_Burst c <=? 0)%Z then
         throw (New "burst is required to be greater than 0 when RateLimiter is not set and QPS is set to greater than 0")
       else let! l := NewTokenBucketRateLimiter (cf_QPS c) (cf_Burst c) in ret (set_limiter (Some l) c)
     else ret c) in
  let! forge := forge_NewForConfig c in
  let! discovery := NewDiscoveryClientForConfig c in
  ret (mkClientset discovery forge).

Definition NewForConfigOrDie (c : rest_Config) : M nat Clientset :=
  let! forge := forge_NewForConfigOrDie c in
  let! discovery := or_die (NewDiscoveryClientForConfig c) in
  ret (mkClientset discovery forge).

(** [New] of the client set. *)
Definition clientset_New (c : RESTClient) : Clientset :=
  mkClientset (mkDiscoveryClient (Some c) "/api") (forge_New c).

(** [Clientset.Discovery] on a client set that may be nil. *)
Definition Discovery (c : option Clientset) : option DiscoveryClient := cs_DiscoveryClient <$> c.

(** ** Limiters *)

Lemma make_client_inv gv c n r n' :
  make_client gv c n = (Ok r, n') →
  rc_target r = cf_Target c ∧ client_limiter c n = (Ok (rc_limiter r), n') ∧
  rc_path r = (let gv := default ("", "") (cf_GroupVersion c) in
               DefaultVersionedAPIPath (cf_APIPath c) gv.1 gv.2).
Proof.
  unfold make_client. intros ([] & n1 & H1 & (l & n2 & H2 & [= <- <-])%bind_Ok_inv)%bind_Ok_inv.
  by injection H1 as _ ->.
Qed.

Lemma forge_client c n f n' :
  forge_NewForConfig c n = (Ok f, n') →
  rc_target (restClient f) = cf_Target c ∧ rc_path (restClient f) = forge_path ∧
  client_limiter (setConfigDefaults c) n = (Ok (rc_limiter (restClient f)), n').
Proof.
  unfold forge_NewForConfig. intros (r & n1 & H & [= <- <-])%bind_Ok_inv.
  apply (make_client_inv SchemeGroupVersion (setConfigDefaults c)) in H as (Ht & Hl & Hp).
  split_and!; [exact Ht|exact Hp|exact Hl].
Qed.

Lemma discovery_client c n d n' :
  NewDiscoveryClientForConfig c n = (Ok d, n') →
  ∃ r, dc_restClient d = Some r ∧ rc_target r = cf_Target c ∧
       client_limiter (setDiscoveryDefaults c) n = (Ok (rc_limiter r), n').
Proof.
  unfold NewDiscoveryClientForConfig. intros (r & n1 & H & [= <- <-])%bind_Ok_inv. exists r.
  apply (make_client_inv ("meta.k8s.io", "v1") (setDiscoveryDefaults c)) in H as (Ht & Hl & _). done.
Qed.

(** The limiters of the two clients of a client set. *)
Definition limiters (cs : Clientset) : option (option limiter * option limiter) :=
  r ← dc_restClient (cs_DiscoveryClient cs);
  Some (rc_limiter (restClient (cs_forgeV1alpha1 cs)), rc_limiter r).

(** The clients of a client set.  The client of the builds talks to the target
    of the configuration, below the path of the group and version of the program.
    It shares its limiter with the discovery client: the one of the configuration,
    or one made for the rate and the burst of the configuration, which must be
    positive.  Only a configuration without rate leaves each client with the
    default limiter of its own, and a negative rate leaves them without. *)
Theorem NewForConfig_clients c n cs n' :
  NewForConfig c n = (Ok cs, n') →
  rc_target (restClient (cs_forgeV1alpha1 cs)) = cf_Target c ∧
  rc_path (restClient (cs_forgeV1alpha1 cs)) = forge_path ∧
  match cf_RateLimiter c with
  | Some l => limiters cs = Some (Some l, Some l) ∧ n' = n
  | None =>
      if positive_qps (cf_QPS c) then
        let l := mkLimiter n (cf_QPS c) (cf_Burst c) in
        limiters cs = Some (Some l, Some l) ∧ n' = S n ∧ (0 < cf_Burst c)%Z
      else
        ∃ burst burst',
          limiters cs =
          if SFeqb (cf_QPS c) (float64_of 0)
          then Some (Some (mkLimiter n DefaultQPS burst), Some (mkLimiter (S n) DefaultQPS burst'))
          else Some (None, None)
  end.
Proof.
  unfold NewForConfig.
  intros (c' & n1 & Hc & (f & n2 & (Ht & Hp & Hf)%forge_client &
          (d & n3 & (r & Hr & Htr & Hd)%discovery_client & [= <- <-])%bind_Ok_inv)%bind_Ok_inv)%bind_Ok_inv.
  assert (cf_Target c' = cf_Target c ∧ cf_QPS c' = cf_QPS c) as [Ec Eq].
  { revert Hc. case_match; [case_match; [done|]|]; by intros [= <- _]. }
  cbn [cs_forgeV1alpha1]. rewrite Ht, Hp, Ec. split; [done|]. split; [done|].
  unfold limiters. cbn [cs_forgeV1alpha1 cs_DiscoveryClient]. rewrite Hr. cbn [mbind option_bind].
  unfold client_limiter in Hf, Hd. cbn [setConfigDefaults setDiscoveryDefaults cf_RateLimiter cf_QPS] in Hf, Hd.
  rewrite Eq in Hf, Hd.
  destruct (cf_RateLimiter c) as [l|] eqn:El.
  - injection Hc as <- <-. rewrite El in Hf, Hd. injection Hf as <- <-. by injection Hd as <- <-.
  - destruct (positive_qps (cf_QPS c)) eqn:Ep.
    + rewrite bool_decide_eq_true_2 in Hc by done. cbn [andb] in Hc.
      destruct (cf_Burst c <=? 0)%Z eqn:Eb; [done|]. injection Hc as <- <-.
      injection Hf as <- <-. injection Hd as <- <-. apply Z.leb_gt in Eb. done.
    + rewrite andb_false_r in Hc. injection Hc as <- <-. rewrite El in Hf, Hd.
      destruct (SFeqb (cf_QPS c) (float64_of 0)).
      * injection Hf as <- <-. injection Hd as <- <-. by eexists _, _.
      * rewrite Ep in Hf, Hd. injection Hf as <- <-. injection Hd as <- <-. by exists 0%Z, 0%Z.
Qed.

(** The variant that panics on errors is another constructor.  A configuration
    with a rate and without a limiter gives each client a limiter of its own, so
    that together they send at twice the rate, and a burst that the other
    constructor refuses is accepted. *)
Theorem NewForConfigOrDie_limits c n cs n' :
  NewForConfigOrDie c n = (Ok cs, n') → cf_RateLimiter c = None → positive_qps (cf_QPS c) = true →
  (∃ l l', limiters cs = Some (Some l, Some l') ∧ lim_id l ≠ lim_id l' ∧
           lim_qps l = cf_QPS c ∧ lim_qps l' = cf_QPS c) ∧
  ((cf_Burst c ≤ 0)%Z → ∃ e, NewForConfig c n = (Err e, n)).
Proof.
  unfold NewForConfigOrDie, or_die, forge_NewForConfigOrDie, or_die. intros H Hl Hp.
  apply bind_Ok_inv in H as (f & n1 & Hf & (d & n2 & Hd & [= <- <-])%bind_Ok_inv).
  destruct (forge_NewForConfig c n) as [[?|?|?] ?] eqn:Ef; simplify_eq.
  destruct (NewDiscoveryClientForConfig c n1) as [[?|?|?] ?] eqn:Ed; simplify_eq.
  apply forge_client in Ef as (_ & _ & Ef). apply discovery_client in Ed as (r & Hr & _ & Ed).
  assert (SFeqb (cf_QPS c) (float64_of 0) = false) as Ez.
  { revert Hp. unfold positive_qps. by destruct (cf_QPS c) as [[]|[]| |[] m e]. }
  unfold client_limiter in Ef, Ed. cbn [setConfigDefaults setDiscoveryDefaults cf_RateLimiter cf_QPS] in Ef, Ed.
  rewrite Hl, Ez, Hp in Ef, Ed. injection Ef as El <-. injection Ed as El' <-. split.
  - unfold limiters. cbn [cs_forgeV1alpha1 cs_DiscoveryClient]. rewrite Hr. cbn [mbind option_bind].
    rewrite <- El, <- El'. eexists _, _. split; [done|]. cbn. split; [lia|done].
  - intros Hb. unfold NewForConfig. rewrite Hl, Hp, bool_decide_eq_true_2 by done. cbn [andb].
    rewrite (proj2 (Z.leb_le _ _)) by done. by eexists.
Qed.
End clients.

(** ** Concrete clients *)

Module ClientSample.
#[local] Instance host : RestHost := {| rest_target _ := None; DefaultKubernetesUserAgent := "forge" |}.
Definition config (qps burst : Z) : rest_Config :=
  mkRestConfig "https://10.0.0.1" "" None None "" (float64_of qps) burst None 0.

Lemma NewForConfig_clients_witness :
  ∃ cs, NewForConfig (config 20 30) 0 = (Ok cs, 1) ∧
    limiters cs = Some (Some (mkLimiter 0 (float64_of 20) 30), Some (mkLimiter 0 (float64_of 20) 30)).
Proof.
  eexists. split; [vm_compute; reflexivity|].
  refine (proj1 (proj2 (proj2 (NewForConfig_clients (config 20 30) 0 _ 1 _)))). vm_compute. reflexivity.
Defined.

Lemma NewForConfigOrDie_limits_witness :
  ∃ cs l l', NewForConfigOrDie (config 20 0) 0 = (Ok cs, 2) ∧
    limiters cs = Some (Some l, Some l') ∧ lim_id l ≠ lim_id l'.
Proof.
  eexists.
  destruct (NewForConfigOrDie_limits (RH:=host) (config 20 0) 0 _ 2 eq_refl eq_refl eq_refl) as [(l & l' & H1 & H2 & _) _].
  exists l, l'. split; [vm_compute; reflexivity|]. split; [exact H1|exact H2].
Defined.
End ClientSample.
