(* ===== verification/FakeClient.v ===== *)
(** * FakeClient: the client set for tests

    [internal/clientset/fake] and [typed/forge/v1alpha1/fake], with the object
    tracker of client-go they run on: objects by resource and name, watchers with
    bounded channels, and the reactions to the actions of a client. *)
From stdpp Require Import gmap strings list sorting.
From Stdlib Require Import ZArith Ascii.
From S2P Require Import Prelude Go GoStd Types Kube Resources Clientset Scheme.
#[local] Open Scope forge_scope.

(** ** The object tracker *)

Inductive event :=
| Added (b : ContainerImageBuild)
| Modified (b : ContainerImageBuild)
| Deleted (b : ContainerImageBuild).

(** [RaceFreeFakeWatcher]: the events in its channel, oldest first. *)
Record watcher := mkWatcher {
  wt_resource : GroupVersionResource;
  wt_namespace : string;
  wt_events : list event;
  wt_Stopped : bool;
}.

Definition DefaultChanSize : nat := 100.

Record tracker := mkTracker {
  tr_objects : list (GroupVersionResource * gmap NamespacedName ContainerImageBuild);
  tr_watchers : list watcher;
}.

Definition NewObjectTracker : tracker := mkTracker [] [].

Definition objects_at (t : tracker) (gvr : GroupVersionResource) : gmap NamespacedName ContainerImageBuild :=
  default ∅ (assoc (tr_objects t) gvr).

Definition set_objects (gvr : GroupVersionResource) (m : gmap NamespacedName ContainerImageBuild)
    (t : tracker) : tracker :=
  mkTracker (assoc_set (tr_objects t) gvr m) (tr_watchers t).

Definition resource_text (gvr : GroupVersionResource) : string :=
  if bool_decide (gvr.1.1 = "") then gvr.2 else gvr.2 +:+ "." +:+ gvr.1.1.

Definition NewNotFound (gvr : GroupVersionResource) (name : string) : error :=
  StatusError StatusReasonNotFound (resource_text gvr +:+ " " +:+ fmt_q name +:+ " not found").
Definition NewAlreadyExists (gvr : GroupVersionResource) (name : string) : error :=
  StatusError StatusReasonAlreadyExists (resource_text gvr +:+ " " +:+ fmt_q name +:+ " already exists").
Definition NewBadRequest (reason : string) : error := StatusError StatusReasonBadRequest reason.

(** The positions of the watchers of a resource in a namespace. *)
Definition watches (gvr : GroupVersionResource) (ns : string) (w : watcher) : bool :=
  bool_decide (wt_resource w = gvr) && bool_decide (wt_namespace w = ns).

Definition watches_of (gvr : GroupVersionResource) (ns : string) (ws : list watcher) : list nat :=
  List.filter (λ i, from_option (watches gvr ns) false (ws !! i)) (seq 0 (length ws)).

(** [getWatches]: those of the namespace, then those of all namespaces. *)
Definition getWatches (gvr : GroupVersionResource) (ns : string) (ws : list watcher) : list nat :=
  watches_of gvr ns ws ++ (if bool_decide (ns ≠ "") then watches_of gvr "" ws else []).

(** [Add], [Modify] and [Delete] of a watcher: a full channel panics. *)
Definition send (ev : event) (i : nat) : M tracker unit :=
  let! t := get in
  match tr_watchers t !! i with
  | Some w =>
      if wt_Stopped w then ret tt
      else if bool_decide (DefaultChanSize ≤ length (wt_events w)) then panic "channel full"
      else
        modify (λ t, mkTracker (tr_objects t)
          (<[i := mkWatcher (wt_resource w) (wt_namespace w) (wt_events w ++ [ev]) false]> (tr_watchers t)))
  | None => ret tt
  end.

Definition notify (gvr : GroupVersionResource) (ns : string) (ev : event) : M tracker unit :=
  let! t := get in for_each (send ev) (getWatches gvr ns (tr_watchers t)).

Definition set_namespace (ns : string) (b : ContainerImageBuild) : ContainerImageBuild :=
  let m := cib_ObjectMeta b in
  mkBuild (mkObjectMeta (om_Name m) ns (om_UID m) (om_ResourceVersion m) (om_SelfLink m) (om_Labels m) (om_Annotations m)
             (om_OwnerReferences m) (om_CreationTimestamp m) (om_DeletionTimestamp m))
    (cib_Spec b) (cib_Status b).

(** An object without a namespace gets the one of the request. *)
Definition placed (ns : string) (b : ContainerImageBuild) : ContainerImageBuild :=
  if bool_decide (cib_Namespace b = "") then set_namespace ns b else b.

(** [tracker.add]. *)
Definition tracker_add (gvr : GroupVersionResource) (obj : ContainerImageBuild) (ns : string)
    (replaceExisting : bool) : M tracker unit :=
  let obj := placed ns obj in
  if bool_decide (ns ≠ cib_Namespace obj) then
    throw (NewBadRequest ("request namespace does not match object namespace, request: " +:+ fmt_q ns
                          +:+ " object: " +:+ fmt_q (cib_Namespace obj)))
  else
    do! modify (λ t, set_objects gvr (objects_at t gvr) t) in
    let! t := get in
    let store t := set_objects gvr (<[cib_key obj := obj]> (objects_at t gvr)) t in
    match objects_at t gvr !! cib_key obj with
    | Some _ =>
        if replaceExisting then do! notify gvr ns (Modified obj) in modify store
        else throw (NewAlreadyExists gvr (cib_Name obj))
    | None =>
        if replaceExisting then throw (NewNotFound gvr (cib_Name obj))
        else do! modify store in notify gvr ns (Added obj)
    end.

Definition tracker_Create (gvr : GroupVersionResource) (obj : ContainerImageBuild) (ns : string) :=
  tracker_add gvr obj ns false.
Definition tracker_Update (gvr : GroupVersionResource) (obj : ContainerImageBuild) (ns : string) :=
  tracker_add gvr obj ns true.

Definition tracker_Get (gvr : GroupVersionResource) (ns name : string) : M tracker ContainerImageBuild :=
  let! t := get in
  match objects_at t gvr !! mkKey ns name with
  | Some b => ret b
  | None => throw (NewNotFound gvr name)
  end.

Definition tracker_Delete (gvr : GroupVersionResource) (ns name : string) : M tracker unit :=
  let! t := get in
  match objects_at t gvr !! mkKey ns name with
  | None => throw (NewNotFound gvr name)
  | Some b =>
      do! modify (λ t, set_objects gvr (delete (mkKey ns name) (objects_at t gvr)) t) in
      notify gvr ns (Deleted b)
  end.

Definition tracker_Watch (gvr : GroupVersionResource) (ns : string) : M tracker nat :=
  let! t := get in
  do! modify (λ t, mkTracker (tr_objects t) (tr_watchers t ++ [mkWatcher gvr ns [] false])) in
  ret (length (tr_watchers t)).

(** [filterByNamespace]: the objects of a namespace, or all, by namespace and
    name. *)
Definition sorts_before (a b : ContainerImageBuild) : bool :=
  if bool_decide (cib_Namespace a ≠ cib_Namespace b)
  then String.ltb (cib_Namespace a) (cib_Namespace b)
  else String.ltb (cib_Name a) (cib_Name b).

Definition not_after (a b : ContainerImageBuild) : Prop := sorts_before b a = false.

#[export] Instance not_after_dec : RelDecision not_after.
Proof. intros a b. apply bool_eq_dec. Defined.

Definition filterByNamespace (objs : gmap NamespacedName ContainerImageBuild) (ns : string)
    : list ContainerImageBuild :=
  merge_sort not_after
    (List.filter (λ b, bool_decide (ns = "") || bool_decide (cib_Namespace b = ns)) (map_to_list objs).*2).

(** [tracker.List]: the kind of the list must be registered. *)
Definition tracker_List (gvr : GroupVersionResource) (gvk : GroupVersionKind) (ns : string)
    : M tracker (list ContainerImageBuild) :=
  let version := if bool_decide (gvk.1.2 = "") then "__internal" else gvk.1.2 in
  let! _ := lift_outcome (Scheme_New clientset_types (gvk.1.1, version, gvk.2 +:+ "List")) in
  let! t := get in
  ret (filterByNamespace (objects_at t gvr) ns).

Definition HasSuffix (s suffix : string) : bool :=
  bool_decide (String.substring (String.length s - String.length suffix) (String.length suffix) s = suffix).

(** [UnsafeGuessKindToResource], the plural. *)
Definition last_byte (s : string) : option ascii := last (chars s).

Definition UnsafeGuessKindToResource (gvk : GroupVersionKind) : GroupVersionResource :=
  if bool_decide (gvk.2 = "") then ("", "", "")
  else
    let singular := ToLower gvk.2 in
    let plural :=
      if HasSuffix singular "endpoints"
      then singular
      else if bool_decide (last_byte singular = Some "s"%char) then singular +:+ "es"
      else if bool_decide (last_byte singular = Some "y"%char) then TrimSuffix singular "y" +:+ "ies"
      else singular +:+ "s" in
    (gvk.1.1, gvk.1.2, plural).

(** What a test hands to the fake: builds and lists of builds. *)
Inductive runtime_object :=
| BuildObject (b : ContainerImageBuild)
| BuildListObject (l : list ContainerImageBuild).

(** [tracker.Add] of a build: under the resource guessed from each of its kinds. *)
Definition tracker_Add_build (b : ContainerImageBuild) : M tracker unit :=
  let! gvks := lift_outcome (ObjectKinds clientset_types build_type) in
  for_each (λ gvk, tracker_add (UnsafeGuessKindToResource gvk) b (cib_Namespace b) false) gvks.

Definition tracker_Add (obj : runtime_object) : M tracker unit :=
  match obj with
  | BuildObject b => tracker_Add_build b
  | BuildListObject l => for_each tracker_Add_build l
  end.

(** ** Actions and reactions *)

Inductive action :=
| ListAction (gvr : GroupVersionResource) (gvk : GroupVersionKind) (ns : string) (opts : ListOptions)
| GetAction (gvr : GroupVersionResource) (ns name : string)
| CreateAction (gvr : GroupVersionResource) (sub ns : string) (obj : ContainerImageBuild)
| UpdateAction (gvr : GroupVersionResource) (sub ns : string) (obj : ContainerImageBuild)
| DeleteAction (gvr : GroupVersionResource) (ns name : string)
| DeleteCollectionAction (gvr : GroupVersionResource) (ns : string) (opts : ListOptions)
| PatchAction (gvr : GroupVersionResource) (ns name pt patch sub : string)
| WatchAction (gvr : GroupVersionResource) (ns : string) (opts : ListOptions).

(** The objects of a reply. *)
Inductive reply :=
| OneBuild (b : ContainerImageBuild)
| Builds (l : list ContainerImageBuild).

(** A reaction: whether it handled the action, with what object and what error. *)
Record reaction := mkReaction {
  re_handled : bool;
  re_ret : option reply;
  re_err : option error;
}.

Class FakeHost := {
  (** selectors: [None] does not parse *)
  parse_labels : string → option (gmap string string → bool);
  parse_fields : string → bool;
  (** a patch of a type on an object, by its JSON text *)
  apply_patch : string → string → ContainerImageBuild → outcome ContainerImageBuild;
}.

Section fake.
Context {FH : FakeHost}.

(** The object of a successful call, or its error. *)
Definition reacting {A} (f : A → option reply) (c : M tracker A) : M tracker reaction :=
  let! r := try c in
  match r with
  | inr a => ret (mkReaction true (f a) None)
  | inl e => ret (mkReaction true None (Some e))
  end.

(** [ObjectReaction].  The subresource of an update is not looked at. *)
Definition ObjectReaction (a : action) : M tracker reaction :=
  match a with
  | ListAction gvr gvk ns _ => reacting (λ l, Some (Builds l)) (tracker_List gvr gvk ns)
  | GetAction gvr ns name => reacting (λ b, Some (OneBuild b)) (tracker_Get gvr ns name)
  | CreateAction gvr sub ns obj =>
      reacting (λ b, Some (OneBuild b))
        (do! (if bool_decide (sub = "") then tracker_Create gvr obj ns else tracker_Update gvr obj ns) in
         tracker_Get gvr ns (cib_Name obj))
  | UpdateAction gvr sub ns obj =>
      reacting (λ b, Some (OneBuild b))
        (do! tracker_Update gvr obj ns in tracker_Get gvr ns (cib_Name obj))
  | DeleteAction gvr ns name => reacting (λ _, None) (tracker_Delete gvr ns name)
  | PatchAction gvr ns name pt patch _ =>
      reacting (λ b, Some (OneBuild b))
        (let! old := tracker_Get gvr ns name in
         let! obj := lift_outcome (apply_patch pt patch old) in
         do! tracker_Update gvr obj ns in ret obj)
  | DeleteCollectionAction _ _ _ | WatchAction _ _ _ =>
      ret (mkReaction false None (Some (New "no reaction implemented")))
  end.

(** [testing.Fake] on a tracker: the actions so far and the chain of reactors. *)
Record Fake := mkFake {
  fk_tracker : tracker;
  fk_actions : list action;
  fk_chain : list (action → M tracker reaction);
}.

Definition set_tracker (t : tracker) (f : Fake) : Fake := mkFake t (fk_actions f) (fk_chain f).
Definition on_tracker {A} (c : M tracker A) : M Fake A := zoom fk_tracker set_tracker c.

Fixpoint react (a : action) (fallback : reply) (chain : list (action → M tracker reaction))
    : M tracker (option reply * option error) :=
  match chain with
  | [] => ret (Some fallback, None)
  | reactor :: chain' =>
      let! r := reactor a in
      if re_handled r then ret (re_ret r, re_err r) else react a fallback chain'
  end.

Definition record_action (a : action) (f : Fake) : Fake :=
  mkFake (fk_tracker f) (fk_actions f ++ [a]) (fk_chain f).

(** [Invokes]. *)
Definition Invokes (a : action) (fallback : reply) : M Fake (option reply * option error) :=
  do! modify (record_action a) in
  let! f := get in
  on_tracker (react a fallback (fk_chain f)).

(** ** The client of the builds *)

Definition containerimagebuildsResource : GroupVersionResource := ("forge", "v1alpha1", "containerimagebuilds").
Definition containerimagebuildsKind : GroupVersionKind := ("forge", "v1alpha1", "ContainerImageBuild").

(** [&v1alpha1.ContainerImageBuild{}]. *)
Definition empty_build : ContainerImageBuild :=
  mkBuild (mkObjectMeta "" "" "" "" "" None ∅ [] 0 None)
    (mkSpec "" "" 0 [] [] [] ∅ "" "" no_resources 0 0 ∅ false false "" [])
    (mkStatus "" "" [] 0 "" None None).

(** The object of a reply as a build: another type panics. *)
Definition as_build (r : option reply * option error) : M Fake (option ContainerImageBuild * option error) :=
  match r with
  | (None, err) => ret (None, err)
  | (Some (OneBuild b), err) => ret (Some b, err)
  | (Some (Builds _), _) => panic "interface conversion"
  end.

Definition invoke_build (a : action) : M Fake (option ContainerImageBuild * option error) :=
  let! r := Invokes a (OneBuild empty_build) in as_build r.

(** [ExtractFromListOptions]: a selector that does not parse panics. *)
Definition selector (opts : ListOptions) : M Fake (gmap string string → bool) :=
  match parse_labels (lo_LabelSelector opts) with
  | Some m => if parse_fields (lo_FieldSelector opts) then ret m else panic "invalid selector"
  | None => panic "invalid selector"
  end.

Definition fake_Get (ns name : string) : M Fake (option ContainerImageBuild * option error) :=
  invoke_build (GetAction containerimagebuildsResource ns name).

Definition fake_List (ns : string) (opts : ListOptions)
    : M Fake (option (list ContainerImageBuild) * option error) :=
  let! label := selector opts in
  let! r := Invokes (ListAction containerimagebuildsResource containerimagebuildsKind ns opts) (Builds []) in
  match r with
  | (None, err) => ret (None, err)
  | (Some (Builds l), err) =>
      ret (Some (List.filter (λ b, label (default ∅ (cib_Labels b))) l), err)
  | (Some (OneBuild _), _) => panic "interface conversion"
  end.

Definition fake_Create (ns : string) (b : ContainerImageBuild) :=
  invoke_build (CreateAction containerimagebuildsResource "" ns b).
Definition fake_Update (ns : string) (b : ContainerImageBuild) :=
  invoke_build (UpdateAction containerimagebuildsResource "" ns b).
Definition fake_UpdateStatus (ns : string) (b : ContainerImageBuild) :=
  invoke_build (UpdateAction containerimagebuildsResource "status" ns b).

Definition fake_Delete (ns name : string) : M Fake (option error) :=
  let! r := Invokes (DeleteAction containerimagebuildsResource ns name) (OneBuild empty_build) in ret r.2.

Definition fake_DeleteCollection (ns : string) (listOpts : ListOptions) : M Fake (option error) :=
  do! selector listOpts in
  let! r := Invokes (DeleteCollectionAction containerimagebuildsResource ns listOpts) (Builds []) in
  ret r.2.

Definition fake_Patch (ns name pt data : string) (subresources : list string) :=
  invoke_build (PatchAction containerimagebuildsResource ns name pt data (filepath_Join subresources)).

(** The watch reactor of [NewSimpleClientset]; the result is the watcher. *)
Definition fake_Watch (ns : string) (opts : ListOptions) : M Fake nat :=
  do! selector opts in
  do! modify (record_action (WatchAction containerimagebuildsResource ns opts)) in
  on_tracker (tracker_Watch containerimagebuildsResource ns).

(** [NewSimpleClientset]: an object that cannot be added panics. *)
Definition NewSimpleClientset (objects : list runtime_object) : outcome Fake :=
  match for_each tracker_Add objects NewObjectTracker with
  | (Ok _, t) => Ok (mkFake t [] [ObjectReaction])
  | (Err e, _) => Panic (Error e)
  | (Panic m, _) => Panic m
  end.
End fake.

(** ** The interface of the client *)

(** [ContainerImageBuildInterface]: what the client of the API server and the fake
    one have in common. *)
Class ContainerImageBuildInterface (S : Type) := {
  cib_Create : string → ContainerImageBuild → M S ContainerImageBuild;
  cib_Update : string → ContainerImageBuild → M S ContainerImageBuild;
  cib_UpdateStatus : string → ContainerImageBuild → M S ContainerImageBuild;
  cib_Delete : string → string → M S unit;
  cib_DeleteCollection : string → ListOptions → M S unit;
  cib_Get : string → string → M S ContainerImageBuild;
  cib_List : string → ListOptions → M S (list ContainerImageBuild);
  cib_Patch : string → string → string → string → list string → M S ContainerImageBuild;
}.

(** The client of the API server, with default options. *)
#[export] Instance rest_client {CO : Codec} {W : Type} {RS : RestServer W}
    (create update get patch : options) (deletion : DeleteOptions) : ContainerImageBuildInterface W := {|
  cib_Create ns b := builds_Create ns b create;
  cib_Update ns b := builds_Update ns b update;
  cib_UpdateStatus ns b := builds_UpdateStatus ns b update;
  cib_Delete ns name := builds_Delete ns name deletion;
  cib_DeleteCollection ns opts := builds_DeleteCollection ns deletion opts;
  cib_Get ns name := builds_Get ns name get;
  cib_List ns opts := builds_List ns opts;
  cib_Patch ns name pt data subs := builds_Patch ns name pt data patch subs;
|}.

(** A result with an error is the error. *)
Definition result_of {S A} (c : M S (option A * option error)) : M S A :=
  let! r := c in
  match r with
  | (_, Some e) => throw e
  | (Some a, None) => ret a
  | (None, None) => panic "invalid memory address or nil pointer dereference"
  end.

Definition error_of {S} (c : M S (option error)) : M S unit :=
  let! e := c in lift_outcome (of_err e).

#[export] Instance fake_client {FH : FakeHost} : ContainerImageBuildInterface Fake := {|
  cib_Create ns b := result_of (fake_Create ns b);
  cib_Update ns b := result_of (fake_Update ns b);
  cib_UpdateStatus ns b := result_of (fake_UpdateStatus ns b);
  cib_Delete ns name := error_of (fake_Delete ns name);
  cib_DeleteCollection ns opts := error_of (fake_DeleteCollection ns opts);
  cib_Get ns name := result_of (fake_Get ns name);
  cib_List ns opts := result_of (fake_List ns opts);
  cib_Patch ns name pt data subs := result_of (fake_Patch ns name pt data subs);
|}.

(** ** Objects given to the fake *)

Section presets.
Context {FH : FakeHost}.

Lemma guessed_resource : UnsafeGuessKindToResource build_kind = (SchemeGroup, SchemeVersion, "containerimagebuilds").
Proof. vm_compute. reflexivity. Qed.

(** The calls that only tell watchers. *)
Definition same_objects (t t' : tracker) : Prop := tr_objects t' = tr_objects t.

#[export] Instance same_objects_preorder : PreOrder same_objects.
Proof. split; [done|]. intros x y z H1 H2. unfold same_objects in *. congruence. Qed.

Lemma send_objects ev i : always same_objects (send ev i).
Proof.
  unfold send. apply (always_bind same_objects); [apply always_get; apply _|]. intros t.
  destruct (tr_watchers t !! i) as [w|]; [|apply always_ret; apply _].
  destruct (wt_Stopped w); [apply always_ret; apply _|].
  case_bool_decide; [apply always_panic; apply _|by apply always_modify].
Qed.

Lemma notify_objects gvr ns ev : always same_objects (notify gvr ns ev).
Proof.
  unfold notify. apply (always_bind same_objects); [apply always_get; apply _|]. intros t.
  apply (always_for_each same_objects). intros i. apply send_objects.
Qed.

(** Other resources keep their objects. *)
Definition others_kept (gvr : GroupVersionResource) (t t' : tracker) : Prop :=
  ∀ gvr', gvr' ≠ gvr → assoc (tr_objects t') gvr' = assoc (tr_objects t) gvr'.

#[export] Instance others_kept_preorder gvr : PreOrder (others_kept gvr).
Proof. split; [done|]. intros x y z H1 H2 g Hg. by rewrite H2, H1. Qed.

Lemma same_others {A} gvr (c : M tracker A) : always same_objects c → always (others_kept gvr) c.
Proof. intros Hc t o t' H g _. by rewrite (Hc _ _ _ H). Qed.

Lemma set_objects_others gvr m t : others_kept gvr t (set_objects gvr m t).
Proof. intros g Hg. simpl. by rewrite assoc_set_ne. Qed.

Lemma tracker_add_others gvr b ns replace : always (others_kept gvr) (tracker_add gvr b ns replace).
Proof.
  unfold tracker_add. case_bool_decide; [apply always_throw; apply _|].
  apply (always_bind (others_kept gvr)); [apply always_modify; intros t; apply set_objects_others|].
  intros _. apply (always_bind (others_kept gvr)); [apply always_get; apply _|]. intros t.
  destruct (objects_at t gvr !! _), replace; try (apply always_throw; apply _);
    apply (always_bind (others_kept gvr)); intros;
    first [apply same_others, notify_objects|apply always_modify; intros ?; apply set_objects_others].
Qed.

Lemma build_kinds : ObjectKinds clientset_types build_type = Ok [build_kind].
Proof. vm_compute. reflexivity. Qed.

(** Objects are added under the resource of their own group. *)
Definition preset_resource : GroupVersionResource := (SchemeGroup, SchemeVersion, "containerimagebuilds").

Lemma tracker_Add_build_run b t :
  tracker_Add_build b t = (do! tracker_add preset_resource b (cib_Namespace b) false in ret tt) t.
Proof.
  unfold tracker_Add_build. rewrite build_kinds. unfold bind at 1, lift_outcome.
  cbn [for_each]. by rewrite guessed_resource.
Qed.

Lemma tracker_Add_others obj : always (others_kept preset_resource) (tracker_Add obj).
Proof.
  assert (∀ b, always (others_kept preset_resource) (tracker_Add_build b)) as Hb.
  { intros b t o t'. rewrite tracker_Add_build_run.
    apply (always_bind (others_kept preset_resource)); [apply tracker_add_others|].
    intros _. apply always_ret; apply _. }
  destruct obj as [b|l]; [apply Hb|]. by apply (always_for_each (others_kept preset_resource)).
Qed.

(** A fake whose only reactor is the tracker's answers from the tracker. *)
Lemma Invokes_run a fallback f :
  fk_chain f = [ObjectReaction] →
  Invokes a fallback f =
  match ObjectReaction a (fk_tracker f) with
  | (Ok r, t) => (Ok (if re_handled r then (re_ret r, re_err r) else (Some fallback, None)),
                  mkFake t (fk_actions f ++ [a]) (fk_chain f))
  | (Err e, t) => (Err e, mkFake t (fk_actions f ++ [a]) (fk_chain f))
  | (Panic m, t) => (Panic m, mkFake t (fk_actions f ++ [a]) (fk_chain f))
  end.
Proof.
  destruct f as [t0 acts chain]. cbn [fk_chain]. intros ->.
  unfold Invokes, bind, modify, get, on_tracker, zoom. cbn [record_action fk_chain fk_tracker fk_actions react].
  unfold bind. destruct (ObjectReaction a t0) as [[r|e|m] t]; [|done..]. by destruct (re_handled r).
Qed.

(** The kind of lists that the fake asks for. *)
Definition list_error : error :=
  New ("no kind " +:+ fmt_q "ContainerImageBuildList" +:+ " is registered for version "
       +:+ fmt_q "forge/v1alpha1").

Lemma list_kind_unknown :
  Scheme_New clientset_types ("forge", "v1alpha1", "ContainerImageBuildList") = Err list_error.
Proof. vm_compute. reflexivity. Qed.

Definition parses (opts : ListOptions) : Prop :=
  is_Some (parse_labels (lo_LabelSelector opts)) ∧ parse_fields (lo_FieldSelector opts) = true.

Lemma tracker_List_fails ns t :
  tracker_List containerimagebuildsResource containerimagebuildsKind ns t = (Err list_error, t).
Proof.
  unfold tracker_List, bind, lift_outcome.
  change (containerimagebuildsKind.1.1, _, _) with ("forge", "v1alpha1", "ContainerImageBuildList").
  by rewrite list_kind_unknown.
Qed.

Lemma fake_List_fails ns opts f :
  fk_chain f = [ObjectReaction] → parses opts →
  fake_List ns opts f =
  (Ok (None, Some list_error),
   record_action (ListAction containerimagebuildsResource containerimagebuildsKind ns opts) f).
Proof.
  intros Hc [[label Hl] Hf]. unfold fake_List, selector, bind, ret. rewrite Hl, Hf.
  rewrite Invokes_run by done. cbn [ObjectReaction]. unfold reacting, try, bind, ret.
  by rewrite tracker_List_fails.
Qed.

Lemma fake_Get_run ns name f :
  fk_chain f = [ObjectReaction] →
  fake_Get ns name f =
  (Ok (match objects_at (fk_tracker f) containerimagebuildsResource !! mkKey ns name with
       | Some b => (Some b, None)
       | None => (None, Some (NewNotFound containerimagebuildsResource name))
       end),
   record_action (GetAction containerimagebuildsResource ns name) f).
Proof.
  intros Hc. unfold fake_Get, invoke_build, bind. rewrite Invokes_run by done.
  cbn [ObjectReaction]. unfold reacting, tracker_Get, try, bind, get.
  by destruct (objects_at _ _ !! _).
Qed.

(** The fake client set does not know the objects it is made with.  It stores
    them under the group of the program, but its client asks for another group:
    whatever builds a test hands to [NewSimpleClientset], none of them can be read,
    and no list of builds can be read at all. *)
Theorem presets_lost objects f ns name opts :
  NewSimpleClientset objects = Ok f → parses opts →
  (fake_Get ns name f).1 = Ok (None, Some (NewNotFound containerimagebuildsResource name)) ∧
  (fake_List ns opts f).1 = Ok (None, Some list_error).
Proof.
  unfold NewSimpleClientset. destruct (for_each tracker_Add objects NewObjectTracker) as [[[]|e|m] t] eqn:E;
    [|done..]. intros [= <-] Hp. rewrite fake_Get_run, fake_List_fails by done. split; [|done].
  apply (always_for_each (others_kept preset_resource) tracker_Add objects tracker_Add_others) in E.
  unfold objects_at. cbn [fk_tracker fst]. rewrite E by done. done.
Qed.
End presets.

(** ** The fake as a store *)

(** The operations of the client on one build, and what they answer: an object and
    an error. *)
Inductive fake_op :=
| OpGet (ns name : string)
| OpCreate (ns : string) (b : ContainerImageBuild)
| OpUpdate (ns : string) (b : ContainerImageBuild)
| OpUpdateStatus (ns : string) (b : ContainerImageBuild)
| OpDelete (ns name : string)
| OpPatch (ns name pt data : string) (subs : list string).

Abbreviation store := (gmap NamespacedName ContainerImageBuild).
Abbreviation answer := (option reply * option error)%type.

Section store.
Context {FH : FakeHost}.
#[local] Notation res := containerimagebuildsResource.

(** An object is put in its place: a new one, or one that replaces another. *)
Definition put (replace : bool) (ns : string) (b : ContainerImageBuild) (m : store) : option error * store :=
  let b := placed ns b in
  if bool_decide (ns ≠ cib_Namespace b) then
    (Some (NewBadRequest ("request namespace does not match object namespace, request: " +:+ fmt_q ns
                          +:+ " object: " +:+ fmt_q (cib_Namespace b))), m)
  else
    match m !! cib_key b, replace with
    | Some _, false => (Some (NewAlreadyExists res (cib_Name b)), m)
    | None, true => (Some (NewNotFound res (cib_Name b)), m)
    | _, _ => (None, <[cib_key b := b]> m)
    end.

Definition put_answer (r : option error * store) (b : ContainerImageBuild) : answer * store :=
  match r with
  | (Some e, m) => ((None, Some e), m)
  | (None, m) => ((Some (OneBuild b), None), m)
  end.

(** The specification: a map of builds by namespace and name.  An update of the
    status is one of everything. *)
Definition spec_step (op : fake_op) (m : store) : answer * store :=
  match op with
  | OpGet ns name =>
      (match m !! mkKey ns name with
       | Some b => (Some (OneBuild b), None)
       | None => (None, Some (NewNotFound res name))
       end, m)
  | OpCreate ns b => put_answer (put false ns b m) (placed ns b)
  | OpUpdate ns b | OpUpdateStatus ns b => put_answer (put true ns b m) (placed ns b)
  | OpDelete ns name =>
      match m !! mkKey ns name with
      | Some _ => ((None, None), delete (mkKey ns name) m)
      | None => ((None, Some (NewNotFound res name)), m)
      end
  | OpPatch ns name pt data _ =>
      match m !! mkKey ns name with
      | Some old =>
          match apply_patch pt data old with
          | Ok b => put_answer (put true ns b m) b
          | Err e => ((None, Some e), m)
          | Panic _ => ((None, None), m)
          end
      | None => ((None, Some (NewNotFound res name)), m)
      end
  end.

Definition one {A} (f : A → reply) (c : M Fake (option A * option error)) : M Fake answer :=
  let! r := c in ret (f <$> r.1, r.2).

Definition fake_step (op : fake_op) : M Fake answer :=
  match op with
  | OpGet ns name => one OneBuild (fake_Get ns name)
  | OpCreate ns b => one OneBuild (fake_Create ns b)
  | OpUpdate ns b => one OneBuild (fake_Update ns b)
  | OpUpdateStatus ns b => one OneBuild (fake_UpdateStatus ns b)
  | OpDelete ns name => let! e := fake_Delete ns name in ret (None, e)
  | OpPatch ns name pt data subs => one OneBuild (fake_Patch ns name pt data subs)
  end.

(** The calls the fake records. *)
Definition action_of (op : fake_op) : action :=
  match op with
  | OpGet ns name => GetAction res ns name
  | OpCreate ns b => CreateAction res "" ns b
  | OpUpdate ns b => UpdateAction res "" ns b
  | OpUpdateStatus ns b => UpdateAction res "status" ns b
  | OpDelete ns name => DeleteAction res ns name
  | OpPatch ns name pt data subs => PatchAction res ns name pt data (filepath_Join subs)
  end.

(** Patches that do not panic. *)
Definition op_ok (op : fake_op) : Prop :=
  match op with
  | OpPatch _ _ pt data _ => ∀ b, no_panic (apply_patch pt data b)
  | _ => True
  end.

(** Nobody watches the builds. *)
Definition quiet (t : tracker) : Prop :=
  Forall (λ w, wt_Stopped w = true ∨ wt_resource w ≠ res) (tr_watchers t).

Definition builds_in (f : Fake) : store := objects_at (fk_tracker f) res.

Definition usable (f : Fake) : Prop := fk_chain f = [ObjectReaction] ∧ quiet (fk_tracker f).

Lemma send_stopped ev i t :
  (∀ w, tr_watchers t !! i = Some w → wt_Stopped w = true) → send ev i t = (Ok tt, t).
Proof.
  intros H. unfold send, bind, get. destruct (tr_watchers t !! i) as [w|]; [|done]. by rewrite (H w).
Qed.

Lemma watches_of_res ns t i w :
  quiet t → i ∈ watches_of res ns (tr_watchers t) → tr_watchers t !! i = Some w → wt_Stopped w = true.
Proof.
  intros Hq Hi Hw. apply list_elem_of_In, filter_In in Hi as [_ Hi]. rewrite Hw in Hi. simpl in Hi.
  apply andb_true_iff in Hi as [Hr%bool_decide_eq_true _].
  unfold quiet in Hq. rewrite Forall_forall in Hq. by destruct (Hq w (list_elem_of_lookup_2 _ _ _ Hw)).
Qed.

Lemma notify_quiet ns ev t : quiet t → notify res ns ev t = (Ok tt, t).
Proof.
  intros Hq. unfold notify, bind, get.
  assert (∀ i w, i ∈ getWatches res ns (tr_watchers t) → tr_watchers t !! i = Some w → wt_Stopped w = true) as H.
  { intros i w. unfold getWatches. case_bool_decide; rewrite elem_of_app, ?elem_of_nil;
      intros [Hi|Hi]; try done; by eapply watches_of_res. }
  induction (getWatches res ns (tr_watchers t)) as [|i l IH]; [done|]. cbn [for_each]. unfold bind.
  rewrite send_stopped by (intros w Hw; apply (H i w); [set_solver|done]). apply IH. set_solver.
Qed.

Lemma objects_at_set gvr m t : objects_at (set_objects gvr m t) gvr = m.
Proof. unfold objects_at. simpl. by rewrite assoc_set_eq. Qed.

(** The tracker puts an object as specified. *)
Lemma tracker_add_put b ns replace t :
  quiet t →
  ∃ t', tracker_add res b ns replace t =
        (match (put replace ns b (objects_at t res)).1 with Some e => Err e | None => Ok tt end, t') ∧
    objects_at t' res = (put replace ns b (objects_at t res)).2 ∧ quiet t'.
Proof.
  intros Hq. unfold tracker_add, put. case_bool_decide; [by exists t|].
  unfold bind at 1, modify at 1. set (t1 := set_objects res (objects_at t res) t).
  assert (objects_at t1 res = objects_at t res) as E1 by apply objects_at_set.
  unfold bind at 1, get. rewrite E1.
  destruct (objects_at t res !! cib_key (placed ns b)) eqn:E, replace.
  - unfold bind. rewrite notify_quiet by done. eexists. split; [reflexivity|].
    rewrite objects_at_set, E1. done.
  - by exists t1.
  - by exists t1.
  - unfold bind, modify at 1. rewrite notify_quiet by done. eexists. split; [reflexivity|].
    rewrite objects_at_set, E1. done.
Qed.

Lemma tracker_Get_run ns name t :
  tracker_Get res ns name t =
  (match objects_at t res !! mkKey ns name with Some b => Ok b | None => Err (NewNotFound res name) end, t).
Proof. unfold tracker_Get, bind, get. by destruct (objects_at t res !! _). Qed.

(** An object that was put is read back under its name. *)
Lemma put_lookup replace ns b m :
  (put replace ns b m).1 = None → (put replace ns b m).2 !! mkKey ns (cib_Name b) = Some (placed ns b).
Proof.
  unfold put. case_bool_decide as Hn; [done|].
  assert (cib_key (placed ns b) = mkKey ns (cib_Name b)) as Hk.
  { unfold cib_key, meta_key. f_equal; [by symmetry|]. unfold placed. by case_match. }
  rewrite Hk. destruct (m !! _), replace; try done; intros _; apply lookup_insert_eq.
Qed.

(** A put followed by a read, as the reaction to a create or an update. *)
Lemma put_then_get replace ns b t :
  quiet t →
  ∃ t', reacting (λ b, Some (OneBuild b))
          (do! tracker_add res b ns replace in tracker_Get res ns (cib_Name b)) t =
        (Ok (let a := (put_answer (put replace ns b (objects_at t res)) (placed ns b)).1 in
             mkReaction true a.1 a.2), t') ∧
    objects_at t' res = (put replace ns b (objects_at t res)).2 ∧ quiet t'.
Proof.
  intros Hq. destruct (tracker_add_put b ns replace t Hq) as (t' & Ht & Ho & Hq').
  exists t'. split; [|done]. unfold reacting, try, bind. rewrite Ht.
  pose proof (put_lookup replace ns b (objects_at t res)) as Hl.
  destruct (put replace ns b (objects_at t res)) as [[e|] m]; [done|]. cbn [fst snd] in *.
  unfold tracker_Get, bind, get. rewrite Ho, Hl by done. done.
Qed.

(** What [Invokes] gives when the reaction is known. *)
Lemma Invokes_reaction a fallback f r t :
  usable f → ObjectReaction a (fk_tracker f) = (Ok r, t) → quiet t →
  Invokes a fallback f =
    (Ok (if re_handled r then (re_ret r, re_err r) else (Some fallback, None)),
     mkFake t (fk_actions f ++ [a]) (fk_chain f)) ∧
  usable (mkFake t (fk_actions f ++ [a]) (fk_chain f)).
Proof. intros [Hc Hq] Hr Hq'. rewrite Invokes_run, Hr by done. done. Qed.

Lemma step_put replace a op f ns b :
  usable f →
  ObjectReaction a = reacting (λ b, Some (OneBuild b))
                       (do! tracker_add res b ns replace in tracker_Get res ns (cib_Name b)) →
  fake_step op = one OneBuild (invoke_build a) →
  spec_step op (builds_in f) = put_answer (put replace ns b (builds_in f)) (placed ns b) →
  ∃ f', fake_step op f = (Ok (spec_step op (builds_in f)).1, f') ∧
    builds_in f' = (spec_step op (builds_in f)).2 ∧ usable f' ∧ fk_actions f' = fk_actions f ++ [a].
Proof.
  intros Hu Ha Hs He. destruct (put_then_get replace ns b (fk_tracker f)) as (t & Ht & Ho & Hq); [apply Hu|].
  rewrite <- Ha in Ht. destruct (Invokes_reaction a (OneBuild empty_build) f _ t Hu Ht Hq) as [Hi Hu'].
  eexists. rewrite Hs, He. unfold one, invoke_build, bind. rewrite Hi. cbn [re_handled re_ret re_err].
  unfold builds_in in *. split; [|split; [|split; [exact Hu'|done]]].
  - destruct (put replace ns b _) as [[e|] m]; done.
  - cbn [fk_tracker]. rewrite Ho. by destruct (put replace ns b _) as [[e|] m].
Qed.

Lemma step_get ns name f :
  usable f →
  ∃ f', fake_step (OpGet ns name) f = (Ok (spec_step (OpGet ns name) (builds_in f)).1, f') ∧
    builds_in f' = builds_in f ∧ usable f' ∧ fk_actions f' = fk_actions f ++ [GetAction res ns name].
Proof.
  intros [Hc Hq]. cbn [fake_step spec_step fst]. unfold one, bind. rewrite fake_Get_run by done.
  unfold builds_in. exists (record_action (GetAction res ns name) f).
  split; [by destruct (objects_at _ _ !! _)|]. split; [done|]. split; [split; [exact Hc|exact Hq]|done].
Qed.

Lemma step_delete ns name f :
  usable f →
  ∃ f', fake_step (OpDelete ns name) f = (Ok (spec_step (OpDelete ns name) (builds_in f)).1, f') ∧
    builds_in f' = (spec_step (OpDelete ns name) (builds_in f)).2 ∧ usable f' ∧
    fk_actions f' = fk_actions f ++ [DeleteAction res ns name].
Proof.
  intros Hu. destruct (objects_at (fk_tracker f) res !! mkKey ns name) as [b|] eqn:E.
  - assert (ObjectReaction (DeleteAction res ns name) (fk_tracker f) =
      (Ok (mkReaction true None None), set_objects res (delete (mkKey ns name) (builds_in f)) (fk_tracker f))) as Hr.
    { cbn [ObjectReaction]. unfold reacting, try, tracker_Delete, bind, get, modify. rewrite E.
      rewrite notify_quiet by apply Hu. done. }
    destruct (Invokes_reaction _ (OneBuild empty_build) f _ _ Hu Hr) as [Hi Hu']; [apply Hu|].
    eexists. cbn [fake_step spec_step]. unfold fake_Delete, bind. rewrite Hi. unfold builds_in. rewrite E.
    split; [reflexivity|]. split; [apply objects_at_set|]. split; [exact Hu'|done].
  - assert (ObjectReaction (DeleteAction res ns name) (fk_tracker f) =
      (Ok (mkReaction true None (Some (NewNotFound res name))), fk_tracker f)) as Hr.
    { cbn [ObjectReaction]. unfold reacting, try, tracker_Delete, bind, get. by rewrite E. }
    destruct (Invokes_reaction _ (OneBuild empty_build) f _ _ Hu Hr) as [Hi Hu']; [apply Hu|].
    eexists. cbn [fake_step spec_step]. unfold fake_Delete, bind. rewrite Hi. unfold builds_in. rewrite E.
    split; [reflexivity|]. split; [reflexivity|]. split; [exact Hu'|done].
Qed.

Lemma step_patch ns name pt data subs f :
  usable f → op_ok (OpPatch ns name pt data subs) →
  ∃ f', fake_step (OpPatch ns name pt data subs) f =
          (Ok (spec_step (OpPatch ns name pt data subs) (builds_in f)).1, f') ∧
    builds_in f' = (spec_step (OpPatch ns name pt data subs) (builds_in f)).2 ∧ usable f' ∧
    fk_actions f' = fk_actions f ++ [action_of (OpPatch ns name pt data subs)].
Proof.
  intros Hu Hok. cbn [op_ok] in Hok. set (op := OpPatch ns name pt data subs).
  assert (∃ t, ObjectReaction (action_of op) (fk_tracker f) =
            (Ok (let a := (spec_step op (builds_in f)).1 in mkReaction true a.1 a.2), t) ∧
          objects_at t res = (spec_step op (builds_in f)).2 ∧ quiet t) as (t & Hr & Ho & Hq).
  { cbn [op action_of ObjectReaction spec_step]. unfold builds_in.
    pose proof (tracker_Get_run ns name (fk_tracker f)) as Hg.
    destruct (objects_at (fk_tracker f) res !! mkKey ns name) as [old|];
      unfold reacting, try, bind; rewrite Hg; [|exists (fk_tracker f); split_and!; [done|done|apply Hu]].
    unfold lift_outcome. destruct (apply_patch pt data old) as [b|e|m] eqn:Ea;
      [|exists (fk_tracker f); split_and!; [done|done|apply Hu]|by destruct (Hok old m)].
    destruct (tracker_add_put b ns true (fk_tracker f)) as (t & Ht & Ho & Hq); [apply Hu|].
    exists t. unfold tracker_Update. rewrite Ht.
    destruct (put true ns b (objects_at (fk_tracker f) res)) as [[e|] m]; done. }
  destruct (Invokes_reaction _ (OneBuild empty_build) f _ _ Hu Hr Hq) as [Hi Hu'].
  exists (mkFake t (fk_actions f ++ [action_of op]) (fk_chain f)).
  cbn [op fake_step]. unfold one, fake_Patch, invoke_build, bind.
  change (PatchAction res ns name pt data (filepath_Join subs)) with (action_of op). rewrite Hi.
  cbn [re_handled re_ret re_err]. split; [|split; [exact Ho|split; [exact Hu'|done]]].
  assert ((spec_step op (builds_in f)).1.1 = None ∨ ∃ b, (spec_step op (builds_in f)).1.1 = Some (OneBuild b)) as Hb.
  { cbn [op spec_step]. destruct (builds_in f !! _); [|by left]. destruct (apply_patch _ _ _); [|by left..].
    destruct (put _ _ _ _) as [[e|] m]; [by left|right; by eexists]. }
  destruct (spec_step op (builds_in f)) as [[r e] m]. cbn [fst snd] in *. by destruct Hb as [->|[b ->]].
Qed.

Lemma fake_step_spec op f :
  usable f → op_ok op →
  ∃ f', fake_step op f = (Ok (spec_step op (builds_in f)).1, f') ∧
    builds_in f' = (spec_step op (builds_in f)).2 ∧ usable f' ∧
    fk_actions f' = fk_actions f ++ [action_of op].
Proof.
  intros Hu Hok. destruct op as [ns name|ns b|ns b|ns b|ns name|ns name pt data subs].
  - by apply step_get.
  - by apply (step_put false (CreateAction res "" ns b) _ f ns b Hu).
  - by apply (step_put true (UpdateAction res "" ns b) _ f ns b Hu).
  - by apply (step_put true (UpdateAction res "status" ns b) _ f ns b Hu).
  - by apply step_delete.
  - by apply step_patch.
Qed.

Fixpoint run_fake (ops : list fake_op) : M Fake (list answer) :=
  match ops with
  | [] => ret []
  | op :: ops' => let! a := fake_step op in let! l := run_fake ops' in ret (a :: l)
  end.

Fixpoint run_spec (ops : list fake_op) (m : store) : list answer * store :=
  match ops with
  | [] => ([], m)
  | op :: ops' =>
      let r := spec_step op m in
      let rest := run_spec ops' r.2 in (r.1 :: rest.1, rest.2)
  end.

(** Collections are out of reach.  A fake whose only reactor is the tracker's
    refuses every list of builds, whatever it holds, and reports the deletion of a
    collection as done without deleting anything. *)
Theorem collections_ignored ns opts f :
  usable f → parses opts →
  (fake_List ns opts f).1 = Ok (None, Some list_error) ∧
  (fake_DeleteCollection ns opts f).1 = Ok None ∧
  builds_in (fake_DeleteCollection ns opts f).2 = builds_in f.
Proof.
  intros Hu Hp. split; [by rewrite fake_List_fails by (apply Hu || done)|].
  destruct Hp as [[label Hl] Hf]. unfold fake_DeleteCollection, selector, bind. rewrite Hl, Hf. unfold ret at 1 3.
  destruct (Invokes_reaction (DeleteCollectionAction res ns opts) (Builds []) f _ _ Hu eq_refl) as [Hi _];
    [apply Hu|]. rewrite Hi. done.
Qed.

(** C22: On single builds the fake client is a store.  Any sequence of gets, creates,
    updates, status updates, deletes and patches, where no patch panics, on a fake
    that only the tracker answers for and nobody watches, gives the answers of a
    map of builds by namespace and name, leaves the builds of this map, and records
    the calls in their order.  An update of the status replaces the whole build, and
    deleting a build that is not there is an error. *)
Theorem fake_refines_store ops f :
  usable f → Forall op_ok ops →
  ∃ f', run_fake ops f = (Ok (run_spec ops (builds_in f)).1, f') ∧
    builds_in f' = (run_spec ops (builds_in f)).2 ∧ usable f' ∧
    fk_actions f' = fk_actions f ++ (action_of <$> ops).
Proof.
  intros Hu Hok. revert f Hu. induction Hok as [|op ops Ho _ IH]; intros f Hu.
  { exists f. by rewrite app_nil_r. }
  destruct (fake_step_spec op f Hu Ho) as (f1 & H1 & Hb & Hu1 & Ha1).
  destruct (IH f1 Hu1) as (f2 & H2 & Hb2 & Hu2 & Ha2). exists f2.
  cbn [run_fake run_spec fst snd]. unfold bind. rewrite H1, H2, Hb. split; [done|].
  rewrite Hb in Hb2. split; [done|]. split; [done|]. rewrite Ha2, Ha1, fmap_cons, <- app_assoc. done.
Qed.
End store.

(** ** Concrete runs *)

Module FakeSample.
#[local] Instance host : FakeHost := {|
  parse_labels s := Some (λ _, true);
  parse_fields s := true;
  apply_patch pt data b := Ok b;
|}.
Definition build (ns name image : string) : ContainerImageBuild :=
  mkBuild (mkObjectMeta name ns "" "" "" None ∅ [] 0 None)
    (mkSpec image "http://ctx" 0 ["reg.io"] [] [] ∅ "1" "" no_resources 0 0 ∅ false false "" [])
    (mkStatus "" "" [] 0 "" None None).
Definition all : ListOptions := mkListOptions "" "" false None.

Definition presets : list runtime_object :=
  [BuildObject (build "ns" "a" "img"); BuildListObject [build "ns" "b" "img"]].
Definition fake : Fake :=
  match NewSimpleClientset presets with Ok f => f | _ => mkFake NewObjectTracker [] [] end.

Lemma presets_lost_witness :
  objects_at (fk_tracker fake) preset_resource !! mkKey "ns" "a" = Some (build "ns" "a" "img") ∧
  (fake_Get "ns" "a" fake).1 = Ok (None, Some (NewNotFound containerimagebuildsResource "a")) ∧
  (fake_List "ns" all fake).1 = Ok (None, Some list_error).
Proof.
  split; [vm_compute; reflexivity|].
  apply (presets_lost presets fake "ns" "a" all); [reflexivity|]. split; [eexists; reflexivity|reflexivity].
Defined.

(** A build is created in the namespace of the call, changed, and deleted. *)
Definition ops : list fake_op :=
  [OpCreate "ns" (build "" "c" "img"); OpCreate "ns" (build "ns" "c" "img");
   OpUpdateStatus "ns" (build "ns" "c" "img2"); OpGet "ns" "c";
   OpDelete "ns" "c"; OpDelete "ns" "c"].

Lemma fake_refines_store_witness :
  ∃ f', run_fake ops fake =
    (Ok [(Some (OneBuild (build "ns" "c" "img")), None);
         (None, Some (NewAlreadyExists containerimagebuildsResource "c"));
         (Some (OneBuild (build "ns" "c" "img2")), None);
         (Some (OneBuild (build "ns" "c" "img2")), None); (None, None);
         (None, Some (NewNotFound containerimagebuildsResource "c"))], f') ∧ builds_in f' = ∅.
Proof.
  destruct (fake_refines_store ops fake) as (f' & H1 & H2 & _ & _).
  - split; [reflexivity|]. vm_compute. constructor.
  - repeat constructor.
  - exists f'. split; [exact H1|exact H2].
Defined.
Lemma collections_ignored_witness :
  (fake_List "ns" all fake).1 = Ok (None, Some list_error) ∧
  (fake_DeleteCollection "ns" all fake).1 = Ok None ∧
  builds_in (fake_DeleteCollection "ns" all fake).2 = builds_in fake.
Proof.
  apply (collections_ignored "ns" all fake).
  - split; [reflexivity|]. vm_compute. constructor.
  - split; [eexists; reflexivity|reflexivity].
Defined.
End FakeSample.
