(* ===== verification/Flags.v ===== *)
(** * Flags: the values of a command line

    The flags of pflag with the values the program declares (strings, booleans,
    integers, durations and maps), the parser of the arguments, and cobra's search
    for the command of a command line. *)
From stdpp Require Import gmap strings list sorting pretty.
From Stdlib Require Import ZArith Ascii.
From S2P Require Import Prelude Go GoStd Strconv Base64.
#[local] Open Scope forge_scope.

(** ** Values *)

(** The value of a flag; a map remembers whether it was set. *)
Inductive flag_value :=
| StringValue (s : string)
| BoolValue (b : bool)
| IntValue (z : Z)
| DurationValue (d : Z)
| StringToStringValue (changed : bool) (m : gmap string string).

(** [strings.Count] of one byte. *)
Definition Count (s : string) (c : ascii) : nat := length (filter (λ a, a = c) (chars s)).

Fixpoint drop_while (P : ascii → bool) (l : list ascii) : list ascii :=
  match l with
  | c :: l' => if P c then drop_while P l' else l
  | [] => []
  end.

(** [strings.Trim] of one byte. *)
Definition Trim (s : string) (c : ascii) : string :=
  let P a := bool_decide (a = c) in
  of_chars (reverse (drop_while P (reverse (drop_while P (chars s))))).

(** The pairs of a map flag; a later one replaces an earlier one of its key. *)
Fixpoint flag_pairs (out : gmap string string) (ss : list string) : outcome (gmap string string) :=
  match ss with
  | [] => Ok out
  | kv :: ss' =>
      match SplitN2 kv "="%char with
      | [k; v] => flag_pairs (<[k := v]> out) ss'
      | _ => Err (New (kv +:+ " must be formatted as key=value"))
      end
  end.

(** [stringToStringValue.Set]: the first value replaces the default, the others
    are added. *)
Definition set_map (changed : bool) (m : gmap string string) (val : string) : outcome flag_value :=
  let? ss := match Count val "="%char with
             | 0 => Err (New (val +:+ " must be formatted as key=value"))
             | 1 => Ok [Trim val quote_mark]
             | _ => csv_Read val
             end in
  let? out := flag_pairs ∅ ss in
  Ok (StringToStringValue true (if changed then out ∪ m else out)).

(** [Value.Set]. *)
Definition set_value (v : flag_value) (text : string) : outcome flag_value :=
  match v with
  | StringValue _ => Ok (StringValue text)
  | BoolValue _ =>
      match ParseBool text with
      | Some b => Ok (BoolValue b)
      | None => Err (New ("strconv.ParseBool: parsing " +:+ fmt_q text +:+ ": invalid syntax"))
      end
  | IntValue _ => let? z := ParseInt text in Ok (IntValue z)
  | DurationValue _ => let? d := ParseDuration text in Ok (DurationValue d)
  | StringToStringValue changed m => set_map changed m text
  end.

(** ** Flags *)

Record flag := mkFlag {
  fl_value : flag_value;
  fl_shorthand : option ascii;
  fl_changed : bool;
  fl_required : bool;
}.

Definition StringVar (value : string) : flag := mkFlag (StringValue value) None false false.
Definition BoolVar (value : bool) : flag := mkFlag (BoolValue value) None false false.
Definition IntVar (value : Z) : flag := mkFlag (IntValue value) None false false.
Definition DurationVar (value : Z) : flag := mkFlag (DurationValue value) None false false.
Definition StringToStringVar : flag := mkFlag (StringToStringValue false ∅) None false false.

(** [InitDefaultHelpFlag]. *)
Definition help_flag : string * flag := ("help", mkFlag (BoolValue false) (Some "h"%char) false false).

(** [MarkFlagRequired]. *)
Definition required (f : flag) : flag := mkFlag (fl_value f) (fl_shorthand f) (fl_changed f) true.

(** The flags of a set by name; the names are different. *)
Abbreviation flagset := (list (string * flag)).

Fixpoint lookup_flag (fs : flagset) (name : string) : option flag :=
  match fs with
  | [] => None
  | (n, f) :: fs' => if bool_decide (n = name) then Some f else lookup_flag fs' name
  end.

Fixpoint update_flag (fs : flagset) (name : string) (f : flag) : flagset :=
  match fs with
  | [] => []
  | (n, g) :: fs' => if bool_decide (n = name) then (n, f) :: fs' else (n, g) :: update_flag fs' name f
  end.

Fixpoint shorthand_lookup (fs : flagset) (c : ascii) : option (string * flag) :=
  match fs with
  | [] => None
  | (n, f) :: fs' => if bool_decide (fl_shorthand f = Some c) then Some (n, f) else shorthand_lookup fs' c
  end.

(** [NoOptDefVal]: a boolean flag may stand alone. *)
Definition no_opt_def (f : flag) : option string :=
  match fl_value f with BoolValue _ => Some "true" | _ => None end.

(** How a message names a flag. *)
Definition flag_label (name : string) (f : flag) : string :=
  match fl_shorthand f with
  | Some c => String "-" (String c (", --" +:+ name))
  | None => "--" +:+ name
  end.

(** [FlagSet.Set]. *)
Definition set_flag (fs : flagset) (name value : string) : outcome flagset :=
  match lookup_flag fs name with
  | None => Err (New ("no such flag -" +:+ name))
  | Some f =>
      match set_value (fl_value f) value with
      | Ok v => Ok (update_flag fs name (mkFlag v (fl_shorthand f) true (fl_required f)))
      | Err e => Err (New ("invalid argument " +:+ fmt_q value +:+ " for " +:+ fmt_q (flag_label name f)
                           +:+ " flag: " +:+ Error e))
      | Panic m => Panic m
      end
  end.

Definition ErrHelp : error := New "pflag: help requested".

Definition skip_bytes (n : nat) (s : string) : string :=
  String.substring n (String.length s - n) s.

Definition byte_at (n : nat) (s : string) : option ascii := String.get n s.

(** [parseLongArg]: the flag, and its value unless the next argument is it. *)
Definition parseLongArg (fs : flagset) (s : string) : outcome (string * option string) :=
  let name := skip_bytes 2 s in
  if bool_decide (name = "") || bool_decide (byte_at 0 name = Some "-"%char)
     || bool_decide (byte_at 0 name = Some "="%char)
  then Err (New ("bad flag syntax: " +:+ s))
  else
    let split := SplitN2 name "="%char in
    let name := match split with n :: _ => n | [] => "" end in
    match lookup_flag fs name with
    | None =>
        if bool_decide (name = "help") then Err ErrHelp
        else Err (New ("unknown flag: --" +:+ name))
    | Some f =>
        match split with
        | [_; value] => Ok (name, Some value)
        | _ => Ok (name, no_opt_def f)
        end
    end.

(** [parseSingleShortArg] at the letter [c] before [rest]: the flags, the letters
    that are left, and the arguments that are left. *)
Definition parseSingleShortArg (fs : flagset) (c : ascii) (rest : string) (args : list string)
    : outcome (flagset * string * list string) :=
  let shorthands := String c rest in
  if HasPrefix shorthands "test." then Ok (fs, "", args)
  else
    match shorthand_lookup fs c with
    | None =>
        if bool_decide (c = "h"%char) then Err ErrHelp
        else Err (New ("unknown shorthand flag: '" +:+ String c ("' in -" +:+ shorthands)))
    | Some (name, f) =>
        let set value rest' args' := let? fs' := set_flag fs name value in Ok (fs', rest', args') in
        if bool_decide (2 < String.length shorthands) && bool_decide (byte_at 0 rest = Some "="%char)
        then set (skip_bytes 1 rest) "" args
        else
          match no_opt_def f with
          | Some value => set value rest args
          | None =>
              if bool_decide (rest ≠ "") then set rest "" args
              else
                match args with
                | value :: args' => set value "" args'
                | [] => Err (New ("flag needs an argument: '" +:+ String c ("' in -" +:+ shorthands)))
                end
          end
    end.

(** [parseShortArg]; [fuel] bounds the letters.  The arguments left are those of
    the last letter. *)
Fixpoint parseShortArg (fuel : nat) (fs : flagset) (shorthands : string) (args a : list string)
    : outcome (flagset * list string) :=
  match fuel, shorthands with
  | S fuel', String c rest =>
      let? r := parseSingleShortArg fs c rest args in
      parseShortArg fuel' r.1.1 r.1.2 args r.2
  | _, _ => Ok (fs, a)
  end.

(** [parseArgs]; other arguments are left to the command, which ignores them.
    Every round takes an argument: their number is enough fuel. *)
Fixpoint parse_args (fuel : nat) (fs : flagset) (args : list string) : outcome flagset :=
  match fuel, args with
  | S fuel', s :: rest =>
      if bool_decide (byte_at 0 s ≠ Some "-"%char) || bool_decide (String.length s = 1) then
        parse_args fuel' fs rest
      else if bool_decide (byte_at 1 s = Some "-"%char) then
        if bool_decide (String.length s = 2) then Ok fs
        else
          let? nv := parseLongArg fs s in
          match nv.2 with
          | Some value => let? fs' := set_flag fs nv.1 value in parse_args fuel' fs' rest
          | None =>
              match rest with
              | value :: rest' => let? fs' := set_flag fs nv.1 value in parse_args fuel' fs' rest'
              | [] => Err (New ("flag needs an argument: " +:+ s))
              end
          end
      else
        let? r := parseShortArg (String.length s) fs (skip_bytes 1 s) rest rest in
        parse_args fuel' r.1 r.2
  | _, _ => Ok fs
  end.

Definition parseArgs (fs : flagset) (args : list string) : outcome flagset :=
  parse_args (length args) fs args.

(** ** Reading flags *)

Definition string_flag (fs : flagset) (name : string) : string :=
  match fl_value <$> lookup_flag fs name with Some (StringValue s) => s | _ => "" end.

Definition bool_flag (fs : flagset) (name : string) : bool :=
  match fl_value <$> lookup_flag fs name with Some (BoolValue b) => b | _ => false end.

Definition int_flag (fs : flagset) (name : string) : Z :=
  match fl_value <$> lookup_flag fs name with Some (IntValue z) => z | _ => 0%Z end.

Definition duration_flag (fs : flagset) (name : string) : Z :=
  match fl_value <$> lookup_flag fs name with Some (DurationValue d) => d | _ => 0%Z end.

Definition map_flag (fs : flagset) (name : string) : gmap string string :=
  match fl_value <$> lookup_flag fs name with Some (StringToStringValue _ m) => m | _ => ∅ end.

(** ** Finding the command *)

(** [hasNoOptDefVal] and [shortHasNoOptDefVal]. *)
Definition hasNoOptDefVal (fs : flagset) (name : string) : bool :=
  match lookup_flag fs name with Some f => bool_decide (is_Some (no_opt_def f)) | None => false end.

Definition shortHasNoOptDefVal (fs : flagset) (name : string) : bool :=
  match name with
  | "" => false
  | String c _ =>
      match shorthand_lookup fs c with
      | Some (_, f) => bool_decide (is_Some (no_opt_def f))
      | None => false
      end
  end.

(** A flag that takes the next argument. *)
Definition takes_next (fs : flagset) (s : string) : bool :=
  bool_decide ("="%char ∉ chars s) &&
  (HasPrefix s "--" && negb (hasNoOptDefVal fs (skip_bytes 2 s))
   || HasPrefix s "-" && bool_decide (String.length s = 2)
      && negb (shortHasNoOptDefVal fs (skip_bytes 1 s))).

(** [stripFlags]: the arguments that are not flags or their values.  A flag that
    takes the next argument ends the list when at most one is left. *)
Fixpoint stripFlags (fs : flagset) (args : list string) : list string :=
  match args with
  | [] => []
  | s :: args' =>
      if bool_decide (s = "--") then []
      else if takes_next fs s then
        match args' with
        | _ :: ((_ :: _) as rest) => stripFlags fs rest
        | _ => []
        end
      else if bool_decide (s ≠ "") && negb (HasPrefix s "-") then s :: stripFlags fs args'
      else stripFlags fs args'
  end.

(** [argsMinusFirstX]. *)
Fixpoint argsMinusFirstX (args : list string) (x : string) : list string :=
  match args with
  | [] => []
  | y :: args' => if bool_decide (x = y) then args' else y :: argsMinusFirstX args' x
  end.

(** [Find] for commands of one level: [findNext] gives the command of a name, and
    an argument of the root that is none of them is refused. *)
Definition Find {C} (findNext : string → option C) (suggestions : string → string) (root : C)
    (name : string) (fs : flagset) (args : list string) : outcome (C * list string) :=
  match stripFlags fs args with
  | [] => Ok (root, args)
  | next :: _ =>
      match findNext next with
      | Some cmd => Ok (cmd, argsMinusFirstX args next)
      | None => Err (New ("unknown command " +:+ fmt_q next +:+ " for " +:+ fmt_q name
                          +:+ suggestions next))
      end
  end.

(** ** Fuel *)

Lemma parseSingleShortArg_left fs c rest args r :
  parseSingleShortArg fs c rest args = Ok r → length r.2 ≤ length args.
Proof.
  unfold parseSingleShortArg, obind. repeat (case_match; try done); intros [= <-]; simpl in *; lia.
Qed.

Lemma parseShortArg_left fuel fs sh args a r :
  length a ≤ length args → parseShortArg fuel fs sh args a = Ok r → length r.2 ≤ length args.
Proof.
  revert fs sh a. induction fuel as [|fuel IH]; intros fs sh a Ha; [by intros [= <-]|].
  destruct sh as [|c sh]; [by intros [= <-]|]. cbn [parseShortArg].
  destruct (parseSingleShortArg fs c sh args) as [[[fs' sh'] a']| |] eqn:E; [|done..]. cbn [obind].
  apply IH. by apply parseSingleShortArg_left in E.
Qed.

(** More fuel than arguments changes nothing. *)
Lemma parse_args_fuel f1 f2 fs args :
  length args ≤ f1 → length args ≤ f2 → parse_args f1 fs args = parse_args f2 fs args.
Proof.
  revert f2 fs args. induction f1 as [|f1 IH]; intros [|f2] fs [|s rest] H1 H2; try done; simpl in H1, H2; try lia.
  cbn [parse_args]. case_match; [apply IH; lia|]. case_match.
  - case_match; [done|]. destruct (parseLongArg fs s) as [[n [v|]]| |]; [| |done..]; cbn [obind fst snd].
    + destruct (set_flag fs n v); [|done..]. apply IH; lia.
    + destruct rest as [|v rest]; [done|]. destruct (set_flag fs n v); [|done..]. simpl in *. apply IH; lia.
  - destruct (parseShortArg _ _ _ _ _) as [r| |] eqn:E; [|done..]. apply parseShortArg_left in E; [|done].
    cbn [obind]. apply IH; lia.
Qed.

(** ** Setting flags *)

(** The flags set one after the other. *)
Fixpoint set_flags (fs : flagset) (l : list (string * string)) : outcome flagset :=
  match l with
  | [] => Ok fs
  | nv :: l' => let? fs' := set_flag fs nv.1 nv.2 in set_flags fs' l'
  end.

Definition flag_text (nv : string * string) : string := "--" +:+ nv.1 +:+ "=" +:+ nv.2.

Definition flag_name (n : string) : bool :=
  negb (bool_decide (n = "")) && bool_decide ("="%char ∉ chars n)
  && bool_decide (byte_at 0 n ≠ Some "-"%char).

Lemma skip_two n v : skip_bytes 2 ("--" +:+ n +:+ "=" +:+ v) = n +:+ "=" +:+ v.
Proof.
  unfold skip_bytes. change (String.length ("--" +:+ ?x)) with (S (S (String.length x))).
  rewrite Nat.sub_succ, Nat.sub_succ, Nat.sub_0_r. apply substring_whole.
Qed.

(** A flag with its value in one argument is read whatever the value is. *)
Lemma parseLongArg_text fs n v f :
  flag_name n = true → lookup_flag fs n = Some f →
  parseLongArg fs (flag_text (n, v)) = Ok (n, Some v).
Proof.
  unfold flag_name. intros [[H1 H2]%andb_true_iff H3]%andb_true_iff Hf.
  rewrite negb_true_iff, bool_decide_eq_false in H1. apply bool_decide_eq_true in H2, H3.
  unfold parseLongArg, flag_text. cbn [fst snd]. rewrite skip_two.
  destruct n as [|a n]; [done|]. rewrite string_app_cons. change (byte_at 0 (String a ?x)) with (Some a) in *.
  rewrite (bool_decide_eq_false_2 (String a _ = "")), (bool_decide_eq_false_2 (Some a = Some "-"%char)),
    (bool_decide_eq_false_2 (Some a = Some "="%char)) by (done || (intros [= ->]; set_solver)).
  cbn [orb]. rewrite <- string_app_cons. unfold SplitN2.
  change ("=" +:+ v) with (String "="%char v). rewrite Cut_app by done. by rewrite Hf.
Qed.

Lemma parse_args_text fuel fs nv rest fs' :
  flag_name nv.1 = true → set_flag fs nv.1 nv.2 = Ok fs' →
  parse_args (S fuel) fs (flag_text nv :: rest) = parse_args fuel fs' rest.
Proof.
  destruct nv as [n v]. cbn [fst snd]. intros Hn Hs.
  assert (∃ f, lookup_flag fs n = Some f) as [f Hf] by (unfold set_flag in Hs; destruct (lookup_flag fs n); [eauto|done]).
  pose proof (parseLongArg_text fs n v f Hn Hf) as Hp. cbn [parse_args].
  assert (byte_at 0 (flag_text (n, v)) = Some "-"%char ∧ byte_at 1 (flag_text (n, v)) = Some "-"%char) as [E0 E1] by done.
  assert (2 < String.length (flag_text (n, v))) as Hlen.
  { destruct n as [|a n]; [done|]. unfold flag_text. cbn [fst snd].
    change (String.length ("--" +:+ String a n +:+ "=" +:+ v))
      with (S (S (S (String.length (n +:+ "=" +:+ v))))). lia. }
  rewrite E0, E1, !(bool_decide_eq_true_2 (Some _ = Some _)) by done.
  rewrite (bool_decide_eq_false_2 (Some _ ≠ Some _)) by (intros H; by apply H).
  rewrite !bool_decide_eq_false_2 by lia. cbn [orb]. rewrite Hp. cbn [obind fst snd]. by rewrite Hs.
Qed.

Lemma parseArgs_flags fs l fs' :
  forallb (λ nv, flag_name nv.1) l = true → set_flags fs l = Ok fs' →
  parseArgs fs (flag_text <$> l) = Ok fs'.
Proof.
  unfold parseArgs. rewrite length_fmap.
  revert fs. induction l as [|nv l IH]; intros fs; [done|].
  cbn [forallb set_flags]. intros [Hn Hl]%andb_true_iff.
  destruct (set_flag fs nv.1 nv.2) as [fs1| |] eqn:E; [|done..]. cbn [obind]. intros Hs.
  rewrite fmap_cons. cbn [length]. erewrite parse_args_text by done. by apply IH.
Qed.

(** Arguments that carry their values name no command. *)
Lemma stripFlags_texts fs l : stripFlags fs (flag_text <$> l) = [].
Proof.
  induction l as [|[n v] l IH]; [done|]. rewrite fmap_cons. cbn [stripFlags].
  rewrite bool_decide_eq_false_2.
  2:{ unfold flag_text. cbn [fst snd]. intros [= E]. by destruct n. }
  assert (takes_next fs (flag_text (n, v)) = false) as ->.
  { unfold takes_next. rewrite bool_decide_eq_false_2; [done|]. intros H. apply H.
    unfold flag_text. cbn [fst snd]. rewrite !chars_app. set_solver. }
  assert (HasPrefix (flag_text (n, v)) "-" = true) as -> by (by destruct n).
  by rewrite andb_false_r.
Qed.

(** ** Flags are independent *)

Lemma lookup_update fs n f m :
  lookup_flag (update_flag fs n f) m =
  if bool_decide (n = m) then (λ _, f) <$> lookup_flag fs m else lookup_flag fs m.
Proof.
  induction fs as [|[k g] fs IH]; [by case_bool_decide|]. cbn [update_flag lookup_flag].
  repeat (case_bool_decide; simplify_eq/=; try done); rewrite IH; by rewrite ?bool_decide_eq_true_2, ?bool_decide_eq_false_2.
Qed.

(** The values given to one flag, in their order. *)
Definition given (n : string) (l : list (string * string)) : list string :=
  (filter (λ nv, nv.1 = n) l).*2.

Fixpoint set_values (v : flag_value) (l : list string) : outcome flag_value :=
  match l with
  | [] => Ok v
  | s :: l' => let? v' := set_value v s in set_values v' l'
  end.

(** What a flag holds depends only on the values given to it. *)
Lemma set_flags_lookup fs l fs' n f :
  set_flags fs l = Ok fs' → lookup_flag fs n = Some f →
  ∃ v, set_values (fl_value f) (given n l) = Ok v ∧
       fl_value <$> lookup_flag fs' n = Some v.
Proof.
  revert fs f. induction l as [|[k s] l IH]; intros fs f; [intros [= <-] Hf; exists (fl_value f); by rewrite Hf|].
  cbn [set_flags fst snd]. unfold set_flag. destruct (lookup_flag fs k) as [g|] eqn:Ek; [|done].
  destruct (set_value (fl_value g) s) as [v| |] eqn:Ev; [|done..]. cbn [obind]. intros Hs Hf.
  destruct (decide (k = n)) as [->|Hk].
  - rewrite Ek in Hf. injection Hf as ->.
    destruct (IH _ (mkFlag v (fl_shorthand f) true (fl_required f)) Hs) as (v' & H1 & H2);
      [by rewrite lookup_update, bool_decide_eq_true_2, Ek|].
    exists v'. split; [|done]. unfold given. rewrite filter_cons_True, fmap_cons by done.
    cbn [set_values snd]. rewrite Ev. exact H1.
  - destruct (IH _ f Hs) as (v' & H1 & H2); [by rewrite lookup_update, bool_decide_eq_false_2|].
    exists v'. split; [|done]. unfold given. by rewrite filter_cons_False.
Qed.

(** ** Values as text *)

Lemma drop_while_none P l : Forall (λ c, P c = false) l → drop_while P l = l.
Proof. destruct 1 as [|c l Hc]; [done|]. cbn [drop_while]. by rewrite Hc. Qed.

Lemma Trim_id s c : c ∉ chars s → Trim s c = s.
Proof.
  intros H. assert (Forall (λ a, bool_decide (a = c) = false) (chars s)) as Hf.
  { apply Forall_forall. intros a Ha. apply bool_decide_eq_false. by intros ->. }
  unfold Trim. rewrite (drop_while_none _ (chars s) Hf).
  rewrite (drop_while_none _ (reverse (chars s))) by (by apply Forall_reverse). by rewrite reverse_involutive, of_chars_chars.
Qed.

Definition pair_text (kv : string * string) : string := kv.1 +:+ "=" +:+ kv.2.

(** A map as one argument. *)
Definition map_text (m : gmap string string) : string :=
  strings_Join (pair_text <$> map_to_list m) (String comma "").

(** Keys and values without separators, quotes and line ends; keys without the
    equals sign. *)
Definition plain_pair (kv : string * string) : bool :=
  forallb csv_plain (chars kv.1) && forallb csv_plain (chars kv.2)
  && bool_decide ("="%char ∉ chars kv.1).

Lemma plain_pair_text kv : plain_pair kv = true → forallb csv_plain (chars (pair_text kv)) = true.
Proof.
  unfold plain_pair, pair_text. intros [[H1 H2]%andb_true_iff _]%andb_true_iff.
  rewrite !chars_app, !forallb_app. by rewrite H1, H2.
Qed.

Lemma flag_pairs_texts out l :
  NoDup l.*1 → forallb plain_pair l = true →
  flag_pairs out (pair_text <$> l) = Ok (list_to_map l ∪ out).
Proof.
  revert out. induction l as [|[k v] l IH]; intros out.
  { intros _ _. cbn. by rewrite (left_id_L ∅ (∪)). }
  rewrite !fmap_cons. intros [Hk Hn]%NoDup_cons. cbn [forallb]. intros [Hp Hl]%andb_true_iff.
  unfold plain_pair in Hp. apply andb_true_iff in Hp as [_ He%bool_decide_eq_true].
  cbn [flag_pairs]. unfold SplitN2, pair_text at 1. cbn [fst snd] in *.
  change ("=" +:+ v) with (String "="%char v). rewrite Cut_app by done.
  rewrite IH by done. f_equal. rewrite list_to_map_cons.
  rewrite <- insert_union_r, insert_union_l; [done|]. by apply not_elem_of_list_to_map_1.
Qed.

Lemma Count_app s t c : Count (s +:+ t) c = Count s c + Count t c.
Proof. unfold Count. by rewrite chars_app, filter_app, length_app. Qed.

Lemma Count_pairs l : length l ≤ Count (strings_Join (pair_text <$> l) (String comma "")) "="%char.
Proof.
  induction l as [|kv l IH]; [apply Nat.le_0_l|]. rewrite fmap_cons.
  assert (1 ≤ Count (pair_text kv) "="%char) as H1.
  { unfold pair_text. rewrite !Count_app. change (Count "=" "="%char) with 1. lia. }
  destruct l as [|kv' l]; [done|]. rewrite fmap_cons in *.
  change (strings_Join (?f :: ?g :: ?l) ?sep) with (f +:+ sep +:+ strings_Join (g :: l) sep).
  rewrite !Count_app. change (length (kv :: kv' :: l)) with (S (length (kv' :: l))). lia.
Qed.

(** A map flag set once to the text of a map holds the map. *)
Lemma set_map_text m m0 :
  m ≠ ∅ → forallb plain_pair (map_to_list m) = true →
  set_map false m0 (map_text m) = Ok (StringToStringValue true m).
Proof.
  intros Hm Hp. unfold set_map, map_text.
  pose proof (NoDup_fst_map_to_list m) as Hn. pose proof (Count_pairs (map_to_list m)) as Hc.
  pose proof (list_to_map_to_list m) as Em. 
  assert (map_to_list m ≠ []) as Hl by (intros E; apply Hm; by apply map_to_list_empty_iff).
  assert (Forall (λ f, forallb csv_plain (chars f) = true) (pair_text <$> map_to_list m)) as Hf.
  { apply Forall_fmap, Forall_forall. intros kv Hkv. apply plain_pair_text.
    rewrite forallb_forall in Hp. apply Hp. by apply list_elem_of_In. }
  pose proof (flag_pairs_texts ∅ (map_to_list m) Hn Hp) as Hpairs.
  rewrite Em, (right_id_L ∅ (∪)) in Hpairs.
  destruct (map_to_list m) as [|kv l]; [done|].
  destruct (Count _ _) as [|[|n]] eqn:E; [simpl in Hc; lia| |].
  - destruct l; [|simpl in Hc; lia]. rewrite Trim_id.
    + cbn [obind]. change [strings_Join (pair_text <$> [kv]) (String comma "")] with (pair_text <$> [kv]).
      by rewrite Hpairs.
    + inversion Hf as [|? ? H _]. intros Hq. rewrite forallb_forall in H.
      change (chars (strings_Join (pair_text <$> [kv]) (String comma ""))) with (chars (pair_text kv)) in Hq.
      apply list_elem_of_In, H in Hq. done.
  - rewrite csv_Read_join by (done || (intros E'; rewrite E' in E; done)). cbn [obind]. by rewrite Hpairs.
Qed.

(** The text of a value. *)
Definition value_text (v : flag_value) : string :=
  match v with
  | StringValue s => s
  | BoolValue b => fmt_bool b
  | IntValue z => pretty z
  | DurationValue d => sign_text (d <? 0)%Z +:+ terms_text [(Z.abs_N d, "ns")]
  | StringToStringValue _ m => map_text m
  end.

(** Values that a command line can give to a flag of the kind of [v0]. *)
Definition writable (v0 v : flag_value) : Prop :=
  match v0, v with
  | StringValue _, StringValue _ => True
  | BoolValue _, BoolValue _ => True
  | IntValue _, IntValue z => in_int64 z = true
  | DurationValue _, DurationValue d => (- max_int64 ≤ d ≤ max_int64)%Z
  | StringToStringValue false _, StringToStringValue true m =>
      m ≠ ∅ ∧ forallb plain_pair (map_to_list m) = true
  | _, _ => False
  end.

Lemma set_value_text v0 v : writable v0 v → set_value v0 (value_text v) = Ok v.
Proof.
  destruct v0 as [s0|b0|z0|d0|[] m0], v as [s|b|z|d|[] m]; try done; cbn [writable set_value value_text].
  - by destruct b.
  - intros Hz. by rewrite ParseInt_pretty.
  - intros Hd. rewrite ParseDuration_terms; [|done|by repeat econstructor].
    assert (terms_val [(Z.abs_N d, "ns")] = Z.abs d) as ->.
    { unfold terms_val, term_val. cbn [foldr fst snd]. change (default 0%Z (unit_of "ns")) with 1%Z. lia. }
    rewrite (proj2 (Z.ltb_ge _ _)) by lia. cbn [obind]. do 2 f_equal. destruct (d <? 0)%Z eqn:E; lia.
  - intros [Hm Hp]. by apply set_map_text.
Qed.
