(* ===== verification/Cmd.v ===== *)
(** * Cmd: the command line of a build job

    [cmd/build.go] with the flags it shares with [cmd/root.go] and the order in
    which cobra runs a command, and what the controller's command line
    ([prepareJobArgs]) becomes in the job it starts. *)
From stdpp Require Import gmap strings list sorting.
From Stdlib Require Import ZArith Ascii.
From S2P Require Import Prelude Go GoStd Types Config Kube Resources Filepath Flags.
#[local] Open Scope forge_scope.

(** ** The build command *)

Definition defaultMessageQueue : string := "forge-status-update".

(** The flags of the root command that its subcommands have too. *)
Definition persistent_flags (getenv : string → string) : flagset :=
  [("message-broker", StringVar "");
   ("amqp-uri", StringVar "");
   ("amqp-queue", StringVar defaultMessageQueue);
   ("preparer-plugins-path", StringVar (filepath_Join [GetStateDir getenv; "plugins"]));
   ("enable-layer-caching", BoolVar false);
   ("debug", BoolVar false)].

(** The flags the build command declares. *)
Definition local_build_flags : flagset :=
  [("resource", required (StringVar ""));
   ("resource-namespace", required (StringVar ""))].

Definition build_flags (getenv : string → string) : flagset :=
  local_build_flags ++ persistent_flags getenv ++ [help_flag].

(** [buildjob.Config]. *)
Record Config := mkConfig {
  cfg_ResourceName : string;
  cfg_ResourceNamespace : string;
  cfg_BrokerOpts : option Options;
  cfg_PreparerPluginsPath : string;
  cfg_EnableLayerCaching : bool;
  cfg_Debug : bool;
}.

(** [PreRun]: the namespace of the pod, when its file can be read, replaces the
    flag. *)
Definition PreRun (namespace_file : error + string) (fs : flagset) : outcome flagset :=
  match namespace_file with
  | inl _ => Ok fs
  | inr bs =>
      match set_flag fs "resource-namespace" bs with
      | Err e => Panic (Error e)
      | o => o
      end
  end.

(** [validateRequiredFlags]: the required flags that were not set, by name. *)
Definition missing_flags (fs : flagset) : list string :=
  merge_sort String.le
    (filter (λ p, fl_required p.2 = true ∧ fl_changed p.2 = false) fs).*1.

(** [Command.execute] up to the [Run] of the build command: the configuration
    [Run] gives to the job. *)
Definition execute_build (getenv : string → string) (namespace_file : error + string)
    (args : list string) : outcome Config :=
  let? fs := parseArgs (build_flags getenv) args in
  if bool_flag fs "help" then Err ErrHelp
  else
    let broker := processBrokerOpts (string_flag fs "message-broker") (string_flag fs "amqp-uri")
                    (string_flag fs "amqp-queue") in
    let? _ := of_err broker.2 in
    let? fs := PreRun namespace_file fs in
    match missing_flags fs with
    | [] =>
        Ok (mkConfig (string_flag fs "resource") (string_flag fs "resource-namespace") broker.1
              (string_flag fs "preparer-plugins-path") (bool_flag fs "enable-layer-caching")
              (bool_flag fs "debug"))
    | missing =>
        Err (New ("required flag(s) " +:+ dquote +:+ strings_Join missing (dquote +:+ ", " +:+ dquote)
                  +:+ dquote +:+ " not set"))
    end.

Example build_flags_parse :
  execute_build (λ _, "") (inr "ns") ["--resource=b"; "--enable-layer-caching"; "--debug=F"]
  = Ok (mkConfig "b" "ns" None "/tmp/forge/plugins" true false).
Proof. vm_compute. reflexivity. Qed.

Example build_flags_missing :
  execute_build (λ _, "") (inl (New "no such file")) ["--resource"; "b"]
  = Err (New ("required flag(s) " +:+ fmt_q "resource-namespace" +:+ " not set")).
Proof. vm_compute. reflexivity. Qed.

(** ** From the controller to the job *)

(** Text the shell takes as it is. *)
Definition plain_byte (a : ascii) : bool :=
  let n := N_of_ascii a in
  ((48 <=? n) && (n <=? 57) || (65 <=? n) && (n <=? 90) || (97 <=? n) && (n <=? 122))%N
  || bool_decide (a ∈ ["-"; "_"; "."; "/"; ":"; "@"; "%"; "+"; ","; "="]%char).

Definition plain (w : string) : Prop := w ≠ "" ∧ Forall (λ a, plain_byte a = true) (chars w).

#[export] Instance plain_dec w : Decision (plain w).
Proof. unfold plain. apply _. Defined.

Section job_command.
(** The words of a script; POSIX: a line of plain words is these words. *)
Context (sh_words : string → list string).
Hypothesis sh_plain : ∀ words, words ≠ [] → Forall plain words →
  sh_words (strings_Join words " ") = words.

(** The command the container of a job runs, from the arguments of its shell; the
    launcher runs the command that follows it. *)
Definition container_command (args : list string) : list string :=
  match args with
  | [_; script] =>
      let words := sh_words script in
      match words with
      | w :: rest => if bool_decide (w = rootlesskitCommand) then rest else words
      | [] => []
      end
  | _ => []
  end.

Definition job_command (jc : BuildJobConfig) (cib : ContainerImageBuild) : list string :=
  container_command (prepareJobArgs jc cib).

(** The arguments of its build command. *)
Definition job_arguments (jc : BuildJobConfig) (cib : ContainerImageBuild) : list string :=
  drop 2 (job_command jc cib).

Lemma plain_app s t : Forall (λ a, plain_byte a = true) (chars s) → plain t → plain (s +:+ t).
Proof.
  intros Hs [Hne Ht]. split; [by destruct s|]. rewrite chars_app. by apply Forall_app.
Qed.

(** The options of the broker for a build. *)
Definition build_broker (jc : BuildJobConfig) (cib : ContainerImageBuild) : option Options :=
  match jc_BrokerOpts jc with
  | Some opts =>
      Some (mkOptions (opt_Broker opts) (opt_AmqpURI opts)
              (if bool_decide (spec_MessageQueueName (cib_Spec cib) ≠ "")
               then spec_MessageQueueName (cib_Spec cib) else opt_AmqpQueue opts))
  | None => None
  end.

(** The values the controller puts into the script are plain text. *)
Definition plain_values (jc : BuildJobConfig) (cib : ContainerImageBuild) : Prop :=
  plain (cib_Name cib) ∧ (jc_PreparerPluginPath jc ≠ "" → plain (jc_PreparerPluginPath jc)) ∧
  match build_broker jc cib with
  | Some opts => plain (opt_Broker opts) ∧ plain (opt_AmqpURI opts) ∧ plain (opt_AmqpQueue opts)
  | None => True
  end.

(** The flags of the script. *)
Definition job_flags (jc : BuildJobConfig) (cib : ContainerImageBuild) : list (string * string) :=
  [("resource", cib_Name cib); ("enable-layer-caching", fmt_bool (jc_EnableLayerCaching jc))]
  ++ (if bool_decide (jc_PreparerPluginPath jc ≠ "")
      then [("preparer-plugins-path", jc_PreparerPluginPath jc)] else [])
  ++ match build_broker jc cib with
     | Some opts => [("message-broker", opt_Broker opts); ("amqp-uri", opt_AmqpURI opts);
                     ("amqp-queue", opt_AmqpQueue opts)]
     | None => []
     end.

Lemma prepareJobArgs_flags jc cib :
  jc_EnableIstioSupport jc = false →
  prepareJobArgs jc cib =
  ["-c"; strings_Join ((if negb (jc_GrantFullPrivilege jc) then [rootlesskitCommand] else [])
                       ++ [forgeCommand; "build"] ++ (flag_text <$> job_flags jc cib)) " "].
Proof.
  intros Hi. unfold prepareJobArgs, job_flags, build_broker. rewrite Hi.
  do 2 f_equal. f_equal.
  destruct (jc_GrantFullPrivilege jc), (jc_BrokerOpts jc), (bool_decide (jc_PreparerPluginPath jc ≠ ""));
    reflexivity.
Qed.

Lemma job_flags_plain jc cib :
  plain_values jc cib → Forall (λ nv, plain (flag_text nv)) (job_flags jc cib).
Proof.
  intros (Hn & Hp & Hb). unfold job_flags.
  assert (∀ n v, plain v → Forall (λ a, plain_byte a = true) (chars n) → plain (flag_text (n, v))) as H.
  { intros n v Hv Hc. unfold flag_text. cbn [fst snd]. apply plain_app; [by apply (bool_decide_unpack _)|].
    apply plain_app; [done|]. apply plain_app; [by apply (bool_decide_unpack _)|done]. }
  repeat apply Forall_app_2.
  - constructor; [|constructor; [|done]]; apply H; try done; try by apply (bool_decide_unpack _).
    destruct (jc_EnableLayerCaching jc); by apply (bool_decide_unpack _).
  - case_bool_decide; [|done]. constructor; [|done]. apply H; [by apply Hp|by apply (bool_decide_unpack _)].
  - destruct (build_broker jc cib); [|done]. destruct Hb as (?&?&?).
    repeat (constructor; [apply H; [done|by apply (bool_decide_unpack _)]|]). done.
Qed.

Lemma job_command_flags jc cib :
  jc_EnableIstioSupport jc = false → plain_values jc cib →
  job_command jc cib = [forgeCommand; "build"] ++ (flag_text <$> job_flags jc cib).
Proof.
  intros Hi Hp. unfold job_command. rewrite prepareJobArgs_flags by done.
  cbn [container_command]. rewrite sh_plain.
  - by destruct (jc_GrantFullPrivilege jc).
  - by destruct (jc_GrantFullPrivilege jc).
  - repeat apply Forall_app_2.
    + destruct (jc_GrantFullPrivilege jc); by apply (bool_decide_unpack _).
    + by apply (bool_decide_unpack _).
    + apply Forall_fmap. by apply job_flags_plain.
Qed.

(** Options the controller accepted are accepted by the job, with the queue of
    any build. *)
Lemma valid_build_broker jc cib :
  from_option (λ opts, ValidateOpts opts = None) True (jc_BrokerOpts jc) →
  from_option ValidateOpts None (build_broker jc cib) = None.
Proof.
  unfold build_broker. destruct (jc_BrokerOpts jc) as [opts|]; [|done].
  unfold ValidateOpts. cbn [from_option opt_Broker opt_AmqpURI opt_AmqpQueue].
  case_bool_decide; [|done]. case_bool_decide as Hu; [done|]. intros _.
  rewrite bool_decide_eq_false_2; [done|]. case_bool_decide; naive_solver.
Qed.

Lemma accepted_broker broker uri queue jc cib :
  processBrokerOpts broker uri queue = (jc_BrokerOpts jc, None) →
  from_option ValidateOpts None (build_broker jc cib) = None.
Proof.
  intros H. apply valid_build_broker. revert H. unfold processBrokerOpts.
  case_bool_decide; [by intros [= <-]|]. by intros [= <- ?].
Qed.

(** The configuration of the job for the flags of the script. *)
Lemma execute_build_flags getenv ns jc cib :
  from_option ValidateOpts None (build_broker jc cib) = None →
  execute_build getenv (inr ns) (flag_text <$> job_flags jc cib) =
  Ok (mkConfig (cib_Name cib) ns (build_broker jc cib)
        (if bool_decide (jc_PreparerPluginPath jc ≠ "") then jc_PreparerPluginPath jc
         else filepath_Join [GetStateDir getenv; "plugins"])
        (jc_EnableLayerCaching jc) false).
Proof.
  intros Hv. unfold execute_build, job_flags, build_flags, persistent_flags.
  generalize (filepath_Join [GetStateDir getenv; "plugins"]) as d. intros d.
  destruct (build_broker jc cib) as [[b u q]|]; cbn [from_option opt_Broker opt_AmqpURI opt_AmqpQueue] in *.
  - unfold ValidateOpts in Hv. cbn [opt_Broker opt_AmqpURI opt_AmqpQueue] in Hv.
    case_bool_decide as Hb; [|done]. case_bool_decide as Hu; [done|]. rewrite Hb.
    destruct u; [by destruct Hu; left|]. destruct q; [by destruct Hu; right|].
    destruct (jc_EnableLayerCaching jc); case_bool_decide;
      (erewrite parseArgs_flags; [|reflexivity|vm_compute; reflexivity]); vm_compute; reflexivity.
  - destruct (jc_EnableLayerCaching jc); case_bool_decide;
      (erewrite parseArgs_flags; [|reflexivity|vm_compute; reflexivity]); vm_compute; reflexivity.
Qed.
(** The build job runs with the configuration of the controller.  When the
    controller accepted its broker flags, and the values in the script are plain
    text, the command it puts into the container gives the job the name of the
    build, the namespace of its pod, the broker of the controller with the queue
    of the build, and the plugin path and the caching option of the controller. *)
Theorem job_config_roundtrip getenv ns jc cib broker uri queue :
  processBrokerOpts broker uri queue = (jc_BrokerOpts jc, None) →
  jc_EnableIstioSupport jc = false → plain_values jc cib →
  execute_build getenv (inr ns) (job_arguments jc cib) =
  Ok (mkConfig (cib_Name cib) ns (build_broker jc cib)
        (if bool_decide (jc_PreparerPluginPath jc ≠ "") then jc_PreparerPluginPath jc
         else filepath_Join [GetStateDir getenv; "plugins"])
        (jc_EnableLayerCaching jc) false).
Proof.
  intros Hv%(accepted_broker _ _ _ _ cib) Hi Hp. unfold job_arguments.
  rewrite job_command_flags by done. by apply execute_build_flags.
Qed.
End job_command.

(** ** What else the shell of a job runs *)

(** POSIX: the reserved words a command cannot be named by. *)
Definition reserved_words : list string :=
  ["case"; "do"; "done"; "elif"; "else"; "esac"; "fi"; "for"; "if"; "in"; "then"; "until"; "while"].

(** A simple command of plain words: a name, which is no reserved word and no
    assignment, and its arguments. *)
Definition simple_command (c : list string) : Prop :=
  match c with
  | [] => False
  | name :: args =>
      name ∉ reserved_words ∧ "="%char ∉ chars name ∧ Forall plain (name :: args)
  end.

#[export] Instance simple_command_dec c : Decision (simple_command c).
Proof. unfold simple_command. destruct c; apply _. Defined.

(** A build with another queue. *)
Definition with_queue (q : string) (cib : ContainerImageBuild) : ContainerImageBuild :=
  let s := cib_Spec cib in
  mkBuild (cib_ObjectMeta cib)
    (mkSpec (spec_ImageName s) (spec_Context s) (spec_ContextTimeoutSeconds s) (spec_PushRegistries s)
       (spec_Registries s) (spec_BuildArgs s) (spec_Labels s) (spec_CPU s) (spec_Memory s)
       (spec_Resources s) (spec_TimeoutSeconds s) (spec_ImageSizeLimit s) (spec_PluginData s)
       (spec_DisableBuildCache s) (spec_DisableLayerCacheExport s) q (spec_InitContainers s))
    (cib_Status cib).

(** The command of the script for a build whose values are plain. *)
Definition build_words (jc : BuildJobConfig) (cib : ContainerImageBuild) : list string :=
  (if negb (jc_GrantFullPrivilege jc) then [rootlesskitCommand] else [])
  ++ [forgeCommand; "build"] ++ (flag_text <$> job_flags jc cib).

Lemma build_words_command jc cib : plain_values jc cib → simple_command (build_words jc cib).
Proof.
  intros Hp%job_flags_plain. assert (Forall plain (build_words jc cib)) as H.
  { repeat apply Forall_app_2; [|by apply (bool_decide_unpack _)|by apply Forall_fmap].
    destruct (negb _); by apply (bool_decide_unpack _). }
  unfold build_words in *. destruct (negb _);
    (split_and!; [by apply (bool_decide_unpack _)|by apply (bool_decide_unpack _)|exact H]).
Qed.

Lemma Join_snoc l x y sep : strings_Join (l ++ [x +:+ y]) sep = strings_Join (l ++ [x]) sep +:+ y.
Proof.
  destruct l as [|z l]; [done|]. by rewrite !strings_Join_app, !string_app_assoc by done.
Qed.

(** The flags of a build, the one of the queue last. *)
Lemma job_flags_queue jc cib opts :
  jc_BrokerOpts jc = Some opts →
  ∃ l, ∀ q, q ≠ "" → job_flags jc (with_queue q cib) = l ++ [("amqp-queue", q)].
Proof.
  intros Hb. unfold job_flags, build_broker. rewrite Hb.
  exists ([("resource", cib_Name cib); ("enable-layer-caching", fmt_bool (jc_EnableLayerCaching jc))]
    ++ (if bool_decide (jc_PreparerPluginPath jc ≠ "")
        then [("preparer-plugins-path", jc_PreparerPluginPath jc)] else [])
    ++ [("message-broker", opt_Broker opts); ("amqp-uri", opt_AmqpURI opts)]).
  intros q Hq. cbn [spec_MessageQueueName with_queue cib_Spec opt_AmqpQueue].
  rewrite (bool_decide_eq_true_2 (q ≠ "")) by done. by rewrite <- !app_assoc.
Qed.

Section shell.
(** The simple commands of a script, which the shell runs in order; POSIX: two of
    them with a semicolon between are these two. *)
Context (sh_commands : string → list (list string)).
Hypothesis sh_sequence : ∀ c1 c2, simple_command c1 → simple_command c2 →
  sh_commands (strings_Join c1 " " +:+ "; " +:+ strings_Join c2 " ") = [c1; c2].

(** What [/bin/sh] runs with the arguments of a container. *)
Definition shell_runs (args : list string) : list (list string) :=
  match args with
  | [flag; script] => if bool_decide (flag = "-c") then sh_commands script else []
  | _ => []
  end.

(** C39: Whoever submits a build chooses commands that its job runs.  The name of the
    message queue is put into the script of the job as it is.  When it is a queue
    [q] followed by a semicolon and any simple command, the shell runs the build
    with the queue [q] and then this command.  The broker is configured, the proxy
    of Istio is not, and the other values in the script are plain text. *)
Theorem queue_unquoted jc cib opts q c :
  jc_BrokerOpts jc = Some opts → jc_EnableIstioSupport jc = false →
  plain_values jc (with_queue q cib) → q ≠ "" → simple_command c →
  shell_runs (prepareJobArgs jc (with_queue (q +:+ "; " +:+ strings_Join c " ") cib)) =
  [build_words jc (with_queue q cib); c].
Proof.
  intros Hb Hi Hp Hq Hc. rewrite prepareJobArgs_flags by done. cbn [shell_runs].
  rewrite bool_decide_eq_true_2 by done. rewrite <- sh_sequence by (done || by apply build_words_command).
  f_equal. destruct (job_flags_queue jc cib opts Hb) as [l Hl]. unfold build_words.
  rewrite !Hl by (done || by destruct q). rewrite !fmap_app, !app_assoc. cbn [fmap list_fmap].
  rewrite <- Join_snoc. unfold flag_text. cbn [fst snd]. by rewrite !string_app_assoc.
Qed.
End shell.

(** ** Concrete runs *)

Module CmdSample.
Definition spec (queue : string) : ContainerImageBuildSpec :=
  mkSpec "img" "http://ctx" 0 ["reg.io"] [] [] ∅ "1" "" no_resources 0 0 ∅ false false queue [].
Definition build (queue : string) : ContainerImageBuild :=
  mkBuild (mkObjectMeta "b" "ns" "b" "" "" None ∅ [] 0 None) (spec queue)
    (mkStatus "" "" [] 0 "" None None).
Definition opts : Options := mkOptions "amqp" "amqp://u:p@host:5672/" "status".
Definition jobConfig : BuildJobConfig :=
  mkBuildJobConfig "forge:1" "" "" "" ∅ ∅ ∅ "" false true "" "" (Some opts) [] [] [] false [] [].

(** Words separated by blanks. *)
Definition words (s : string) : list string := Split s " "%char.

Lemma words_plain l : l ≠ [] → Forall plain l → words (strings_Join l " ") = l.
Proof.
  intros Hl Hp. apply (Split_Join l " "%char); [done|]. eapply Forall_impl; [exact Hp|].
  intros w [_ Hw] Hin. rewrite Forall_forall in Hw. by apply Hw in Hin.
Qed.

Lemma job_config_roundtrip_witness :
  execute_build (λ _, "") (inr "ns") (job_arguments words jobConfig (build "events"))
  = Ok (mkConfig "b" "ns" (Some (mkOptions "amqp" "amqp://u:p@host:5672/" "events"))
          "/tmp/forge/plugins" true false).
Proof.
  refine (job_config_roundtrip words words_plain (λ _, "") "ns" jobConfig (build "events")
            "AMQP" "amqp://u:p@host:5672/" "status" eq_refl eq_refl _).
  split; [|split]; [|done|split_and!]; by apply (bool_decide_unpack _).
Defined.

(** Commands separated by semicolons. *)
Definition commands (s : string) : list (list string) :=
  (λ c, List.filter non_empty (words c)) <$> Split s ";"%char.

Lemma filter_plain l : Forall plain l → List.filter non_empty l = l.
Proof.
  intros H. induction H as [|w l [Hw _] _ IH]; [done|]. simpl. unfold non_empty at 1.
  by rewrite bool_decide_eq_true_2, IH.
Qed.

Lemma plain_no_separator l a :
  Forall plain l → plain_byte a = false → a ≠ " "%char → a ∉ chars (strings_Join l " ").
Proof.
  intros H Ha Hs. induction H as [|w l [_ Hw] Hl IH]; [set_solver|].
  assert (a ∉ chars w) as Hn by (intros Hin; rewrite Forall_forall in Hw; apply Hw in Hin; congruence).
  destruct l as [|x l]; [done|]. cbn [strings_Join] in *.
  rewrite !chars_app. rewrite !elem_of_app. intros [?|[H1|?]]; [done| |done].
  by apply list_elem_of_singleton in H1.
Qed.

Lemma commands_sequence c1 c2 :
  simple_command c1 → simple_command c2 →
  commands (strings_Join c1 " " +:+ "; " +:+ strings_Join c2 " ") = [c1; c2].
Proof.
  destruct c1 as [|n1 a1], c2 as [|n2 a2]; try done. intros (_ & _ & H1) (_ & _ & H2). unfold commands.
  change (strings_Join (n1 :: a1) " " +:+ "; " +:+ strings_Join (n2 :: a2) " ")
    with (strings_Join [strings_Join (n1 :: a1) " "; " " +:+ strings_Join (n2 :: a2) " "] ";").
  rewrite (Split_Join [strings_Join (n1 :: a1) " "; " " +:+ strings_Join (n2 :: a2) " "] ";"%char);
    [|done|].
  - cbn [fmap list_fmap]. rewrite words_plain by done.
    change (" " +:+ strings_Join (n2 :: a2) " ") with (strings_Join ("" :: n2 :: a2) " ").
    unfold words. rewrite (Split_Join ("" :: n2 :: a2) " "%char); [|done|].
    + change (List.filter non_empty ("" :: n2 :: a2)) with (List.filter non_empty (n2 :: a2)).
      by rewrite !filter_plain.
    + constructor; [set_solver|]. eapply Forall_impl; [exact H2|].
      intros w [_ Hw] Hin. rewrite Forall_forall in Hw. by apply Hw in Hin.
  - constructor; [by apply plain_no_separator|]. constructor; [|done].
    rewrite chars_app, elem_of_app. intros [Hx|Hx]; [by apply list_elem_of_singleton in Hx|].
    by apply plain_no_separator in Hx.
Qed.

Lemma queue_unquoted_witness :
  shell_runs commands (prepareJobArgs jobConfig (with_queue "q; rm -rf /mnt/build" (build ""))) =
  [build_words jobConfig (build "q"); ["rm"; "-rf"; "/mnt/build"]].
Proof.
  apply (queue_unquoted commands commands_sequence jobConfig (build "") opts "q" ["rm"; "-rf"; "/mnt/build"]);
    [reflexivity|reflexivity| |discriminate|by apply (bool_decide_unpack _)].
  split; [|split]; [|done|split_and!]; by apply (bool_decide_unpack _).
Defined.
End CmdSample.
