(* ===== verification/Setup.v ===== *)
(** * Setup: construction and clean-up of a build job

    [internal/buildjob/buildjob.go] ([New], [Cleanup]) with what it constructs:
    the Kubernetes configuration, the preparer plugins ([plugins/preparer]), and
    the embedded driver with its BuildKit client ([NewDriver], [NewClient],
    [initDataStores], [createWorkerOpt]).  The libraries that open stores and
    start processes are parameters; what is open or running is an account that
    their documented effects change. *)
From stdpp Require Import gmap strings list.
From Stdlib Require Import ZArith Ascii.
From S2P Require Import Prelude Go GoStd Config Cmd.
#[local] Open Scope forge_scope.

(** ** Preparer plugins over RPC *)

(** [Arguments]. *)
Record Arguments := mkArguments {
  ar_ContextPath : string;
  ar_PluginData : gmap string string;
}.

Definition prepareServiceMethod : string := "Plugin.Prepare".
Definition cleanupServiceMethod : string := "Plugin.Cleanup".

(** What a plugin implements; [None] is the nil error. *)
Class Preparer (W : Type) := {
  pl_Prepare : string → gmap string string → M W (option error);
  pl_Cleanup : M W (option error);
}.

(** A call of a method on the other side: the reply, or the transport's error. *)
Class RpcClient (W : Type) := rpc_Call : string → Arguments → M W string.

Section rpc.
Context {W : Type} {PL : Preparer W} {RC : RpcClient W}.

Definition server_reply (e : option error) : string :=
  match e with Some e => Error e | None => "" end.

(** The server: the error of the plugin travels as text. *)
Definition server_Prepare (args : Arguments) : M W string :=
  let! e := pl_Prepare (ar_ContextPath args) (ar_PluginData args) in ret (server_reply e).

Definition server_Cleanup : M W string :=
  let! e := pl_Cleanup in ret (server_reply e).

(** The client: a reply that is not empty is an error. *)
Definition client_result (context : string) (reply : error + string) : option error :=
  Wrap (match reply with
        | inl err => Some err
        | inr errStr => if bool_decide (errStr ≠ "") then Some (New errStr) else None
        end) context.

Definition client_Prepare (contextPath : string) (pluginData : gmap string string)
    : M W (option error) :=
  let! reply := try (rpc_Call prepareServiceMethod (mkArguments contextPath pluginData)) in
  ret (client_result ("failed to prepare " +:+ contextPath) reply).

Definition client_Cleanup : M W (option error) :=
  let! reply := try (rpc_Call cleanupServiceMethod (mkArguments "" ∅)) in
  ret (client_result "failed to cleanup" reply).

(** The methods of the server by name. *)
Definition serve (method : string) (args : Arguments) : M W string :=
  if bool_decide (method = prepareServiceMethod) then server_Prepare args
  else if bool_decide (method = cleanupServiceMethod) then server_Cleanup
  else throw (New ("rpc: can't find method " +:+ method)).

(** A transport that delivers calls and replies. *)
Hypothesis delivers : ∀ method args w, rpc_Call method args w = serve method args w.

(** Through the RPC pair the plugin is called with the arguments of the
    driver, and the driver sees an error with the plugin's text exactly when the
    plugin returned one that has a text; an error without text is lost. *)
Theorem preparer_rpc contextPath data w e w' :
  pl_Prepare contextPath data w = (Ok e, w') →
  client_Prepare contextPath data w =
  (Ok (match e with
       | Some err => if bool_decide (Error err = "") then None
                     else Some (wrap (New (Error err)) ("failed to prepare " +:+ contextPath))
       | None => None
       end), w').
Proof.
  intros H. unfold client_Prepare, bind, try. rewrite delivers. unfold serve.
  rewrite bool_decide_eq_true_2 by done. unfold server_Prepare, bind. cbn [ar_ContextPath ar_PluginData].
  rewrite H. unfold ret, client_result, server_reply. destruct e as [err|]; [|done].
  destruct (decide (Error err = "")) as [E|E].
  - rewrite E. by rewrite bool_decide_eq_false_2, bool_decide_eq_true_2 by (done || auto).
  - by rewrite bool_decide_eq_true_2, bool_decide_eq_false_2.
Qed.
End rpc.

(** ** The host *)

(** An entry of a directory walk: the path, and whether it is a directory, or the
    error of reading it. *)
Record walk_entry := mkWalkEntry {
  we_path : string;
  we_info : error + bool;
}.

(** The two sources of a Kubernetes configuration. *)
Class ConfigHost (W : Type) := {
  su_ClientConfig : M W unit;
  su_InClusterConfig : M W unit;
}.

(** [LoadKubernetesConfig]. *)
Definition LoadKubernetesConfig {W} {CO : ConfigHost W} : M W unit :=
  let! cfg := try su_ClientConfig in
  match cfg with
  | inr _ => ret tt
  | inl _ => su_InClusterConfig
  end.

Class SetupHost (W : Type) := {
  (** Kubernetes configuration and clients *)
  su_config :: ConfigHost W;
  su_NewK8sClient : M W unit;
  su_NewForgeClient : M W unit;
  (** message producer *)
  su_NewProducer : Options → M W nat;
  su_CloseProducer : nat → W → W;
  (** plugins: the process of a plugin, its RPC stub and its end *)
  su_Stat : string → M W unit;
  su_IsNotExist : error → bool;
  su_Walk : string → W → list walk_entry * W;
  su_StartPlugin : string → M W nat;
  su_Dispense : nat → M W unit;
  su_Kill : nat → W → W;
  (** BuildKit *)
  su_OverlaySupported : string → M W unit;
  su_FuseSupported : string → M W unit;
  su_OpenBolt : string → M W unit;
  su_NewContentStore : string → M W unit;
  su_NewSnapshotter : string → string → M W unit;
  su_InitMetadata : string → M W unit;
  su_NewMetadataStore : string → M W unit;
  su_MountProc : M W unit;
  su_Providers : M W unit;
  su_NewExecutor : string → bool → bool → M W unit;
  su_WorkerID : string → M W string;
  su_SupportedPlatforms : M W (list string);
  su_ParsePlatform : string → outcome string;
}.

(** ** The BuildKit client *)

Definition AutoBackend : string := "auto".
Definition NativeBackend : string := "native".
Definition OverlayFSBackend : string := "overlayfs".
Definition FuseOverlayFSBackend : string := "fuse-overlayfs".
Definition ociRuntime : string := "runc".

(** [Client] after its construction. *)
Record BkClient := mkBkClient {
  bk_backend : string;
  bk_rootDir : string;
}.

Record WorkerOpt := mkWorkerOpt {
  wo_ID : string;
  wo_Backend : string;
  wo_Platforms : list string;
  wo_ExecutorRoot : string;
  wo_Rootless : bool;
  wo_NoProcessSandbox : bool;
}.

(** The driver: the client, the plugins and the option. *)
Record NewDriverResult := mkNewDriver {
  nd_client : BkClient;
  nd_plugins : list nat;
  nd_cacheImageLayers : bool;
}.

Section setup.
Context {W : Type} {SH : SetupHost W}.
Context (getenv : string → string).

(** [autoSelectFn]. *)
Definition autoSelect (workDir : string) : M W string :=
  let! overlay := try (su_OverlaySupported workDir) in
  match overlay with
  | inr _ => ret OverlayFSBackend
  | inl _ =>
      let! fuse := try (su_FuseSupported workDir) in
      match fuse with
      | inr _ => ret FuseOverlayFSBackend
      | inl _ => ret NativeBackend
      end
  end.

Definition valid_backends : list string := [NativeBackend; OverlayFSBackend; FuseOverlayFSBackend].

Definition initDataStores (c : BkClient) : M W unit :=
  do! su_OpenBolt (filepath_Join [bk_rootDir c; "container-metadata.db"]) in
  do! su_NewContentStore (filepath_Join [bk_rootDir c; "content"]) in
  let snapshotDir := filepath_Join [bk_rootDir c; "snapshotter"] in
  do! (if bool_decide (bk_backend c ∈ valid_backends) then
         wrapping ("creating " +:+ bk_backend c +:+ " snapshotter failed")
           (su_NewSnapshotter (bk_backend c) snapshotDir)
       else throw (New (bk_backend c +:+ " is not a valid snapshotter"))) in
  su_InitMetadata (bk_backend c).

(** [NewClient]: the directory the backends are probed in is computed before the
    backend is selected. *)
Definition NewClient (rootDir backend : string) : M W BkClient :=
  let workDir := filepath_Join [rootDir; ociRuntime; backend] in
  let! backend := (if bool_decide (backend = AutoBackend) then autoSelect workDir
                   else ret backend) in
  let client := mkBkClient backend rootDir in
  do! wrapping "initializing data stores failed" (initDataStores client) in
  ret client.

(** [getProcessMode]: whether the executor runs without a process sandbox. *)
Definition getProcessMode : M W bool :=
  let! mounted := try su_MountProc in
  match mounted with
  | inl _ => ret true
  | inr _ => ret false
  end.

Fixpoint parse_platforms (l : list string) : outcome (list string) :=
  match l with
  | [] => Ok []
  | s :: rest =>
      let? p := su_ParsePlatform s in
      let? ps := parse_platforms rest in
      Ok (p :: ps)
  end.

Definition createWorkerOpt (c : BkClient) : M W WorkerOpt :=
  do! su_NewMetadataStore (filepath_Join [bk_rootDir c; "metadata.db"]) in
  let root := filepath_Join [bk_rootDir c; "executor"] in
  let! noSandbox := getProcessMode in
  do! su_Providers in
  do! su_NewExecutor root true noSandbox in
  let! id := su_WorkerID (bk_rootDir c) in
  let! supported := su_SupportedPlatforms in
  let! platforms := lift_outcome (parse_platforms supported) in
  ret (mkWorkerOpt id (bk_backend c) platforms root true noSandbox).

Definition NewDriver (plugins : list nat) (cacheImageLayers : bool) : M W NewDriverResult :=
  let! client := wrapping "cannot create buildkit client"
                   (NewClient (GetStateDir getenv) AutoBackend) in
  ret (mkNewDriver client plugins cacheImageLayers).

(** [New] of package builder: the embedded driver is the only builder. *)
Definition builder_New (plugins : list nat) (cacheImageLayers : bool) : M W NewDriverResult :=
  NewDriver plugins cacheImageLayers.

(** ** Plugins *)

(** [NewPreparerPlugin]. *)
Definition NewPreparerPlugin (location : string) : M W nat :=
  let! client := wrapping ("rpc client create failed for " +:+ fmt_q location)
                   (su_StartPlugin location) in
  do! wrapping ("cannot dispense rpc client for " +:+ fmt_q location) (su_Dispense client) in
  ret client.

(** The function [filepath.Walk] calls, for each entry; the plugins so far are
    kept when it fails. *)
Fixpoint load_entries (entries : list walk_entry) (plugins : list nat)
    : M W (list nat * option error) :=
  match entries with
  | [] => ret (plugins, None)
  | e :: rest =>
      match we_info e with
      | inl err => ret (plugins, Some err)
      | inr true => load_entries rest plugins
      | inr false =>
          let! p := try (NewPreparerPlugin (we_path e)) in
          match p with
          | inl err => ret (plugins, Some err)
          | inr p => load_entries rest (plugins ++ [p])
          end
      end
  end.

(** The entries [filepath.Walk] visits; errors are entries. *)
Definition walk (path : string) : M W (list walk_entry) :=
  λ w, let '(entries, w') := su_Walk path w in (Ok entries, w').

Definition loadPlugins (path : string) : M W (list nat * option error) :=
  if bool_decide (path = "") then ret ([], None)
  else
    let! st := try (su_Stat path) in
    match st with
    | inl err =>
        if su_IsNotExist err then ret ([], None)
        else let! entries := walk path in load_entries entries []
    | inr _ => let! entries := walk path in load_entries entries []
    end.

(** ** The job *)

Inductive cleanup_step :=
| CloseProducer (p : nat)
| KillPlugins (plugins : list nat).

Record NewJob := mkNewJob {
  nj_name : string;
  nj_namespace : string;
  nj_producer : option nat;
  nj_plugins : list nat;
  nj_builder : NewDriverResult;
  nj_cleanupSteps : list cleanup_step;
}.

(** [New] of package buildjob. *)
Definition NewBuildJob (cfg : Config) : M W NewJob :=
  do! wrapping "cannot load k8s config" LoadKubernetesConfig in
  do! wrapping "cannot create k8s api client" su_NewK8sClient in
  do! wrapping "cannot create forge api client" su_NewForgeClient in
  let! producer := (match cfg_BrokerOpts cfg with
                    | Some opts => let! p := su_NewProducer opts in ret (Some p)
                    | None => ret None
                    end) in
  let steps := match producer with Some p => [CloseProducer p] | None => [] end in
  let! loaded := loadPlugins (cfg_PreparerPluginsPath cfg) in
  match loaded.2 with
  | Some err =>
      throw (wrap err ("unable to load preparer plugins path " +:+ fmt_q (cfg_PreparerPluginsPath cfg)))
  | None =>
      let steps := steps ++ [KillPlugins loaded.1] in
      let! ociBuilder := wrapping "image builder initialization failed"
                           (builder_New loaded.1 (cfg_EnableLayerCaching cfg)) in
      ret (mkNewJob (cfg_ResourceName cfg) (cfg_ResourceNamespace cfg) producer loaded.1
             ociBuilder steps)
  end.

Definition run_step (s : cleanup_step) (w : W) : W :=
  match s with
  | CloseProducer p => su_CloseProducer p w
  | KillPlugins plugins => foldl (λ w p, su_Kill p w) w plugins
  end.

(** [Cleanup]. *)
Definition Cleanup (j : NewJob) (w : W) : W := foldl (λ w s, run_step s w) w (nj_cleanupSteps j).
End setup.

(** ** What is open and running *)

Inductive resource :=
| Producer (p : nat)
| PluginProcess (p : nat).

#[export] Instance resource_eq_dec : EqDecision resource.
Proof. solve_decision. Defined.

#[export] Instance resource_countable : Countable resource.
Proof.
  refine (inj_countable' (λ r, match r with Producer p => inl p | PluginProcess p => inr p end)
            (λ s, match s with inl p => Producer p | inr p => PluginProcess p end) _).
  by intros [].
Defined.

(** A producer and a plugin process are there from their creation to their end,
    and nothing else changes the account. *)
Class SetupLive (W : Type) {SH : SetupHost W} := {
  live : W → gset resource;
  NewProducer_live opts w o w' : su_NewProducer opts w = (o, w') →
    match o with
    | Ok p => Producer p ∉ live w ∧ live w' = {[Producer p]} ∪ live w
    | _ => live w' = live w
    end;
  StartPlugin_live l w o w' : su_StartPlugin l w = (o, w') →
    match o with
    | Ok p => PluginProcess p ∉ live w ∧ live w' = {[PluginProcess p]} ∪ live w
    | _ => live w' = live w
    end;
  CloseProducer_live p w : live (su_CloseProducer p w) = live w ∖ {[Producer p]};
  Kill_live p w : live (su_Kill p w) = live w ∖ {[PluginProcess p]};
  Walk_live p w : live (su_Walk p w).2 = live w;
  ClientConfig_live : always (λ w w', live w' = live w) su_ClientConfig;
  InClusterConfig_live : always (λ w w', live w' = live w) su_InClusterConfig;
  NewK8sClient_live : always (λ w w', live w' = live w) su_NewK8sClient;
  NewForgeClient_live : always (λ w w', live w' = live w) su_NewForgeClient;
  Stat_live p : always (λ w w', live w' = live w) (su_Stat p);
  Dispense_live p : always (λ w w', live w' = live w) (su_Dispense p);
  OverlaySupported_live p : always (λ w w', live w' = live w) (su_OverlaySupported p);
  FuseSupported_live p : always (λ w w', live w' = live w) (su_FuseSupported p);
  OpenBolt_live p : always (λ w w', live w' = live w) (su_OpenBolt p);
  NewContentStore_live p : always (λ w w', live w' = live w) (su_NewContentStore p);
  NewSnapshotter_live b p : always (λ w w', live w' = live w) (su_NewSnapshotter b p);
  InitMetadata_live b : always (λ w w', live w' = live w) (su_InitMetadata b);
}.
#[export] Hint Resolve ClientConfig_live InClusterConfig_live NewK8sClient_live NewForgeClient_live
  Stat_live Dispense_live OverlaySupported_live FuseSupported_live OpenBolt_live
  NewContentStore_live NewSnapshotter_live InitMetadata_live : forge.

Section live.
Context {W : Type} {SH : SetupHost W} {SL : SetupLive W}.
Context (getenv : string → string).

Definition same_live (w w' : W) : Prop := live w' = live w.

#[local] Instance same_live_preorder : PreOrder same_live.
Proof. split; [done|]. intros x y z H1 H2. unfold same_live in *. by rewrite H2. Qed.

Lemma LoadKubernetesConfig_live : always same_live LoadKubernetesConfig.
Proof.
  apply (always_bind same_live); [apply (always_try same_live); apply ClientConfig_live|].
  intros []; [apply InClusterConfig_live|eauto with forge].
Qed.

Lemma NewDriver_live plugins cache : always same_live (NewDriver getenv plugins cache).
Proof.
  apply (always_bind same_live); [|eauto with forge]. apply (always_wrapping same_live).
  unfold NewClient. apply (always_bind same_live).
  - case_bool_decide; [|eauto with forge]. unfold autoSelect.
    apply (always_bind same_live); [apply (always_try same_live), OverlaySupported_live|].
    intros []; [|eauto with forge].
    apply (always_bind same_live); [apply (always_try same_live), FuseSupported_live|].
    intros []; eauto with forge.
  - intros b. apply (always_bind same_live); [|eauto with forge]. apply (always_wrapping same_live).
    unfold initDataStores. apply (always_bind same_live); [apply OpenBolt_live|]. intros _.
    apply (always_bind same_live); [apply NewContentStore_live|]. intros _.
    apply (always_bind same_live); [|intros _; apply InitMetadata_live].
    case_bool_decide; [|eauto with forge]. apply (always_wrapping same_live), NewSnapshotter_live.
Qed.

(** The processes of plugins. *)
Definition processes (plugins : list nat) : gset resource :=
  list_to_set (PluginProcess <$> plugins).

Lemma NewPreparerPlugin_live l w o w' :
  NewPreparerPlugin l w = (o, w') →
  match o with
  | Ok p => PluginProcess p ∉ live w ∧ live w' = {[PluginProcess p]} ∪ live w
  | _ => live w ⊆ live w'
  end.
Proof.
  unfold NewPreparerPlugin. intros H.
  apply bind_inv in H as [(p & w1 & H1 & H2)|[(e & H1 & ->)|(m & H1 & ->)]].
  - unfold wrapping in H1. destruct (su_StartPlugin l w) as [o1 ?] eqn:Es.
    apply StartPlugin_live in Es. destruct o1; simplify_eq/=.
    apply bind_inv in H2 as [(u & w2 & H3 & [= <- <-])|[(e & H3 & ->)|(m & H3 & ->)]];
      apply (always_wrapping same_live _ _ (Dispense_live _)) in H3; unfold same_live in H3;
      rewrite H3; [done|set_solver..].
  - unfold wrapping in H1. destruct (su_StartPlugin l w) as [o1 ?] eqn:Es.
    apply StartPlugin_live in Es. destruct o1; simplify_eq/=. by rewrite Es.
  - unfold wrapping in H1. destruct (su_StartPlugin l w) as [o1 ?] eqn:Es.
    apply StartPlugin_live in Es. destruct o1; simplify_eq/=. by rewrite Es.
Qed.

Lemma processes_app l1 l2 : processes (l1 ++ l2) = processes l1 ∪ processes l2.
Proof. unfold processes. by rewrite fmap_app, list_to_set_app_L. Qed.

(** What loading adds, also when it fails. *)
Lemma load_entries_live entries ps w r w' :
  load_entries entries ps w = (Ok r, w') →
  ∃ new, r.1 = ps ++ new ∧ processes new ∪ live w ⊆ live w' ∧
    (r.2 = None → processes new ## live w ∧ live w' = processes new ∪ live w).
Proof.
  revert ps w. induction entries as [|e entries IH]; intros ps w; cbn [load_entries].
  { intros [= <- <-]. exists []. cbn. rewrite app_nil_r. set_solver. }
  destruct (we_info e) as [err|[]].
  - intros [= <- <-]. exists []. cbn. rewrite app_nil_r. set_solver.
  - apply IH.
  - intros (p & w1 & Hp & H)%bind_Ok_inv.
    apply try_inv in Hp as [(a & Hn & ?)|[(err & Hn & ?)|(m & Hn & ?)]]; simplify_eq;
      apply NewPreparerPlugin_live in Hn.
    + destruct Hn as [Hf Hl]. apply IH in H as (new & E & Hsub & Hex).
      exists (a :: new). rewrite E, <- app_assoc. split; [done|].
      change (processes (a :: new)) with ({[PluginProcess a]} ∪ processes new).
      rewrite Hl in *. split; [set_solver|]. intros Hr. destruct (Hex Hr) as [Hd ->]. set_solver.
    + injection H as <- <-. exists []. cbn. rewrite app_nil_r. set_solver.
Qed.

Lemma loadPlugins_live path w r w' :
  loadPlugins path w = (Ok r, w') →
  processes r.1 ∪ live w ⊆ live w' ∧
  (r.2 = None → processes r.1 ## live w ∧ live w' = processes r.1 ∪ live w).
Proof.
  unfold loadPlugins. case_bool_decide as Hp; [intros [= <- <-]; cbn; set_solver|].
  intros (st & w1 & Hst & H)%bind_Ok_inv.
  assert (live w1 = live w) as E1 by (eapply (always_try same_live); [apply Stat_live|exact Hst]).
  assert (∀ w2, bind (walk path) (λ entries, load_entries entries []) w1 = (Ok r, w2) →
    processes r.1 ∪ live w ⊆ live w2 ∧
    (r.2 = None → processes r.1 ## live w ∧ live w2 = processes r.1 ∪ live w)) as Hwalk.
  { intros w2 (entries & w3 & Hw & Hl)%bind_Ok_inv. unfold walk in Hw.
    pose proof (Walk_live path w1) as E2. destruct (su_Walk path w1) as [es w4]. injection Hw as <- <-.
    apply load_entries_live in Hl as (new & -> & Hsub & Hex). cbn in E2.
    rewrite E2, E1 in Hsub, Hex. done. }
  destruct st as [err|]; [|by apply Hwalk]. destruct (su_IsNotExist err); [|by apply Hwalk].
  injection H as <- <-. rewrite E1. cbn. set_solver.
Qed.

Lemma kill_live ps w : live (foldl (λ w p, su_Kill p w) w ps) = live w ∖ processes ps.
Proof.
  revert w. induction ps as [|p ps IH]; intros w; cbn [foldl]; [cbn; set_solver|].
  rewrite IH, Kill_live. change (processes (p :: ps)) with ({[PluginProcess p]} ∪ processes ps).
  set_solver.
Qed.

Lemma undo_plugins (P L : gset resource) : P ## L → (P ∪ L) ∖ P = L.
Proof. set_solver. Qed.

Lemma undo_both (r : resource) (P L : gset resource) :
  r ∉ L → P ## {[r]} ∪ L → (P ∪ ({[r]} ∪ L)) ∖ {[r]} ∖ P = L.
Proof. set_solver. Qed.

Lemma Cleanup_live cfg w j w' :
  NewBuildJob getenv cfg w = (Ok j, w') → live (Cleanup j w') = live w.
Proof.
  unfold NewBuildJob. intros (? & w1 & H1 & H)%bind_Ok_inv.
  apply (always_wrapping same_live _ _ LoadKubernetesConfig_live) in H1.
  apply bind_Ok_inv in H as (? & w2 & H2 & H).
  apply (always_wrapping same_live _ _ NewK8sClient_live) in H2.
  apply bind_Ok_inv in H as (? & w3 & H3 & H).
  apply (always_wrapping same_live _ _ NewForgeClient_live) in H3.
  apply bind_Ok_inv in H as (producer & w4 & H4 & H).
  apply bind_Ok_inv in H as (loaded & w5 & H5 & H). apply loadPlugins_live in H5 as [_ H5].
  destruct loaded as [ps [err|]]; [done|]. cbn [fst snd] in *. destruct (H5 eq_refl) as [Hd E5].
  apply bind_Ok_inv in H as (d & w6 & H6 & [= <- <-]).
  apply (always_wrapping same_live _ _ (NewDriver_live ps _)) in H6.
  unfold same_live in *. unfold Cleanup. cbn [nj_cleanupSteps].
  rewrite foldl_app. cbn [foldl run_step]. rewrite kill_live.
  assert (live w = live w3) as Ew by congruence. rewrite Ew. destruct (cfg_BrokerOpts cfg) as [opts|].
  - apply bind_Ok_inv in H4 as (p & w7 & H7 & [= <- <-]). apply NewProducer_live in H7 as [Hp E7].
    cbn [foldl run_step]. rewrite CloseProducer_live, H6, E5, E7 in *. by apply undo_both.
  - injection H4 as <- <-. cbn [foldl]. rewrite H6, E5. by apply undo_plugins.
Qed.

(** A job that was constructed can be undone: its clean-up ends the message
    producer and every plugin process its construction started, and nothing
    else. *)
Theorem Cleanup_undoes_New cfg w j w' :
  NewBuildJob getenv cfg w = (Ok j, w') → live (Cleanup j w') = live w.
Proof. apply Cleanup_live. Qed.

(** The driver always gets one of the file systems BuildKit has a snapshotter
    for: the overlay file system where it is supported, else the FUSE one, else
    the native one. *)
Theorem NewDriver_backend plugins cache w d w' :
  NewDriver getenv plugins cache w = (Ok d, w') →
  bk_rootDir (nd_client d) = GetStateDir getenv ∧
  ∃ w1, bk_backend (nd_client d) =
    match su_OverlaySupported (filepath_Join [GetStateDir getenv; ociRuntime; AutoBackend]) w with
    | (Ok _, _) => OverlayFSBackend
    | (_, w1) =>
        match su_FuseSupported (filepath_Join [GetStateDir getenv; ociRuntime; AutoBackend]) w1 with
        | (Ok _, _) => FuseOverlayFSBackend
        | _ => NativeBackend
        end
    end ∧ initDataStores (nd_client d) w1 = (Ok tt, w').
Proof.
  unfold NewDriver. intros (c & w1 & H & [= <- <-])%bind_Ok_inv. cbn [nd_client].
  unfold wrapping at 1 in H. destruct (NewClient _ _ w) as [[c'| |] w2] eqn:Hc; simplify_eq/=.
  unfold NewClient in Hc. rewrite bool_decide_eq_true_2 in Hc by done.
  apply bind_Ok_inv in Hc as (b & w3 & Hb & Hc). apply bind_Ok_inv in Hc as ([] & w4 & Hi & [= <- <-]).
  split; [done|]. exists w3. cbn [bk_backend]. unfold wrapping in Hi.
  destruct (initDataStores _ w3) as [[[]| |] ?] eqn:Hd; simplify_eq/=. split; [|done].
  revert Hb. unfold autoSelect, bind at 1, try at 1.
  destruct (su_OverlaySupported _ w) as [[[]|e|m] w5]; [by intros [= <- _]| |done].
  unfold bind, try. destruct (su_FuseSupported _ w5) as [[[]|e'|m'] w6]; [|by intros [= <- _]|done].
  by intros [= <- _].
Qed.
End live.

(** ** Concrete runs *)

Module SetupSample.
(** A plugin that refuses one directory. *)
#[local] Instance plugin : Preparer (list string) := {|
  pl_Prepare path data :=
    do! modify (cons path) in
    ret (if bool_decide (path = "/bad") then Some (New "refused") else None);
  pl_Cleanup := ret None;
|}.

#[local] Instance direct : RpcClient (list string) := serve.

Lemma preparer_rpc_witness :
  client_Prepare "/bad" ∅ []
  = (Ok (Some (wrap (New "refused") "failed to prepare /bad")), ["/bad"]).
Proof. exact (preparer_rpc (λ _ _ _, eq_refl) "/bad" ∅ [] (Some (New "refused")) ["/bad"] eq_refl). Defined.

(** A host that hands out unused handles; the plugins at some locations do not
    start, and the overlay file system may be missing. *)
Record host := mkHost {
  h_live : gset resource;
  h_files : list walk_entry;
  h_broken : list string;
  h_overlay : bool;
}.

Definition handle (r : resource) : nat := match r with Producer p | PluginProcess p => p end.
Definition next (h : host) : nat := S (foldr Nat.max 0 (handle <$> elements (h_live h))).

Lemma next_fresh h r : r ∈ h_live h → handle r < next h.
Proof.
  intros Hr%elem_of_elements. unfold next. revert Hr. generalize (elements (h_live h)) as l.
  induction l as [|x l IH]; [by intros ?%not_elem_of_nil|].
  intros [->|Hin]%elem_of_cons; cbn [fmap list_fmap foldr]; [lia|]. apply IH in Hin. lia.
Qed.

Definition acquire (r : nat → resource) : M host nat := λ h,
  (Ok (next h), mkHost ({[r (next h)]} ∪ h_live h) (h_files h) (h_broken h) (h_overlay h)).
Definition release (r : resource) (h : host) : host :=
  mkHost (h_live h ∖ {[r]}) (h_files h) (h_broken h) (h_overlay h).

#[local] Instance host_calls : SetupHost host := {|
  su_config := {| su_ClientConfig := throw (New "no kubeconfig"); su_InClusterConfig := ret tt |};
  su_NewK8sClient := ret tt;
  su_NewForgeClient := ret tt;
  su_NewProducer opts := acquire Producer;
  su_CloseProducer p := release (Producer p);
  su_Stat p := ret tt;
  su_IsNotExist e := false;
  su_Walk p h := (h_files h, h);
  su_StartPlugin l :=
    let! h := get in
    if bool_decide (l ∈ h_broken h) then throw (New "exec format error") else acquire PluginProcess;
  su_Dispense p := ret tt;
  su_Kill p := release (PluginProcess p);
  su_OverlaySupported p :=
    let! h := get in if h_overlay h then ret tt else throw (New "overlay not supported");
  su_FuseSupported p := ret tt;
  su_OpenBolt p := ret tt;
  su_NewContentStore p := ret tt;
  su_NewSnapshotter b p := ret tt;
  su_InitMetadata b := ret tt;
  su_NewMetadataStore p := ret tt;
  su_MountProc := throw (New "permission denied");
  su_Providers := ret tt;
  su_NewExecutor r a b := ret tt;
  su_WorkerID r := ret "id";
  su_SupportedPlatforms := ret ["linux/amd64"];
  su_ParsePlatform s := Ok s;
|}.

#[local] Instance host_live : SetupLive host.
Proof.
  refine {| live := h_live |}; try by intros; intros ? ? ? [= _ <-].
  - intros opts w o w' [= <- <-]. split; [|done]. intros H%next_fresh. cbn in H. lia.
  - intros l w o w'. cbn. unfold bind, get. case_bool_decide; [by intros [= <- <-]|].
    intros [= <- <-]. split; [|done]. intros Hin%next_fresh. cbn in Hin. lia.
  - done.
  - done.
  - done.
  - intros p w o w'. cbn. unfold bind, get. destruct (h_overlay w); by intros [= _ <-].
Defined.

Definition fresh : host :=
  mkHost ∅ [mkWalkEntry "/plugins" (inr true); mkWalkEntry "/plugins/a" (inr false);
              mkWalkEntry "/plugins/b" (inr false)] [] true.
Definition broken : host :=
  mkHost ∅ [mkWalkEntry "/plugins/a" (inr false); mkWalkEntry "/plugins/b" (inr false)]
    ["/plugins/b"] true.
Definition getenv (s : string) : string := "".
Definition cfg : Config :=
  mkConfig "b" "ns" (Some (mkOptions "amqp" "amqp://host" "q")) "/plugins" true false.

Example New_starts :
  h_live (snd (NewBuildJob getenv cfg fresh)) = {[Producer 1; PluginProcess 2; PluginProcess 3]}.
Proof. vm_compute. reflexivity. Qed.

(** A plugin that does not start leaves the producer and the other plugin. *)
Example New_failure_leaks :
  let r := NewBuildJob getenv cfg broken in
  is_Ok (fst r) = false ∧ h_live (snd r) = {[Producer 1; PluginProcess 2]}.
Proof. split; vm_compute; reflexivity. Qed.

Example worker_opt :
  fst (createWorkerOpt (mkBkClient NativeBackend "/state") fresh)
  = Ok (mkWorkerOpt "id" "native" ["linux/amd64"] "/state/executor" true true).
Proof. reflexivity. Qed.

Lemma Cleanup_undoes_New_witness :
  ∃ j, fst (NewBuildJob getenv cfg fresh) = Ok j ∧
    live (Cleanup j (snd (NewBuildJob getenv cfg fresh))) = live fresh.
Proof.
  eexists. split; [vm_compute; reflexivity|].
  eapply (Cleanup_undoes_New getenv cfg). apply run_split. vm_compute. reflexivity.
Defined.

Lemma NewDriver_backend_witness :
  ∃ d, fst (NewDriver getenv [] true (mkHost ∅ [] [] false)) = Ok d ∧
    bk_backend (nd_client d) = "fuse-overlayfs".
Proof.
  eexists. split; [vm_compute; reflexivity|].
  edestruct (NewDriver_backend getenv [] true (mkHost ∅ [] [] false)) as (_ & w1 & E & _).
  - apply run_split. vm_compute. reflexivity.
  - exact E.
Defined.
End SetupSample.
