(* ===== verification/Handshake.v ===== *)
(** * Handshake: when a preparer plugin starts

    The handshake of [plugins/preparer/preparer.go] and of the example plugin in
    [docs/example/preparer_plugin.go]: both sides take a cookie from two variables
    of their environment, and go-plugin passes the cookie in a third one. *)
From stdpp Require Import gmap strings list pretty.
From Stdlib Require Import Ascii.
From S2P Require Import Prelude Go GoStd Config Cmd Setup.
#[local] Open Scope forge_scope.

(** ** Environments *)

Abbreviation environment := (gmap string string).

(** [os.Getenv]. *)
Definition Getenv (env : environment) (key : string) : string :=
  if bool_decide (key = "") then "" else default "" (env !! key).

(** An entry [key=value] at the end of the environment of a command: it is cut at
    the first equals sign and replaces an earlier one of its key. *)
Definition add_entry (entry : string) (env : environment) : environment :=
  match Cut entry "="%char with
  | Some (key, value) => <[key := value]> env
  | None => env
  end.

(** ** The two sides *)

Record HandshakeConfig := mkHandshake {
  hs_ProtocolVersion : nat;
  hs_MagicCookieKey : string;
  hs_MagicCookieValue : string;
}.

Definition magic_key : string := "FORGE_PREPARER_PLUGIN_MAGIC_KEY".
Definition magic_value : string := "FORGE_PREPARER_PLUGIN_MAGIC_VALUE".

(** [handshakeConfig] of the job. *)
Definition handshakeConfig (env : environment) : HandshakeConfig :=
  mkHandshake 1 (Getenv env magic_key) (Getenv env magic_value).

(** [handshakeConfig] of the example, in its own process. *)
Definition example_handshakeConfig (env : environment) : HandshakeConfig :=
  mkHandshake 1 (Getenv env magic_key) (Getenv env magic_value).

(** The example's [Prepare] and [Cleanup]. *)
Definition MyPlugin {W : Type} : Preparer W :=
  {| pl_Prepare contextPath pluginData := ret None; pl_Cleanup := ret None |}.

(** The variables go-plugin adds after the cookie, with the ports of a
    configuration that names none. *)
Definition port_variables : list (string * string) :=
  [("PLUGIN_MIN_PORT", "10000"); ("PLUGIN_MAX_PORT", "25000")].

Definition plugin_variables (h : HandshakeConfig) : list (string * string) :=
  (hs_MagicCookieKey h, hs_MagicCookieValue h) ::
  port_variables ++ [("PLUGIN_PROTOCOL_VERSIONS", pretty (N.of_nat (hs_ProtocolVersion h)))].

(** The environment [Client.Start] of go-plugin gives the process of a plugin. *)
Definition plugin_environment (h : HandshakeConfig) (env : environment) : environment :=
  fold_left (λ env kv, add_entry (kv.1 +:+ "=" +:+ kv.2) env) (plugin_variables h) env.

(** [plugin.Serve]: the process goes on only with a cookie that it finds. *)
Definition Serve (h : HandshakeConfig) (env : environment) : bool :=
  negb (bool_decide (hs_MagicCookieKey h = "") || bool_decide (hs_MagicCookieValue h = ""))
  && bool_decide (Getenv env (hs_MagicCookieKey h) = hs_MagicCookieValue h).

(** The example, started by a job in [env]. *)
Definition example_starts (env : environment) : bool :=
  let env' := plugin_environment (handshakeConfig env) env in
  Serve (example_handshakeConfig env') env'.

(** ** When it starts *)

Lemma Getenv_add env key value key' :
  "="%char ∉ chars key → key' ≠ "" →
  Getenv (add_entry (key +:+ "=" +:+ value) env) key' =
  if bool_decide (key = key') then value else Getenv env key'.
Proof.
  intros Hk Hk'. unfold add_entry, Getenv. change ("=" +:+ value) with (String "="%char value).
  rewrite Cut_app by done. rewrite !(bool_decide_eq_false_2 (key' = "")) by done.
  case_bool_decide; [subst; by rewrite lookup_insert_eq|by rewrite lookup_insert_ne].
Qed.

(** A name that a cookie can have: it is the name of a variable, and none of those
    that the process of the plugin gets another value for. *)
Definition cookie_name (key : string) : Prop :=
  "="%char ∉ chars key ∧
  key ∉ [magic_key; "PLUGIN_MIN_PORT"; "PLUGIN_MAX_PORT"; "PLUGIN_PROTOCOL_VERSIONS"].

#[export] Instance cookie_name_dec key : Decision (cookie_name key).
Proof. unfold cookie_name. apply _. Defined.

Lemma Getenv_plugin h env key :
  cookie_name (hs_MagicCookieKey h) → key ≠ "" →
  key ∉ ["PLUGIN_MIN_PORT"; "PLUGIN_MAX_PORT"; "PLUGIN_PROTOCOL_VERSIONS"] →
  Getenv (plugin_environment h env) key =
  if bool_decide (hs_MagicCookieKey h = key) then hs_MagicCookieValue h else Getenv env key.
Proof.
  intros [He _] Hne Hkey. rewrite !not_elem_of_cons in Hkey.
  destruct Hkey as (H1 & H2 & H3 & _).
  unfold plugin_environment, plugin_variables, port_variables. cbn [fold_left app fst snd].
  rewrite (Getenv_add _ "PLUGIN_PROTOCOL_VERSIONS"), bool_decide_eq_false_2 by (done || by apply (bool_decide_unpack _)).
  rewrite (Getenv_add _ "PLUGIN_MAX_PORT"), bool_decide_eq_false_2 by (done || by apply (bool_decide_unpack _)).
  rewrite (Getenv_add _ "PLUGIN_MIN_PORT"), bool_decide_eq_false_2 by (done || by apply (bool_decide_unpack _)).
  by apply Getenv_add.
Qed.

(** C27: A preparer plugin starts exactly when both variables of the handshake are
    set in the environment of the build job, for every cookie whose name does
    not clash with a variable of the handshake itself. *)
Theorem plugin_handshake env :
  cookie_name (Getenv env magic_key) →
  (example_starts env = true ↔ Getenv env magic_key ≠ "" ∧ Getenv env magic_value ≠ "").
Proof.
  intros Hc. pose proof Hc as [_ Hk]. rewrite !not_elem_of_cons in Hk. destruct Hk as (Hk & H1 & H2 & H3 & _).
  unfold example_starts, Serve, example_handshakeConfig. cbn [hs_MagicCookieKey hs_MagicCookieValue].
  rewrite (Getenv_plugin _ _ magic_key), (Getenv_plugin _ _ magic_value)
    by (done || by apply (bool_decide_unpack _)).
  cbn [handshakeConfig hs_MagicCookieKey hs_MagicCookieValue].
  rewrite (bool_decide_eq_false_2 (Getenv env magic_key = magic_key)) by done.
  assert ((if bool_decide (Getenv env magic_key = magic_value) then Getenv env magic_value
           else Getenv env magic_value) = Getenv env magic_value) as -> by (by case_bool_decide).
  destruct (decide (Getenv env magic_key = "")) as [E0|E0].
  { rewrite (bool_decide_eq_true_2 _ E0). simpl. naive_solver. }
  rewrite (bool_decide_eq_false_2 _ E0), Getenv_plugin by (done || rewrite !not_elem_of_cons; auto using not_elem_of_nil).
  rewrite (bool_decide_eq_true_2 (hs_MagicCookieKey _ = _)), (bool_decide_eq_true_2 (hs_MagicCookieValue _ = _)) by done.
  cbn [orb]. rewrite andb_true_r, negb_true_iff, bool_decide_eq_false. tauto.
Qed.

(** The exception: a cookie under the name of the first variable overwrites it for
    the plugin, which then looks for another cookie. *)
Example cookie_overwritten :
  example_starts {[magic_key := magic_key; magic_value := "v"]} = false.
Proof. vm_compute. reflexivity. Qed.

Module HandshakeSample.
Definition bare : environment := {["HOME" := "/home/user"]}.
Definition prepared : environment := {[magic_key := "COOKIE"; magic_value := "v"]}.

Lemma plugin_handshake_witness : example_starts bare ≠ true ∧ example_starts prepared = true.
Proof.
  split.
  - intros H. destruct (proj1 (plugin_handshake bare ltac:(apply (bool_decide_unpack _); vm_compute; exact I)) H) as [Hk _].
    apply Hk. vm_compute. reflexivity.
  - apply (plugin_handshake prepared);
      [apply (bool_decide_unpack _); vm_compute; exact I|split; vm_compute; discriminate].
Defined.
End HandshakeSample.
