(* ===== verification/Process.v ===== *)
(** * Process: the life of the build process

    The [Run] of the build command ([cmd/build.go]): the job is constructed, a
    goroutine waits for a signal, the main goroutine runs the job and cleans up
    when it returns or panics, and a signal cleans up and ends the process.  The
    two goroutines are interleaved step by step. *)
From stdpp Require Import gmap strings list.
From Stdlib Require Import ZArith.
From S2P Require Import Prelude Go GoStd Config Cmd Setup.

(** Where the main goroutine is. *)
Inductive main_state :=
| Constructing
| RunningJob (j : NewJob)
| CleaningUp (steps : list cleanup_step) (panicking : bool).

(** Where the goroutine that waits for the signal is. *)
Inductive signal_state :=
| NotStarted
| Waiting (j : NewJob)
| ForcedCleanup (steps : list cleanup_step).

Record process (W : Type) := mkProcess {
  ps_world : W;
  ps_main : main_state;
  ps_signal : signal_state;
  (** a signal is in the channel or was received *)
  ps_stopped : bool;
  (** how the job ended, if it did *)
  ps_job : option bool;
  (** the exit status *)
  ps_exit : option Z;
}.
Arguments mkProcess {W}.
Arguments ps_world {W}.
Arguments ps_main {W}.
Arguments ps_signal {W}.
Arguments ps_stopped {W}.
Arguments ps_job {W}.
Arguments ps_exit {W}.

Section process.
Context {W : Type} {SH : SetupHost W}.
Context (getenv : string → string) (cfg : Config).
(** What a job does in one step while it runs: anything, as far as the process
    is concerned. *)
Context (work : NewJob → relation W).

Definition start (w : W) : process W := mkProcess w Constructing NotStarted false None None.

Inductive step : process W → process W → Prop :=
| signal_arrives w m s b r :
    step (mkProcess w m s b r None) (mkProcess w m s true r None)
| constructed w j w' b :
    NewBuildJob getenv cfg w = (Ok j, w') →
    step (mkProcess w Constructing NotStarted b None None)
         (mkProcess w' (RunningJob j) (Waiting j) b None None)
| construction_panics w o w' b :
    NewBuildJob getenv cfg w = (o, w') → is_Ok o = false →
    step (mkProcess w Constructing NotStarted b None None)
         (mkProcess w' Constructing NotStarted b None (Some 2%Z))
| job_works w w' j s b :
    work j w w' →
    step (mkProcess w (RunningJob j) s b None None) (mkProcess w' (RunningJob j) s b None None)
| job_ends w j s b ok :
    step (mkProcess w (RunningJob j) s b None None)
         (mkProcess w (CleaningUp (nj_cleanupSteps j) (negb ok)) s b (Some ok) None)
| cleanup_runs w c steps p s b r :
    step (mkProcess w (CleaningUp (c :: steps) p) s b r None)
         (mkProcess (run_step c w) (CleaningUp steps p) s b r None)
| main_returns w p s b r :
    step (mkProcess w (CleaningUp [] p) s b r None)
         (mkProcess w (CleaningUp [] p) s b r (Some (if p then 2 else 0)%Z))
| signal_received w m j r :
    step (mkProcess w m (Waiting j) true r None)
         (mkProcess w m (ForcedCleanup (nj_cleanupSteps j)) true r None)
| forced_runs w m c steps b r :
    step (mkProcess w m (ForcedCleanup (c :: steps)) b r None)
         (mkProcess (run_step c w) m (ForcedCleanup steps) b r None)
| forced_exit w m b r :
    step (mkProcess w m (ForcedCleanup []) b r None)
         (mkProcess w m (ForcedCleanup []) b r (Some 0%Z)).

(** ** Nothing is left behind *)

Context {SL : SetupLive W}.

Definition step_resources (c : cleanup_step) : gset resource :=
  match c with
  | CloseProducer p => {[Producer p]}
  | KillPlugins ps => processes ps
  end.

Definition steps_resources (l : list cleanup_step) : gset resource := ⋃ (step_resources <$> l).

Lemma steps_resources_cons c l : steps_resources (c :: l) = step_resources c ∪ steps_resources l.
Proof. done. Qed.

Lemma run_step_live c w : live (run_step c w) = live w ∖ step_resources c.
Proof. destruct c; cbn [run_step step_resources]; [apply CloseProducer_live|apply kill_live]. Qed.

Lemma steps_live l w : live (foldl (λ w s, run_step s w) w l) = live w ∖ steps_resources l.
Proof.
  unfold steps_resources. revert w. induction l as [|c l IH]; intros w; cbn; [set_solver|].
  rewrite IH, run_step_live. set_solver.
Qed.

(** What a construction started is what its clean-up steps release. *)
Lemma constructed_live w j w' r :
  NewBuildJob getenv cfg w = (Ok j, w') → r ∈ live w' → r ∉ live w →
  r ∈ steps_resources (nj_cleanupSteps j).
Proof.
  intros H%Cleanup_live. unfold Cleanup in H. rewrite steps_live in H. intros Hr Hn.
  destruct (decide (r ∈ steps_resources (nj_cleanupSteps j))); set_solver.
Qed.

(** A process that has ended does not come back, whatever the job does. *)
Hypothesis work_dead : ∀ j w w' n,
  work j w w' → PluginProcess n ∈ steps_resources (nj_cleanupSteps j) →
  PluginProcess n ∉ live w → PluginProcess n ∉ live w'.

(** [r] is not there any more, or one of the steps [l] is going to release it. *)
Definition handled (l : list cleanup_step) (r : resource) (w : W) : Prop :=
  r ∈ steps_resources l ∨ r ∉ live w.

Lemma handled_step c l r w : handled (c :: l) r w → handled l r (run_step c w).
Proof. unfold handled. rewrite steps_resources_cons, run_step_live. set_solver. Qed.

Lemma handled_other c l r w : handled l r w → handled l r (run_step c w).
Proof. unfold handled. rewrite run_step_live. set_solver. Qed.

(** What the goroutines of the process of [j] have still to do. *)
Definition main_owes (j : NewJob) (p : process W) : Prop :=
  match ps_main p with
  | Constructing => False
  | RunningJob j' => j' = j
  | CleaningUp l _ => ∀ r, r ∈ steps_resources (nj_cleanupSteps j) → handled l r (ps_world p)
  end.

Definition signal_owes (j : NewJob) (p : process W) : Prop :=
  match ps_signal p with
  | NotStarted => False
  | Waiting j' => j' = j
  | ForcedCleanup l =>
      ∀ n, PluginProcess n ∈ steps_resources (nj_cleanupSteps j) →
        handled l (PluginProcess n) (ps_world p)
  end.

Definition exit_paid (p : process W) : Prop :=
  ps_exit p ≠ None → (∃ pn, ps_main p = CleaningUp [] pn) ∨ ps_signal p = ForcedCleanup [].

Definition accounted (j : NewJob) (p : process W) : Prop :=
  main_owes j p ∧ signal_owes j p ∧ exit_paid p.

Lemma step_accounted j p p' : step p p' → accounted j p → accounted j p'.
Proof.
  unfold accounted, main_owes, signal_owes, exit_paid.
  intros [w m s b r|w j' w' b H|w o w' b H Ho|w w' j' s b H|w j' s b ok|w c l pn s b r|w pn s b r|w m j' r
    |w m c l b r|w m b r]; cbn [ps_world ps_main ps_signal ps_exit]; intros (Hm & Hs & _).
  - done.
  - done.
  - done.
  - subst j'. split_and!; [done| |done]. destruct s as [|j'|l]; [done..|]. intros n Hn.
    destruct (Hs n Hn) as [|Hd]; [by left|right]. by eapply work_dead.
  - subst j'. split_and!; [|done..]. intros r Hr. by left.
  - split_and!; [intros r' Hr; apply handled_step; by apply Hm| |done].
    destruct s as [|j'|l']; [done..|]. intros n Hn. apply handled_other. by apply Hs.
  - split_and!; [done..|]. intros _. left. by exists pn.
  - subst j'. split_and!; [done| |done]. intros n Hn. by left.
  - split_and!; [|intros n Hn; apply handled_step; by apply Hs|done].
    destruct m as [|j'|l' pn]; [done..|]. intros r' Hr. apply handled_other. by apply Hm.
  - split_and!; [done..|]. intros _. by right.
Qed.

(** A process has not constructed its job, or accounts for what it started. *)
Definition on_account (w0 : W) (p : process W) : Prop :=
  (ps_main p = Constructing ∧ ps_signal p = NotStarted ∧
   (ps_exit p = None → ps_world p = w0)) ∨
  ∃ j w1, NewBuildJob getenv cfg w0 = (Ok j, w1) ∧ accounted j p.

Lemma step_on_account w0 p p' : step p p' → on_account w0 p → on_account w0 p'.
Proof.
  intros Hs [(Hc & Hn & Hw)|(j & w1 & Hj & Ha)]; [|right; exists j, w1; split; [done|by eapply step_accounted]].
  destruct Hs as [| w j w' b H| | | | | | | |]; cbn in *; try done; try (by left).
  right. rewrite (Hw eq_refl) in H. exists j, w'. split; [done|]. split_and!; [done..|by intros []].
Qed.

Lemma reachable_on_account w0 p : rtc step (start w0) p → on_account w0 p.
Proof.
  intros H. assert (on_account w0 (start w0)) as Hl by (by left). revert Hl.
  induction H as [|p1 p2 p3 Hs _ IH]; [done|]. intros Hl. apply IH. by eapply step_on_account.
Qed.

(** C16: What the exit of a build process leaves behind.  The steps of the job,
    whatever it does, of the deferred clean-up and of the forced clean-up after a
    signal interleave in any way; a process of the operating system that has ended
    does not come back.  When a process that constructed its job ends, every
    plugin process that the construction started has ended.  When its main
    goroutine got through the clean-up, the message producer is closed as well. *)
Theorem process_releases w0 p c :
  rtc step (start w0) p → ps_exit p = Some c → ps_main p ≠ Constructing →
  ∃ j w1, NewBuildJob getenv cfg w0 = (Ok j, w1) ∧
    (∀ n, PluginProcess n ∈ live w1 → PluginProcess n ∉ live w0 →
       PluginProcess n ∉ live (ps_world p)) ∧
    (∀ pn r, ps_main p = CleaningUp [] pn → r ∈ live w1 → r ∉ live w0 → r ∉ live (ps_world p)).
Proof.
  intros [(? & _)|(j & w1 & Hj & Hmain & Hsig & Hex)]%reachable_on_account Hc Hm; [done|].
  exists j, w1. split; [done|].
  assert (∀ pn r, ps_main p = CleaningUp [] pn → r ∈ live w1 → r ∉ live w0 → r ∉ live (ps_world p)) as Hmr.
  { intros pn r E H1 H0. unfold main_owes in Hmain. rewrite E in Hmain.
    destruct (Hmain r) as [Hn|]; [by eapply constructed_live|set_solver|done]. }
  split; [|done]. intros n H1 H0. destruct Hex as [[pn E]|E]; [by rewrite Hc|by eapply Hmr|].
  unfold signal_owes in Hsig. rewrite E in Hsig.
  destruct (Hsig n) as [Hn|]; [by eapply constructed_live|set_solver|done].
Qed.

(** ** Exit status *)

(** The outcome of the job and the signal explain the status. *)
Definition explained (p : process W) : Prop :=
  (∀ l pn, ps_main p = CleaningUp l pn → ps_job p = Some (negb pn)) ∧
  (∀ l, ps_signal p = ForcedCleanup l → ps_stopped p = true) ∧
  (ps_exit p = Some 0%Z → ps_job p = Some true ∨ ps_stopped p = true) ∧
  (∀ c, ps_exit p = Some c → c = 0%Z ∨ c = 2%Z).

Lemma step_explained p p' : step p p' → explained p → explained p'.
Proof.
  unfold explained. intros Hs (H1 & H2 & H3 & H4).
  destruct Hs as [w m s b r|w j w' b H|w o w' b H Ho|w w' j s b H|w j s b ok|w c l pn s b r
    |w pn s b r|w m j r|w m c l b r|w m b r]; cbn in *; split_and!; try done.
  - by intros c [= <-]; right.
  - by intros l pn [= <- <-]; rewrite negb_involutive.
  - intros l' pn' [= <- <-]. by apply (H1 (c :: l)).
  - intros E. left. rewrite (H1 [] pn eq_refl). by destruct pn.
  - intros c [= <-]. destruct pn; auto.
  - intros l' [= <-]. by apply (H2 (c :: l)).
  - intros _. right. by apply (H2 []).
  - intros c [= <-]. auto.
Qed.

(** The process ends with status 0 only when the job succeeded or a signal
    stopped it, and with status 2 otherwise. *)
Theorem process_status w0 p c :
  rtc step (start w0) p → ps_exit p = Some c →
  (c = 0%Z ∧ (ps_job p = Some true ∨ ps_stopped p = true)) ∨ c = 2%Z.
Proof.
  intros H Hc. assert (explained p) as (_ & _ & H3 & H4); [|naive_solver].
  assert (explained (start w0)) as He
    by (unfold explained; cbn; naive_solver). clear Hc. revert He.
  induction H as [|p1 p2 p3 Hs _ IH]; [done|]. intros He. apply IH. by eapply step_explained.
Qed.

Lemma forced_steps w m l r :
  rtc step (mkProcess w m (ForcedCleanup l) true r None)
    (mkProcess (foldl (λ w s, run_step s w) w l) m (ForcedCleanup []) true r None).
Proof.
  revert w. induction l as [|c l IH]; intros w; [done|]. eapply rtc_l; [apply forced_runs|]. apply IH.
Qed.

Lemma interrupted_run w0 j w1 :
  NewBuildJob getenv cfg w0 = (Ok j, w1) →
  rtc step (start w0)
    (mkProcess (Cleanup j w1) (RunningJob j) (ForcedCleanup []) true None (Some 0%Z)).
Proof.
  intros H. eapply rtc_l; [by apply signal_arrives|]. eapply rtc_l; [by eapply constructed|].
  eapply rtc_l; [by apply signal_received|]. eapply rtc_r; [apply forced_steps|apply forced_exit].
Qed.
End process.

(** ** Concrete runs *)

Module ProcessSample.
Import SetupSample.
#[local] Existing Instance host_calls.
#[local] Existing Instance host_live.

(** Whatever a job may do to the processes that are there. *)
Definition busy (j : NewJob) (w w' : host) : Prop :=
  ∀ n, PluginProcess n ∈ steps_resources (nj_cleanupSteps j) →
    PluginProcess n ∉ live w → PluginProcess n ∉ live w'.

Lemma busy_dead j w w' n :
  busy j w w' → PluginProcess n ∈ steps_resources (nj_cleanupSteps j) →
  PluginProcess n ∉ live w → PluginProcess n ∉ live w'.
Proof. intros H. apply H. Qed.

Definition sample_job : NewJob :=
  match fst (NewBuildJob getenv cfg fresh) with
  | Ok j => j
  | _ => mkNewJob "" "" None [] (mkNewDriver (mkBkClient "" "") [] false) []
  end.

Definition stopped : process host :=
  mkProcess (Cleanup sample_job (snd (NewBuildJob getenv cfg fresh))) (RunningJob sample_job)
    (ForcedCleanup []) true None (Some 0%Z).

Lemma stopped_reachable : rtc (step getenv cfg busy) (start fresh) stopped.
Proof. apply interrupted_run, run_split. vm_compute. reflexivity. Qed.

Lemma process_releases_witness :
  ∃ j w1, NewBuildJob getenv cfg fresh = (Ok j, w1) ∧
    ∀ n, PluginProcess n ∈ live w1 → PluginProcess n ∉ live fresh →
      PluginProcess n ∉ live (ps_world stopped).
Proof.
  destruct (process_releases getenv cfg busy busy_dead fresh stopped 0 stopped_reachable eq_refl
              ltac:(discriminate)) as (j & w1 & H1 & H2 & _).
  exists j, w1. split; [exact H1|exact H2].
Defined.

Lemma process_status_witness : ps_job stopped = Some true ∨ ps_stopped stopped = true.
Proof.
  destruct (process_status getenv cfg busy fresh stopped 0 stopped_reachable eq_refl) as [[_ H]|H];
    [exact H|discriminate H].
Defined.
End ProcessSample.
