(* ===== verification/Crd.v ===== *)
(** * Crd: the custom resource definition

    [internal/crd] and [cmd/crd.go]: the commands that install and remove the
    definition of builds.  The API server is a class whose calls run among the
    writes of others; the theorems say what an installation may overwrite. *)
From stdpp Require Import gmap strings list.
From S2P Require Import Prelude Go GoStd Setup.
#[local] Open Scope forge_scope.

(** [CustomResourceDefinition]: the name and the version of the metadata, and
    the rest of the document. *)
Record CustomResourceDefinition := mkCRD {
  crd_Name : string;
  crd_ResourceVersion : string;
  crd_Body : string;
}.

Definition SetResourceVersion (v : string) (crd : CustomResourceDefinition)
    : CustomResourceDefinition :=
  mkCRD (crd_Name crd) v (crd_Body crd).

Definition crdFilename : string :=
  "config/crd/bases/forge.dominodatalab.com_containerimagebuilds.yaml".

(** The embedded files and the decoders. *)
Class CrdDecoder := {
  CRDs : gmap string string;
  YAMLToJSON : string → outcome string;
  crd_Unmarshal : string → outcome CustomResourceDefinition;
}.

Class CrdClient (W : Type) := {
  cr_config :: ConfigHost W;
  cr_NewForConfig : M W unit;
  cr_Get : string → M W CustomResourceDefinition;
  cr_Create : CustomResourceDefinition → M W unit;
  cr_Update : CustomResourceDefinition → M W unit;
  cr_Delete : string → M W unit;
}.

Section crd.
Context {W : Type} {CD : CrdDecoder} {CC : CrdClient W}.

Definition loadCRD : outcome CustomResourceDefinition :=
  match CRDs !! crdFilename with
  | None => Err (New ("open " +:+ crdFilename +:+ ": file does not exist"))
  | Some yBytes => let? crdTmpl := YAMLToJSON yBytes in crd_Unmarshal crdTmpl
  end.

Definition createOrUpdateCRD : M W unit :=
  let! crd := lift_outcome loadCRD in
  let! existing := try (cr_Get (crd_Name crd)) in
  match existing with
  | inl err => if IsNotFound err then cr_Create crd else throw err
  | inr existing => cr_Update (SetResourceVersion (crd_ResourceVersion existing) crd)
  end.

Definition deleteCRD : M W unit :=
  let! crd := lift_outcome loadCRD in cr_Delete (crd_Name crd).

Definition getCRDClient : M W unit :=
  do! LoadKubernetesConfig in cr_NewForConfig.

Definition Apply : M W unit := do! getCRDClient in createOrUpdateCRD.

Definition Delete : M W unit := do! getCRDClient in deleteCRD.
End crd.

(** ** The API server *)

(** [elapsed w w']: only others wrote between [w] and [w'].  A version names one
    document; a write replaces the version it was given, or an absent one, and
    one that reports an error may have happened. *)
Class CrdServer (W : Type) {CC : CrdClient W} := {
  definitions_of : W → gmap string CustomResourceDefinition;
  elapsed : relation W;
  elapsed_preorder :: PreOrder elapsed;
  elapsed_version n d d' w w' :
    elapsed w w' → definitions_of w !! n = Some d → definitions_of w' !! n = Some d' →
    crd_ResourceVersion d = crd_ResourceVersion d' → d = d';
  config_elapsed : always elapsed LoadKubernetesConfig;
  NewForConfig_elapsed : always elapsed cr_NewForConfig;
  Get_result n w o w' :
    cr_Get n w = (o, w') →
    ∃ w1, elapsed w w1 ∧ elapsed w1 w' ∧
      match o with
      | Ok d => definitions_of w1 !! n = Some d
      | Err e => IsNotFound e = true → definitions_of w1 !! n = None
      | Panic _ => True
      end;
  Create_result d w o w' :
    cr_Create d w = (o, w') →
    (is_Ok o = false ∧ elapsed w w') ∨
    ∃ w1 w2 v, elapsed w w1 ∧ definitions_of w1 !! crd_Name d = None ∧
      definitions_of w2 = <[crd_Name d := SetResourceVersion v d]> (definitions_of w1) ∧
      elapsed w2 w';
  Update_result d w o w' :
    cr_Update d w = (o, w') →
    (is_Ok o = false ∧ elapsed w w') ∨
    ∃ w1 w2 v old, elapsed w w1 ∧ definitions_of w1 !! crd_Name d = Some old ∧
      crd_ResourceVersion old = crd_ResourceVersion d ∧
      definitions_of w2 = <[crd_Name d := SetResourceVersion v d]> (definitions_of w1) ∧
      elapsed w2 w';
  Delete_result n w o w' :
    cr_Delete n w = (o, w') →
    (is_Ok o = false ∧ elapsed w w') ∨
    ∃ w1 w2, elapsed w w1 ∧ is_Some (definitions_of w1 !! n) ∧
      definitions_of w2 = delete n (definitions_of w1) ∧ elapsed w2 w';
}.

Section server.
Context {W : Type} {CD : CrdDecoder} {CC : CrdClient W} {CS : CrdServer W}.

(** What an answer to a read says is stored. *)
Definition read_as (got : outcome CustomResourceDefinition) (read : option CustomResourceDefinition)
    : Prop :=
  match got with
  | Ok d => read = Some d
  | Err e => IsNotFound e = true ∧ read = None
  | Panic _ => False
  end.

(** [crd] replaced what was read: the read of its name in [w] returned what was still
    stored at a later moment, when [crd] was written, under its name only. *)
Definition replaced (crd : CustomResourceDefinition) (w w' : W) : Prop :=
  ∃ got read w1 w2 w3 v, cr_Get (crd_Name crd) w = (got, w1) ∧ read_as got read ∧
    elapsed w1 w2 ∧ definitions_of w2 !! crd_Name crd = read ∧
    definitions_of w3 = <[crd_Name crd := SetResourceVersion v crd]> (definitions_of w2) ∧
    elapsed w3 w'.

Lemma getCRDClient_elapsed : always elapsed getCRDClient.
Proof.
  apply (always_bind elapsed); [apply config_elapsed|intros _; apply NewForConfig_elapsed].
Qed.

Lemma createOrUpdateCRD_effect w o w' :
  createOrUpdateCRD w = (o, w') →
  (is_Ok o = false ∧ elapsed w w') ∨ ∃ crd, loadCRD = Ok crd ∧ replaced crd w w'.
Proof.
  unfold createOrUpdateCRD. destruct loadCRD as [crd|e|m] eqn:L;
    [|intros [= <- <-]; by left..]. unfold bind at 1; cbn [lift_outcome].
  unfold bind, try. destruct (cr_Get _ w) as [g w1] eqn:HG.
  pose proof HG as (w0 & G1 & G2 & G)%Get_result.
  assert (elapsed w w1) as G12 by (etrans; [exact G1|exact G2]). destruct g as [d|e|m].
  - intros [[He H]|(w2 & w3 & v & old & H1 & Hold & Hv & H3 & H4)]%Update_result;
      [left; split; [done|]; etrans; [exact G12|exact H]|].
    right. exists crd. split; [done|]. cbn [SetResourceVersion crd_Name crd_ResourceVersion] in *.
    exists (Ok d), (Some d), w1, w2, w3, v. assert (elapsed w0 w2) as E by (etrans; [exact G2|exact H1]).
    assert (d = old) as -> by (by eapply (elapsed_version (crd_Name crd))).
    by split_and!.
  - destruct (IsNotFound e) eqn:He; [|intros [= <- <-]; by left].
    intros [[Ho H]|(w2 & w3 & v & H1 & Hnone & H3 & H4)]%Create_result;
      [left; split; [done|]; etrans; [exact G12|exact H]|].
    right. exists crd. split; [done|]. exists (Err e), None, w1, w2, w3, v. by split_and!.
  - intros [= <- <-]. by left.
Qed.

(** C20: An installation loses no concurrent change.  Among whatever others write
    meanwhile, [Apply] either fails with nothing written; or it has made its client,
    it has read the definition of the name of the embedded one, and it has written
    the embedded definition exactly once, under its name only, at a moment when what
    it had read (a definition or none) was still what was stored, so that the write
    of nobody else got lost.  When it succeeds the write has happened. *)
Theorem Apply_no_lost_update w o w' :
  Apply w = (o, w') →
  (is_Ok o = false ∧ elapsed w w') ∨
  ∃ crd w1, loadCRD = Ok crd ∧ getCRDClient w = (Ok tt, w1) ∧ replaced crd w1 w'.
Proof.
  intros [([] & w1 & H0 & H)|[(e & H0 & ->)|(m & H0 & ->)]]%bind_inv;
    pose proof (getCRDClient_elapsed _ _ _ H0) as H1; [|by left..].
  apply createOrUpdateCRD_effect in H as [[He H]|(crd & L & Hr)];
    [left; split; [done|etrans; [exact H1|exact H]]|].
  right. by exists crd, w1.
Qed.

(** A removal removes the definition of the name of the embedded one, or nothing. *)
Lemma Delete_effect w o w' :
  Delete w = (o, w') →
  (is_Ok o = false ∧ elapsed w w') ∨
  ∃ crd w1 w2, loadCRD = Ok crd ∧ elapsed w w1 ∧ is_Some (definitions_of w1 !! crd_Name crd) ∧
    definitions_of w2 = delete (crd_Name crd) (definitions_of w1) ∧ elapsed w2 w'.
Proof.
  intros [([] & w1 & H1 & H)|[(e & H1 & ->)|(m & H1 & ->)]]%bind_inv;
    apply getCRDClient_elapsed in H1; [|by left..].
  unfold deleteCRD in H. destruct loadCRD as [crd|e|m] eqn:L;
    [|injection H as <- <-; by left..].
  apply Delete_result in H as [[He H]|(w2 & w3 & H2 & H)]; [left; split; [done|etrans; [exact H1|exact H]]|].
  right. exists crd, w2, w3. split_and!; [done|etrans; [exact H1|exact H2]|apply H..].
Qed.
End server.

(** ** Concrete runs *)

Module CrdSample.
(** A server whose versions are as long as its clock was, with the writes of
    others that arrive before the next writes. *)
Record api := mkApi {
  api_stored : gmap string CustomResourceDefinition;
  api_clock : nat;
  api_others : list CustomResourceDefinition;
}.

Fixpoint version (n : nat) : string :=
  match n with 0 => "" | S m => "v" +:+ version m end.

Definition past (t : nat) (nd : string * CustomResourceDefinition) : Prop :=
  String.length (crd_ResourceVersion nd.2) ≤ t.
#[local] Instance past_decision t nd : Decision (past t nd).
Proof. unfold past. apply _. Defined.

Definition visible (a : api) : gmap string CustomResourceDefinition :=
  filter (past (api_clock a)) (api_stored a).

Definition put (d : CustomResourceDefinition) (a : api) : api :=
  mkApi (<[crd_Name d := SetResourceVersion (version (S (api_clock a))) d]> (visible a))
    (S (api_clock a)) (api_others a).

Definition interfere (a : api) : api :=
  match api_others a with
  | [] => a
  | d :: ds => put d (mkApi (api_stored a) (api_clock a) ds)
  end.

Definition write (ok : option CustomResourceDefinition → bool) (d : CustomResourceDefinition)
    : M api unit := λ a,
  let a := interfere a in
  if ok (visible a !! crd_Name d) then (Ok tt, put d a)
  else (Err (StatusError StatusReasonConflict "conflict"), a).

#[local] Instance api_client : CrdClient api := {|
  cr_config := {| su_ClientConfig := throw (New "no kubeconfig"); su_InClusterConfig := ret tt |};
  cr_NewForConfig := ret tt;
  cr_Get n a := (match visible a !! n with
                 | Some d => Ok d
                 | None => Err (StatusError StatusReasonNotFound "not found")
                 end, a);
  cr_Create := write (λ o, match o with None => true | Some _ => false end);
  cr_Update d := write (λ o, match o with
                             | Some old => bool_decide (crd_ResourceVersion old = crd_ResourceVersion d)
                             | None => false
                             end) d;
  cr_Delete n a := match visible a !! n with
                   | Some _ => (Ok tt, mkApi (delete n (visible a)) (api_clock a) (api_others a))
                   | None => (Err (StatusError StatusReasonNotFound "not found"), a)
                   end;
|}.

Definition later (a a' : api) : Prop :=
  api_clock a ≤ api_clock a' ∧
  ∀ n d, visible a' !! n = Some d →
    visible a !! n = Some d ∨ api_clock a < String.length (crd_ResourceVersion d).

Lemma visible_past a n d :
  visible a !! n = Some d → String.length (crd_ResourceVersion d) ≤ api_clock a.
Proof. by intros [_ H]%map_lookup_filter_Some. Qed.

Lemma length_version n : String.length (version n) = n.
Proof. induction n as [|n IH]; [done|]. change (S (String.length (version n)) = S n). by rewrite IH. Qed.

Lemma visible_put d a :
  visible (put d a) =
  <[crd_Name d := SetResourceVersion (version (S (api_clock a))) d]> (visible a).
Proof.
  unfold visible at 1. apply map_filter_id. intros n x. cbn [put api_clock api_stored].
  intros [[<- <-]|[_ Hx%visible_past]]%lookup_insert_Some; unfold past;
    cbn [snd SetResourceVersion crd_ResourceVersion]; [by rewrite length_version|lia].
Qed.

#[local] Instance later_preorder : PreOrder later.
Proof.
  split; [intros a; split; [done|eauto]|]. intros x y z [C1 H1] [C2 H2]. split; [lia|].
  intros n d [H|H]%H2; [by apply H1|right; lia].
Qed.

Lemma put_later d a : later a (put d a).
Proof.
  split; [simpl; lia|]. intros n x. rewrite visible_put.
  intros [[<- <-]|[_ Hx]]%lookup_insert_Some; [right|by left].
  cbn [SetResourceVersion crd_ResourceVersion]. rewrite length_version. lia.
Qed.

Lemma interfere_later a : later a (interfere a).
Proof.
  unfold interfere. destruct (api_others a) as [|d ds]; [done|].
  apply (put_later d (mkApi (api_stored a) (api_clock a) ds)).
Qed.

Lemma write_result ok d a o a' :
  write ok d a = (o, a') →
  (is_Ok o = false ∧ later a a') ∨
  ∃ a1 a2 v, later a a1 ∧ ok (visible a1 !! crd_Name d) = true ∧
    visible a2 = <[crd_Name d := SetResourceVersion v d]> (visible a1) ∧ later a2 a'.
Proof.
  unfold write. destruct (ok _) eqn:E; intros [= <- <-];
    [right|left; split; [done|apply interfere_later]].
  eexists (interfere a), _, _. split_and!; [apply interfere_later|done|apply visible_put|done].
Qed.

#[local] Instance api_server : CrdServer api.
Proof.
  refine {| definitions_of := visible; elapsed := later |}.
  - intros n d d' w w' [_ H] Hd [Hd'|Hlt]%H E; [congruence|].
    apply visible_past in Hd. rewrite E in Hd. lia.
  - by intros w o w' [= _ <-].
  - by intros w o w' [= _ <-].
  - intros n w o w' [= <- <-]. exists w. split_and!; [done..|]. by destruct (visible w !! n).
  - intros d w o w'. cbn [cr_Create cr_Update api_client]. intros [H|(a1 & a2 & v & H1 & H2 & H3 & H4)]%write_result; [by left|right].
    exists a1, a2, v. split_and!; [done| |done..]. by destruct (visible a1 !! _).
  - intros d w o w'. cbn [cr_Create cr_Update api_client]. intros [H|(a1 & a2 & v & H1 & H2 & H3 & H4)]%write_result; [by left|right].
    destruct (visible a1 !! _) as [old|] eqn:E; [|done].
    exists a1, a2, v, old. apply bool_decide_eq_true in H2. by split_and!.
  - intros n w o w'. simpl. destruct (visible w !! n) as [d|] eqn:E; intros [= <- <-]; [right|by left].
    eexists w, _. split_and!; [done|by eexists| |done].
    unfold visible at 1. apply map_filter_id. simpl.
    intros i x [_ Hx]%lookup_delete_Some. by apply visible_past in Hx.
Defined.

#[local] Instance decoder : CrdDecoder := {|
  CRDs := {[ crdFilename := "yaml" ]};
  YAMLToJSON s := Ok s;
  crd_Unmarshal s := Ok (mkCRD "containerimagebuilds" "" s);
|}.

(** The definition is absent, and somebody else creates it after the read; the
    next installation replaces that one. *)
Definition start : api := mkApi ∅ 0 [mkCRD "containerimagebuilds" "" "old"].
Definition raced : outcome unit * api := Apply start.
Definition retried : outcome unit * api := Apply raced.2.

Lemma Apply_no_lost_update_witness :
  is_Ok raced.1 = false ∧ replaced (mkCRD "containerimagebuilds" "" "yaml") raced.2 retried.2 ∧
  crd_Body <$> visible retried.2 !! "containerimagebuilds" = Some "yaml".
Proof.
  split_and!; [vm_compute; reflexivity| |vm_compute; reflexivity].
  destruct (Apply_no_lost_update (CS:=api_server) raced.2 (Ok tt) retried.2
              (run_split _ _ _ ltac:(vm_compute; reflexivity))) as [[H _]|(crd & w1 & H & Hg & Hr)];
    [discriminate H|].
  injection H as <-. revert Hg Hr. generalize raced.2 as a. intros a Hg.
  injection Hg as <-. intros Hr. exact Hr.
Defined.
End CrdSample.
