(* ===== verification/DeepCopy.v ===== *)
(** * DeepCopy: copies of the API objects

    [api/forge/v1alpha1/zz_generated.deepcopy.go].  Slices, maps and pointers
    are references into a heap, so that a copy can share memory with its
    original or not.  A layout says which value a reference stands for in a
    heap ([den]) and when a heap is exactly the memory of one value, no part
    used twice ([own]); every copy owns memory that is new and stands for the
    value of its original. *)
From stdpp Require Import gmap strings list.
From Stdlib Require Import ZArith.
From S2P Require Import Prelude Go GoStd Types.
#[local] Open Scope forge_scope.

(** A reference that can be nil; a slice refers to an array of its length. *)
Definition loc : Type := positive.
Definition ref : Type := option loc.

(** ** The structs

    Each type of reference a struct has is a parameter: the memory of a program
    has [ref]s there, the value it stands for has values. *)

Record InitContainerOf (strings envs : Type) := mkInit {
  gi_Name : string;
  gi_Image : string;
  gi_Command : strings;
  gi_Args : strings;
  gi_Env : envs;
}.

Record SpecOf (strings registries maps resources inits : Type) := mkGoSpec {
  gs_ImageName : string;
  gs_Context : string;
  gs_ContextTimeoutSeconds : Z;
  gs_PushRegistries : strings;
  gs_Registries : registries;
  gs_BuildArgs : strings;
  gs_Labels : maps;
  gs_CPU : string;
  gs_Memory : string;
  gs_Resources : resources;
  gs_TimeoutSeconds : Z;
  gs_ImageSizeLimit : Z;
  gs_PluginData : maps;
  gs_DisableBuildCache : bool;
  gs_DisableLayerCacheExport : bool;
  gs_MessageQueueName : string;
  gs_InitContainers : inits;
}.

Record StatusOf (strings times : Type) := mkGoStatus {
  gt_PreviousState : BuildState;
  gt_State : BuildState;
  gt_ImageURLs : strings;
  gt_ImageSize : Z;
  gt_ErrorMessage : string;
  gt_BuildStartedAt : times;
  gt_BuildCompletedAt : times;
}.

Record TypeMeta := mkTypeMeta { tm_Kind : string; tm_APIVersion : string }.

Record BuildOf (meta spec status : Type) := mkGoBuild {
  gb_TypeMeta : TypeMeta;
  gb_ObjectMeta : meta;
  gb_Spec : spec;
  gb_Status : status;
}.

Record ListOf (meta items : Type) := mkGoList {
  gl_TypeMeta : TypeMeta;
  gl_ListMeta : meta;
  gl_Items : items;
}.

Arguments mkInit {_ _}. Arguments gi_Name {_ _}. Arguments gi_Image {_ _}.
Arguments gi_Command {_ _}. Arguments gi_Args {_ _}. Arguments gi_Env {_ _}.
Arguments mkGoSpec {_ _ _ _ _}. Arguments gs_ImageName {_ _ _ _ _}.
Arguments gs_Context {_ _ _ _ _}. Arguments gs_ContextTimeoutSeconds {_ _ _ _ _}.
Arguments gs_PushRegistries {_ _ _ _ _}. Arguments gs_Registries {_ _ _ _ _}.
Arguments gs_BuildArgs {_ _ _ _ _}. Arguments gs_Labels {_ _ _ _ _}.
Arguments gs_CPU {_ _ _ _ _}. Arguments gs_Memory {_ _ _ _ _}.
Arguments gs_Resources {_ _ _ _ _}. Arguments gs_TimeoutSeconds {_ _ _ _ _}.
Arguments gs_ImageSizeLimit {_ _ _ _ _}. Arguments gs_PluginData {_ _ _ _ _}.
Arguments gs_DisableBuildCache {_ _ _ _ _}. Arguments gs_DisableLayerCacheExport {_ _ _ _ _}.
Arguments gs_MessageQueueName {_ _ _ _ _}. Arguments gs_InitContainers {_ _ _ _ _}.
Arguments mkGoStatus {_ _}. Arguments gt_PreviousState {_ _}. Arguments gt_State {_ _}.
Arguments gt_ImageURLs {_ _}. Arguments gt_ImageSize {_ _}. Arguments gt_ErrorMessage {_ _}.
Arguments gt_BuildStartedAt {_ _}. Arguments gt_BuildCompletedAt {_ _}.
Arguments mkGoBuild {_ _ _}. Arguments gb_TypeMeta {_ _ _}. Arguments gb_ObjectMeta {_ _ _}.
Arguments gb_Spec {_ _ _}. Arguments gb_Status {_ _ _}.
Arguments mkGoList {_ _}. Arguments gl_TypeMeta {_ _}. Arguments gl_ListMeta {_ _}.
Arguments gl_Items {_ _}.

(** The structs of Kubernetes inside the objects. *)
Record foreign_types := mkForeign {
  EnvVarT : Type;
  ObjectMetaT : Type;
  ResourcesT : Type;
  ListMetaT : Type;
  (** what their references refer to *)
  ForeignT : Type;
}.

Section memory.
Context (F : foreign_types).

Definition goInit : Type := InitContainerOf ref ref.
Definition goSpec : Type := SpecOf ref ref ref (ResourcesT F) ref.
Definition goStatus : Type := StatusOf ref ref.
Definition goBuild : Type := BuildOf (ObjectMetaT F) goSpec goStatus.
Definition goList : Type := ListOf (ListMetaT F) ref.

Inductive cell :=
| Strings (xs : list string)
| Registries (xs : list Registry)
| Map (m : gmap string string)
| Time (t : Z)
| EnvVars (xs : list (EnvVarT F))
| InitContainers (xs : list goInit)
| Builds (xs : list goBuild)
| PAuth (x : BasicAuthConfig)
| PRegistry (x : Registry)
| PInit (x : goInit)
| PSpec (x : goSpec)
| PStatus (x : goStatus)
| PBuild (x : goBuild)
| PList (x : goList)
| Foreign (x : ForeignT F).

End memory.

Notation heap F := (gmap loc (cell F)).

Arguments Strings {_}. Arguments Registries {_}. Arguments Map {_}. Arguments Time {_}.
Arguments EnvVars {_}. Arguments InitContainers {_}. Arguments Builds {_}. Arguments PAuth {_}.
Arguments PRegistry {_}. Arguments PInit {_}. Arguments PSpec {_}. Arguments PStatus {_}.
Arguments PBuild {_}. Arguments PList {_}. Arguments Foreign {_}.

(** ** Cells *)

Class Slot (F : foreign_types) (A : Type) := {
  inject : A → cell F;
  project : cell F → option A;
  project_inject a : project (inject a) = Some a;
}.

Section slots.
Context {F : foreign_types}.
#[export] Instance strings_slot : Slot F (list string) := {|
  inject := Strings;
  project c := match c with Strings x => Some x | _ => None end;
  project_inject _ := eq_refl;
|}.
#[export] Instance registries_slot : Slot F (list Registry) := {|
  inject := Registries;
  project c := match c with Registries x => Some x | _ => None end;
  project_inject _ := eq_refl;
|}.
#[export] Instance map_slot : Slot F (gmap string string) := {|
  inject := Map;
  project c := match c with Map x => Some x | _ => None end;
  project_inject _ := eq_refl;
|}.
#[export] Instance time_slot : Slot F Z := {|
  inject := Time;
  project c := match c with Time x => Some x | _ => None end;
  project_inject _ := eq_refl;
|}.
#[export] Instance envs_slot : Slot F (list (EnvVarT F)) := {|
  inject := EnvVars;
  project c := match c with EnvVars x => Some x | _ => None end;
  project_inject _ := eq_refl;
|}.
#[export] Instance inits_slot : Slot F (list goInit) := {|
  inject := InitContainers;
  project c := match c with InitContainers x => Some x | _ => None end;
  project_inject _ := eq_refl;
|}.
#[export] Instance builds_slot : Slot F (list (goBuild F)) := {|
  inject := Builds;
  project c := match c with Builds x => Some x | _ => None end;
  project_inject _ := eq_refl;
|}.
#[export] Instance auth_slot : Slot F BasicAuthConfig := {|
  inject := PAuth;
  project c := match c with PAuth x => Some x | _ => None end;
  project_inject _ := eq_refl;
|}.
#[export] Instance registry_slot : Slot F Registry := {|
  inject := PRegistry;
  project c := match c with PRegistry x => Some x | _ => None end;
  project_inject _ := eq_refl;
|}.
#[export] Instance init_slot : Slot F goInit := {|
  inject := PInit;
  project c := match c with PInit x => Some x | _ => None end;
  project_inject _ := eq_refl;
|}.
#[export] Instance spec_slot : Slot F (goSpec F) := {|
  inject := PSpec;
  project c := match c with PSpec x => Some x | _ => None end;
  project_inject _ := eq_refl;
|}.
#[export] Instance status_slot : Slot F goStatus := {|
  inject := PStatus;
  project c := match c with PStatus x => Some x | _ => None end;
  project_inject _ := eq_refl;
|}.
#[export] Instance build_slot : Slot F (goBuild F) := {|
  inject := PBuild;
  project c := match c with PBuild x => Some x | _ => None end;
  project_inject _ := eq_refl;
|}.
#[export] Instance list_slot : Slot F (goList F) := {|
  inject := PList;
  project c := match c with PList x => Some x | _ => None end;
  project_inject _ := eq_refl;
|}.
End slots.

(** ** Memory operations *)

Section operations.
Context {F : foreign_types}.

Definition load {A} {SA : Slot F A} (l : loc) : M (heap F) A := λ h,
  match h !! l ≫= project with
  | Some a => (Ok a, h)
  | None => (Panic "invalid memory address", h)
  end.

Definition store {A} {SA : Slot F A} (l : loc) (a : A) : M (heap F) unit := λ h,
  (Ok tt, <[l := inject a]> h).

(** [new] and [make]. *)
Definition alloc {A} {SA : Slot F A} (a : A) : M (heap F) loc := λ h,
  let l := fresh (dom h) in (Ok l, <[l := inject a]> h).

(** Assignments of an element of a slice and of an entry of a map. *)
Definition set_index {A} {SA : Slot F (list A)} (l : loc) (i : nat) (y : A) : M (heap F) unit :=
  let! xs := load l in store l (<[i := y]> xs).
Definition set_key (l : loc) (key val : string) : M (heap F) unit :=
  let! m := load l in store l (<[key := val]> (m : gmap string string)).
End operations.

(** ** The copies *)

(** The structs of Kubernetes copy themselves. *)
Class ForeignCopy (F : foreign_types) := {
  EnvVar_DeepCopyInto : EnvVarT F → M (heap F) (EnvVarT F);
  ObjectMeta_DeepCopyInto : ObjectMetaT F → M (heap F) (ObjectMetaT F);
  Resources_DeepCopyInto : ResourcesT F → M (heap F) (ResourcesT F);
  ListMeta_DeepCopyInto : ListMetaT F → M (heap F) (ListMetaT F);
  EnvVar_zero :: Inhabited (EnvVarT F);
  ObjectMeta_zero :: Inhabited (ObjectMetaT F);
  Resources_zero :: Inhabited (ResourcesT F);
  ListMeta_zero :: Inhabited (ListMetaT F);
  (** the order of [range] over a map *)
  range_map : gmap string string → list (string * string);
}.

#[export] Instance registry_zero : Inhabited Registry :=
  populate (mkRegistry "" false (mkBasicAuthConfig "" "" "" "") false).
#[export] Instance auth_zero : Inhabited BasicAuthConfig := populate (mkBasicAuthConfig "" "" "" "").
#[export] Instance init_zero : Inhabited goInit := populate (mkInit "" "" None None None).
#[export] Instance status_zero : Inhabited goStatus :=
  populate (mkGoStatus "" "" None 0 "" None None).

Section copies.
Context {F : foreign_types} {FC : ForeignCopy F}.

#[export] Instance spec_zero : Inhabited (goSpec F) :=
  populate (mkGoSpec "" "" 0 None None None None "" "" inhabitant 0 0 None false false "" None).
#[export] Instance build_zero : Inhabited (goBuild F) :=
  populate (mkGoBuild (mkTypeMeta "" "") inhabitant inhabitant inhabitant).
#[export] Instance list_zero : Inhabited (goList F) :=
  populate (mkGoList (mkTypeMeta "" "") inhabitant None).

(** A slice of values without references: [make] and [copy]. *)
Definition copy_slice {A} {IA : Inhabited A} {SA : Slot F (list A)} (s : ref) : M (heap F) ref :=
  match s with
  | None => ret None
  | Some l =>
      let! xs := load (A := list A) l in
      let! out := alloc (replicate (length xs) (inhabitant (A:=A))) in
      do! store out xs in
      ret (Some out)
  end.

(** A slice of structs: [make], and [DeepCopyInto] of each element in place. *)
Fixpoint copy_elements {A} {SA : Slot F (list A)} (into : A → M (heap F) A) (out : loc) (i : nat)
    (xs : list A) : M (heap F) unit :=
  match xs with
  | [] => ret tt
  | x :: xs' =>
      let! y := into x in
      do! set_index out i y in
      copy_elements into out (S i) xs'
  end.

Definition copy_structs {A} {IA : Inhabited A} {SA : Slot F (list A)} (into : A → M (heap F) A)
    (s : ref) : M (heap F) ref :=
  match s with
  | None => ret None
  | Some l =>
      let! xs := load (A := list A) l in
      let! out := alloc (replicate (length xs) (inhabitant (A:=A))) in
      do! copy_elements into out 0 xs in
      ret (Some out)
  end.

(** A map, entry by entry. *)
Definition copy_map (s : ref) : M (heap F) ref :=
  match s with
  | None => ret None
  | Some l =>
      let! m := load (A := gmap string string) l in
      let! out := alloc (∅ : gmap string string) in
      do! for_each (λ kv : string * string, set_key out kv.1 kv.2) (range_map m) in
      ret (Some out)
  end.

(** A pointer: [new] and [DeepCopyInto]; nil for nil. *)
Definition copy_pointer {A} {IA : Inhabited A} {SA : Slot F A} (into : A → M (heap F) A) (p : ref)
    : M (heap F) ref :=
  match p with
  | None => ret None
  | Some l =>
      let! out := alloc (inhabitant (A:=A)) in
      let! x := load (A := A) l in
      let! y := into x in
      do! store out y in
      ret (Some out)
  end.

Definition Time_DeepCopy : ref → M (heap F) ref := copy_pointer (A:=Z) (IA:=populate 0%Z) ret.

Definition BasicAuthConfig_DeepCopyInto (x : BasicAuthConfig) : M (heap F) BasicAuthConfig := ret x.

Definition Registry_DeepCopyInto (x : Registry) : M (heap F) Registry :=
  ret (mkRegistry (reg_Server x) (reg_NonSSL x) (reg_BasicAuth x) (reg_DynamicCloudCredentials x)).

Definition InitContainer_DeepCopyInto (x : goInit) : M (heap F) goInit :=
  let! command := copy_slice (A:=string) (gi_Command x) in
  let! args := copy_slice (A:=string) (gi_Args x) in
  let! env := copy_structs EnvVar_DeepCopyInto (gi_Env x) in
  ret (mkInit (gi_Name x) (gi_Image x) command args env).

(** A struct with other references in place of its own. *)
Definition spec_with {S R P Q I S' R' P' Q' I' : Type} (x : SpecOf S R P Q I)
    (push : S') (regs : R') (args : S') (labels : P') (res : Q') (data : P') (inits : I')
    : SpecOf S' R' P' Q' I' :=
  mkGoSpec (gs_ImageName x) (gs_Context x) (gs_ContextTimeoutSeconds x) push regs args labels
    (gs_CPU x) (gs_Memory x) res (gs_TimeoutSeconds x) (gs_ImageSizeLimit x) data
    (gs_DisableBuildCache x) (gs_DisableLayerCacheExport x) (gs_MessageQueueName x) inits.

Definition Spec_DeepCopyInto (x : goSpec F) : M (heap F) (goSpec F) :=
  let! push := copy_slice (A:=string) (gs_PushRegistries x) in
  let! regs := copy_slice (A:=Registry) (gs_Registries x) in
  let! args := copy_slice (A:=string) (gs_BuildArgs x) in
  let! labels := copy_map (gs_Labels x) in
  let! res := Resources_DeepCopyInto (gs_Resources x) in
  let! data := copy_map (gs_PluginData x) in
  let! inits := copy_structs InitContainer_DeepCopyInto (gs_InitContainers x) in
  ret (spec_with x push regs args labels res data inits).

Definition status_with {S T S' T' : Type} (x : StatusOf S T) (urls : S') (started completed : T')
    : StatusOf S' T' :=
  mkGoStatus (gt_PreviousState x) (gt_State x) urls (gt_ImageSize x) (gt_ErrorMessage x) started
    completed.

Definition Status_DeepCopyInto (x : goStatus) : M (heap F) goStatus :=
  let! urls := copy_slice (A:=string) (gt_ImageURLs x) in
  let! started := Time_DeepCopy (gt_BuildStartedAt x) in
  let! completed := Time_DeepCopy (gt_BuildCompletedAt x) in
  ret (status_with x urls started completed).

Definition Build_DeepCopyInto (x : goBuild F) : M (heap F) (goBuild F) :=
  let! meta := ObjectMeta_DeepCopyInto (gb_ObjectMeta x) in
  let! spec := Spec_DeepCopyInto (gb_Spec x) in
  let! status := Status_DeepCopyInto (gb_Status x) in
  ret (mkGoBuild (gb_TypeMeta x) meta spec status).

Definition List_DeepCopyInto (x : goList F) : M (heap F) (goList F) :=
  let! meta := ListMeta_DeepCopyInto (gl_ListMeta x) in
  let! items := copy_structs Build_DeepCopyInto (gl_Items x) in
  ret (mkGoList (gl_TypeMeta x) meta items).

Definition BasicAuthConfig_DeepCopy : ref → M (heap F) ref := copy_pointer BasicAuthConfig_DeepCopyInto.
Definition Registry_DeepCopy : ref → M (heap F) ref := copy_pointer Registry_DeepCopyInto.
Definition InitContainer_DeepCopy : ref → M (heap F) ref := copy_pointer InitContainer_DeepCopyInto.
Definition Spec_DeepCopy : ref → M (heap F) ref := copy_pointer Spec_DeepCopyInto.
Definition Status_DeepCopy : ref → M (heap F) ref := copy_pointer Status_DeepCopyInto.
Definition Build_DeepCopy : ref → M (heap F) ref := copy_pointer Build_DeepCopyInto.
Definition List_DeepCopy : ref → M (heap F) ref := copy_pointer List_DeepCopyInto.

(** [DeepCopyObject]: a nil copy is a nil interface. *)
Definition Build_DeepCopyObject (p : ref) : M (heap F) (option loc) :=
  let! c := Build_DeepCopy p in
  match c with Some l => ret (Some l) | None => ret None end.
Definition List_DeepCopyObject (p : ref) : M (heap F) (option loc) :=
  let! c := List_DeepCopy p in
  match c with Some l => ret (Some l) | None => ret None end.
End copies.

(** ** Layouts *)

Record layout (F : foreign_types) (T V : Type) := mkLayout {
  den : heap F → T → V → Prop;
  own : heap F → T → V → Prop;
  den_mono h h' x v : h ⊆ h' → den h x v → den h' x v;
  own_den h x v : own h x v → den h x v;
}.
Arguments mkLayout {_ _ _}. Arguments den {_ _ _}. Arguments own {_ _ _}.
Arguments den_mono {_ _ _}. Arguments own_den {_ _ _}.

Section layouts.
Context {F : foreign_types}.
Implicit Types h : heap F.

(** Heaps that split into parts with the given properties. *)
Fixpoint sep (Ps : list (heap F → Prop)) h : Prop :=
  match Ps with
  | [] => h = ∅
  | P :: Ps' => ∃ h1 h2, h = h1 ∪ h2 ∧ h1 ##ₘ h2 ∧ P h1 ∧ sep Ps' h2
  end.

(** Properties that hold in every larger heap hold together. *)
Lemma sep_all Ps Qs h :
  Forall2 (λ P Q : heap F → Prop, ∀ h1 h2, h1 ⊆ h2 → P h1 → Q h2) Ps Qs → sep Ps h →
  ∀ h', h ⊆ h' → Forall (λ Q, Q h') Qs.
Proof.
  intros H. revert h. induction H as [|P Q Ps Qs HP _ IH]; intros h Hs h' Hsub; [constructor|].
  destruct Hs as (h1 & h2 & -> & Hd & H1 & H2). constructor.
  - apply (HP h1); [|done]. etrans; [by apply map_union_subseteq_l|done].
  - apply (IH h2 H2). etrans; [by apply map_union_subseteq_r|done].
Qed.

(** A value without references. *)
Program Definition flat (T : Type) : layout F T T :=
  mkLayout (λ _ x v, x = v) (λ h x v, x = v ∧ h = ∅) _ _.
Next Obligation. done. Qed.
Next Obligation. by intros T h x v [H _]. Qed.

(** The elements of an array. *)
Fixpoint own_list {T V} (L : layout F T V) (xs : list T) (vs : list V) h : Prop :=
  match xs, vs with
  | [], [] => h = ∅
  | x :: xs', v :: vs' =>
      ∃ h1 h2, h = h1 ∪ h2 ∧ h1 ##ₘ h2 ∧ own L h1 x v ∧ own_list L xs' vs' h2
  | _, _ => False
  end.

Program Definition each {T V} (L : layout F T V) : layout F (list T) (list V) :=
  mkLayout (λ h xs vs, Forall2 (den L h) xs vs) (λ h xs vs, own_list L xs vs h) _ _.
Next Obligation.
  intros T V L h h' xs vs Hsub H. eapply Forall2_impl; [exact H|]. intros. by eapply den_mono.
Qed.
Next Obligation.
  intros T V L h xs. revert h. induction xs as [|x xs IH]; intros h [|v vs]; simpl; try done.
  intros (h1 & h2 & -> & Hd & H1 & H2). constructor.
  - eapply den_mono; [by apply map_union_subseteq_l|]. by apply own_den.
  - eapply Forall2_impl; [exact (IH _ _ H2)|]. intros.
    eapply den_mono; [by apply map_union_subseteq_r|done].
Qed.

(** A reference to a cell. *)
Definition boxed_den {A V} {SA : Slot F A} (L : layout F A V) h (p : ref) (v : option V) : Prop :=
  match p, v with
  | None, None => True
  | Some l, Some v => ∃ a, h !! l = Some (inject a) ∧ den L h a v
  | _, _ => False
  end.

Definition boxed_own {A V} {SA : Slot F A} (L : layout F A V) h (p : ref) (v : option V) : Prop :=
  match p, v with
  | None, None => h = ∅
  | Some l, Some v => ∃ a h', h = <[l := inject a]> h' ∧ h' !! l = None ∧ own L h' a v
  | _, _ => False
  end.

Program Definition boxed {A V} {SA : Slot F A} (L : layout F A V) : layout F ref (option V) :=
  mkLayout (boxed_den L) (boxed_own L) _ _.
Next Obligation.
  intros A V SA L h h' [l|] [v|] Hsub; try done. intros (a & Hl & Ha). exists a.
  split; [by eapply lookup_weaken|by eapply den_mono].
Qed.
Next Obligation.
  intros A V SA L h [l|] [v|]; try done. intros (a & h' & -> & Hl & Ha). exists a.
  split; [by rewrite lookup_insert_eq|].
  eapply den_mono; [by apply insert_subseteq|]. by apply own_den.
Qed.
End layouts.

(** ** Running a copy *)

Section runs.
Context {F : foreign_types}.
Implicit Types h H : heap F.

(** [c] succeeds on [H], which it leaves as it is, and adds a part with [P]. *)
Definition adds {A} (c : M (heap F) A) H (P : A → heap F → Prop) : Prop :=
  ∃ a h, c H = (Ok a, H ∪ h) ∧ H ##ₘ h ∧ P a h.

Definition copies {T V} (L : layout F T V) (into : T → M (heap F) T) : Prop :=
  ∀ H x v, den L H x v → adds (into x) H (λ y h, own L h y v).

Lemma adds_ret {A} (a : A) H (P : A → heap F → Prop) : P a ∅ → adds (ret a) H P.
Proof.
  intros HP. exists a, ∅. split_and!; [by rewrite map_union_empty|apply map_disjoint_empty_r|done].
Qed.

Lemma adds_bind {A B} (c : M (heap F) A) (k : A → M (heap F) B) H P Q :
  adds c H P →
  (∀ a h, P a h → H ##ₘ h → adds (k a) (H ∪ h) (λ b h', h ##ₘ h' → Q b (h ∪ h'))) →
  adds (bind c k) H Q.
Proof.
  intros (a & h & Hc & Hd & HP) Hk. destruct (Hk a h HP Hd) as (b & h' & Hb & Hd' & HQ).
  apply map_disjoint_union_l in Hd' as [Hd1 Hd2]. exists b, (h ∪ h'). split_and!.
  - by rewrite (bind_run _ _ _ _ _ Hc), Hb, (assoc_L (∪)).
  - by apply map_disjoint_union_r.
  - by apply HQ.
Qed.

(** The next part of a struct: the parts before it are an argument. *)
Lemma adds_part {T V B} (L : layout F T V) into x v (k : T → M (heap F) B) H Q :
  copies L into → den L H x v →
  (∀ y H', H ⊆ H' → adds (k y) H' (λ b h', ∀ h, own L h y v → h ##ₘ h' → Q b (h ∪ h'))) →
  adds (bind (into x) k) H Q.
Proof.
  intros Hc Hx Hk. eapply adds_bind; [by apply Hc|]. intros y h Hy Hd.
  destruct (Hk y (H ∪ h)) as (b & h' & Hb & Hd' & HQ); [by apply map_union_subseteq_l|].
  exists b, h'. split_and!; [done..|]. intros Hd2. by apply HQ.
Qed.
End runs.

(** ** Copies of references *)

Section references.
Context {F : foreign_types} {FC : ForeignCopy F}.
Implicit Types h H : heap F.

Lemma load_run {A} {SA : Slot F A} l (a : A) H : H !! l = Some (inject a) → load l H = (Ok a, H).
Proof. unfold load. intros ->. simpl. by rewrite project_inject. Qed.

Lemma fresh_None H : H !! fresh (dom H) = None.
Proof. apply not_elem_of_dom, is_fresh. Qed.

Lemma fresh_ne H l c : H !! l = Some c → fresh (dom H) ≠ l.
Proof. intros Hl E. pose proof (fresh_None H). congruence. Qed.

(** The cell a copy allocated first and wrote last is part of what it added. *)
Lemma insert_added H h l c z :
  H !! l = None → <[l := c]> (<[l := z]> H ∪ h) = H ∪ <[l := c]> h.
Proof.
  intros Hl. rewrite insert_union_l, insert_insert_eq, <- insert_union_l. by apply insert_union_r.
Qed.

Lemma disjoint_added H h l c z :
  H !! l = None → <[l := z]> H ##ₘ h → h !! l = None ∧ H ##ₘ <[l := c]> h.
Proof.
  intros Hl [Hh Hd]%map_disjoint_insert_l. split; [done|]. by apply map_disjoint_insert_r.
Qed.

Lemma copy_pointer_copies {A V} {IA : Inhabited A} {SA : Slot F A} (L : layout F A V) into :
  copies L into → copies (boxed L) (copy_pointer into).
Proof.
  intros Hinto H [l|] [v|]; try done; [|intros _; by apply adds_ret].
  intros (a & Hl & Ha). simpl. set (out := fresh (dom H)). pose proof (fresh_None H) as Hout.
  pose proof (fresh_ne _ _ _ Hl) as Hne.
  destruct (Hinto (<[out := inject inhabitant]> H) a v) as (y & h & Hy & Hd & Hown).
  { by eapply den_mono, Ha; apply insert_subseteq. }
  destruct (disjoint_added H h out (inject y) _ Hout Hd) as [Hh Hd'].
  exists (Some out), (<[out := inject y]> h). split_and!; [|done|simpl; eauto 6].
  unfold bind at 1, alloc. fold out.
  erewrite bind_run by (apply load_run; by rewrite lookup_insert_ne).
  rewrite (bind_run _ _ _ _ _ Hy). unfold bind, store. by rewrite insert_added.
Qed.

Lemma copy_slice_copies {A} {IA : Inhabited A} {SA : Slot F (list A)} :
  copies (boxed (flat (list A))) copy_slice.
Proof.
  intros H [l|] [v|]; try done; [|intros _; by apply adds_ret].
  intros (a & Hl & Ha). simpl in Ha. subst v. simpl. rename Hl into Hl0.
  pose proof (fresh_None H) as Hout.
  exists (Some (fresh (dom H))), {[fresh (dom H) := inject a]}. split_and!.
  - rewrite (bind_run _ _ _ _ _ (load_run _ _ _ Hl0)).
    unfold bind, alloc, store. rewrite insert_insert_eq.
    rewrite insert_union_singleton_r by done. done.
  - by apply map_disjoint_singleton_r.
  - simpl. exists a, ∅. by rewrite insert_empty.
Qed.

Lemma set_index_run {A} {SA : Slot F (list A)} l i (y : A) arr H :
  set_index l i y (<[l := inject arr]> H) = (Ok tt, <[l := inject (<[i := y]> arr)]> H).
Proof.
  unfold set_index. erewrite bind_run by (apply load_run, lookup_insert_eq).
  unfold store. by rewrite insert_insert_eq.
Qed.

(** The loop over the elements, with the array at [out] outside of [H]. *)
Lemma copy_elements_run {A V} {SA : Slot F (list A)} (L : layout F A V) into out xs :
  copies L into → ∀ vs i arr H,
  H !! out = None → Forall2 (den L H) xs vs → length arr = i + length xs →
  ∃ ys h, copy_elements into out i xs (<[out := inject arr]> H)
          = (Ok tt, <[out := inject (take i arr ++ ys)]> (H ∪ h)) ∧
    H ##ₘ h ∧ h !! out = None ∧ own_list L ys vs h.
Proof.
  intros Hinto. induction xs as [|x xs IH]; intros vs i arr H Hout Hden Hlen.
  - apply Forall2_nil_inv_l in Hden as ->. exists [], ∅. rewrite map_union_empty, app_nil_r.
    rewrite take_ge by (simpl in Hlen; lia).
    split_and!; [done|apply map_disjoint_empty_r|apply lookup_empty|done].
  - apply Forall2_cons_inv_l in Hden as (v & vs' & Hx & Hxs & ->).
    destruct (Hinto (<[out := inject arr]> H) x v) as (y & h & Hy & Hd & Hown).
    { by eapply den_mono, Hx; apply insert_subseteq. }
    apply map_disjoint_insert_l in Hd as [Hh Hd].
    destruct (IH vs' (S i) (<[i := y]> arr) (H ∪ h)) as (ys & h' & Hrun & Hd' & Hh' & Hys).
    { by apply lookup_union_None. }
    { eapply Forall2_impl; [exact Hxs|]. intros. by eapply den_mono; [apply map_union_subseteq_l|]. }
    { rewrite length_insert. simpl in Hlen. lia. }
    apply map_disjoint_union_l in Hd' as [Hd1 Hd2].
    exists (y :: ys), (h ∪ h'). split_and!.
    + cbn [copy_elements]. rewrite (bind_run _ _ _ _ _ Hy), <- insert_union_l.
      rewrite (bind_run _ _ _ _ _ (set_index_run _ _ _ _ _)), Hrun, (assoc_L (∪)).
      rewrite (take_S_r _ _ y) by (apply list_lookup_insert_eq; simpl in Hlen; lia).
      rewrite take_insert_ge by lia. by rewrite <- (assoc_L (++)).
    + by apply map_disjoint_union_r.
    + by apply lookup_union_None.
    + simpl. by exists h, h'.
Qed.

Lemma copy_structs_copies {A V} {IA : Inhabited A} {SA : Slot F (list A)} (L : layout F A V) into :
  copies L into → copies (boxed (each L)) (copy_structs into).
Proof.
  intros Hinto H [l|] [vs|]; try done; [|intros _; by apply adds_ret].
  intros (xs & Hl & Hxs). simpl in Hxs. simpl. set (out := fresh (dom H)).
  pose proof (fresh_None H) as Hout. fold out in Hout.
  destruct (copy_elements_run L into out xs Hinto vs 0 (replicate (length xs) inhabitant) H)
    as (ys & h & Hrun & Hd & Hh & Hys); [done..|by rewrite length_replicate|].
  exists (Some out), (<[out := inject ys]> h). split_and!.
  - rewrite (bind_run _ _ _ _ _ (load_run _ _ _ Hl)). unfold bind at 1, alloc. fold out.
    rewrite (bind_run _ _ _ _ _ Hrun). unfold ret. rewrite take_0, insert_union_r by done. done.
  - by apply map_disjoint_insert_r.
  - simpl. eauto 6.
Qed.

Lemma set_keys_run out kvs (m : gmap string string) H :
  for_each (λ kv : string * string, set_key out kv.1 kv.2) kvs (<[out := inject m]> H)
  = (Ok tt, <[out := inject (list_to_map (reverse kvs) ∪ m)]> H).
Proof.
  revert m. induction kvs as [|[k w] kvs IH]; intros m.
  - simpl. by rewrite (left_id_L ∅ (∪)).
  - cbn [for_each fst snd]. unfold bind at 1, set_key at 1.
    erewrite bind_run by (apply load_run, lookup_insert_eq). unfold store. rewrite insert_insert_eq, IH.
    rewrite reverse_cons, list_to_map_app. simpl.
    by rewrite <- (assoc_L (∪)), insert_empty, <- insert_union_singleton_l.
Qed.
End references.

(** ** Copies of structs *)

Section structs.
Context {F : foreign_types}.
Implicit Types h H : heap F.

(** A field of a struct. *)
Program Definition field {T V A B} (L : layout F A B) (f : T → A) (g : V → B) : layout F T V :=
  mkLayout (λ h x v, den L h (f x) (g v)) (λ h x v, own L h (f x) (g v)) _ _.
Next Obligation. intros. by eapply den_mono. Qed.
Next Obligation. intros. by apply own_den. Qed.

(** A struct: the fields without references correspond by [values], the others
    have their layouts and own separate parts. *)
Program Definition struct {T V} (values : T → V → Prop) (Ls : list (layout F T V)) : layout F T V :=
  mkLayout (λ h x v, values x v ∧ Forall (λ L, den L h x v) Ls)
           (λ h x v, values x v ∧ sep ((λ L h, own L h x v) <$> Ls) h) _ _.
Next Obligation.
  intros T V values Ls h h' x v Hsub [Hv H]. split; [done|].
  eapply Forall_impl; [exact H|]. intros. by eapply den_mono.
Qed.
Next Obligation.
  intros T V values Ls h x v [Hv H]. split; [done|].
  apply (sep_all _ ((λ L h, den L h x v) <$> Ls)) with (h' := h) in H; [|clear H|done].
  - by apply Forall_fmap in H.
  - apply Forall2_fmap, Forall_Forall2_diag, Forall_forall. intros L _ h1 h2 Hsub Hown.
    eapply den_mono; [done|]. by apply own_den.
Qed.
End structs.

(** What the copies of the structs of Kubernetes promise. *)
Class ForeignLaws (F : foreign_types) {FC : ForeignCopy F} := {
  EnvVarV : Type;
  ObjectMetaV : Type;
  ResourcesV : Type;
  ListMetaV : Type;
  EnvVar_layout : layout F (EnvVarT F) EnvVarV;
  ObjectMeta_layout : layout F (ObjectMetaT F) ObjectMetaV;
  Resources_layout : layout F (ResourcesT F) ResourcesV;
  ListMeta_layout : layout F (ListMetaT F) ListMetaV;
  EnvVar_copies : copies EnvVar_layout EnvVar_DeepCopyInto;
  ObjectMeta_copies : copies ObjectMeta_layout ObjectMeta_DeepCopyInto;
  Resources_copies : copies Resources_layout Resources_DeepCopyInto;
  ListMeta_copies : copies ListMeta_layout ListMeta_DeepCopyInto;
  range_perm m : range_map m ≡ₚ map_to_list m;
}.

Section objects.
Context {F : foreign_types} {FC : ForeignCopy F} {FL : ForeignLaws F}.
Implicit Types h H : heap F.

Definition strings_layout : layout F ref (option (list string)) := boxed (flat (list string)).
Definition registries_layout : layout F ref (option (list Registry)) := boxed (flat (list Registry)).
Definition map_layout : layout F ref (option (gmap string string)) :=
  boxed (flat (gmap string string)).
Definition time_layout : layout F ref (option Z) := boxed (flat Z).

Definition InitV : Type := InitContainerOf (option (list string)) (option (list EnvVarV)).
Definition init_layout : layout F goInit InitV :=
  struct (λ x v, gi_Name x = gi_Name v ∧ gi_Image x = gi_Image v)
    [field strings_layout gi_Command gi_Command; field strings_layout gi_Args gi_Args;
     field (boxed (each EnvVar_layout)) gi_Env gi_Env].

Definition SpecV : Type :=
  SpecOf (option (list string)) (option (list Registry)) (option (gmap string string)) ResourcesV
         (option (list InitV)).
Definition spec_layout : layout F (goSpec F) SpecV :=
  struct (λ x v, spec_with v tt tt tt tt tt tt tt = spec_with x tt tt tt tt tt tt tt)
    [field strings_layout gs_PushRegistries gs_PushRegistries;
     field registries_layout gs_Registries gs_Registries;
     field strings_layout gs_BuildArgs gs_BuildArgs;
     field map_layout gs_Labels gs_Labels;
     field Resources_layout gs_Resources gs_Resources;
     field map_layout gs_PluginData gs_PluginData;
     field (boxed (each init_layout)) gs_InitContainers gs_InitContainers].

Definition StatusV : Type := StatusOf (option (list string)) (option Z).
Definition status_layout : layout F goStatus StatusV :=
  struct (λ x v, status_with v tt tt tt = status_with x tt tt tt)
    [field strings_layout gt_ImageURLs gt_ImageURLs;
     field time_layout gt_BuildStartedAt gt_BuildStartedAt;
     field time_layout gt_BuildCompletedAt gt_BuildCompletedAt].

Definition BuildV : Type := BuildOf ObjectMetaV SpecV StatusV.
Definition build_layout : layout F (goBuild F) BuildV :=
  struct (λ x v, gb_TypeMeta x = gb_TypeMeta v)
    [field ObjectMeta_layout gb_ObjectMeta gb_ObjectMeta; field spec_layout gb_Spec gb_Spec;
     field status_layout gb_Status gb_Status].

Definition ListV : Type := ListOf ListMetaV (option (list BuildV)).
Definition list_layout : layout F (goList F) ListV :=
  struct (λ x v, gl_TypeMeta x = gl_TypeMeta v)
    [field ListMeta_layout gl_ListMeta gl_ListMeta;
     field (boxed (each build_layout)) gl_Items gl_Items].

Lemma flat_copies {A : Type} : copies (flat A) (ret (S := heap F)).
Proof. intros H x v Hx. by apply adds_ret. Qed.

Lemma copy_map_copies : copies map_layout copy_map.
Proof.
  intros H [l|] [v|]; try done; [|intros _; by apply adds_ret].
  intros (m & Hl & Hm). simpl in Hm. subst v. simpl. set (out := fresh (dom H)).
  pose proof (fresh_None H) as Hout. fold out in Hout.
  exists (Some out), {[out := inject m]}. split_and!.
  - rewrite (bind_run _ _ _ _ _ (load_run _ _ _ Hl)). unfold bind at 1, alloc. fold out.
    rewrite (bind_run _ _ _ _ _ (set_keys_run _ _ _ _)). unfold ret.
    rewrite (right_id_L ∅ (∪)), insert_union_singleton_r by done. do 4 f_equal.
    rewrite <- (list_to_map_to_list m) at 2. apply list_to_map_proper.
    + rewrite reverse_Permutation, range_perm. apply NoDup_fst_map_to_list.
    + by rewrite reverse_Permutation, range_perm.
  - by apply map_disjoint_singleton_r.
  - simpl. exists m, ∅. by rewrite insert_empty.
Qed.

Lemma time_copies : copies time_layout Time_DeepCopy.
Proof. apply copy_pointer_copies, flat_copies. Qed.

(** Opens the copy of a struct; runs its next part, after which the references
    still to be copied stand for the same values; puts the parts together. *)
#[local] Ltac copy_struct :=
  intros H x v [Hv Hparts];
  repeat (apply Forall_cons in Hparts as [? Hparts]); cbn [field den] in *.
#[local] Ltac copy_part c :=
  eapply adds_part; [exact c|eassumption|];
  let y := fresh "y" in let H' := fresh "H'" in let Hsub := fresh "Hsub" in
  intros y H' Hsub;
  repeat match goal with
  | Hd : den ?L ?h ?x ?v |- _ => lazymatch type of Hsub with
                                 | h ⊆ _ => apply (den_mono L h H' x v Hsub) in Hd
                                 end
  end; clear Hsub.
#[local] Ltac copy_done :=
  apply adds_ret; intros; split; [done|]; cbn [fmap list_fmap sep field own];
  repeat (eexists _, _; split; [reflexivity|]; split; [eassumption|]; split; [eassumption|]);
  reflexivity.

Lemma init_copies : copies init_layout InitContainer_DeepCopyInto.
Proof.
  copy_struct. unfold InitContainer_DeepCopyInto.
  do 2 copy_part (@copy_slice_copies F string _ _).
  copy_part (copy_structs_copies _ _ EnvVar_copies). copy_done.
Qed.

Lemma spec_copies : copies spec_layout Spec_DeepCopyInto.
Proof.
  copy_struct. unfold Spec_DeepCopyInto. copy_part (@copy_slice_copies F string _ _).
  copy_part (@copy_slice_copies F Registry _ _). copy_part (@copy_slice_copies F string _ _).
  copy_part copy_map_copies. copy_part Resources_copies. copy_part copy_map_copies.
  copy_part (copy_structs_copies _ _ init_copies). copy_done.
Qed.

Lemma status_copies : copies status_layout Status_DeepCopyInto.
Proof.
  copy_struct. unfold Status_DeepCopyInto. copy_part (@copy_slice_copies F string _ _).
  do 2 copy_part time_copies. copy_done.
Qed.

Lemma build_copies : copies build_layout Build_DeepCopyInto.
Proof.
  copy_struct. unfold Build_DeepCopyInto. copy_part ObjectMeta_copies. copy_part spec_copies.
  copy_part status_copies. copy_done.
Qed.

Lemma list_copies : copies list_layout List_DeepCopyInto.
Proof.
  copy_struct. unfold List_DeepCopyInto. copy_part ListMeta_copies.
  copy_part (copy_structs_copies _ _ build_copies). copy_done.
Qed.

(** The copies behind pointers. *)
Lemma pointers_copy :
  copies (F:=F) (boxed (flat BasicAuthConfig)) BasicAuthConfig_DeepCopy ∧
  copies (F:=F) (boxed (flat Registry)) Registry_DeepCopy ∧
  copies (boxed init_layout) InitContainer_DeepCopy ∧ copies (boxed spec_layout) Spec_DeepCopy ∧
  copies (boxed status_layout) Status_DeepCopy ∧ copies (boxed build_layout) Build_DeepCopy ∧
  copies (boxed list_layout) List_DeepCopy.
Proof.
  split_and!; apply copy_pointer_copies;
    [apply flat_copies| |apply init_copies|apply spec_copies|apply status_copies
    |apply build_copies|apply list_copies].
  intros H x v Hx. apply adds_ret. by destruct x.
Qed.

(** Writes to cells. *)
Definition writes (ws : list (loc * cell F)) H : heap F := list_to_map ws ∪ H.

Lemma writes_disjoint ws H h :
  Forall (λ w, w.1 ∈ dom h) ws → H ##ₘ h → H ⊆ writes ws (H ∪ h).
Proof.
  intros Hws Hd. apply map_subseteq_spec. intros l c Hl. unfold writes.
  rewrite lookup_union_r; [by apply lookup_union_Some_l|].
  apply not_elem_of_list_to_map. intros ([l' c'] & -> & Hin)%list_elem_of_fmap.
  rewrite Forall_forall in Hws. apply Hws in Hin. simpl in Hin.
  apply elem_of_dom in Hin as [c2 Hc2]. by eapply map_disjoint_spec.
Qed.

(** C21: A copy of a list of builds shares no memory with the original.  Copying
    always succeeds and leaves the memory of the program as it is; the copy
    stands for the value of the original, nil for nil and builds, specs and
    statuses included; and it stays so whatever is written later through the
    copy into its memory, for the original, or anywhere else in memory, for the
    copy. *)
Theorem List_DeepCopy_independent H p v :
  den (boxed list_layout) H p v →
  ∃ q h, List_DeepCopy p H = (Ok q, H ∪ h) ∧ H ##ₘ h ∧ own (boxed list_layout) h q v ∧
    ∀ ws, (Forall (λ w, w.1 ∈ dom h) ws → den (boxed list_layout) (writes ws (H ∪ h)) p v) ∧
          (Forall (λ w, w.1 ∉ dom h) ws → den (boxed list_layout) (writes ws (H ∪ h)) q v).
Proof.
  intros Hp. destruct (copy_pointer_copies _ _ list_copies H p v Hp) as (q & h & Hq & Hd & Hown).
  exists q, h. split_and!; [done..|]. intros ws. split; intros Hws.
  - by eapply den_mono, Hp; apply writes_disjoint.
  - apply own_den in Hown. eapply den_mono, Hown. unfold writes.
    apply map_subseteq_spec. intros l c Hl. rewrite lookup_union_r; [by apply lookup_union_Some_r|].
    apply not_elem_of_list_to_map. intros ([l' c'] & -> & Hin)%list_elem_of_fmap.
    rewrite Forall_forall in Hws. apply (Hws _ Hin). simpl. by eapply elem_of_dom_2.
Qed.
End objects.

(** ** Concrete runs *)

Module CopySample.
(** An object meta is a reference to its labels; the other structs of
    Kubernetes are copied as values. *)
Definition types : foreign_types := mkForeign EnvVar ref Z string (list (string * string)).

#[local] Instance labels_slot : Slot types (list (string * string)) := {|
  inject := Foreign;
  project c := match c with Foreign x => Some x | _ => None end;
  project_inject _ := eq_refl;
|}.

#[local] Instance copying : ForeignCopy types :=
  Build_ForeignCopy types ret (copy_slice (A:=string*string)) ret ret
    (populate (mkEnvVar "" "" None)) (populate None) (populate 0%Z) (populate "")
    (λ m, reverse (map_to_list m)).

#[local] Instance copying_laws : ForeignLaws types :=
  Build_ForeignLaws types copying EnvVar (option (list (string * string))) Z string (flat EnvVar) (boxed (flat (list (string * string))))
    (flat Z) (flat string) flat_copies copy_slice_copies flat_copies flat_copies
    (λ m, reverse_Permutation (map_to_list m)).

(** A list of one build whose push registries and build arguments are one slice. *)
Definition at_ (l : positive) : ref := Some l.
Definition spec0 : goSpec types :=
  mkGoSpec "img" "ctx" 0 (at_ 2) None (at_ 2) (at_ 3) "" "" (0%Z : ResourcesT types) 0 0 None
    false false "" (at_ 4).
Definition build0 : goBuild types :=
  mkGoBuild (mkTypeMeta "ContainerImageBuild" "v1alpha1") (at_ 5 : ObjectMetaT types) spec0
    (mkGoStatus "" "Building" None 0 "" (at_ 6) None).
Definition memory : heap types :=
  {[ 1%positive := PList (mkGoList (mkTypeMeta "" "") ("1" : ListMetaT types) (at_ 7));
     2%positive := Strings ["a"; "b"];
     3%positive := Map {[ "k" := "v" ]};
     4%positive := InitContainers [mkInit "i" "img" None (at_ 2) (at_ 8)];
     5%positive := Foreign ([("label", "x")] : ForeignT types);
     6%positive := Time 12;
     7%positive := Builds [build0];
     8%positive := EnvVars ([mkEnvVar "E" "1" None] : list (EnvVarT types)) ]}.

Definition value : ListV (F:=types) :=
  mkGoList (mkTypeMeta "" "") "1"
    (Some [mkGoBuild (mkTypeMeta "ContainerImageBuild" "v1alpha1") (Some [("label", "x")])
             (mkGoSpec "img" "ctx" 0 (Some ["a"; "b"]) None (Some ["a"; "b"]) (Some {[ "k" := "v" ]})
                "" "" 0%Z 0 0 None false false ""
                (Some [mkInit "i" "img" None (Some ["a"; "b"]) (Some [mkEnvVar "E" "1" None])]))
             (mkGoStatus "" "Building" None 0 "" (Some 12%Z) None)]).

Lemma memory_value : den (boxed list_layout) memory (Some 1%positive) (Some value).
Proof.
  repeat (first [split; [reflexivity|]|eexists; split; [reflexivity|]|constructor|reflexivity]).
Qed.

(** The copy, and a write through it. *)
Definition copied : outcome ref * heap types := List_DeepCopy (Some 1%positive) memory.

Lemma List_DeepCopy_independent_witness :
  ∃ q h, copied = (Ok q, memory ∪ h) ∧ memory ##ₘ h ∧ own (boxed list_layout) h q (Some value).
Proof.
  destruct (List_DeepCopy_independent memory _ _ memory_value) as (q & h & Hq & Hd & Hown & _).
  exists q, h. split_and!; [exact Hq|exact Hd|exact Hown].
Defined.

Example copied_cells : fst copied = Ok (Some 9%positive) ∧ size (snd copied) = 18.
Proof. split; vm_compute; reflexivity. Qed.
End CopySample.
