(* ===== verification/Launch.v ===== *)
(** * Launch: the goroutines of a build

    The end of [build] in [internal/builder/embedded/driver.go], [Solve] of
    [bkimage/solve.go] and [displayProgress] of [util.go]: a session, the solve,
    its status stream, the goroutine that converts statuses and the display run
    concurrently, talk through two unbuffered channels, and are joined by error
    groups.  They are the agents of a step relation; the theorems are that no
    closed channel is used, that nothing waits forever, that every run ends, and
    what the joined result means. *)
From stdpp Require Import gmap strings list relations.
From Stdlib Require Import ZArith Lia.
From S2P Require Import Prelude Go GoStd.
#[local] Open Scope forge_scope.

(** ** Statuses *)

Definition Digest : Type := string.

Record Vertex := mkVertex {
  vx_Digest : Digest;
  vx_Inputs : list Digest;
  vx_Name : string;
  vx_Started : option Z;
  vx_Completed : option Z;
  vx_Cached : bool;
  vx_Error : string;
}.

Record VertexStatus := mkVertexStatus {
  vs_ID : string;
  vs_Vertex : Digest;
  vs_Name : string;
  vs_Total : Z;
  vs_Current : Z;
  vs_Timestamp : Z;
  vs_Started : option Z;
  vs_Completed : option Z;
}.

(** [controlapi.VertexLog] has an [int64] stream and [client.VertexLog] an [int]. *)
Record api_VertexLog := mkApiLog {
  al_Vertex : Digest;
  al_Timestamp : Z;
  al_Stream : Z;
  al_Msg : string;
}.

Record VertexLog := mkVertexLog {
  vl_Vertex : Digest;
  vl_Stream : Z;
  vl_Data : string;
  vl_Timestamp : Z;
}.

Record StatusResponse := mkStatusResponse {
  sr_Vertexes : list Vertex;
  sr_Statuses : list VertexStatus;
  sr_Logs : list api_VertexLog;
}.

Record SolveStatus := mkSolveStatus {
  ss_Vertexes : list Vertex;
  ss_Statuses : list VertexStatus;
  ss_Logs : list VertexLog;
}.

(** The loops of [displayProgress]. *)
Definition solve_status (resp : StatusResponse) : SolveStatus :=
  mkSolveStatus
    ((λ v, mkVertex (vx_Digest v) (vx_Inputs v) (vx_Name v) (vx_Started v) (vx_Completed v)
             (vx_Cached v) (vx_Error v)) <$> sr_Vertexes resp)
    ((λ v, mkVertexStatus (vs_ID v) (vs_Vertex v) (vs_Name v) (vs_Total v) (vs_Current v)
             (vs_Timestamp v) (vs_Started v) (vs_Completed v)) <$> sr_Statuses resp)
    ((λ v, mkVertexLog (al_Vertex v) (al_Stream v) (al_Msg v) (al_Timestamp v)) <$> sr_Logs resp).

(** ** The agents *)

(** [sess.Run]. *)
Inductive session_state := SessionNew | SessionRunning | SessionDone (err : option error).

(** [bk.Solve] and the deferred calls after it: before the controller exists, in
    [Wait] of its group, at [close(ch)], at [sess.Close], returned. *)
Inductive solve_state :=
| SolveStart
| SolveWait
| SolveCloseChannel (err : option error)
| SolveCloseSession (err : option error)
| SolveDone (err : option error).

(** [controller.Solve]. *)
Inductive control_state := ControlNew | ControlRunning | ControlDone (err : option error).

(** [controller.Status], between two responses or at [s.ch <- resp]. *)
Inductive status_state :=
| StatusNew
| StatusStreaming
| StatusSending (resp : StatusResponse)
| StatusDone (err : option error).

(** The goroutine of [displayProgress], at [range ch] or at [progressCh <- &s]. *)
Inductive forward_state := ForwardReceiving | ForwardSending (s : SolveStatus) | ForwardDone.

(** [DisplaySolveStatus]. *)
Inductive display_state := Displaying | DisplayDone.

Record build_state := mkBuildState {
  g_session : session_state;
  g_solve : solve_state;
  g_control : control_state;
  g_status : status_state;
  g_forward : forward_state;
  g_display : display_state;
  (** [sess.Close] has closed the connection and waits for [Run] *)
  g_closing : bool;
  (** the channels *)
  g_chClosed : bool;
  g_progressClosed : bool;
  (** the first errors of the two groups; an error cancels the context *)
  g_err : option error;
  g_solveErr : option error;
  (** [cancelStatus] was called *)
  g_cancelled : bool;
  g_panicked : bool;
  (** the responses BuildKit will report, those sent and those displayed *)
  g_backlog : list StatusResponse;
  g_sent : list StatusResponse;
  g_shown : list SolveStatus;
}.

(** The start of [build]'s group. *)
Definition launched (backlog : list StatusResponse) : build_state :=
  mkBuildState SessionNew SolveStart ControlNew StatusNew ForwardReceiving Displaying
    false false false None None false false backlog [] [].

(** [errOnce]: the first error of a group. *)
Definition first_error (err e : option error) : option error :=
  match err with Some _ => err | None => e end.

Definition set_session (x : session_state) (closing : bool) (err : option error) (g : build_state)
    : build_state :=
  mkBuildState x (g_solve g) (g_control g) (g_status g) (g_forward g) (g_display g) closing
    (g_chClosed g) (g_progressClosed g) (first_error (g_err g) err) (g_solveErr g) (g_cancelled g)
    (g_panicked g) (g_backlog g) (g_sent g) (g_shown g).

Definition set_solve (x : solve_state) (err : option error) (g : build_state) : build_state :=
  mkBuildState (g_session g) x (g_control g) (g_status g) (g_forward g) (g_display g) (g_closing g)
    (g_chClosed g) (g_progressClosed g) (first_error (g_err g) err) (g_solveErr g) (g_cancelled g)
    (g_panicked g) (g_backlog g) (g_sent g) (g_shown g).

Definition set_control (x : control_state) (err : option error) (g : build_state) : build_state :=
  mkBuildState (g_session g) (g_solve g) x (g_status g) (g_forward g) (g_display g) (g_closing g)
    (g_chClosed g) (g_progressClosed g) (g_err g) (first_error (g_solveErr g) err) (g_cancelled g)
    (g_panicked g) (g_backlog g) (g_sent g) (g_shown g).

Definition set_status (x : status_state) (err : option error) (backlog : list StatusResponse)
    (g : build_state) : build_state :=
  mkBuildState (g_session g) (g_solve g) (g_control g) x (g_forward g) (g_display g) (g_closing g)
    (g_chClosed g) (g_progressClosed g) (g_err g) (first_error (g_solveErr g) err) (g_cancelled g)
    (g_panicked g) backlog (g_sent g) (g_shown g).

Definition set_forward (x : forward_state) (closed : bool) (sent : list StatusResponse)
    (shown : list SolveStatus) (g : build_state) : build_state :=
  mkBuildState (g_session g) (g_solve g) (g_control g) (g_status g) x (g_display g) (g_closing g)
    (g_chClosed g) closed (g_err g) (g_solveErr g) (g_cancelled g)
    (g_panicked g) (g_backlog g) sent shown.

Definition set_display (x : display_state) (g : build_state) : build_state :=
  mkBuildState (g_session g) (g_solve g) (g_control g) (g_status g) (g_forward g) x (g_closing g)
    (g_chClosed g) (g_progressClosed g) (g_err g) (g_solveErr g) (g_cancelled g)
    (g_panicked g) (g_backlog g) (g_sent g) (g_shown g).

Definition close_channel (g : build_state) : build_state :=
  mkBuildState (g_session g) (g_solve g) (g_control g) (g_status g) (g_forward g) (g_display g)
    (g_closing g) true (g_progressClosed g) (g_err g) (g_solveErr g) (g_cancelled g)
    (g_panicked g || g_chClosed g) (g_backlog g) (g_sent g) (g_shown g).

Definition cancel_status (g : build_state) : build_state :=
  mkBuildState (g_session g) (g_solve g) (g_control g) (g_status g) (g_forward g) (g_display g)
    (g_closing g) (g_chClosed g) (g_progressClosed g) (g_err g) (g_solveErr g) true
    (g_panicked g) (g_backlog g) (g_sent g) (g_shown g).

Definition panics (g : build_state) : build_state :=
  mkBuildState (g_session g) (g_solve g) (g_control g) (g_status g) (g_forward g) (g_display g)
    (g_closing g) (g_chClosed g) (g_progressClosed g) (g_err g) (g_solveErr g) (g_cancelled g)
    true (g_backlog g) (g_sent g) (g_shown g).

Definition failed (err : option error) : bool := match err with Some _ => true | None => false end.

(** [g -[due]-> g']: a step; [due] when it happens sooner or later in a state
    like [g], because it is the program's own or because the library promises
    it: [Run] returns once the session is closed or its context cancelled, [Solve]
    and [Status] return once their contexts are cancelled.  The context of [Run] is
    cancelled by the first error of the group of [build], that of [Solve] also by
    the first error of its own group, and that of [Status] by the first error of the
    group of [build] or by [cancelStatus].  These calls may also return at any other
    time, or go on; but a solve reads the build context through the session, and
    does not succeed before the session started. *)
Inductive step : bool → build_state → build_state → Prop :=
| session_starts g :
    g_session g = SessionNew → step true g (set_session SessionRunning (g_closing g) None g)
| session_returns e g :
    g_session g = SessionRunning →
    step (g_closing g || failed (g_err g)) g (set_session (SessionDone e) (g_closing g) e g)
| controller_fails e g :
    g_solve g = SolveStart → step false g (set_solve (SolveCloseChannel (Some e)) None g)
| controller_made g :
    g_solve g = SolveStart →
    step true g
      (set_solve SolveWait None (set_control ControlRunning None
         (set_status StatusStreaming None (g_backlog g) g)))
| control_returns e g :
    g_control g = ControlRunning → (e = None → g_session g ≠ SessionNew) →
    step (failed (g_err g) || failed (g_solveErr g)) g (set_control (ControlDone e) e g)
| timer_cancels e g :
    g_control g = ControlDone e → g_cancelled g = false → step true g (cancel_status g)
| status_reports r rs g :
    g_status g = StatusStreaming → g_backlog g = r :: rs →
    step false g (set_status (StatusSending r) None rs g)
| status_returns e g :
    g_status g = StatusStreaming →
    step (g_cancelled g || failed (g_err g)) g (set_status (StatusDone e) e (g_backlog g) g)
| status_sends r g :
    g_status g = StatusSending r → g_forward g = ForwardReceiving → g_chClosed g = false →
    step true g
      (set_forward (ForwardSending (solve_status r)) (g_progressClosed g) (g_sent g ++ [r])
         (g_shown g) (set_status StatusStreaming None (g_backlog g) g))
| send_on_closed r g :
    g_status g = StatusSending r → g_chClosed g = true → g_panicked g = false → step true g (panics g)
| solve_joined ec es g :
    g_solve g = SolveWait → g_control g = ControlDone ec → g_status g = StatusDone es →
    step true g (set_solve (SolveCloseChannel (g_solveErr g)) None g)
| channel_closed e g :
    g_solve g = SolveCloseChannel e →
    step true g (set_solve (SolveCloseSession e) None (close_channel g))
| close_unstarted e g :
    g_solve g = SolveCloseSession e → g_session g = SessionNew →
    step true g (set_solve (SolveDone e) e g)
| close_running e g :
    g_solve g = SolveCloseSession e → g_session g = SessionRunning → g_closing g = false →
    step true g (set_session SessionRunning true None g)
| close_returns e e' g :
    g_solve g = SolveCloseSession e → g_session g = SessionDone e' →
    step true g (set_solve (SolveDone e) e g)
| status_forwarded s g :
    g_forward g = ForwardSending s → g_display g = Displaying →
    step true g (set_forward ForwardReceiving (g_progressClosed g) (g_sent g) (g_shown g ++ [s]) g)
| forward_ends g :
    g_forward g = ForwardReceiving → g_chClosed g = true →
    step true g (set_forward ForwardDone true (g_sent g) (g_shown g) g)
| display_ends g :
    g_display g = Displaying → g_progressClosed g = true → step true g (set_display DisplayDone g).

Definition moves (g g' : build_state) : Prop := ∃ due, step due g g'.

(** [eg.Wait] of [build] returns [g_err]. *)
Definition joined (g : build_state) : Prop :=
  (∃ e, g_session g = SessionDone e) ∧ (∃ e, g_solve g = SolveDone e) ∧ g_display g = DisplayDone.

(** ** Every run ends *)

Definition session_weight (x : session_state) : nat :=
  match x with SessionNew => 3 | SessionRunning => 2 | SessionDone _ => 0 end.
Definition solve_weight (x : solve_state) : nat :=
  match x with
  | SolveStart => 6 | SolveWait => 3 | SolveCloseChannel _ => 2 | SolveCloseSession _ => 1
  | SolveDone _ => 0
  end.
Definition control_weight (x : control_state) : nat :=
  match x with ControlRunning => 1 | _ => 0 end.
Definition status_weight (x : status_state) : nat :=
  match x with StatusStreaming => 1 | StatusSending _ => 4 | _ => 0 end.
Definition forward_weight (x : forward_state) : nat :=
  match x with ForwardReceiving => 1 | ForwardSending _ => 2 | ForwardDone => 0 end.
Definition display_weight (x : display_state) : nat :=
  match x with Displaying => 1 | DisplayDone => 0 end.
Definition pending (b : bool) : nat := if b then 0 else 1.

Definition work_left (g : build_state) : nat :=
  session_weight (g_session g) + solve_weight (g_solve g) + control_weight (g_control g)
  + status_weight (g_status g) + forward_weight (g_forward g) + display_weight (g_display g)
  + pending (g_closing g) + pending (g_cancelled g) + pending (g_panicked g)
  + 4 * length (g_backlog g).

(** ** The invariant *)

(** The parts of [Solve] when it returns [err]: never started because the
    controller failed, or both done. *)
Definition solve_over (err : option error) (g : build_state) : Prop :=
  (failed err = true ∧ g_control g = ControlNew ∧ g_status g = StatusNew) ∨
  (∃ ec es, g_control g = ControlDone ec ∧ g_status g = StatusDone es ∧
     (err = None ↔ ec = None ∧ es = None)).

Definition solve_inv (g : build_state) : Prop :=
  match g_solve g with
  | SolveStart =>
      g_chClosed g = false ∧ g_control g = ControlNew ∧ g_status g = StatusNew ∧
      g_solveErr g = None
  | SolveWait => g_chClosed g = false ∧ g_control g ≠ ControlNew ∧ g_status g ≠ StatusNew
  | SolveCloseChannel e => g_chClosed g = false ∧ solve_over e g
  | SolveCloseSession e => g_chClosed g = true ∧ solve_over e g
  | SolveDone e =>
      g_chClosed g = true ∧ solve_over e g ∧
      ((∃ e', g_session g = SessionDone e') ∨ failed (g_err g) = true)
  end.

Definition control_result (x : control_state) : option error :=
  match x with ControlDone e => e | _ => None end.
Definition status_result (x : status_state) : option error :=
  match x with StatusDone e => e | _ => None end.
Definition session_result (x : session_state) : option error :=
  match x with SessionDone e => e | _ => None end.
Definition solve_result (x : solve_state) : option error :=
  match x with SolveDone e => e | _ => None end.

Definition in_flight (x : forward_state) : list SolveStatus :=
  match x with ForwardSending s => [s] | _ => [] end.

Record healthy (g : build_state) : Prop := mkHealthy {
  h_solve : solve_inv g;
  h_panicked : g_panicked g = false;
  h_solveErr : failed (g_solveErr g)
               = failed (control_result (g_control g)) || failed (status_result (g_status g));
  h_err : failed (g_err g)
          = failed (session_result (g_session g)) || failed (solve_result (g_solve g));
  h_control : g_control g = ControlDone None → g_session g ≠ SessionNew;
  h_closing : g_closing g = true → g_session g ≠ SessionNew;
  h_forward : g_progressClosed g = true ↔ g_forward g = ForwardDone;
  h_closed : g_forward g = ForwardDone → g_chClosed g = true;
  h_display : g_display g = DisplayDone → g_progressClosed g = true;
  h_shown : solve_status <$> g_sent g = g_shown g ++ in_flight (g_forward g);
}.

Lemma failed_first err e : failed (first_error err e) = failed err || failed e.
Proof. by destruct err. Qed.

Lemma failed_None err : failed err = false ↔ err = None.
Proof. by destruct err. Qed.

Lemma launched_healthy backlog : healthy (launched backlog).
Proof. by split. Qed.

(** Takes a step apart into the fields of the state. *)
#[local] Ltac open_step Hs :=
  destruct Hs; match goal with g : build_state |- _ => destruct g end; cbn in *; subst;
  cbn in *; rewrite ?failed_first; cbn in *.

Lemma step_errors due g g' :
  step due g g' → healthy g →
  failed (g_solveErr g')
    = failed (control_result (g_control g')) || failed (status_result (g_status g')) ∧
  failed (g_err g')
    = failed (session_result (g_session g')) || failed (solve_result (g_solve g')).
Proof.
  intros Hs [Hsolve _ He1 He2 _ _ _ _ _ _]. unfold solve_inv in Hsolve.
  open_step Hs; unpack; subst; cbn in *; rewrite ?He1, ?He2, ?orb_false_r; split;
    try done; apply orb_comm.
Qed.

Lemma solve_over_result ec es err g :
  g_control g = ControlDone ec → g_status g = StatusDone es →
  failed err = failed ec || failed es → solve_over err g.
Proof.
  intros Hc Hs He. right. exists ec, es. split_and!; [done..|].
  rewrite <- !failed_None, He. apply orb_false_iff.
Qed.

(** A solve that succeeded used the session. *)
Lemma solve_over_session err g :
  healthy g → solve_over err g → g_session g = SessionNew → failed err = true.
Proof.
  intros Hh [[H _]|(ec & es & Hc & _ & He)] Hn; [done|].
  destruct err; [done|]. destruct (proj1 He eq_refl) as [-> _]. by destruct (h_control g Hh Hc).
Qed.

(** While a part of the solve runs, [Solve] waits for it. *)
Definition working (g : build_state) : Prop :=
  g_control g = ControlRunning ∨ g_status g = StatusStreaming ∨ ∃ r, g_status g = StatusSending r.

Lemma working_waits g : healthy g → working g → g_solve g = SolveWait ∧ g_chClosed g = false.
Proof.
  intros Hh Hw. pose proof (h_solve g Hh) as H. unfold solve_inv in H.
  assert (∀ e, ¬ solve_over e g) as Hn.
  { intros e [(_ & ? & ?)|(? & ? & ? & ? & _)]; destruct Hw as [?|[?|[??]]]; congruence. }
  destruct (g_solve g); try (destruct (Hn err); apply H); [|by destruct H].
  destruct H as (_ & ? & ? & _), Hw as [?|[?|[??]]]; congruence.
Qed.

(** Steps of the session, the display and the timer keep what [Solve] knows. *)
Lemma solve_inv_frame g g' :
  g_solve g' = g_solve g → g_chClosed g' = g_chClosed g → g_control g' = g_control g →
  g_status g' = g_status g → g_solveErr g' = g_solveErr g →
  ((∃ e, g_session g = SessionDone e) → ∃ e, g_session g' = SessionDone e) →
  (failed (g_err g) = true → failed (g_err g') = true) → solve_inv g → solve_inv g'.
Proof.
  unfold solve_inv, solve_over. intros -> -> -> -> -> Hs He H.
  destruct (g_solve g); try done. destruct H as (? & ? & [?|?]); auto.
Qed.

Lemma step_solve due g g' : step due g g' → healthy g → solve_inv g'.
Proof.
  intros Hs Hh. pose proof (h_solve g Hh) as Hsolve.
  assert (∀ e, failed (g_err g) = true → failed (first_error (g_err g) e) = true) as Hf.
  { intros e. rewrite failed_first. by intros ->. }
  assert (working g → g_solve g = SolveWait ∧ g_chClosed g = false ∧ g_control g ≠ ControlNew ∧
            g_status g ≠ StatusNew) as Hwork.
  { intros [E Ec]%(working_waits _ Hh). unfold solve_inv in Hsolve. rewrite E in Hsolve. tauto. }
  destruct Hs as [g H|e g H|e g H|g H|e g H Hn|e g H _|r rs g H _|e g H|r g H _ _|r g H _ _
    |ec es g H Hec Hes|e g H|e g H Hn|e g H Hn _|e e' g H Hn|s g H _|g H _|g H _];
    try (by apply (solve_inv_frame g); [done..|intros [? ?]; congruence|apply Hf|done]);
    try (by apply (solve_inv_frame g));
    try (destruct Hwork as (E & Ec & Hc & Hs); [unfold working; eauto|];
         by unfold solve_inv; cbn; rewrite E; cbn; split_and!);
    unfold solve_inv in Hsolve; rewrite H in Hsolve; unfold solve_inv; cbn.
  - split; [apply Hsolve|left]. cbn. by split_and!; [|apply Hsolve..].
  - by split_and!; [apply Hsolve|..].
  - split; [apply Hsolve|]. apply (solve_over_result ec es); [done..|].
    by rewrite (h_solveErr g Hh), Hec, Hes.
  - split; [done|apply Hsolve].
  - split_and!; [apply Hsolve..|right]. rewrite failed_first.
    rewrite (solve_over_session e g Hh); [apply orb_true_r|apply Hsolve|done].
  - split_and!; [apply Hsolve..|left]. eauto.
Qed.

Lemma step_healthy due g g' : step due g g' → healthy g → healthy g'.
Proof.
  intros Hs Hh. pose proof (step_solve _ _ _ Hs Hh) as H1. destruct (step_errors _ _ _ Hs Hh) as [H2 H3].
  pose proof (working_waits g Hh) as Hwork.
  destruct Hh as [Hsolve Hp _ _ Hc Hcl Hf Hfc Hd Hsh].
  split; try done; clear H1 H2 H3; destruct Hs; cbn; try done; try congruence.
  - destruct Hwork as [_ ?]; [unfold working; eauto|congruence].
  - unfold solve_inv in Hsolve. rewrite H in Hsolve. rewrite Hp. apply Hsolve.
  - intros [= ->]. auto.
  - rewrite Hf. split; congruence.
  - rewrite Hf. split; congruence.
  - rewrite fmap_app, Hsh, H0. cbn. by rewrite app_nil_r.
  - rewrite Hsh, H. by rewrite app_nil_r.
  - by rewrite Hsh, H.
Qed.

Lemma reachable_healthy backlog g : rtc moves (launched backlog) g → healthy g.
Proof.
  intros H. remember (launched backlog) as g0 eqn:E.
  assert (healthy g0) as Hh by (rewrite E; apply launched_healthy). clear E.
  induction H as [|g1 g2 g3 [due Hs] _ IH]; [done|]. eauto using step_healthy.
Qed.

(** ** Progress and termination *)

Lemma step_decreases due g g' : step due g g' → work_left g' < work_left g.
Proof.
  intros Hs. unfold work_left.
  destruct Hs; cbn -[Nat.mul]; repeat match goal with H : _ = _ |- _ => rewrite H; clear H end;
    cbn -[Nat.mul]; try lia.
  destruct (g_panicked g), (g_chClosed g); cbn -[Nat.mul]; lia.
Qed.

Definition any_error : error := New "error".

(** The display never falls behind for good. *)
Lemma forward_moves s g : healthy g → g_forward g = ForwardSending s → ∃ g', step true g g'.
Proof.
  intros Hh H. destruct (g_display g) eqn:E; [by eexists; eapply status_forwarded|].
  apply (h_display g Hh), (h_forward g Hh) in E. congruence.
Qed.

(** BuildKit is solving: its [Solve] has not returned, and no agent has failed. *)
Definition solving (g : build_state) : Prop :=
  g_control g = ControlRunning ∧ g_err g = None ∧ g_solveErr g = None.

Lemma waiting_moves g :
  healthy g → g_solve g = SolveWait → solving g ∨ ∃ g', step true g g'.
Proof.
  intros Hh Hw. pose proof (h_solve g Hh) as H. unfold solve_inv in H. rewrite Hw in H.
  destruct H as (Hch & Hc & Hs). destruct (g_control g) as [| |ec] eqn:Ec; [done| |].
  { destruct (failed (g_err g) || failed (g_solveErr g)) eqn:Ef.
    - right. eexists. rewrite <- Ef. by apply (control_returns (Some any_error)).
    - left. apply orb_false_iff in Ef. by rewrite !failed_None in Ef. }
  right. destruct (g_cancelled g) eqn:Ek; [|eexists; by eapply timer_cancels].
  destruct (g_status g) as [| |r|es] eqn:Es; [done| | |eexists; by eapply solve_joined].
  - exists (set_status (StatusDone None) None (g_backlog g) g).
    pose proof (status_returns None g Es) as Hr. by rewrite Ek in Hr.
  - destruct (g_forward g) as [|s|] eqn:Ef; [eexists; by eapply status_sends|by eapply forward_moves|].
    apply (h_closed g Hh) in Ef. congruence.
Qed.

Lemma display_moves g :
  healthy g → g_chClosed g = true → g_display g = Displaying → ∃ g', step true g g'.
Proof.
  intros Hh Hc Hd. destruct (g_forward g) as [|s|] eqn:Ef.
  - eexists. by eapply forward_ends.
  - by eapply forward_moves.
  - eexists. apply display_ends; [done|]. by apply (h_forward g Hh).
Qed.

Lemma session_moves g :
  g_session g = SessionRunning → g_closing g || failed (g_err g) = true → ∃ g', step true g g'.
Proof. intros Hs Hd. eexists. rewrite <- Hd. by apply (session_returns None). Qed.

Lemma progress g : healthy g → joined g ∨ solving g ∨ ∃ g', step true g g'.
Proof.
  intros Hh. pose proof (h_solve g Hh) as H. unfold solve_inv in H.
  destruct (g_solve g) as [| |e|e|e] eqn:Ev.
  - do 2 right. eexists. by apply controller_made.
  - right. by apply waiting_moves.
  - do 2 right. eexists. by eapply channel_closed.
  - do 2 right. destruct (g_session g) eqn:Es; [eexists; by eapply close_unstarted| |eexists; by eapply close_returns].
    destruct (g_closing g) eqn:Ec; [apply session_moves; [done|by rewrite Ec]|eexists; by eapply close_running].
  - destruct H as (Hc & _ & Hd). destruct (g_session g) as [| |e'] eqn:Es.
    + do 2 right. eexists. by apply session_starts.
    + do 2 right. destruct Hd as [[? ?]|Hd]; [done|]. apply session_moves; [done|]. rewrite Hd. apply orb_true_r.
    + destruct (g_display g) eqn:Ed; [do 2 right; by apply display_moves|left]. split_and!; eauto.
Qed.

(** C19: The goroutines of a build come to an end.  Whatever BuildKit reports and
    in whatever order the agents run and fail, every sequence of steps is
    finite.  As long as the groups are not joined, a step is due, or BuildKit is
    still solving and no agent has failed; so after the failure of any agent the
    contexts that are cancelled end every other one, and nothing else is waited for
    than a solve that has not been cancelled.  And nothing is ever sent to a closed
    channel, and no channel is closed twice. *)
Theorem build_joins backlog g :
  rtc moves (launched backlog) g →
  Acc (flip moves) g ∧ (joined g ∨ solving g ∨ ∃ g', step true g g') ∧ g_panicked g = false.
Proof.
  intros Hh%reachable_healthy. split_and!; [|by apply progress|apply Hh].
  clear Hh. remember (work_left g) as n eqn:E. revert g E.
  induction n as [n IH] using lt_wf_ind. intros g ->. constructor. intros g' [due Hs].
  by eapply IH; [eapply step_decreases|].
Qed.

(** What the joined result means.  When [build] returns, every status BuildKit
    sent was displayed, converted, once and in order; and it returns no error
    exactly when the session, the solve and the status stream all ended without
    one. *)
Theorem build_result backlog g :
  rtc moves (launched backlog) g → joined g →
  g_shown g = solve_status <$> g_sent g ∧
  (g_err g = None ↔
   g_session g = SessionDone None ∧ g_control g = ControlDone None ∧ g_status g = StatusDone None).
Proof.
  intros Hh%reachable_healthy ([e1 Hs] & [e2 Hv] & Hd). split.
  - rewrite (h_shown g Hh). apply (h_display g Hh), (h_forward g Hh) in Hd. rewrite Hd. cbn.
    by rewrite app_nil_r.
  - rewrite <- failed_None, (h_err g Hh), Hs, Hv. cbn. rewrite orb_false_iff, !failed_None.
    pose proof (h_solve g Hh) as H. unfold solve_inv in H. rewrite Hv in H.
    destruct H as (_ & [(He & Hc & _)|(ec & es & Hc & Hst & He)] & _).
    + split; [intros [_ ->]; done|]. rewrite Hc. by intros (_ & ? & _).
    + rewrite Hc, Hst, He. split; [by intros (-> & -> & ->)|]. intros (? & ? & ?). by simplify_eq.
Qed.

(** ** The writer of the display *)

(** [logr.Logger]: [Info] adds one entry to the log, and returns nothing. *)
Class InfoLogger (W : Type) := {
  lg_Info : string → W → W;
  lg_entries : W → list string;
  Info_adds msg w : lg_entries (lg_Info msg w) = lg_entries w ++ [msg];
}.

Section logr_writer.
Context {W : Type} {LG : InfoLogger W}.

(** [Write] of [LogrWriter]: the number of bytes written and the error. *)
Definition LogrWriter_Write (msg : string) (w : W) : (Z * option error) * W :=
  ((Z.of_nat (String.length msg), None), lg_Info msg w).

(** A caller that writes its chunks one by one and stops at an error or at a short
    write, as [io.Writer] asks of it. *)
Fixpoint write_chunks (chunks : list string) (w : W) : option error * W :=
  match chunks with
  | [] => (None, w)
  | msg :: chunks =>
      match LogrWriter_Write msg w with
      | ((n, None), w) =>
          if bool_decide (n = Z.of_nat (String.length msg)) then write_chunks chunks w
          else (Some (New "short write"), w)
      | ((_, Some err), w) => (Some err, w)
      end
  end.

(** Every chunk becomes one entry of the log, in order, and no write is short. *)
Lemma write_chunks_logs chunks w :
  (write_chunks chunks w).1 = None ∧
  lg_entries (write_chunks chunks w).2 = lg_entries w ++ chunks.
Proof.
  revert w. induction chunks as [|msg chunks IH]; intros w; simpl; [by rewrite app_nil_r|].
  rewrite bool_decide_eq_true_2 by done. destruct (IH (lg_Info msg w)) as [-> ->].
  by rewrite Info_adds, <- app_assoc.
Qed.
End logr_writer.

(** ** An example *)

Module LaunchSample.
Definition response : StatusResponse :=
  mkStatusResponse [mkVertex "sha256:1" [] "FROM" (Some 1%Z) None false ""] []
    [mkApiLog "sha256:1" 2 1 "step"].

(** The state after a run without errors. *)
Definition final : build_state :=
  mkBuildState (SessionDone None) (SolveDone None) (ControlDone None) (StatusDone None) ForwardDone
    DisplayDone true true true None None true false [] [response] [solve_status response].

#[local] Ltac go c := eapply rtc_l; [eexists; eapply c; try reflexivity|]; cbn.

Lemma run : rtc moves (launched [response]) final.
Proof.
  go controller_made. go session_starts. go status_reports. go status_sends. go status_forwarded.
  go (control_returns None); [done|]. go timer_cancels. go (status_returns None). go solve_joined.
  go channel_closed. go close_running. go (session_returns None). go close_returns.
  go forward_ends. go display_ends. reflexivity.
Qed.

Lemma build_joins_witness :
  Acc (flip moves) final ∧ (joined final ∨ solving final ∨ ∃ g', step true final g') ∧
  g_panicked final = false.
Proof. exact (build_joins [response] final run). Defined.

Lemma build_result_witness :
  g_shown final = [solve_status response] ∧ g_err final = None.
Proof.
  destruct (build_result [response] final run) as [Hs He].
  - split_and!; first [eexists; reflexivity|reflexivity].
  - split; [exact Hs|]. apply He. split_and!; reflexivity.
Defined.
End LaunchSample.
