(* ===== verification/Interleaving.v ===== *)
(** * Interleaving: the controller among other clients

    [Reconcile] and [RunGC] run in different goroutines of one process, next to
    users, build jobs and the controllers of Kubernetes, and read through a
    cache that can be behind the server.  Here every call of the client may be
    preceded and followed by writes of others, and a read may return a state of
    the past.  The theorems list the writes the two operations make of their
    own, and what each of them relied on when it took effect. *)
From stdpp Require Import gmap strings list.
From Stdlib Require Import ZArith.
From S2P Require Import Prelude Go GoStd Types Config Kube Credentials Resources Controller GarbageCollection.
#[local] Open Scope forge_scope.

(** ** The shared server *)

(** [elapsed w w']: only others wrote between [w] and [w'].  [earlier w0 w]:
    the server was in [w0] before it was in [w].  A call that reports an error
    may have been carried out. *)
Class SharedServer (W : Type) {KC : KubeClient W} := {
  sv_objects : W → gmap objkey object;
  sv_builds : W → gmap NamespacedName ContainerImageBuild;
  sv_keyed w : well_keyed (sv_builds w);
  elapsed : relation W;
  elapsed_preorder :: PreOrder elapsed;
  earlier : relation W;
  earlier_preorder :: PreOrder earlier;
  elapsed_earlier w w' : elapsed w w' → earlier w w';
  Get_shared k : always elapsed (kc_Get k);
  GetBuild_shared k : always elapsed (kc_GetBuild k);
  GetBuild_seen k w c w' : kc_GetBuild k w = (Ok c, w') →
    ∃ w0, earlier w0 w' ∧ sv_builds w0 !! k = Some c;
  ListBuilds_shared : always elapsed kc_ListBuilds;
  ListBuilds_seen w l w' : kc_ListBuilds w = (Ok l, w') →
    ∃ w0, earlier w0 w' ∧ l ≡ₚ snd <$> map_to_list (sv_builds w0);
  Create_shared x w o w' : kc_Create x w = (o, w') →
    (is_Ok o = false ∧ elapsed w w') ∨
    ∃ w1 w2, elapsed w w1 ∧ sv_objects w1 !! obj_key x = None ∧
      sv_objects w2 = <[obj_key x := x]> (sv_objects w1) ∧ sv_builds w2 = sv_builds w1 ∧
      earlier w1 w2 ∧ elapsed w2 w';
  DeleteBuild_shared opts c w o w' : kc_DeleteBuild opts c w = (o, w') →
    (is_Ok o = false ∧ elapsed w w') ∨
    ∃ w1 w2, elapsed w w1 ∧ sv_objects w2 = sv_objects w1 ∧
      deleted opts (cib_key c) (sv_builds w1) (sv_builds w2) ∧ earlier w1 w2 ∧ elapsed w2 w';
}.

(** A server that carries out the deletions it can: the build is there, whatever
    others do, and the preconditions hold for it. *)
Class SharedDeletes (W : Type) {KC : KubeClient W} {SV : SharedServer W} := {
  DeleteBuild_answers opts c w :
    (∀ v, elapsed w v → ∃ b, sv_builds v !! cib_key c = Some b ∧ admits opts b = true) →
    ∃ w', kc_DeleteBuild opts c w = (Ok tt, w');
}.

Section writes.
Context {W : Type} {KC : KubeClient W} {SV : SharedServer W}.

(** The writes of one operation among those of others: it creates only objects
    that satisfy [C] in the state they are added to, where their names are free,
    and deletes only builds whose name satisfies [D] in the state they are
    deleted from. *)
Inductive own_writes (C : object → W → Prop) (D : NamespacedName → W → Prop) : relation W :=
| writes_others w w' : elapsed w w' → own_writes C D w w'
| writes_create x w w1 w2 w' :
    elapsed w w1 → C x w1 → sv_objects w1 !! obj_key x = None →
    sv_objects w2 = <[obj_key x := x]> (sv_objects w1) → sv_builds w2 = sv_builds w1 →
    earlier w1 w2 → own_writes C D w2 w' → own_writes C D w w'
| writes_delete k w w1 w2 w' :
    elapsed w w1 → D k w1 → sv_objects w2 = sv_objects w1 →
    deleted_from k (sv_builds w1) (sv_builds w2) →
    earlier w1 w2 → own_writes C D w2 w' → own_writes C D w w'.

Lemma own_writes_elapsed_l C D w1 w2 w3 :
  elapsed w1 w2 → own_writes C D w2 w3 → own_writes C D w1 w3.
Proof.
  intros H12 Hw. revert H12.
  destruct Hw as [w w' H|x w wa wb w' H HC H1 H2 H3 H4 H5|k w wa wb w' H HD H1 H2 H3 H4]; intros H12.
  - apply writes_others. etrans; [exact H12|exact H].
  - eapply writes_create; [etrans; [exact H12|exact H]|done..].
  - eapply writes_delete; [etrans; [exact H12|exact H]|done..].
Qed.

#[export] Instance own_writes_preorder C D : PreOrder (own_writes C D).
Proof.
  split; [intros w; by apply writes_others|].
  intros w1 w2 w3 H. revert w3. induction H as [w w' H|x w wa wb w' H HC H1 H2 H3 H4 _ IH
                                               |k w wa wb w' H HD H1 H2 H3 _ IH]; intros w3 Hw.
  - by eapply own_writes_elapsed_l.
  - eapply writes_create; [done..|by apply IH].
  - eapply writes_delete; [done..|by apply IH].
Qed.

Lemma own_writes_earlier C D w w' : own_writes C D w w' → earlier w w'.
Proof.
  induction 1 as [w w' H|x w wa wb w' H _ _ _ _ He _ IH|k w wa wb w' H _ _ _ He _ IH];
    [by apply elapsed_earlier|..];
    (etrans; [apply elapsed_earlier, H|]; etrans; [exact He|exact IH]).
Qed.

(** What holds for a write in the state it is made in, with the states the
    operation has been through behind it. *)
Lemma own_writes_impl (C C' : object → W → Prop) (D D' : NamespacedName → W → Prop) w w' :
  (∀ x v, earlier w v → C x v → C' x v) → (∀ k v, earlier w v → D k v → D' k v) →
  own_writes C D w w' → own_writes C' D' w w'.
Proof.
  intros HC HD H. revert HC HD.
  induction H as [w w' H|x w wa wb w' H Hx H1 H2 H3 H4 _ IH|k w wa wb w' H Hk H1 H2 H3 _ IH];
    intros HC HD; [by apply writes_others|..].
  - pose proof (elapsed_earlier _ _ H) as He. assert (earlier w wb) as Hb by (etrans; [exact He|done]).
    eapply writes_create; [done|by apply HC|done..|].
    apply IH; intros; [apply HC|apply HD]; try done; (etrans; [exact Hb|done]).
  - pose proof (elapsed_earlier _ _ H) as He. assert (earlier w wb) as Hb by (etrans; [exact He|done]).
    eapply writes_delete; [done|by apply HD|done..|].
    apply IH; intros; [apply HC|apply HD]; try done; (etrans; [exact Hb|done]).
Qed.

Lemma create_writes (C : object → W → Prop) D x w o w' :
  (∀ v, C x v) → kc_Create x w = (o, w') → own_writes C D w w'.
Proof.
  intros HC [[_ H]|(w1 & w2 & H1 & H2 & H3 & H4 & H5 & H6)]%Create_shared; [by apply writes_others|].
  eapply writes_create; [done|apply HC|done..|by apply writes_others].
Qed.

Lemma delete_writes C (D : NamespacedName → W → Prop) opts c w o w' :
  (∀ v, earlier w v → D (cib_key c) v) → kc_DeleteBuild opts c w = (o, w') → own_writes C D w w'.
Proof.
  intros HD [[_ H]|(w1 & w2 & H1 & H2 & [_ H3] & H4 & H5)]%DeleteBuild_shared; [by apply writes_others|].
  eapply writes_delete; [done|by apply HD, elapsed_earlier|done..|by apply writes_others].
Qed.
End writes.

#[export] Hint Resolve writes_others : forge.

(** ** Reconciliations *)

Section reconciliations.
Context {W : Type} {KC : KubeClient W} {SV : SharedServer W}.
Context (RetrieveAuthorization : string → M W (option AuthConfig)).
Context (ParseQuantity : string → outcome Quantity).
Context (getenv : string → string).
(** Asking a cloud provider for a token does not write to the cluster. *)
Hypothesis RetrieveAuthorization_shared : ∀ s, always elapsed (RetrieveAuthorization s).
Implicit Types (r : Reconciler W) (cib : ContainerImageBuild).

Definition no_deletion (k : NamespacedName) (w : W) : Prop := False.

(** The objects of [cib] a controller configured with [jc] creates. *)
Definition object_of_build (jc : BuildJobConfig) cib (x : object) (w : W) : Prop :=
  ∃ auths obj, obj ∈ desired ParseQuantity getenv jc cib auths ∧ x = owned cib obj.

Lemma withOwnedResource_writes jc cib auths obj r o r' :
  obj ∈ desired ParseQuantity getenv jc cib auths →
  withOwnedResource cib obj r = (o, r') →
  own_writes (object_of_build jc cib) no_deletion (r_world r) (r_world r') ∧
  r_JobConfig r' = r_JobConfig r.
Proof.
  intros Hobj. pose proof (desired_fresh ParseQuantity getenv jc cib auths) as Hf.
  rewrite Forall_forall in Hf. rewrite withOwnedResource_run by (by apply Hf).
  destruct (kc_Get _ _) as [g w] eqn:Hg. apply Get_shared in Hg.
  destruct g as [x|e|m]; [by intros [= <- <-]; eauto with forge| |by intros [= <- <-]; eauto with forge].
  destruct (IsNotFound e); [|by intros [= <- <-]; eauto with forge].
  destruct (kc_Create _ w) as [o1 w1] eqn:Hc. intros [= <- <-]. split; [|done].
  eapply own_writes_elapsed_l; [exact Hg|]. eapply create_writes; [|exact Hc].
  intros v. by exists auths, obj.
Qed.

(** The objects of [cib] are created, and the configuration stays [jc]. *)
Definition creating (jc : BuildJobConfig) cib r r' : Prop :=
  r_JobConfig r = jc →
  own_writes (object_of_build jc cib) no_deletion (r_world r) (r_world r') ∧ r_JobConfig r' = jc.

#[local] Instance creating_preorder jc cib : PreOrder (creating jc cib).
Proof.
  split; [by intros r ?|]. intros r1 r2 r3 H1 H2 Hj.
  destruct (H1 Hj) as [Hw1 Hj1], (H2 Hj1) as [Hw2 Hj2]. split; [etrans; [exact Hw1|exact Hw2]|done].
Qed.

Lemma withOwnedResource_creating jc cib obj :
  obj ∈ desired ParseQuantity getenv jc cib ∅ → always (creating jc cib) (withOwnedResource cib obj).
Proof.
  intros Hin r o r' H Hj. apply (withOwnedResource_writes jc cib ∅) in H as [Hw E]; [|done].
  split; [done|congruence].
Qed.

Lemma dynamic_auths_writes regs auths r o r' :
  dynamic_auths RetrieveAuthorization regs auths r = (o, r') →
  elapsed (r_world r) (r_world r') ∧ r_JobConfig r' = r_JobConfig r.
Proof.
  revert auths r. induction regs as [|reg regs IH]; intros auths r; simpl; [by intros [= _ <-]|].
  destruct (reg_DynamicCloudCredentials reg); simpl; [|apply IH].
  intros [(ac & r1 & H1 & H2)|[(e & H1 & _)|(m & H1 & _)]]%bind_inv;
    apply kube_inv in H1 as (w' & H1 & ->); apply RetrieveAuthorization_shared in H1; [|done..].
  destruct ac as [ac|]; [|by injection H2 as _ <-].
  apply IH in H2 as [H2 H3]. split; [etrans; [exact H1|exact H2]|done].
Qed.

Lemma prerequisites_desired jc cib auths obj :
  obj ∈ prerequisites jc cib auths → obj ∈ desired ParseQuantity getenv jc cib auths.
Proof. intros H. apply elem_of_app. by left. Qed.

Lemma first_prerequisites_writes jc cib :
  always (creating jc cib)
    (do! (do! checkServiceAccount cib in checkRole cib) in checkRoleBinding cib).
Proof.
  apply (always_bind (creating jc cib)); [apply (always_bind (creating jc cib))|].
  { apply withOwnedResource_creating, prerequisites_desired. by left. }
  - intros _ r o r' H Hj. unfold checkRole, bind, get in H. rewrite Hj in H. revert Hj.
    eapply withOwnedResource_creating; [|exact H]. apply prerequisites_desired. right. by left.
  - intros _. apply withOwnedResource_creating, prerequisites_desired. right. right. by left.
Qed.

(** The configuration after the secret is the one a job of the build is made
    with. *)
Lemma checkCloudRegistrySecrets_writes cib r o r' :
  checkCloudRegistrySecrets RetrieveAuthorization cib r = (o, r') →
  own_writes (object_of_build (r_JobConfig r) cib) no_deletion (r_world r) (r_world r') ∧
  (is_Ok o = true → ∃ auths, r_JobConfig r' = with_credentials cib auths (r_JobConfig r)).
Proof.
  unfold checkCloudRegistrySecrets, with_credentials.
  intros [(auths & r1 & H1 & H)|[(e & H1 & ->)|(m & H1 & ->)]]%bind_inv;
    apply dynamic_auths_writes in H1 as [H1 J1]; [|by split; [apply writes_others|]..].
  case_bool_decide as He.
  { injection H as <- <-. split; [by apply writes_others|]. intros _. exists auths.
    by rewrite bool_decide_eq_true_2. }
  assert (cloud_secret cib auths ∈ desired ParseQuantity getenv (r_JobConfig r) cib auths) as Hin.
  { apply prerequisites_desired. unfold prerequisites. rewrite bool_decide_eq_false_2 by done.
    set_solver. }
  apply bind_inv in H as [(? & r2 & H2 & H)|[(e & H2 & ->)|(m & H2 & ->)]];
    apply (withOwnedResource_writes _ _ _ _ _ _ _ Hin) in H2 as [Hw J2]; rewrite J1 in J2;
    apply (own_writes_elapsed_l _ _ _ _ _ H1) in Hw; [|done..].
  injection H as <- <-. split; [done|]. intros _. exists auths.
  rewrite bool_decide_eq_false_2 by done. simpl. by rewrite J2.
Qed.

Lemma checkPrerequisites_writes cib r o r' :
  checkPrerequisites RetrieveAuthorization cib r = (o, r') →
  own_writes (object_of_build (r_JobConfig r) cib) no_deletion (r_world r) (r_world r') ∧
  (is_Ok o = true → ∃ auths, r_JobConfig r' = with_credentials cib auths (r_JobConfig r)).
Proof.
  unfold checkPrerequisites. intros H. do 2 rewrite <- bind_assoc in H.
  apply bind_inv in H as [(? & r1 & H1 & H)|[(e & H1 & ->)|(m & H1 & ->)]];
    apply (first_prerequisites_writes (r_JobConfig r)) in H1; destruct (H1 eq_refl) as [Hw J1];
    [|done..].
  apply checkCloudRegistrySecrets_writes in H as [Hw2 J2]. rewrite J1 in Hw2, J2.
  split; [etrans; [exact Hw|exact Hw2]|done].
Qed.

Lemma createJobForBuild_writes jc auths cib r o r' :
  r_JobConfig r = with_credentials cib auths jc →
  createJobForBuild ParseQuantity getenv cib r = (o, r') →
  own_writes (object_of_build jc cib) no_deletion (r_world r) (r_world r').
Proof.
  intros Hj. unfold createJobForBuild, deferred.
  destruct (bind get _ r) as [o1 r1] eqn:H. intros [= <- <-]. cbn [reset_dynamic r_world set_JobConfig].
  unfold bind, get, lift_outcome in H. rewrite Hj in H.
  change (job_object ParseQuantity getenv (with_credentials cib auths jc) cib)
    with (job_for ParseQuantity getenv jc cib auths) in H.
  destruct (job_for _ _ _ _ _) as [job|e|m] eqn:E; [|injection H as <- <-; by apply writes_others..].
  assert (job ∈ desired ParseQuantity getenv jc cib auths) as Hin.
  { unfold desired. rewrite E. set_solver. }
  by apply (withOwnedResource_writes _ _ _ _ _ _ _ Hin) in H as [? _].
Qed.

(** C9: What a reconciliation writes, among the writes of everybody else and with
    reads that may be out of date.  It removes nothing and changes nothing that
    exists; every object it creates, it creates under a free name, and it is one
    of the objects of the requested build, as some state before had it, made
    with the configuration of the controller and controlled by the build. *)
Theorem Reconcile_interleaved req r o r' :
  Reconcile RetrieveAuthorization ParseQuantity getenv req r = (o, r') →
  own_writes (λ x w, ∃ w0 cib, earlier w0 w ∧ sv_builds w0 !! req = Some cib ∧
                       object_of_build (r_JobConfig r) cib x w)
    no_deletion (r_world r) (r_world r').
Proof.
  unfold Reconcile. unfold bind at 1, try, kube, zoom.
  destruct (kc_GetBuild req (r_world r)) as [g w] eqn:Hget.
  pose proof (GetBuild_shared _ _ _ _ Hget) as Hw. destruct g as [cib|e|m].
  2: { destruct (IsNotFound e); intros [= <- <-]; by apply writes_others. }
  2: { intros [= <- <-]. by apply writes_others. }
  apply GetBuild_seen in Hget as (w0 & He & Hc). intros H.
  eapply own_writes_elapsed_l; [exact Hw|].
  apply (own_writes_impl (object_of_build (r_JobConfig r) cib) _ no_deletion).
  { intros x v Hv Hx. exists w0, cib. split_and!; [etrans; [exact He|exact Hv]|done..]. }
  { done. }
  destruct (om_DeletionTimestamp _); unfold bind at 1 in H; simpl in H;
    (case_bool_decide; [injection H as <- <-; by apply writes_others|]);
    unfold bind at 1 in H; simpl in H;
    (apply bind_inv in H as [(? & r1 & H1 & H)|[(e & H1 & ->)|(m & H1 & ->)]];
     apply checkPrerequisites_writes in H1 as [Hw1 J1]; cbn [r_world r_JobConfig set_world] in Hw1, J1;
     [|exact Hw1..]; destruct (J1 eq_refl) as [auths J];
     etrans; [exact Hw1|by eapply createJobForBuild_writes]).
Qed.
End reconciliations.

(** ** Collections *)

Section collections.
Context {W : Type} {KC : KubeClient W} {SV : SharedServer W} {SS : SortSlice}.
Context (cap : nat → nat) (ret : Z).
Hypothesis cap_enough : ∀ n, n ≤ cap n.
Hypothesis ret_nonneg : (0 ≤ ret)%Z.
Implicit Types r : Reconciler W.

Definition no_creation (x : object) (w : W) : Prop := False.

(** [k] is the name of a build that was finished in [w0], before [w], with the
    [ret] finished builds [kept] that are not older and are not to be removed. *)
Definition expendable (w0 : W) (kept : list ContainerImageBuild) (k : NamespacedName) (w : W)
    : Prop :=
  earlier w0 w ∧ NoDup (cib_key <$> kept) ∧ Z.of_nat (length kept) = ret ∧ k ∉ cib_key <$> kept ∧
  ∃ c, sv_builds w0 !! k = Some c ∧ finished c = true ∧
    ∀ s, s ∈ kept →
      sv_builds w0 !! cib_key s = Some s ∧ finished s = true ∧ (created c ≤ created s)%Z.

Lemma gc_delete_writes D b r o r' :
  (∀ v, earlier (r_world r) v → D (cib_key b) v) →
  gc_delete b r = (o, r') → own_writes no_creation D (r_world r) (r_world r').
Proof.
  intros HD. unfold gc_delete, try, kube, zoom. unfold bind at 1.
  destruct (kc_DeleteBuild gcDeleteOpt b (r_world r)) as [d w] eqn:Hd.
  apply (delete_writes no_creation D) in Hd; [|done].
  destruct d as [[]|e|m]; intros [= <- <-]; exact Hd.
Qed.

Lemma gc_loop_writes D targets r o r' :
  (∀ b v, b ∈ targets → earlier (r_world r) v → D (cib_key b) v) →
  for_each gc_delete targets r = (o, r') → own_writes no_creation D (r_world r) (r_world r').
Proof.
  revert r. induction targets as [|b targets IH]; intros r HD; simpl.
  { intros [= <- <-]. by apply writes_others. }
  intros [(? & r1 & H1 & H)|[(e & H1 & ->)|(m & H1 & ->)]]%bind_inv;
    apply (gc_delete_writes D) in H1; try (intros; apply HD; [by left|done]); [|done..].
  etrans; [exact H1|]. apply (IH r1); [|done]. intros b' v Hb Hv. apply HD; [by right|].
  etrans; [by eapply own_writes_earlier|done].
Qed.

(** The targets of a selection from the builds of one state. *)
Lemma selected_expendable w0 items targets kept b :
  items ≡ₚ snd <$> map_to_list (sv_builds w0) →
  targets ++ kept ≡ₚ List.filter finished items →
  Z.of_nat (length kept) = (Z.of_nat (length (List.filter finished items)) `min` ret)%Z →
  (∀ t k, t ∈ targets → k ∈ kept → (created t ≤ created k)%Z) →
  b ∈ targets → ∀ v, earlier w0 v → expendable w0 kept (cib_key b) v.
Proof.
  intros Hitems Hp Hlen Hord Hb v Hv.
  destruct (items_of_store _ _ (sv_keyed w0) Hitems) as [Hnd Hin].
  assert (∀ c, c ∈ targets ++ kept → sv_builds w0 !! cib_key c = Some c ∧ finished c = true) as Hf.
  { intros c. rewrite Hp, list_elem_of_In, filter_In, <- list_elem_of_In, Hin. done. }
  apply NoDup_key_filter in Hnd. rewrite <- Hp, fmap_app, NoDup_app in Hnd.
  destruct Hnd as (_ & Hdis & Hnd). destruct (Hf b) as [Hb1 Hb2]; [set_solver|].
  split_and!; [done..| | |exists b; split_and!; [done..|]].
  - apply Permutation_length in Hp. rewrite length_app in Hp. destruct targets; [set_solver|].
    simpl in Hp. lia.
  - apply Hdis. by apply list_elem_of_fmap_2.
  - intros s Hs. destruct (Hf s) as [? ?]; [set_solver|]. auto.
Qed.

Lemma RunGC_writes r o r' :
  RunGC cap ret r = (o, r') →
  ∃ w0 kept, own_writes no_creation (expendable w0 kept) (r_world r) (r_world r').
Proof.
  unfold RunGC. unfold bind at 1, try, kube, zoom.
  destruct (kc_ListBuilds (r_world r)) as [g w] eqn:Hl.
  pose proof (ListBuilds_shared _ _ _ Hl) as Hw. destruct g as [items|e|m];
    [|intros [= <- <-]; exists w, []; by apply writes_others..].
  case_bool_decide as Hn; [intros [= <- <-]; exists w, []; by apply writes_others|].
  apply ListBuilds_seen in Hl as (w0 & He & Hitems).
  destruct (gc_select_split (cap (length (List.filter finished items))) ret items)
    as (ts & kept & -> & Hp & Hlen & Hord); [done|apply cap_enough|].
  unfold bind at 1; cbn [lift_outcome]. intros H. exists w0, kept.
  eapply own_writes_elapsed_l; [exact Hw|].
  apply (gc_loop_writes (expendable w0 kept)) in H; [exact H|].
  intros b v Hb Hv. eapply selected_expendable; try done. etrans; [exact He|exact Hv].
Qed.

(** C10: What a collection writes, among the writes of everybody else and with a
    listing that may be out of date, for a retention count that is not negative.
    It creates nothing; every build it deletes has the name of one that was
    finished in the state the listing showed, and it spares as many finished
    builds of that state as are to be retained, none of them older than one it
    deletes. *)
Theorem RunGC_interleaved r o r' :
  RunGC cap ret r = (o, r') →
  ∃ w0 kept, own_writes no_creation (expendable w0 kept) (r_world r) (r_world r').
Proof. apply RunGC_writes. Qed.

(** With names that are not used again, a collection deletes finished builds
    only, however it is interleaved.  A build that was finished is finished, or
    gone, in every later state; then the build a collection deletes is finished
    in the very state it is deleted from. *)
Theorem RunGC_removes_finished r o r' :
  (∀ w0 w k c c', earlier w0 w → sv_builds w0 !! k = Some c → finished c = true →
     sv_builds w !! k = Some c' → finished c' = true) →
  RunGC cap ret r = (o, r') →
  own_writes no_creation (λ k w, ∀ c, sv_builds w !! k = Some c → finished c = true)
    (r_world r) (r_world r').
Proof.
  intros Hnames (w0 & kept & H)%RunGC_writes. eapply own_writes_impl; [..|exact H]; [done|].
  intros k v _ (He & _ & _ & _ & c & Hc & Hf & _) c' Hc'. by eapply Hnames.
Qed.

(** [b] took the name of the build [c]: another build, which is not finished. *)
Definition resubmitted_as (c b : ContainerImageBuild) : Prop :=
  cib_key b = cib_key c ∧ cib_UID b ≠ cib_UID c ∧ finished b = false.

(** C35: A collection can delete a build that has not been started.  The listing
    shows the finished build [c], which is selected first, while on the server
    its name belongs to another build [b] that is not finished.  The collection
    asks to delete by name, without the identity of the build it listed: it
    deletes [b]. *)
Theorem RunGC_name_reused {SD : SharedDeletes W} r items w c targets b o r' :
  kc_ListBuilds (r_world r) = (Ok items, w) →
  gc_select (cap (length (List.filter finished items))) ret items = Ok (c :: targets) →
  resubmitted_as c b → (∀ v, elapsed w v → sv_builds v !! cib_key c = Some b) →
  RunGC cap ret r = (o, r') →
  ∃ w1 w2, elapsed w w1 ∧ sv_builds w1 !! cib_key c = Some b ∧
    deleted_from (cib_key c) (sv_builds w1) (sv_builds w2) ∧ earlier w2 (r_world r').
Proof.
  intros Hl Hs _ Hb. unfold RunGC, bind at 1, try, kube, zoom. rewrite Hl.
  case_bool_decide as Hn.
  { destruct items; [|done]. unfold gc_select in Hs. cbn [List.filter length] in Hs.
    destruct (Z.leb_spec (Z.of_nat 0) ret); [discriminate Hs|lia]. }
  unfold bind at 1; cbn [lift_outcome]. rewrite Hs. cbn [for_each].
  destruct (DeleteBuild_answers gcDeleteOpt c w) as [w' Hd]; [intros v Hv; exists b; auto|].
  unfold bind at 1. destruct (gc_delete c _) as [o1 r1] eqn:H1. intros H.
  unfold gc_delete, bind at 1, try, kube, zoom in H1. cbn [r_world set_world] in H1. rewrite Hd in H1.
  injection H1 as <- <-.
  apply (gc_loop_writes (λ _ _, True)) in H; [|done]. apply own_writes_earlier in H. simpl in H.
  apply DeleteBuild_shared in Hd as [[? _]|(w1 & w2 & H1 & _ & [_ H3] & _ & H5)]; [done|].
  exists w1, w2. split_and!; [done|by apply Hb|done|].
  etrans; [apply elapsed_earlier, H5|exact H].
Qed.
End collections.

(** ** A server with a history *)

Module History.
(** What others do before the next write. *)
Inductive edit :=
| Submit (b : ContainerImageBuild)
| Remove (k : NamespacedName).

(** The states of the server, the current one first, each with whether others
    brought it about; what others will do; how far reads are behind. *)
Record history := mkHistory {
  hs_states : list (bool * cluster);
  hs_others : list (list edit);
  hs_lag : nat;
}.

Definition at_head (l : list (bool * cluster)) : cluster :=
  match l with [] => mkCluster ∅ ∅ [] | (_, c) :: _ => c end.
Definition now (h : history) : cluster := at_head (hs_states h).
(** Builds are found under their own names. *)
Definition builds_in (c : cluster) : gmap NamespacedName ContainerImageBuild :=
  filter (λ kc : NamespacedName * ContainerImageBuild, kc.1 = cib_key kc.2) (cl_builds c).

Definition rewound (h : history) : history :=
  mkHistory (drop (hs_lag h) (hs_states h)) (hs_others h) (hs_lag h).

Definition push (mine : bool) (c : cluster) (h : history) : history :=
  mkHistory ((negb mine, c) :: hs_states h) (hs_others h) (hs_lag h).

Definition edit_cluster (e : edit) (c : cluster) : cluster :=
  match e with
  | Submit b => mkCluster (cl_objects c) (<[cib_key b := b]> (cl_builds c)) []
  | Remove k => mkCluster (cl_objects c) (delete k (cl_builds c)) []
  end.

Definition interfere (h : history) : history :=
  match hs_others h with
  | [] => h
  | es :: rest =>
      foldl (λ h e, push false (edit_cluster e (now h)) h)
        (mkHistory (hs_states h) rest (hs_lag h)) es
  end.

Definition added (o : object) (h : history) : history :=
  push true (mkCluster (<[obj_key o := o]> (cl_objects (now h))) (cl_builds (now h)) []) h.
Definition removed (opts : ClientDeleteOptions) (k : NamespacedName) (b : ContainerImageBuild)
    (h : history) : history :=
  push true (mkCluster (cl_objects (now h)) (erase opts k b (now h)) []) h.

#[local] Instance history_client : KubeClient history := {|
  kc_Get k h := (match cl_objects (now h) !! k with
                 | Some o => Ok o
                 | None => Err (not_found (nn_Name k.2))
                 end, h);
  kc_Create o h0 :=
    let h := interfere h0 in
    match cl_objects (now h) !! obj_key o with
    | Some _ => (Err (already_exists (om_Name (obj_meta o))), h)
    | None => (Ok tt, added o h)
    end;
  kc_GetBuild k h := (match builds_in (now (rewound h)) !! k with
                      | Some b => Ok b
                      | None => Err (not_found (nn_Name k))
                      end, h);
  kc_ListBuilds h := (Ok (snd <$> map_to_list (builds_in (now (rewound h)))), h);
  kc_DeleteBuild opts b h0 :=
    let h := interfere h0 in
    match builds_in (now h) !! cib_key b with
    | Some b' => if admits opts b' then (Ok tt, removed opts (cib_key b) b' h)
                 else (Err (conflict (cib_Name b)), h)
    | None => (Err (not_found (cib_Name b)), h)
    end;
|}.

Definition since (h h' : history) : Prop := hs_states h `suffix_of` hs_states h'.
(** Others get their turn any number of times. *)
Definition by_others (h h' : history) : Prop := ∃ n, h' = Nat.iter n interfere h.

#[local] Instance since_preorder : PreOrder since.
Proof. split; [intros h; unfold since; reflexivity|]. intros x y z H1 H2. unfold since in *. etrans; [exact H1|exact H2]. Qed.

#[local] Instance by_others_preorder : PreOrder by_others.
Proof.
  split; [intros h; by exists 0|]. intros x y z [n ->] [m ->]. exists (m + n).
  symmetry. apply Nat.iter_add.
Qed.

Lemma interfere_others h : by_others h (interfere h).
Proof. by exists 1. Qed.

Lemma push_since b c h : since h (push b c h).
Proof. by exists [(negb b, c)]. Qed.

Lemma edits_since es h : since h (foldl (λ h e, push false (edit_cluster e (now h)) h) h es).
Proof.
  revert h. induction es as [|e es IH]; intros h; [done|]. simpl.
  etrans; [apply push_since|apply IH].
Qed.

Lemma interfere_since h : since h (interfere h).
Proof.
  unfold interfere. destruct (hs_others h) as [|es rest]; [done|].
  exact (edits_since es (mkHistory (hs_states h) rest (hs_lag h))).
Qed.

Lemma by_others_since h h' : by_others h h' → since h h'.
Proof.
  intros [n ->]. induction n as [|n IH]; [done|]. simpl. etrans; [exact IH|apply interfere_since].
Qed.

(** Nobody else is going to write. *)
Lemma by_others_none h h' : hs_others h = [] → by_others h h' → h' = h.
Proof.
  intros E [n ->]. induction n as [|n IH]; [done|]. simpl. rewrite IH. unfold interfere. by rewrite E.
Qed.

Lemma builds_in_keyed c : well_keyed (builds_in c).
Proof. by intros k b [_ H]%map_lookup_filter_Some. Qed.

Lemma builds_in_erase opts k b c :
  builds_in c !! k = Some b → admits opts b = true →
  deleted opts k (builds_in c) (builds_in (mkCluster (cl_objects c) (erase opts k b c) [])).
Proof.
  intros Hb Ha. split; [by exists b|]. apply map_lookup_filter_Some in Hb as [Hb Hk]. simpl in Hk.
  destruct (erase_deleted opts k b c Hb Ha) as [_ [He Hother]]. split.
  - destruct He as [E|(b' & t & v & Hb' & E)].
    + left. apply map_lookup_filter_None. by left.
    + right. rewrite Hb in Hb'. injection Hb' as <-. exists b, t, v.
      by split; apply map_lookup_filter_Some.
  - intros k' Hne. apply option_eq. intros x.
    unfold builds_in. rewrite !map_lookup_filter_Some. simpl. by rewrite Hother.
Qed.

#[local] Instance history_server : SharedServer history.
Proof.
  refine {| sv_objects h := cl_objects (now h); sv_builds h := builds_in (now h);
            elapsed := by_others; earlier := since |}.
  - intros h. apply builds_in_keyed.
  - apply by_others_since.
  - by intros k h o h' [= _ <-].
  - by intros k h o h' [= _ <-].
  - intros k h c h' [= E <-]. exists (rewound h). split; [apply suffix_drop|].
    by destruct (builds_in _ !! k); simplify_eq.
  - by intros h o h' [= _ <-].
  - intros h l h' [= <- <-]. exists (rewound h). split; [apply suffix_drop|done].
  - intros x h o h'. simpl. destruct (cl_objects _ !! _) eqn:E; intros [= <- <-].
    + left. split; [done|apply interfere_others].
    + right. exists (interfere h), (added x (interfere h)).
      split_and!; [apply interfere_others|done|reflexivity..|apply push_since|reflexivity].
  - intros opts c h o h'. simpl. destruct (builds_in _ !! _) as [b|] eqn:E;
      [destruct (admits opts b) eqn:Ha|]; intros [= <- <-]; [|left; split; [done|apply interfere_others]..].
    right. exists (interfere h), (removed opts (cib_key c) b (interfere h)).
    split_and!; [apply interfere_others|done|by apply builds_in_erase|apply push_since|reflexivity].
Defined.

#[local] Instance history_deletes : SharedDeletes history.
Proof.
  constructor. intros opts c h H. destruct (H _ (interfere_others h)) as (b & Hb & Ha).
  simpl in *. rewrite Hb, Ha. by eexists.
Qed.

Definition started (builds : list ContainerImageBuild) (others : list (list edit)) (lag : nat)
    : Reconciler history :=
  mkReconciler Sample.jobConfig
    (mkHistory [(true, Sample.server builds [])] others lag) [] ∅ ∅.

(** Two finished builds, of which the collection retains one.  Before it deletes
    the older one, a user has removed it and submitted a new one of its name. *)
Definition oldest : ContainerImageBuild := Sample.build "a" BuildStateCompleted 1.
Definition resubmitted : ContainerImageBuild :=
  mkBuild (mkObjectMeta "a" "ns" "a-2" "" "" None ∅ [] 9 None) Sample.spec
    (mkStatus "" "" [] 0 "" None None).
Definition contended : Reconciler history :=
  started [oldest; Sample.build "b" BuildStateCompleted 2]
    [[Remove (mkKey "ns" "a"); Submit resubmitted]] 0.

(** The same when the collection lists from a cache that is one state behind. *)
Definition behind : Reconciler history :=
  mkReconciler Sample.jobConfig
    (mkHistory [(true, Sample.server [resubmitted; Sample.build "b" BuildStateCompleted 2] []);
                (true, Sample.server [oldest; Sample.build "b" BuildStateCompleted 2] [])] [] 1) [] ∅ ∅.

Lemma RunGC_name_reused_witness :
  ∃ w1 w2 : history, elapsed (r_world behind) w1 ∧
    sv_builds w1 !! mkKey "ns" "a" = Some resubmitted ∧
    deleted_from (mkKey "ns" "a") (sv_builds w1) (sv_builds w2) ∧
    earlier w2 (r_world (RunGC GcSample.grow 1 behind).2).
Proof.
  eapply (RunGC_name_reused (SV:=history_server) (SD:=history_deletes) GcSample.grow 1
            ltac:(lia) behind _ (r_world behind) oldest [] resubmitted (Ok tt) (RunGC GcSample.grow 1 behind).2).
  - reflexivity.
  - vm_compute. reflexivity.
  - split_and!; vm_compute; [reflexivity|discriminate|reflexivity].
  - intros v Hv. rewrite (by_others_none (r_world behind) v eq_refl Hv). vm_compute. reflexivity.
  - apply run_split. vm_compute. reflexivity.
Defined.

Lemma RunGC_interleaved_witness :
  ∃ w0 kept, own_writes (W:=history) no_creation (expendable 1 w0 kept) (r_world contended)
               (r_world (RunGC GcSample.grow 1 contended).2).
Proof.
  apply (RunGC_interleaved (SV:=history_server) GcSample.grow 1 (λ n, Nat.le_add_l n n) ltac:(lia) contended (Ok tt)).
  apply run_split. vm_compute. reflexivity.
Defined.

(** A reconciliation that reads one state back, while the build is removed. *)
Definition stale : Reconciler history :=
  mkReconciler Sample.jobConfig
    (mkHistory [(true, mkCluster ∅ ∅ []); (true, Sample.server [Sample.build "a" "" 1] [])] [] 1)
    [] ∅ ∅.
Definition authorized (s : string) : M history (option AuthConfig) :=
  ret (Some (basic_auth "AWS" "token")).

Lemma Reconcile_interleaved_witness :
  own_writes (W:=history)
    (λ x w, ∃ w0 cib, earlier w0 w ∧ sv_builds w0 !! mkKey "ns" "a" = Some cib ∧
       object_of_build Sample.ParseQuantity Sample.getenv Sample.jobConfig cib x w)
    no_deletion (r_world stale)
    (r_world (Reconcile authorized Sample.ParseQuantity Sample.getenv (mkKey "ns" "a") stale).2).
Proof.
  apply (Reconcile_interleaved (SV:=history_server) authorized Sample.ParseQuantity Sample.getenv
           (λ s, always_ret by_others _) (mkKey "ns" "a") stale (Ok tt)).
  apply run_split. vm_compute. reflexivity.
Defined.

(** A server nobody else uses. *)
Record quiet := mkQuiet { q_cluster : cluster }.
Definition q_builds (q : quiet) : gmap NamespacedName ContainerImageBuild :=
  builds_in (q_cluster q).
Definition q_removed (k : NamespacedName) (q : quiet) : quiet :=
  mkQuiet (mkCluster (cl_objects (q_cluster q)) (delete k (cl_builds (q_cluster q))) []).

#[local] Instance quiet_client : KubeClient quiet := {|
  kc_Get k q := (Err (New "not used"), q);
  kc_Create o q := (Err (New "not used"), q);
  kc_GetBuild k q := (Err (New "not used"), q);
  kc_ListBuilds q := (Ok (snd <$> map_to_list (q_builds q)), q);
  kc_DeleteBuild opts b q :=
    match q_builds q !! cib_key b with
    | Some b' => if admits opts b' then (Ok tt, q_removed (cib_key b) q)
                 else (Err (conflict (cib_Name b)), q)
    | None => (Err (not_found (cib_Name b)), q)
    end;
|}.

Definition shrinks (q q' : quiet) : Prop := q_builds q' ⊆ q_builds q.
#[local] Instance shrinks_preorder : PreOrder shrinks.
Proof.
  split; [intros q; unfold shrinks; reflexivity|]. intros x y z H1 H2.
  unfold shrinks in *. etrans; [exact H2|exact H1].
Qed.

#[local] Instance quiet_server : SharedServer quiet.
Proof.
  refine {| sv_objects q := cl_objects (q_cluster q); sv_builds := q_builds; elapsed := eq;
            earlier := shrinks |}.
  - intros q. apply builds_in_keyed.
  - by intros q q' <-.
  - by intros k q o q' [= _ <-].
  - by intros k q o q' [= _ <-].
  - done.
  - by intros q o q' [= _ <-].
  - intros q l q' [= <- <-]. by exists q.
  - intros x q o q' [= <- <-]. by left.
  - intros opts c q o q'. simpl. destruct (q_builds q !! _) as [b|] eqn:Hb;
      [destruct (admits opts b) eqn:Ha|]; intros [= <- <-]; [|by left..].
    right. exists q, (q_removed (cib_key c) q).
    assert (q_builds (q_removed (cib_key c) q) = delete (cib_key c) (q_builds q)) as E
      by (unfold q_builds, builds_in; simpl; by rewrite map_filter_delete).
    split_and!; [done..| |unfold shrinks; rewrite E; apply delete_subseteq|done].
    split; [by exists b|]. rewrite E. split; [left; apply lookup_delete_eq|].
    intros k' Hne. by apply lookup_delete_ne.
Defined.

Definition alone : Reconciler quiet :=
  mkReconciler Sample.jobConfig
    (mkQuiet (Sample.server [oldest; Sample.build "b" BuildStateCompleted 2] [])) [] ∅ ∅.

Lemma RunGC_removes_finished_witness :
  own_writes (W:=quiet) no_creation
    (λ k w, ∀ c, sv_builds w !! k = Some c → finished c = true)
    (r_world alone) (r_world (RunGC GcSample.grow 1 alone).2).
Proof.
  apply (RunGC_removes_finished (SV:=quiet_server) GcSample.grow 1 (λ n, Nat.le_add_l n n) ltac:(lia) alone (Ok tt)).
  - intros w0 w k c c' Hsub Hc Hf Hc'. apply (lookup_weaken _ _ _ _ Hc') in Hsub.
    simpl in Hc, Hsub. congruence.
  - apply run_split. vm_compute. reflexivity.
Defined.
End History.
