(* ===== verification/Manager.v ===== *)
(** * Manager: the controller process

    [cmd/root.go] ([Run], [processAdvancedConfig]) and [controllers/start.go]
    ([StartManager]): the command line becomes the configuration of the
    controller, the providers of the clouds register, and the manager runs
    reconciliations and, on a ticker, collections.  The running manager is a
    transition system over its activities and those of others. *)
From stdpp Require Import gmap strings list.
From Stdlib Require Import ZArith.
From S2P Require Import Prelude Go GoStd Types Config Kube Credentials Resources Controller GarbageCollection Cloud.
#[local] Open Scope forge_scope.

(** ** Configuration *)

(** [ControllerConfig]. *)
Record ControllerConfig := mkControllerConfig {
  cc_Debug : bool;
  cc_Namespace : string;
  cc_MetricsAddr : string;
  cc_EnableLeaderElection : bool;
  cc_GCMaxRetentionCount : Z;
  cc_GCInterval : Z;
  cc_JobConfig : BuildJobConfig;
}.

(** [advancedConfig]. *)
Record advancedConfig := mkAdvancedConfig {
  av_Env : list EnvVar;
  av_Volumes : list Volume;
  av_VolumeMounts : list VolumeMount;
}.

Definition no_advanced : advancedConfig := mkAdvancedConfig [] [] [].

(** The values of the flags of the root command. *)
Record root_flags := mkRootFlags {
  rf_debug : bool;
  rf_namespace : string;
  rf_metricsAddr : string;
  rf_enableLeaderElection : bool;
  rf_gcInterval : Z;
  rf_gcMaxKeepCount : Z;
  rf_buildJobImage : string;
  rf_buildJobImagePullSecret : string;
  rf_buildJobCustomCAConfigMap : string;
  rf_preparerPluginsPath : string;
  rf_buildJobLabels : gmap string string;
  rf_buildJobTolerationKey : string;
  rf_buildJobAnnotations : gmap string string;
  rf_buildJobNodeSelector : gmap string string;
  rf_buildJobPodSecurityPolicy : string;
  rf_buildJobSecurityContextConstraints : string;
  rf_buildJobGrantFullPrivilege : bool;
  rf_enableLayerCaching : bool;
  rf_buildJobIstioSupport : bool;
  rf_buildAdvancedConfigFilename : string;
  rf_messageBroker : string;
  rf_amqpURI : string;
  rf_amqpQueue : string;
}.

(** The configuration [Run] builds. *)
Definition controller_config (fl : root_flags) (brokerOpts : option Options)
    (advCfg : advancedConfig) : ControllerConfig :=
  mkControllerConfig (rf_debug fl) (rf_namespace fl) (rf_metricsAddr fl)
    (rf_enableLeaderElection fl) (rf_gcMaxKeepCount fl) (rf_gcInterval fl)
    (mkBuildJobConfig (rf_buildJobImage fl) (rf_buildJobImagePullSecret fl)
       (rf_buildJobCustomCAConfigMap fl) (rf_preparerPluginsPath fl) (rf_buildJobLabels fl)
       (rf_buildJobAnnotations fl) (rf_buildJobNodeSelector fl) (rf_buildJobTolerationKey fl)
       (rf_buildJobGrantFullPrivilege fl) (rf_enableLayerCaching fl)
       (rf_buildJobPodSecurityPolicy fl) (rf_buildJobSecurityContextConstraints fl) brokerOpts
       (av_Volumes advCfg) (av_VolumeMounts advCfg) (av_Env advCfg) (rf_buildJobIstioSupport fl)
       [] []).

(** ** The host of the manager *)

(** The manager with what it was started with. *)
Record manager := mkManager {
  mg_config : ControllerConfig;
  mg_registry : CloudRegistry;
  mg_collects : bool;
}.

Class ManagerHost (W : Type) := {
  (** the file of the advanced configuration and its strict decoding *)
  mh_ReadFile : string → M W string;
  mh_DecodeAdvanced : string → outcome advancedConfig;
  mh_NewApplication : M W unit;
  mh_ShutdownApplication : W → W;
  (** the configuration of the cluster; without one the process exits *)
  mh_GetConfigOrDie : M W unit;
  mh_NewManager : string → bool → string → string → M W unit;
  mh_Complete : M W unit;
  mh_NewTicker : Z → W → W;
  mh_StopTicker : Z → W → W;
  mh_Start : manager → M W unit;
}.

Section start.
Context {W : Type} {CH : CloudHost W} {MH : ManagerHost W}.

Definition processAdvancedConfig (filename : string) : M W advancedConfig :=
  if bool_decide (filename = "") then ret no_advanced
  else
    let! bs := mh_ReadFile filename in
    lift_outcome (mh_DecodeAdvanced bs).

(** [SetupWithManager]. *)
Definition SetupWithManager : M W unit := mh_Complete.

Definition leaderElectionID : string := "forge-leader-election".

(** The ticker of the collections around [Start]. *)
Definition run_manager (mg : manager) : M W unit :=
  let interval := cc_GCInterval (mg_config mg) in
  if (0 <? interval)%Z then
    do! modify (mh_NewTicker interval) in
    deferred (mh_StopTicker interval) (mh_Start mg)
  else mh_Start mg.

(** [StartManager]; a process that exits runs no deferred call. *)
Definition StartManager (cfg : ControllerConfig) : M W unit :=
  let! registry := register_providers in
  do! mh_NewApplication in
  do! mh_GetConfigOrDie in
  deferred mh_ShutdownApplication
    (do! mh_NewManager (cc_MetricsAddr cfg) (cc_EnableLeaderElection cfg) leaderElectionID
           (cc_Namespace cfg) in
     do! SetupWithManager in
     run_manager (mkManager cfg registry (0 <? cc_GCInterval cfg)%Z)).

(** The root command up to the start of the manager: the broker flags, the
    advanced configuration, and the configuration [Run] builds. *)
Definition root_config (fl : root_flags) : M W ControllerConfig :=
  let broker := processBrokerOpts (rf_messageBroker fl) (rf_amqpURI fl) (rf_amqpQueue fl) in
  do! lift_outcome (of_err broker.2) in
  let! advCfg := processAdvancedConfig (rf_buildAdvancedConfigFilename fl) in
  ret (controller_config fl broker.1 advCfg).

(** The root command; an error ends the process with status 1. *)
Definition execute_root (fl : root_flags) : M W unit :=
  let! cfg := root_config fl in StartManager cfg.
End start.

(** ** What a start leaves running *)

Inductive background := Telemetry | Ticker (interval : Z).
#[export] Instance background_eq : EqDecision background.
Proof. solve_decision. Defined.
#[export] Instance background_countable : Countable background.
Proof.
  refine (inj_countable' (λ b, match b with Telemetry => None | Ticker d => Some d end)
            (λ o, match o with None => Telemetry | Some d => Ticker d end) _). by intros [].
Defined.

Class ManagerLive (W : Type) {CH : CloudHost W} {MH : ManagerHost W} := {
  running : W → gset background;
  register_running : always (λ w w', running w' = running w) register_providers;
  NewApplication_running w o w' : mh_NewApplication w = (o, w') →
    match o with
    | Ok _ => Telemetry ∉ running w ∧ running w' = {[Telemetry]} ∪ running w
    | _ => running w' = running w
    end;
  ShutdownApplication_running w :
    running (mh_ShutdownApplication w) = running w ∖ {[Telemetry]};
  GetConfigOrDie_running : always (λ w w', running w' = running w) mh_GetConfigOrDie;
  NewManager_running a l i n : always (λ w w', running w' = running w) (mh_NewManager a l i n);
  Complete_running : always (λ w w', running w' = running w) mh_Complete;
  NewTicker_running d w : running (mh_NewTicker d w) = {[Ticker d]} ∪ running w;
  StopTicker_running d w : running (mh_StopTicker d w) = running w ∖ {[Ticker d]};
  Start_running mg : always (λ w w', running w' = running w) (mh_Start mg);
}.

Section live.
Context {W : Type} {CH : CloudHost W} {MH : ManagerHost W} {ML : ManagerLive W}.

(** No ticker runs before, and the same things run after. *)
Definition undone (w w' : W) : Prop := running w ⊆ {[Telemetry]} → running w' = running w.

#[local] Instance undone_preorder : PreOrder undone.
Proof.
  split; [by intros w _|]. intros x y z H1 H2 H. pose proof (H1 H) as E.
  rewrite H2; rewrite E; done.
Qed.

Lemma kept_undone {A} (c : M W A) : always (λ w w', running w' = running w) c → always undone c.
Proof. intros Hc w o w' H _. by eapply Hc. Qed.
#[local] Hint Resolve kept_undone register_running GetConfigOrDie_running NewManager_running
  Complete_running Start_running : forge.

Lemma ticker_undone (X : gset background) d :
  X ⊆ {[Telemetry]} → ({[Ticker d]} ∪ X) ∖ {[Ticker d]} = X.
Proof. set_solver. Qed.

Lemma run_manager_undone mg : always undone (run_manager mg).
Proof.
  unfold run_manager. destruct (0 <? _)%Z; [|eauto with forge].
  intros w o w' H Hw. unfold bind, modify, deferred in H. destruct (mh_Start mg _) as [o1 w1] eqn:E.
  injection H as <- <-. apply Start_running in E. rewrite NewTicker_running in E.
  rewrite StopTicker_running, E. by apply ticker_undone.
Qed.
#[local] Hint Resolve run_manager_undone : forge.

(** A manager that returns, with or without an error or with a panic, has
    stopped its ticker and shut the telemetry down; only a process that exits
    for want of a cluster configuration leaves the telemetry as it is. *)
Theorem StartManager_stops cfg w o w' :
  running w = ∅ → StartManager cfg w = (o, w') →
  running w' = ∅ ∨
  (is_Ok o = false ∧ running w' = {[Telemetry]} ∧ ∃ w1, (mh_GetConfigOrDie w1).1 = o).
Proof.
  intros Hw. unfold StartManager.
  intros [(reg & w1 & H1 & H)|[(e & H1 & _)|(m & H1 & _)]]%bind_inv;
    apply register_running in H1; rewrite Hw in H1; [|by left..].
  apply bind_inv in H as [([] & w2 & H2 & H)|[(e & H2 & _)|(m & H2 & _)]];
    apply NewApplication_running in H2; [|left; congruence..].
  destruct H2 as [_ H2]. rewrite H1, union_empty_r_L in H2.
  apply bind_inv in H as [([] & w3 & H3 & H)|[(e & H3 & ->)|(m & H3 & ->)]];
    pose proof (GetConfigOrDie_running _ _ _ H3) as E3; simpl in E3; rewrite H2 in E3;
    [left|right; split_and!; [done..|exists w2; by rewrite H3]..].
  unfold deferred in H. destruct (bind _ _ _) as [o4 w4] eqn:E4 in H. injection H as <- <-.
  rewrite ShutdownApplication_running. replace (running w4) with (running w3); [rewrite E3; set_solver|].
  symmetry. assert (always undone
    (do! mh_NewManager (cc_MetricsAddr cfg) (cc_EnableLeaderElection cfg) leaderElectionID
           (cc_Namespace cfg) in
     do! SetupWithManager in
     run_manager (mkManager cfg reg (0 <? cc_GCInterval cfg)%Z))) as Hu by (unfold SetupWithManager; eauto 8 with forge).
  apply (Hu _ _ _ E4). by rewrite E3.
Qed.
End live.

(** ** The running manager *)

Section running.
Context {W : Type} {KC : KubeClient W} {KS : KubeServer W} {FR : FreshReads W} {SS : SortSlice}.
Context {CH : CloudHost W}.
Context {CA : CloudAlways (λ w w' : W, objects_of w' = objects_of w ∧ builds_of w' = builds_of w)}.
Context (ParseQuantity : string → outcome Quantity).
Context (getenv : string → string).
(** What users, build jobs and the other controllers do to the cluster. *)
Context (others : relation W).
Context (mg : manager).

#[local] Notation cfg := (mg_config mg).

(** The reconciler at the start. *)
Definition reconciler (w : W) : Reconciler W := mkReconciler (cc_JobConfig cfg) w [] ∅ ∅.

(** One activity: a reconciliation with any outcome, a collection of the ticker,
    or somebody else. *)
Inductive activity : Reconciler W → Reconciler W → Prop :=
| reconciles req o r r' :
    Reconcile (RetrieveAuthorization (mg_registry mg)) ParseQuantity getenv req r = (o, r') →
    activity r r'
| collects cap o r r' :
    mg_collects mg = true → (∀ n, n ≤ cap n) →
    RunGC cap (cc_GCMaxRetentionCount cfg) r = (o, r') → activity r r'
| interferes r w' : others (r_world r) w' → activity r (set_world w' r).

Definition same_config (r r' : Reconciler W) : Prop := r_JobConfig r' = r_JobConfig r.

#[local] Instance same_config_preorder : PreOrder same_config.
Proof. split; [done|]. intros x y z H1 H2. unfold same_config in *. congruence. Qed.

Lemma kube_config {A} (c : M W A) : always same_config (kube c).
Proof. intros r o r'. unfold kube, zoom. destruct (c (r_world r)). by intros [= <- <-]. Qed.
#[local] Hint Resolve kube_config : forge.

Lemma modify_config f : (∀ r, same_config r (f r)) → always same_config (modify f).
Proof. apply always_modify. Qed.

Lemma RunGC_config cap n : always same_config (RunGC cap n).
Proof.
  unfold RunGC. apply (always_bind same_config); [eauto with forge|].
  intros [e|items]; [by apply modify_config|]. case_bool_decide; [eauto with forge|].
  apply (always_bind same_config); [eauto with forge|]. intros targets.
  apply (always_for_each same_config). intros b. unfold gc_delete.
  apply (always_bind same_config); [eauto with forge|]. intros [e|[]].
  - apply (always_bind same_config); [|intros _; by apply modify_config].
    apply (always_bind same_config); [by apply modify_config|intros _; by apply modify_config].
  - apply (always_bind same_config); [eauto with forge|intros _; by apply modify_config].
Qed.

#[local] Instance cluster_preorder :
  PreOrder (λ w w' : W, objects_of w' = objects_of w ∧ builds_of w' = builds_of w).
Proof. split; [done|]. intros x y z [-> ->] [-> ->]. done. Qed.

Lemma cloud_reads s :
  always (λ w w' : W, objects_of w' = objects_of w ∧ builds_of w' = builds_of w)
         (RetrieveAuthorization (mg_registry mg) s).
Proof. apply RetrieveAuthorization_always; apply _. Qed.

Lemma activity_config r r' : activity r r' → no_dynamic (r_JobConfig r) → r_JobConfig r' = r_JobConfig r.
Proof.
  intros [req o ? ? H|cap o ? ? _ _ H|? w' _] Hn; [|by eapply RunGC_config|done].
  by eapply (Reconcile_keeps_config _ _ _ cloud_reads).
Qed.

(** The configuration of the jobs at the moments between two activities. *)
Lemma running_config w r :
  no_dynamic (cc_JobConfig cfg) → rtc activity (reconciler w) r → r_JobConfig r = cc_JobConfig cfg.
Proof.
  intros Hn. remember (reconciler w) as r0 eqn:E0.
  assert (r_JobConfig r0 = cc_JobConfig cfg) as E by (by rewrite E0). clear E0.
  induction 1 as [|r1 r2 r3 Hs _ IH]; [done|]. apply IH.
  rewrite (activity_config _ _ Hs); [done|by rewrite E].
Qed.

(** C13: In the controller the command line [fl] starts, the configuration of the
    jobs is the one of the flags, the broker options and the advanced
    configuration at every moment between two activities, whatever
    reconciliations and collections ran, with whatever outcomes, and whatever
    others did. *)
Theorem manager_config fl brokerOpts advCfg w r :
  mg_config mg = controller_config fl brokerOpts advCfg → rtc activity (reconciler w) r →
  r_JobConfig r = cc_JobConfig (controller_config fl brokerOpts advCfg).
Proof. intros Hmg Hr. rewrite <- Hmg. apply (running_config w); [by rewrite Hmg|done]. Qed.

(** Others keep the keys of the builds. *)
Hypothesis others_keyed : ∀ w w', others w w' → well_keyed (builds_of w) → well_keyed (builds_of w').

Lemma reconcile_stored req o r r' :
  Reconcile (RetrieveAuthorization (mg_registry mg)) ParseQuantity getenv req r = (o, r') →
  stored r' = stored r.
Proof. intros [H _]%(Reconcile_effect _ _ _ cloud_reads). exact H. Qed.

Hypothesis retention : (0 ≤ cc_GCMaxRetentionCount cfg)%Z.

Lemma activity_keyed r r' : activity r r' → well_keyed (stored r) → well_keyed (stored r').
Proof.
  intros [req o ? ? H|cap o ? ? _ Hcap H|? w' H] Hk.
  - by rewrite (reconcile_stored _ _ _ _ H).
  - by apply (RunGC_removes cap _ Hcap retention) in H as (_ & H & _).
  - by apply (others_keyed _ _ H).
Qed.

(** C40: How a build changes.  In every reachable state of a controller whose
    retention count is not negative and whose reads are up to date, an activity
    after which a build is not what it was is one of somebody else, or a collection
    that is enabled, found the build finished, deleted it, and left as many
    finished builds that are not older as are to be retained. *)
Theorem manager_removals w r r' k c :
  well_keyed (builds_of w) → rtc activity (reconciler w) r → activity r r' →
  stored r !! k = Some c → stored r' !! k ≠ Some c →
  others (r_world r) (r_world r') ∨
  (mg_collects mg = true ∧ finished c = true ∧ erased (Some c) (stored r' !! k) ∧
   ∃ kept, retained (cc_GCMaxRetentionCount cfg) r' c kept).
Proof.
  intros Hw Hr Hs Hc Hgone. assert (well_keyed (stored r)) as Hk.
  { assert (well_keyed (stored (reconciler w))) as H0 by done. revert H0. clear Hs Hc Hgone.
    induction Hr as [|r1 r2 r3 Hs _ IH]; [done|]. intros H0. apply IH. by eapply activity_keyed. }
  destruct Hs as [req o ? ? H|cap o ? ? Hcol Hcap H|? w' H].
  - rewrite (reconcile_stored _ _ _ _ H) in Hgone. congruence.
  - right. apply (RunGC_removes cap _ Hcap retention) in H as (_ & _ & H); [|done].
    destruct (H k) as [E|(c' & E & He & Hf & Hkept)]; [congruence|].
    rewrite Hc in E. injection E as <-. done.
  - by left.
Qed.
End running.

(** ** Concrete runs *)

Module ManagerSample.
Import Controller.Sample.

(** What runs, and whether the process has a cluster configuration. *)
Record process := mkProcess {
  p_running : gset background;
  p_config : bool;
}.

#[local] Instance clouds {W : Type} : CloudHost W := CloudSample.answering [] CloudSample.header.

#[local] Instance process_host : ManagerHost process := {|
  mh_ReadFile f := ret "{}";
  mh_DecodeAdvanced s := Ok no_advanced;
  mh_NewApplication p :=
    if bool_decide (Telemetry ∈ p_running p) then (Err (New "already running"), p)
    else (Ok tt, mkProcess ({[Telemetry]} ∪ p_running p) (p_config p));
  mh_ShutdownApplication p := mkProcess (p_running p ∖ {[Telemetry]}) (p_config p);
  mh_GetConfigOrDie p := (if p_config p then Ok tt else Err (New "exit status 1"), p);
  mh_NewManager a l i n := ret tt;
  mh_Complete := ret tt;
  mh_NewTicker d p := mkProcess ({[Ticker d]} ∪ p_running p) (p_config p);
  mh_StopTicker d p := mkProcess (p_running p ∖ {[Ticker d]}) (p_config p);
  mh_Start mg := ret tt;
|}.

Definition flags : root_flags :=
  mkRootFlags false "default" ":8080" false 1800000000000 1 "forge:1" "" "" "" ∅ "" ∅ ∅ "" "" false
    true false "" "" "" "".
Definition config : ControllerConfig := controller_config flags None no_advanced.

(** A run of the command starts the manager and stops everything. *)
Example execute_root_run :
  execute_root flags (mkProcess ∅ true) = (Ok tt, mkProcess ∅ true).
Proof. vm_compute. reflexivity. Qed.

#[local] Instance process_live : ManagerLive process.
Proof.
  refine {| running := p_running |};
    [intros w o w' [= <- <-]; done| |done|..|done|done|];
    try (intros; by intros w o w' [= <- <-]).
  intros w o w' H. unfold mh_NewApplication in H. simpl in H.
  destruct (bool_decide_reflect (Telemetry ∈ p_running w)); by injection H as <- <-.
Defined.

Lemma StartManager_stops_witness :
  p_running (StartManager config (mkProcess ∅ true)).2 = ∅ ∧
  p_running (StartManager config (mkProcess ∅ false)).2 = {[Telemetry]}.
Proof.
  split.
  - destruct (StartManager_stops (ML:=process_live) config (mkProcess ∅ true) (Ok tt)
                (StartManager config (mkProcess ∅ true)).2 eq_refl
                (run_split _ _ _ ltac:(vm_compute; reflexivity))) as [H|(H & _)]; [exact H|discriminate H].
  - destruct (StartManager_stops (ML:=process_live) config (mkProcess ∅ false) (Err (New "exit status 1"))
                (StartManager config (mkProcess ∅ false)).2 eq_refl
                (run_split _ _ _ ltac:(vm_compute; reflexivity))) as [H|(_ & H & _)]; [|exact H].
    apply (f_equal (λ X, bool_decide (Telemetry ∈ X))) in H. vm_compute in H. discriminate H.
Defined.

Definition mg : manager := mkManager config CloudSample.all true.
Definition same (w w' : cluster) : Prop := objects_of w' = objects_of w ∧ builds_of w' = builds_of w.
Lemma same_preorder : PreOrder same.
Proof. split; [done|]. intros x y z [? ?] [? ?]. split; congruence. Qed.

(** A user submits a build. *)
Definition submits (w w' : cluster) : Prop :=
  ∃ b, builds_of w !! cib_key b = None ∧
       w' = mkCluster (cl_objects w) (<[cib_key b := b]> (cl_builds w)) (cl_faults w).

Lemma submits_keyed w w' : submits w w' → well_keyed (builds_of w) → well_keyed (builds_of w').
Proof.
  intros (b & _ & ->) Hw k c. simpl. destruct (decide (k = cib_key b)) as [->|Hne].
  - rewrite lookup_insert_eq. by intros [= <-].
  - rewrite lookup_insert_ne by done. apply Hw.
Qed.

#[local] Notation acts :=
  (activity (CH:=clouds) ParseQuantity getenv submits mg).
#[local] Notation world0 := (server GcSample.store []).
#[local] Notation reconcile1 :=
  (Reconcile (Cloud.RetrieveAuthorization (CH:=clouds) CloudSample.all) ParseQuantity getenv
     (mkKey "ns" "a")).

(** A reconciliation, a collection. *)
Definition r0 : Reconciler cluster := Manager.reconciler mg world0.
Definition r1 : Reconciler cluster := (reconcile1 r0).2.
Definition r2 : Reconciler cluster := (RunGC GcSample.grow 1 r1).2.

Lemma reached : rtc acts r0 r1.
Proof. apply rtc_once. eapply reconciles. apply run_split. reflexivity. Qed.
Lemma collected : acts r1 r2.
Proof.
  eapply (collects _ _ _ _ GcSample.grow); [reflexivity|intros n; apply Nat.le_add_l|].
  apply run_split. reflexivity.
Qed.

Lemma manager_config_witness : r_JobConfig r2 = cc_JobConfig config.
Proof.
  apply (manager_config (CA:=CloudSample.clouds_always [] CloudSample.header same same_preorder)
           ParseQuantity getenv submits mg flags None no_advanced world0 r2 eq_refl).
  exact (rtc_r _ _ _ reached collected).
Defined.

Lemma manager_removals_witness :
  submits (r_world r1) (r_world r2) ∨
  (mg_collects mg = true ∧ finished (build "a" BuildStateFailed 1) = true ∧
   erased (Some (build "a" BuildStateFailed 1)) (stored r2 !! mkKey "ns" "a") ∧
   ∃ kept, retained 1 r2 (build "a" BuildStateFailed 1) kept).
Proof.
  apply (manager_removals (CA:=CloudSample.clouds_always [] CloudSample.header same same_preorder)
           ParseQuantity getenv submits mg submits_keyed ltac:(vm_compute; discriminate)
           world0 r1 r2 (mkKey "ns" "a") (build "a" BuildStateFailed 1) (GcSample.store_keyed [])
           reached collected); vm_compute; [reflexivity|discriminate].
Defined.
End ManagerSample.
