(* ===== verification/RootCmd.v ===== *)
(** * RootCmd: from the command line to what the process runs

    The flags [cmd/root.go] declares, the commands of [cmd/build.go], [cmd/crd.go]
    and [cmd/version.go], and [Execute]: cobra finds the command, its flags are
    parsed, the broker options are checked, and the process starts the controller,
    runs a build, or does one of the small commands. *)
From stdpp Require Import gmap strings list.
From Stdlib Require Import ZArith Ascii.
From S2P Require Import Prelude Go GoStd Strconv Types Config Kube Resources Filepath Flags Cmd Cloud Controller GarbageCollection Manager.
#[local] Open Scope forge_scope.

(** ** The flags of the root command *)

Definition Minute : Z := (60 * Second)%Z.

(** [init]; [image] is the value the build of the program gave to the variable of
    the image. *)
Definition local_root_flags (image : string) : flagset :=
  [("namespace", StringVar "default");
   ("metrics-addr", StringVar ":8080");
   ("enable-leader-election", BoolVar false);
   ("build-job-image", StringVar image);
   ("build-job-image-pull-secret", StringVar "");
   ("build-job-labels", StringToStringVar);
   ("build-job-annotations", StringToStringVar);
   ("build-job-toleration-key", StringVar "");
   ("build-job-node-selector", StringToStringVar);
   ("build-job-custom-ca", StringVar "");
   ("build-job-pod-security-policy", StringVar "");
   ("build-job-security-context-constraints", StringVar "");
   ("build-job-full-privilege", BoolVar false);
   ("build-job-advanced-config", StringVar "");
   ("build-job-enable-istio-support", BoolVar false);
   ("gc-interval", DurationVar (30 * Minute));
   ("gc-max-keep", IntVar 5)].

(** The flags while the command is searched; help is added when it runs. *)
Definition root_flagset (image : string) (getenv : string → string) : flagset :=
  local_root_flags image ++ persistent_flags getenv.

(** The variables of the flags after parsing. *)
Definition root_values (fs : flagset) : root_flags :=
  mkRootFlags (bool_flag fs "debug") (string_flag fs "namespace") (string_flag fs "metrics-addr")
    (bool_flag fs "enable-leader-election") (duration_flag fs "gc-interval")
    (int_flag fs "gc-max-keep") (string_flag fs "build-job-image")
    (string_flag fs "build-job-image-pull-secret") (string_flag fs "build-job-custom-ca")
    (string_flag fs "preparer-plugins-path") (map_flag fs "build-job-labels")
    (string_flag fs "build-job-toleration-key") (map_flag fs "build-job-annotations")
    (map_flag fs "build-job-node-selector") (string_flag fs "build-job-pod-security-policy")
    (string_flag fs "build-job-security-context-constraints")
    (bool_flag fs "build-job-full-privilege") (bool_flag fs "enable-layer-caching")
    (bool_flag fs "build-job-enable-istio-support") (string_flag fs "build-job-advanced-config")
    (string_flag fs "message-broker") (string_flag fs "amqp-uri") (string_flag fs "amqp-queue").

(** ** Commands *)

(** The commands of the program, and those cobra adds. *)
Inductive command :=
| RootCommand
| BuildCommand
| CrdApplyCommand
| CrdDeleteCommand
| VersionCommand
| CobraCommand (name : string).

(** [findNext] of the root command. *)
Definition findNext (name : string) : option command :=
  if bool_decide (name = "build") then Some BuildCommand
  else if bool_decide (name = "crd-apply") then Some CrdApplyCommand
  else if bool_decide (name = "crd-delete") then Some CrdDeleteCommand
  else if bool_decide (name = "version") then Some VersionCommand
  else if bool_decide (name ∈ ["help"; "completion"; "__complete"; "__completeNoDesc"])
  then Some (CobraCommand name)
  else None.

(** What the process goes on to do. *)
Inductive program :=
| RunsManager (cfg : ControllerConfig)
| RunsBuild (cfg : Config)
| AppliesCrd
| DeletesCrd
| PrintsVersion
| RunsCobra (name : string) (args : list string).

Section dispatch.
Context {W : Type} {MH : ManagerHost W}.
Context (image : string) (getenv : string → string) (namespace_file : error + string).
(** The names cobra finds similar to an unknown one. *)
Context (suggestions : string → string).

(** The flags of a command are parsed; help ends it. *)
Definition command_flags (fs : flagset) (args : list string) : outcome flagset :=
  let? fs := parseArgs (fs ++ [help_flag]) args in
  if bool_flag fs "help" then Err ErrHelp else Ok fs.

(** A command without flags of its own: the broker options are checked all the
    same, since the hook of the root command is persistent. *)
Definition plain_command (p : program) (args : list string) : outcome program :=
  let? fs := command_flags (persistent_flags getenv) args in
  let? _ := of_err (processBrokerOpts (string_flag fs "message-broker")
                      (string_flag fs "amqp-uri") (string_flag fs "amqp-queue")).2 in
  Ok p.

(** The command a command line names, run up to its effects. *)
Definition dispatch (args : list string) : M W program :=
  let! found := lift_outcome
    (Find findNext suggestions RootCommand "forge" (root_flagset image getenv) args) in
  let args := found.2 in
  match found.1 with
  | RootCommand =>
      let! fs := lift_outcome (command_flags (root_flagset image getenv) args) in
      let! cfg := root_config (root_values fs) in
      ret (RunsManager cfg)
  | BuildCommand =>
      let! cfg := lift_outcome (execute_build getenv namespace_file args) in ret (RunsBuild cfg)
  | CrdApplyCommand => lift_outcome (plain_command AppliesCrd args)
  | CrdDeleteCommand => lift_outcome (plain_command DeletesCrd args)
  | VersionCommand => lift_outcome (plain_command PrintsVersion args)
  | CobraCommand name => ret (RunsCobra name args)
  end.

(** ** Exit status *)

Inductive exit_status := Exit (code : nat) | Continues (p : program).

(** [Execute]: help is no error; any other error of the command ends the process
    with status 1. *)
Definition Execute (args : list string) : M W exit_status := λ w,
  match dispatch args w with
  | (Ok p, w') => (Ok (Continues p), w')
  | (Err e, w') => (Ok (Exit (if bool_decide (e = ErrHelp) then 0 else 1)), w')
  | (Panic m, w') => (Panic m, w')
  end.
End dispatch.

(** ** Command lines made of flags *)

(** Settings of flags, as the arguments that carry them. *)
Definition setting_texts (l : list (string * flag_value)) : list (string * string) :=
  (λ nv, (nv.1, value_text nv.2)) <$> l.

Fixpoint setting (l : list (string * flag_value)) (n : string) : option flag_value :=
  match l with
  | [] => None
  | (k, v) :: l' => if bool_decide (k = n) then Some v else setting l' n
  end.

Lemma setting_None l n : n ∉ l.*1 → setting l n = None.
Proof.
  induction l as [|[k v] l IH]; [done|]. rewrite fmap_cons. intros [Hk Hl]%not_elem_of_cons.
  cbn [setting]. cbn [fst] in Hk. rewrite bool_decide_eq_false_2 by done. by apply IH.
Qed.

(** Each of the flags takes the setting. *)
Definition takes (fs : flagset) (nv : string * flag_value) : Prop :=
  from_option (λ f, writable (fl_value f) nv.2) False (lookup_flag fs nv.1).

(** Different flags with values they can hold are all set, and the others stay. *)
Lemma set_flags_settings fs l :
  NoDup l.*1 → Forall (takes fs) l →
  ∃ fs', set_flags fs (setting_texts l) = Ok fs' ∧
    ∀ n, fl_value <$> lookup_flag fs' n =
         match setting l n with Some v => Some v | None => fl_value <$> lookup_flag fs n end.
Proof.
  revert fs. induction l as [|[k v] l IH]; intros fs; [intros _ _; by exists fs|].
  rewrite fmap_cons. intros [Hk Hn]%NoDup_cons [Ht Hl]%Forall_cons. cbn [fst] in Hk.
  unfold setting_texts. rewrite fmap_cons. fold (setting_texts l). cbn [set_flags fst snd].
  unfold takes in Ht. cbn [fst snd] in Ht. unfold set_flag.
  destruct (lookup_flag fs k) as [f|] eqn:Ek; [|done]. cbn [from_option] in Ht.
  rewrite (set_value_text _ _ Ht). cbn [obind].
  destruct (IH (update_flag fs k (mkFlag v (fl_shorthand f) true (fl_required f)))) as (fs' & H1 & H2);
    [done| |].
  { rewrite Forall_forall in *. intros [k' v'] Hin. specialize (Hl _ Hin). unfold takes in *.
    cbn [fst snd] in *. rewrite lookup_update, bool_decide_eq_false_2; [done|]. intros <-. apply Hk.
    apply list_elem_of_fmap. by exists (k, v'). }
  exists fs'. split; [done|]. intros n. rewrite H2, lookup_update. cbn [setting].
  case_bool_decide as E; [subst n|by destruct (setting l n)].
  rewrite setting_None by done. by rewrite Ek.
Qed.

(** The settings that describe the variables; a map without entries is left out. *)
Definition map_setting (n : string) (m : gmap string string) : list (string * flag_value) :=
  if bool_decide (m = ∅) then [] else [(n, StringToStringValue true m)].

Definition root_settings (fl : root_flags) : list (string * flag_value) :=
  [("debug", BoolValue (rf_debug fl));
   ("namespace", StringValue (rf_namespace fl));
   ("metrics-addr", StringValue (rf_metricsAddr fl));
   ("enable-leader-election", BoolValue (rf_enableLeaderElection fl));
   ("gc-interval", DurationValue (rf_gcInterval fl));
   ("gc-max-keep", IntValue (rf_gcMaxKeepCount fl));
   ("build-job-image", StringValue (rf_buildJobImage fl));
   ("build-job-image-pull-secret", StringValue (rf_buildJobImagePullSecret fl));
   ("build-job-custom-ca", StringValue (rf_buildJobCustomCAConfigMap fl));
   ("preparer-plugins-path", StringValue (rf_preparerPluginsPath fl));
   ("build-job-toleration-key", StringValue (rf_buildJobTolerationKey fl));
   ("build-job-pod-security-policy", StringValue (rf_buildJobPodSecurityPolicy fl));
   ("build-job-security-context-constraints", StringValue (rf_buildJobSecurityContextConstraints fl));
   ("build-job-full-privilege", BoolValue (rf_buildJobGrantFullPrivilege fl));
   ("enable-layer-caching", BoolValue (rf_enableLayerCaching fl));
   ("build-job-enable-istio-support", BoolValue (rf_buildJobIstioSupport fl));
   ("build-job-advanced-config", StringValue (rf_buildAdvancedConfigFilename fl));
   ("message-broker", StringValue (rf_messageBroker fl));
   ("amqp-uri", StringValue (rf_amqpURI fl));
   ("amqp-queue", StringValue (rf_amqpQueue fl))]
  ++ map_setting "build-job-labels" (rf_buildJobLabels fl)
  ++ map_setting "build-job-annotations" (rf_buildJobAnnotations fl)
  ++ map_setting "build-job-node-selector" (rf_buildJobNodeSelector fl).

Definition root_arguments (fl : root_flags) : list string :=
  flag_text <$> setting_texts (root_settings fl).

(** What the text of a flag can carry. *)
Definition plain_map (m : gmap string string) : bool := forallb plain_pair (map_to_list m).

Definition expressible (fl : root_flags) : Prop :=
  in_int64 (rf_gcMaxKeepCount fl) = true ∧
  (- max_int64 ≤ rf_gcInterval fl ≤ max_int64)%Z ∧
  plain_map (rf_buildJobLabels fl) = true ∧
  plain_map (rf_buildJobAnnotations fl) = true ∧
  plain_map (rf_buildJobNodeSelector fl) = true.

Lemma takes_value fs n v0 v :
  fl_value <$> lookup_flag fs n = Some v0 → writable v0 v → takes fs (n, v).
Proof.
  unfold takes. cbn [fst snd]. destruct (lookup_flag fs n); [|done].
  cbn [from_option]. by intros [= <-].
Qed.

Lemma takes_map fs n m0 m :
  fl_value <$> lookup_flag fs n = Some (StringToStringValue false m0) → plain_map m = true →
  Forall (takes fs) (map_setting n m).
Proof.
  intros Hn Hm. unfold map_setting. case_bool_decide; [done|]. constructor; [|done].
  by eapply takes_value.
Qed.

Lemma root_settings_names fl : NoDup (root_settings fl).*1.
Proof.
  unfold root_settings, map_setting. rewrite !fmap_app.
  repeat case_bool_decide; apply (bool_decide_unpack _); vm_compute; exact I.
Qed.

Lemma root_settings_taken image getenv fl :
  expressible fl → Forall (takes (root_flagset image getenv ++ [help_flag])) (root_settings fl).
Proof.
  intros (Hi & Hd & Hl & Ha & Hs). unfold root_settings, root_flagset, persistent_flags.
  generalize (filepath_Join [GetStateDir getenv; "plugins"]) as d. intros d.
  repeat apply Forall_app_2; [|eapply takes_map; [reflexivity|done]..].
  repeat (apply Forall_cons; split; [eapply takes_value; [reflexivity|first [exact I|exact Hi|exact Hd]]|]).
  by apply Forall_nil.
Qed.

(** The variables read from flags that hold the settings. *)
Lemma root_values_settings image getenv fl fs :
  (∀ n, fl_value <$> lookup_flag fs n =
        match setting (root_settings fl) n with
        | Some v => Some v
        | None => fl_value <$> lookup_flag (root_flagset image getenv ++ [help_flag]) n
        end) →
  root_values fs = fl ∧ bool_flag fs "help" = false.
Proof.
  intros H. unfold root_values, bool_flag, string_flag, int_flag, duration_flag, map_flag.
  rewrite !H. unfold root_settings, map_setting. 
  destruct fl as [debug ns metrics leader interval keep im secret ca plugins labels toleration
                  annotations selector psp scc privilege caching istio adv broker uri queue].
  cbn [rf_buildJobLabels rf_buildJobAnnotations rf_buildJobNodeSelector].
  repeat case_bool_decide; subst; split; reflexivity.
Qed.

Section root_lines.
Context {W : Type} {MH : ManagerHost W}.
Context (image : string) (getenv : string → string) (namespace_file : error + string).
Context (suggestions : string → string).

#[local] Notation dispatch := (dispatch image getenv namespace_file suggestions).

(** A line of flags with their values is one of the root command. *)
Lemma dispatch_root l w :
  dispatch (flag_text <$> l) w =
  (let! fs := lift_outcome (command_flags (root_flagset image getenv) (flag_text <$> l)) in
   let! cfg := root_config (root_values fs) in
   ret (RunsManager cfg)) w.
Proof. unfold RootCmd.dispatch, Find. by rewrite stripFlags_texts. Qed.

(** C12: Every configuration whose numbers fit and whose map entries need no quoting
    can be written as a command line, and the controller then runs with exactly
    this configuration: the values of all flags, whatever characters the strings
    have, come back from their texts. *)
Theorem root_arguments_roundtrip fl w :
  expressible fl →
  dispatch (root_arguments fl) w = (let! cfg := root_config fl in ret (RunsManager cfg)) w.
Proof.
  intros He. pose proof (root_settings_taken image getenv fl He) as Ht.
  destruct (set_flags_settings _ _ (root_settings_names fl) Ht) as (fs & Hs & Hv).
  destruct (root_values_settings image getenv fl fs Hv) as [Hr Hh].
  unfold root_arguments. rewrite dispatch_root. unfold command_flags.
  erewrite parseArgs_flags; [|..|exact Hs]; cycle 1.
  { unfold setting_texts, root_settings, map_setting. repeat case_bool_decide; reflexivity. }
  cbn [obind]. rewrite Hh. unfold lift_outcome, bind. by rewrite Hr.
Qed.

(** ** Values the parser lets through *)

(** A number of the width of its flag. *)
Definition in_range (v : flag_value) : Prop :=
  match v with
  | IntValue z => in_int64 z = true
  | DurationValue d => (- max_int64 ≤ d ≤ max_int64)%Z
  | _ => True
  end.

Definition ranged (fs : flagset) : Prop := Forall (λ nf, in_range (fl_value nf.2)) fs.

Lemma set_value_range v s v' : set_value v s = Ok v' → in_range v'.
Proof.
  destruct v; cbn [set_value]; unfold set_map.
  - by intros [= <-].
  - destruct (ParseBool s); [|done]. by intros [= <-].
  - destruct (ParseInt s) eqn:E; [|done..]. intros [= <-]. by eapply ParseInt_range.
  - destruct (ParseDuration s) eqn:E; [|done..]. intros [= <-]. by eapply ParseDuration_range.
  - intros H. destruct (match Count s "="%char with 0 => _ | _ => _ end); [|done..]. cbn [obind] in H.
    destruct (flag_pairs ∅ a); [|done..]. by injection H as <-.
Qed.

Lemma update_ranged fs n f : ranged fs → in_range (fl_value f) → ranged (update_flag fs n f).
Proof.
  unfold ranged. induction 1 as [|[k g] fs Hg Hfs IH]; intros Hf; [done|]. cbn [update_flag].
  case_bool_decide; constructor; auto.
Qed.

Lemma set_flag_ranged fs n s fs' : ranged fs → set_flag fs n s = Ok fs' → ranged fs'.
Proof.
  unfold set_flag. intros Hfs. destruct (lookup_flag fs n); [|done].
  destruct (set_value _ s) eqn:E; [|done..]. intros [= <-]. apply update_ranged; [done|].
  by eapply set_value_range.
Qed.

Lemma parseShortArg_ranged fuel fs sh args a r :
  ranged fs → parseShortArg fuel fs sh args a = Ok r → ranged r.1.
Proof.
  revert fs sh a. induction fuel as [|fuel IH]; intros fs sh a Hfs; [by intros [= <-]|].
  destruct sh as [|c sh]; [by intros [= <-]|]. cbn [parseShortArg].
  destruct (parseSingleShortArg fs c sh args) as [[[fs' sh'] a']| |] eqn:E; [|done..]. cbn [obind].
  apply IH. revert E. unfold parseSingleShortArg, obind.
  repeat (case_match; try done); intros [= <- _ _]; try done; by eapply set_flag_ranged.
Qed.

Lemma parse_args_ranged fuel fs args fs' : ranged fs → parse_args fuel fs args = Ok fs' → ranged fs'.
Proof.
  revert fs args. induction fuel as [|fuel IH]; intros fs [|s rest] Hfs; try by intros [= <-].
  cbn [parse_args]. case_match; [by apply IH|]. case_match.
  - case_match; [by intros [= <-]|].
    destruct (parseLongArg fs s) as [[n [v|]]| |]; [| |done..]; cbn [obind fst snd].
    + destruct (set_flag fs n v) eqn:E; [|done..]. apply IH. by eapply set_flag_ranged.
    + destruct rest as [|v rest]; [done|]. destruct (set_flag fs n v) eqn:E; [|done..].
      apply IH. by eapply set_flag_ranged.
  - destruct (parseShortArg _ _ _ _ _) as [r| |] eqn:E; [|done..]. apply IH.
    by eapply parseShortArg_ranged.
Qed.

Lemma lookup_ranged fs n f : ranged fs → lookup_flag fs n = Some f → in_range (fl_value f).
Proof.
  induction 1 as [|[k g] fs Hg Hfs IH]; [done|]. cbn [lookup_flag].
  case_bool_decide; [by intros [= <-]|done].
Qed.

(** A configuration the program can run with. *)
Definition valid_config (cfg : ControllerConfig) : Prop :=
  in_int64 (cc_GCMaxRetentionCount cfg) = true ∧
  (- max_int64 ≤ cc_GCInterval cfg ≤ max_int64)%Z ∧
  from_option (λ opts, ValidateOpts opts = None) True (jc_BrokerOpts (cc_JobConfig cfg)).

Lemma root_values_ranged fs :
  ranged fs → in_int64 (rf_gcMaxKeepCount (root_values fs)) = true ∧
  (- max_int64 ≤ rf_gcInterval (root_values fs) ≤ max_int64)%Z.
Proof.
  intros H. cbn [root_values rf_gcMaxKeepCount rf_gcInterval]. unfold int_flag, duration_flag. split.
  - destruct (lookup_flag fs "gc-max-keep") as [f|] eqn:E; [|done].
    apply lookup_ranged in E; [|done]. simpl. by destruct (fl_value f).
  - destruct (lookup_flag fs "gc-interval") as [f|] eqn:E; [|done].
    apply lookup_ranged in E; [|done]. simpl. by destruct (fl_value f).
Qed.

Lemma root_config_valid fl w cfg w' :
  in_int64 (rf_gcMaxKeepCount fl) = true → (- max_int64 ≤ rf_gcInterval fl ≤ max_int64)%Z →
  root_config fl w = (Ok cfg, w') → valid_config cfg.
Proof.
  intros H1 H2. unfold root_config, processBrokerOpts.
  intros ([] & w1 & Hb & (adv & w2 & _ & [= <- <-])%bind_Ok_inv)%bind_Ok_inv.
  split; [exact H1|split; [exact H2|]].
  cbn [cc_JobConfig controller_config jc_BrokerOpts]. injection Hb as Hb _. revert Hb. case_bool_decide; [done|].
  unfold of_err. cbn [fst snd from_option]. by destruct (ValidateOpts _).
Qed.

Lemma command_flags_ranged fs args fs' :
  ranged (fs ++ [help_flag]) → command_flags fs args = Ok fs' → ranged fs'.
Proof.
  unfold command_flags, parseArgs. intros H. destruct (parse_args _ _ _) eqn:E; [|done..]. cbn [obind].
  case_match; [done|]. intros [= <-]. by eapply parse_args_ranged.
Qed.

(** What the root command gives the manager. *)
Lemma dispatch_config args w cfg w' :
  dispatch args w = (Ok (RunsManager cfg), w') → valid_config cfg ∧ no_dynamic (cc_JobConfig cfg).
Proof.
  unfold RootCmd.dispatch. intros (found & w1 & _ & H)%bind_Ok_inv.
  destruct (found.1); [|by apply bind_Ok_inv in H as (? & ? & _ & [= ])| | | |done];
    [|by unfold lift_outcome, plain_command, obind in H; repeat (case_match; try done)..].
  apply bind_Ok_inv in H as (fs & w2 & Hf & (cfg' & w3 & Hc & [= <- <-])%bind_Ok_inv).
  injection Hf as Hf _. apply command_flags_ranged in Hf; [|by repeat constructor].
  apply root_values_ranged in Hf as [H1 H2]. split; [by eapply root_config_valid|].
  unfold root_config in Hc.
  by apply bind_Ok_inv in Hc as ([] & w4 & _ & (adv & w5 & _ & [= <- _])%bind_Ok_inv).
Qed.

(** C26: Whatever the command line is, with long and short flags, values in the same
    or in the next argument, repeated flags and other arguments, a controller that
    starts has an integer of the machine's width as retention count, an interval
    of the width of durations, and no broker or complete options of a supported
    one. *)
Theorem dispatch_valid args w cfg w' :
  dispatch args w = (Ok (RunsManager cfg), w') → valid_config cfg.
Proof. by intros [? _]%dispatch_config. Qed.

(** The command line of a build job. *)
Lemma dispatch_build l w :
  dispatch ("build" :: (flag_text <$> l)) w =
  (let! cfg := lift_outcome (execute_build getenv namespace_file (flag_text <$> l)) in
   ret (RunsBuild cfg)) w.
Proof. unfold RootCmd.dispatch, Find. cbn [stripFlags]. by rewrite stripFlags_texts. Qed.

(** One flag on the command line. *)
Lemma dispatch_one n v w :
  takes (root_flagset image getenv ++ [help_flag]) (n, v) → flag_name n = true → n ≠ "help" →
  ∃ fs, (∀ m, fl_value <$> lookup_flag fs m =
              if bool_decide (n = m) then Some v
              else fl_value <$> lookup_flag (root_flagset image getenv ++ [help_flag]) m) ∧
    dispatch [flag_text (n, value_text v)] w =
    (let! cfg := root_config (root_values fs) in ret (RunsManager cfg)) w.
Proof.
  intros Ht Hn Hh. destruct (set_flags_settings (root_flagset image getenv ++ [help_flag]) [(n, v)])
    as (fs & Hs & Hv); [by apply NoDup_singleton|by constructor|].
  exists fs. split; [intros m; rewrite Hv; cbn [setting]; by case_bool_decide|].
  pose proof (dispatch_root (setting_texts [(n, v)]) w) as Hd. cbn [setting_texts fmap list_fmap fst snd] in Hd.
  rewrite Hd. unfold command_flags. rewrite (parseArgs_flags _ (setting_texts [(n, v)]) fs);
    [|cbn; by rewrite Hn|exact Hs]. cbn [obind].
  assert (bool_flag fs "help" = false) as ->; [|done].
  unfold bool_flag. rewrite Hv. cbn [setting]. by rewrite bool_decide_eq_false_2.
Qed.
End root_lines.

Section negative.
Context {V : Type} {MH : ManagerHost V}.
Context {W : Type} {KC : KubeClient W} {SS : SortSlice}.
Context (image : string) (getenv : string → string) (namespace_file : error + string).
Context (suggestions : string → string).

(** C36: A negative retention count on the command line takes the controller down.
    The flag is accepted, the controller runs with this count and with collections
    every half hour, and a collection that finds builds, but no finished one,
    panics. *)
Theorem negative_keep_crashes z v :
  in_int64 z = true → (z < 0)%Z →
  (∃ cfg, dispatch image getenv namespace_file suggestions ["--gc-max-keep=" +:+ value_text (IntValue z)] v
            = (Ok (RunsManager cfg), v) ∧
          cc_GCMaxRetentionCount cfg = z ∧ cc_GCInterval cfg = (30 * Minute)%Z) ∧
  ∀ cap (r : Reconciler W) items w',
    cap 0 = 0 → kc_ListBuilds (r_world r) = (Ok items, w') →
    items ≠ [] → List.filter finished items = [] →
    (RunGC cap z r).1 = Panic "slice bounds out of range".
Proof.
  intros Hr Hz. split.
  - destruct (dispatch_one image getenv namespace_file suggestions "gc-max-keep" (IntValue z) v)
      as (fs & Hv & Hd); [done|reflexivity|done|].
    change ("--gc-max-keep=" +:+ ?x) with (flag_text ("gc-max-keep", x)). rewrite Hd.
    unfold root_config, root_values. unfold string_flag. rewrite !Hv. eexists.
    split; [reflexivity|]. cbn. unfold int_flag, duration_flag. by rewrite !Hv.
  - intros cap r items w' Hcap Hl Hne Hf. unfold RunGC, bind at 1, try, kube, zoom. rewrite Hl.
    destruct items as [|b items]; [done|]. rewrite bool_decide_eq_false_2 by done.
    unfold bind, lift_outcome. rewrite gc_select_negative by (rewrite ?Hf; cbn [length]; lia).
    rewrite Hf. cbn [length]. rewrite Hcap. by rewrite (proj2 (Z.ltb_lt _ _)) by lia.
Qed.
End negative.

(** ** Concrete runs *)

Module RootSample.
Import Controller.Sample ManagerSample.

#[local] Existing Instance process_host.

Definition idle : process := mkProcess ∅ true.
Definition no_suggestions (s : string) : string := "".
Definition run_line (args : list string) : outcome exit_status :=
  (Execute "forge:1" (λ _, "") (inr "ns") no_suggestions args idle).1.

Example lines :
  (run_line ["--gc-interval"; "90s"; "-h"], run_line ["--gc-interval=30"],
   run_line ["--debug"; "crd-apply"], run_line ["--message-broker"; "sqs"; "version"; "x"],
   run_line ["biuld"; "--resource=b"], run_line ["--namespace"; "build"; "--debug"])
  = (Ok (Exit 0), Ok (Exit 1), Ok (Continues AppliesCrd), Ok (Exit 1), Ok (Exit 1),
     Ok (Continues (RunsManager (controller_config
       (mkRootFlags true "build" ":8080" false (30 * Minute) 5 "forge:1" "" "" "/tmp/forge/plugins" ∅ ""
          ∅ ∅ "" "" false false false "" "" "" defaultMessageQueue) None no_advanced)))).
Proof. vm_compute. reflexivity. Qed.

Definition flags : root_flags :=
  mkRootFlags true "builds" ":9090" true (-1) (-3) "" "pull" "" "/plugins --x" {["team" := "a=b"; "tier" := ""]}
    "key" ∅ {["disk" := "ssd"]} "" "" false true false "" "AMQP" "amqp://u:p@h" "q".

Lemma root_arguments_roundtrip_witness :
  dispatch "forge:1" (λ _, "") (inr "ns") no_suggestions (root_arguments flags) idle =
  (Ok (RunsManager (controller_config flags (Some (mkOptions "amqp" "amqp://u:p@h" "q")) no_advanced)), idle).
Proof.
  rewrite (root_arguments_roundtrip "forge:1" (λ _, "") (inr "ns") no_suggestions flags idle);
    [reflexivity|].
  split_and!; try (vm_compute; reflexivity); vm_compute; discriminate.
Defined.

Definition repeated : list string :=
  ["--gc-max-keep"; "0x10"; "extra"; "--gc-max-keep=-2"; "--build-job-labels=a=1,b=2";
   "--build-job-labels"; "b=3"].

Lemma dispatch_valid_witness :
  ∃ cfg, dispatch "forge:1" (λ _, "") (inr "ns") no_suggestions (take 2 repeated ++ drop 3 repeated) idle
           = (Ok (RunsManager cfg), idle) ∧
    jc_Labels (cc_JobConfig cfg) = {["a" := "1"; "b" := "3"]} ∧
    in_int64 (cc_GCMaxRetentionCount cfg) = true.
Proof.
  eexists. split; [vm_compute; reflexivity|]. split; [vm_compute; reflexivity|].
  apply (dispatch_valid "forge:1" (λ _, "") (inr "ns") no_suggestions
           (take 2 repeated ++ drop 3 repeated) idle _ idle). vm_compute. reflexivity.
Defined.

Lemma negative_keep_crashes_witness :
  (RunGC (SS:=merge_sort_slice) (λ n, n) (-1) (reconciler (server [build "b" "" 1] []))).1
  = Panic "slice bounds out of range".
Proof.
  destruct (negative_keep_crashes (V:=process) (W:=cluster) "forge:1" (λ _, "") (inr "ns") no_suggestions
              (-1) idle eq_refl eq_refl) as [_ H].
  refine (H (λ n, n) (reconciler (server [build "b" "" 1] [])) [build "b" "" 1] _ eq_refl _ _ eq_refl);
    [vm_compute; reflexivity|discriminate].
Defined.
End RootSample.
