(* ===== verification/EndToEnd.v ===== *)
(** * EndToEnd: from the command line and the clouds to the build job

    The controller asks the cloud for the credentials of a registry, puts them
    into a secret and mounts the secret into the pod of the build job; the job
    reads the mounted file, and the driver asks for the credentials by host.
    One theorem composes [Cloud], [Controller], [Credentials] and
    [RegistryConfig]: the driver gets what the cloud returned.  The other one
    composes [RootCmd], [Manager], [Controller] and [Cmd]: the job runs with what
    the command line of the controller says. *)
From stdpp Require Import gmap strings list.
From S2P Require Import Prelude Go GoStd Base64 Types Config Kube Credentials Resources Controller RegistryConfig Cloud GarbageCollection Flags Cmd Manager RootCmd.

(** ** Secrets in a pod *)

(** A file of a secret volume: its path, the secret and the key. *)
Record secret_file := mkSecretFile {
  sf_Path : string;
  sf_Secret : string;
  sf_Key : string;
}.

(** The files a volume gives at a mount. *)
Definition volume_files (m : VolumeMount) (vol : Volume) : list secret_file :=
  if bool_decide (vol_Name vol = vm_Name m) then
    match vol_Source vol with
    | SecretVolumeSource name items =>
        (λ it, mkSecretFile (filepath_Join [vm_MountPath m; it.2]) name it.1) <$> items
    | _ => []
    end
  else [].

(** All the secret files of the containers of a pod. *)
Definition secret_files (pod : PodSpec) : list secret_file :=
  flat_map (λ c, flat_map (λ m, flat_map (volume_files m) (ps_Volumes pod)) (ct_VolumeMounts c))
    (ps_Containers pod).

Definition secret_data (o : option object) : option (gmap string document) :=
  match o with
  | Some obj => match obj_body obj with Secret data _ => Some data | _ => None end
  | None => None
  end.

(** The pod of a job object. *)
Definition job_pod (o : option object) : option PodSpec :=
  match o with
  | Some obj => match obj_body obj with Job _ _ pod => Some pod | _ => None end
  | None => None
  end.

(** ** The objects of a new build *)

Lemma ensure_all_found cib objs l k :
  objs !! k = None → (∃ obj, obj ∈ l ∧ obj_key obj = k) →
  ∃ obj, obj ∈ l ∧ obj_key obj = k ∧ ensure_all cib objs l !! k = Some (owned cib obj).
Proof.
  intros Hk (obj & Hin & <-). destruct (ensure_all_has cib objs l obj Hin) as [x Hx].
  destruct (ensure_all_new cib objs l _ x Hx Hk) as (obj' & ? & ? & ->). eauto.
Qed.

(** The secret and the job of a build with dynamic credentials. *)
Lemma new_secret cib jc auths job objs :
  obj_kind job = KJob → auths ≠ ∅ →
  objs !! (KSecret, mkKey (cib_Namespace cib) (cloud_secret_name cib)) = None →
  ensure_all cib objs (prerequisites jc cib auths ++ [job])
    !! (KSecret, mkKey (cib_Namespace cib) (cloud_secret_name cib))
  = Some (owned cib (cloud_secret cib auths)).
Proof.
  intros Hj Ha Hk. unfold prerequisites. rewrite bool_decide_eq_false_2 by done.
  edestruct (ensure_all_found cib objs) as (obj & Hin & Ho & ->); [exact Hk|..].
  { exists (cloud_secret cib auths). split; [|done]. set_solver. }
  do 2 f_equal. revert Ho Hin. unfold obj_key. intros [= Ho _].
  rewrite !elem_of_app, !elem_of_cons, elem_of_nil.
  intros [[[->|[->|[->|[]]]]|[->|[]]]|[->|[]]]; try done; by rewrite Hj in Ho.
Qed.

Lemma new_job cib jc auths job objs :
  obj_key job = (KJob, cib_key cib) → objs !! (KJob, cib_key cib) = None →
  ensure_all cib objs (prerequisites jc cib auths ++ [job]) !! (KJob, cib_key cib)
  = Some (owned cib job).
Proof.
  intros Hj Hk. destruct (ensure_all_found cib objs (prerequisites jc cib auths ++ [job]) _ Hk)
    as (obj & Hin & Ho & ->); [exists job; split; [set_solver|done]|].
  do 2 f_equal. apply elem_of_app in Hin as [Hin|Hin%list_elem_of_singleton]; [exfalso|done].
  revert Ho Hin. unfold obj_key. intros [= Ho _]. unfold prerequisites.
  case_bool_decide; set_unfold; intros Hin; destruct_or?; by subst.
Qed.

(** ** Credentials *)

Section end_to_end.
(** The cluster the controller works on. *)
Context {W : Type} {KC : KubeClient W} {KS : KubeServer W} {FR : FreshReads W}.
Context (RetrieveAuthorization : string → M W (option AuthConfig)).
Context (ParseQuantity : string → outcome Quantity).
Context (getenv : string → string).
Hypothesis RetrieveAuthorization_reads : ∀ s,
  always (λ w w', objects_of w' = objects_of w ∧ builds_of w' = builds_of w)
         (RetrieveAuthorization s).
(** A cloud registry returns a user and a password, not an encoded pair. *)
Hypothesis RetrieveAuthorization_plain : ∀ s w ac w',
  RetrieveAuthorization s w = (Ok (Some ac), w') → ac_Auth ac = "".

(** The pod the job runs in. *)
Context {V : Type} {JH : JobHost V} {JR : JobReads V}.

#[local] Notation reconcile := (Reconcile RetrieveAuthorization ParseQuantity getenv).

(** What the kubelet documents: a container finds, below the mount path of a
    secret volume, a file for each item of the volume with the value of its
    key. *)
Definition mounted (objs : gmap objkey object) (ns : string) (pod : PodSpec) (v : V) : Prop :=
  Forall (λ f, match secret_data (objs !! (KSecret, mkKey ns (sf_Secret f))) with
               | Some data => file_of v (sf_Path f) = data !! sf_Key f
               | None => True
               end) (secret_files pod).

(** The directive asks for cloud credentials and has no others. *)
Definition dynamic (reg : Registry) : Prop :=
  reg_DynamicCloudCredentials reg = true ∧ classify_auth (reg_BasicAuth reg) = NoAuth.

(** ** The credentials the job reads *)

(** The pod of the job mounts the credentials secret. *)
Lemma job_mounts_secret jc cib auths job pod :
  auths ≠ ∅ → job_for ParseQuantity getenv jc cib auths = Ok job → job_pod (Some job) = Some pod →
  mkSecretFile DynamicCredentialsFilepath (cloud_secret_name cib) DockerConfigJsonKey
    ∈ secret_files pod.
Proof.
  intros Ha. unfold job_for, job_object, with_credentials.
  rewrite bool_decide_eq_false_2 by done. destruct (job_resources _ _); simpl; [|done..].
  intros [= <-] [= <-]. apply list_elem_of_In, in_flat_map.
  eexists. split; [by left|]. apply in_flat_map. exists cloud_mount. split.
  { apply list_elem_of_In. cbn [ct_VolumeMounts]. unfold job_mounts. simpl. set_solver. }
  apply in_flat_map. exists (cloud_volume cib). split.
  { apply list_elem_of_In. cbn [ps_Volumes]. unfold job_volumes. simpl. set_solver. }
  unfold volume_files. rewrite bool_decide_eq_true_2 by done. by left.
Qed.

(** The file of the job has the credentials the controller stored. *)
Lemma mounted_credentials jc cib auths job pod objs v :
  auths ≠ ∅ → job_for ParseQuantity getenv jc cib auths = Ok job →
  job_pod (Some job) = Some pod →
  objs !! (KSecret, mkKey (cib_Namespace cib) (cloud_secret_name cib)) = None →
  mounted (ensure_all cib objs (prerequisites jc cib auths ++ [job])) (cib_Namespace cib) pod v →
  file_of v DynamicCredentialsFilepath = Some (Document (marshal_docker_config auths)).
Proof.
  intros Hne Hjob Hpod Hn Hm. unfold mounted in Hm. rewrite Forall_forall in Hm.
  pose proof (Hm _ (job_mounts_secret _ _ _ _ _ Hne Hjob Hpod)) as Hf.
  cbn [sf_Secret sf_Path sf_Key] in Hf. rewrite new_secret in Hf; [|by eapply job_object_fresh|done..].
  simpl in Hf. by rewrite Hf, lookup_singleton_eq.
Qed.

Lemma resolve_dynamic v reg (auths : AuthConfigs) ac :
  dynamic reg → map_Forall (λ _ ac, ac_Auth ac = "") auths →
  file_of v DynamicCredentialsFilepath = Some (Document (marshal_docker_config auths)) →
  auths !! reg_Server reg = Some ac →
  resolve v reg = Ok (explicit_config reg (ac_Username ac) (ac_Password ac), ∅).
Proof.
  intros [Hd Hc] Hp Hf Hac. unfold resolve. rewrite Hc, Hd, Hf.
  rewrite ExtractAuthConfigs_marshal by done. cbn [obind].
  unfold getBasicAuthForHost, ExtractBasicAuthForHost. by rewrite map_lookup_imap, Hac.
Qed.

Lemma resolve_host v reg r : resolve v reg = Ok r → rc_Host r.1 = reg_Server reg.
Proof.
  unfold resolve.
  assert (∀ o keep, (let? auths := o in
      let? up := getBasicAuthForHost auths (reg_Server reg) in
      Ok (explicit_config reg up.1 up.2, if keep : bool then auths else ∅)) = Ok r →
    rc_Host r.1 = reg_Server reg) as H.
  { intros [auths| |] keep; cbn [obind]; [|done..].
    destruct (getBasicAuthForHost auths _); cbn [obind]; [|done..]. by intros [= <-]. }
  destruct (classify_auth _); [..|done]; [|by intros [= <-]|apply (H _ true)].
  destruct (reg_DynamicCloudCredentials reg); [apply (H _ false)|by intros [= <-]].
Qed.

(** A host that only dynamic directives name has the configuration of one of
    them. *)
Lemma explicit_dynamic v regs rs host :
  Forall2 (λ reg r, resolve v reg = Ok r) regs rs →
  (∃ reg, reg ∈ regs ∧ reg_Server reg = host) →
  ∃ reg r, reg ∈ regs ∧ reg_Server reg = host ∧ resolve v reg = Ok r ∧
    precedence rs host = Some r.1.
Proof.
  intros Hrs (reg & Hreg & Hh). unfold precedence, explicit_for.
  destruct (last (filter (λ c, rc_Host c = host) rs.*1)) as [c|] eqn:El.
  - assert (c ∈ filter (λ c, rc_Host c = host) rs.*1) as Hc
      by (apply last_Some in El as [l ->]; set_solver).
    apply list_elem_of_filter in Hc as [Hch (r & -> & Hr)%list_elem_of_fmap].
    apply list_elem_of_lookup in Hr as [i Hi].
    destruct (Forall2_lookup_r _ _ _ _ _ Hrs Hi) as (reg' & Hi' & Hres).
    exists reg', r. split_and!; [by eapply list_elem_of_lookup_2| |done|done].
    by rewrite <- (resolve_host _ _ _ Hres).
  - exfalso. apply last_None in El. apply list_elem_of_lookup in Hreg as [i Hi].
    destruct (Forall2_lookup_l _ _ _ _ _ Hrs Hi) as (r & Hir & Hres).
    assert (r.1 ∈ filter (λ c, rc_Host c = host) rs.*1) as Hin.
    { apply list_elem_of_filter. split; [by rewrite (resolve_host _ _ _ Hres)|].
      apply list_elem_of_fmap_2. by eapply list_elem_of_lookup_2. }
    rewrite El in Hin. by apply not_elem_of_nil in Hin.
Qed.

(** The credentials that reach the driver, for any source of credentials. *)
Lemma credentials_reach_driver req cib r r' :
  reconcile req r = (Ok tt, r') →
  builds_of (r_world r) !! req = Some cib → st_State (cib_Status cib) = "" →
  objs_of r !! (KSecret, mkKey (cib_Namespace cib) (cloud_secret_name cib)) = None →
  objs_of r !! (KJob, cib_key cib) = None →
  ∃ pod, job_pod (objs_of r' !! (KJob, cib_key cib)) = Some pod ∧
    ∀ v cfgs v' host,
      mounted (objs_of r') (cib_Namespace cib) pod v →
      buildRegistryConfigs (spec_Registries (cib_Spec cib)) v = (Ok cfgs, v') →
      host ∈ reg_Server <$> spec_Registries (cib_Spec cib) →
      Forall (λ reg, reg_Server reg = host → dynamic reg) (spec_Registries (cib_Spec cib)) →
      ∃ ac w w', RetrieveAuthorization host w = (Ok (Some ac), w') ∧
        (generateRegistryFunc cfgs).1 host = Ok (ac_Username ac, ac_Password ac).
Proof.
  intros H Hcib Hs HnS HnJ.
  destruct (Reconcile_installed _ _ _ RetrieveAuthorization_reads _ _ _ _ H Hcib Hs)
    as (auths & job & [Hdom Hret] & Hjob & Hobjs).
  pose proof (job_for_key _ _ _ _ _ _ Hjob) as Hkey.
  rewrite Hobjs, new_job by done.
  assert (∃ pod, job_pod (Some job) = Some pod) as [pod Hpod].
  { unfold obj_key, obj_kind in Hkey. simpl. destruct (obj_body job); simplify_eq; eauto. }
  exists pod. split; [done|].
  intros v cfgs v' host Hm Hcfg Hhost Hdyn.
  apply buildRegistryConfigs_spec in Hcfg as (_ & rs & Hrs & Hl).
  destruct (explicit_dynamic _ _ _ host Hrs) as (reg & rg & Hreg & Hrh & Hres & Hp).
  { apply list_elem_of_fmap in Hhost as (reg & -> & Hreg). eauto. }
  rewrite Forall_forall in Hdyn. specialize (Hdyn reg Hreg Hrh).
  destruct (auths !! host) as [ac|] eqn:Hac.
  2:{ exfalso. apply not_elem_of_dom in Hac. apply Hac. rewrite Hdom. unfold dynamic_servers.
      apply elem_of_list_to_set, list_elem_of_fmap. exists reg. split; [done|].
      apply list_elem_of_In, filter_In. split; [by apply list_elem_of_In|apply Hdyn]. }
  destruct (Hret host ac Hac) as (w & w' & Hw). exists ac, w, w'. split; [done|].
  assert (auths ≠ ∅) as Hne by (intros ->; by rewrite lookup_empty in Hac).
  assert (resolve v reg = Ok (explicit_config reg (ac_Username ac) (ac_Password ac), ∅)) as Hr.
  { apply (resolve_dynamic _ _ auths); [done|..|by rewrite Hrh].
    - intros s ac' (w1 & w2 & Hw')%Hret. by eapply RetrieveAuthorization_plain.
    - by eapply mounted_credentials. }
  simpl. rewrite Hl, Hp. rewrite Hr in Hres. by simplify_eq/=.
Qed.
End end_to_end.

Section clouds.
Context {W : Type} {KC : KubeClient W} {KS : KubeServer W} {FR : FreshReads W}.
(** The calls to the clouds leave the objects of the cluster alone. *)
Context {CH : CloudHost W}.
Context {CA : CloudAlways (λ w w' : W, objects_of w' = objects_of w ∧ builds_of w' = builds_of w)}.
Context (registry : CloudRegistry).
Context (ParseQuantity : string → outcome Quantity).
Context (getenv : string → string).
Context {V : Type} {JH : JobHost V} {JR : JobReads V}.

#[local] Instance same_cluster_preorder :
  PreOrder (λ w w' : W, objects_of w' = objects_of w ∧ builds_of w' = builds_of w).
Proof. split; [done|]. intros x y z [-> ->] [-> ->]. done. Qed.

(** C7: End to end.  A new build is reconciled, and neither its secret nor its
    job was in the cluster.  Then its job is there, and in every pod of the job
    in which the kubelet mounted the volumes: once the job has configured the
    registries of the build, the driver that asks for the credentials of a host
    that dynamic directives name, and no others, gets the user and the password
    the cloud returned to the controller for this host. *)
Theorem cloud_credentials_reach_driver req cib r r' :
  Reconcile (RetrieveAuthorization registry) ParseQuantity getenv req r = (Ok tt, r') →
  builds_of (r_world r) !! req = Some cib → st_State (cib_Status cib) = "" →
  objs_of r !! (KSecret, mkKey (cib_Namespace cib) (cloud_secret_name cib)) = None →
  objs_of r !! (KJob, cib_key cib) = None →
  ∃ pod, job_pod (objs_of r' !! (KJob, cib_key cib)) = Some pod ∧
    ∀ v cfgs v' host,
      mounted (objs_of r') (cib_Namespace cib) pod v →
      buildRegistryConfigs (spec_Registries (cib_Spec cib)) v = (Ok cfgs, v') →
      host ∈ reg_Server <$> spec_Registries (cib_Spec cib) →
      Forall (λ reg, reg_Server reg = host → dynamic reg) (spec_Registries (cib_Spec cib)) →
      ∃ ac w w', RetrieveAuthorization registry host w = (Ok (Some ac), w') ∧
        (generateRegistryFunc cfgs).1 host = Ok (ac_Username ac, ac_Password ac).
Proof.
  apply credentials_reach_driver; [intros s; apply RetrieveAuthorization_always; apply _|].
  intros s. apply RetrieveAuthorization_plain.
Qed.
End clouds.

(** ** The configuration of the job *)

(** The only container of the pod, and what it runs. *)
Lemma job_container ParseQuantity getenv jc cib auths job :
  job_for ParseQuantity getenv jc cib auths = Ok job →
  ∃ pod c, job_pod (Some job) = Some pod ∧ ps_Containers pod = [c] ∧
    ct_Image c = jc_Image jc ∧ ct_Command c = ["/bin/sh"] ∧ ct_Args c = prepareJobArgs jc cib.
Proof.
  unfold job_for, job_object, with_credentials. destruct (job_resources _ _); [|done..].
  cbn [obind]. intros [= <-]. by case_bool_decide; eexists _, _.
Qed.

Section flags_to_job.
(** The process of the controller while it starts, the cluster, and the process in
    the pod of the job. *)
Context {P : Type} {PM : ManagerHost P}.
Context {W : Type} {KC : KubeClient W} {KS : KubeServer W} {FR : FreshReads W} {SS : SortSlice}.
Context {CH : CloudHost W}.
Context {CA : CloudAlways (λ w w' : W, objects_of w' = objects_of w ∧ builds_of w' = builds_of w)}.
Context {V : Type} {VM : ManagerHost V}.
Context (ParseQuantity : string → outcome Quantity).
Context (suggestions : string → string).
(** The words of a script; POSIX: a line of plain words is these words. *)
Context (sh_words : string → list string).
Hypothesis sh_plain : ∀ words, words ≠ [] → Forall plain words →
  sh_words (strings_Join words " ") = words.
Context (others : relation W) (mg : manager).
(** The environment of the controller and that of the pod. *)
Context (image : string) (getenv : string → string) (namespace_file : error + string).
Context (pod_image : string) (pod_env : string → string) (ns : string).

#[local] Notation jobs := (cc_JobConfig (mg_config mg)).

(** The job of a build that was reconciled, and what its container runs. *)
Lemma reconciled_job_runs args (p p' : P) w r req cib r' :
  dispatch image getenv namespace_file suggestions args p = (Ok (RunsManager (mg_config mg)), p') →
  rtc (activity ParseQuantity getenv others mg) (reconciler mg w) r →
  Reconcile (RetrieveAuthorization (mg_registry mg)) ParseQuantity getenv req r = (Ok tt, r') →
  builds_of (r_world r) !! req = Some cib → st_State (cib_Status cib) = "" →
  objs_of r !! (KJob, cib_key cib) = None →
  jc_EnableIstioSupport jobs = false → plain_values jobs cib →
  ∃ pod c, job_pod (objs_of r' !! (KJob, cib_key cib)) = Some pod ∧ ps_Containers pod = [c] ∧
    ct_Image c = jc_Image jobs ∧ ct_Command c = ["/bin/sh"] ∧
    ∀ v : V, dispatch pod_image pod_env (inr ns) suggestions
               (tail (container_command sh_words (ct_Args c))) v =
      (Ok (RunsBuild (mkConfig (cib_Name cib) ns (build_broker jobs cib)
             (if bool_decide (jc_PreparerPluginPath jobs ≠ "") then jc_PreparerPluginPath jobs
              else filepath_Join [GetStateDir pod_env; "plugins"])
             (jc_EnableLayerCaching jobs) false)), v).
Proof.
  intros [[_ [_ Hb]] Hn]%dispatch_config Hr H Hcib Hs HnJ Hi Hp.
  pose proof (running_config _ _ _ _ w r Hn Hr) as Hjc.
  destruct (Reconcile_installed _ _ _ (cloud_reads mg) _ _ _ _ H Hcib Hs)
    as (auths & job & _ & Hjob & Hobjs).
  pose proof (job_for_key _ _ _ _ _ _ Hjob) as Hkey. rewrite Hjc in Hjob.
  destruct (job_container _ _ _ _ _ _ Hjob) as (pod & c & Hpod & Hc & Him & Hcm & Ha).
  exists pod, c. rewrite Hobjs, new_job by done. split_and!; [done..|]. intros v. rewrite Ha.
  fold (job_command sh_words jobs cib). rewrite job_command_flags by done. cbn [app tail].
  rewrite dispatch_build. unfold lift_outcome, bind. 
  by rewrite execute_build_flags by (by apply valid_build_broker).
Qed.

(** C5: The command line of the controller decides how a build job runs.  The
    controller was started by any command line, any activities took place, and a
    new build without a job is reconciled, whose values are plain words; the jobs
    run without Istio support.  Then the job is in the cluster, with
    one container of the image of the command line, and the program in this
    container finds the build command and runs it for this build, in the namespace
    of the pod, with the broker of the command line (and the queue of the build),
    its plugin path and its caching option. *)
Theorem flags_reach_job args (p p' : P) w r req cib r' :
  dispatch image getenv namespace_file suggestions args p = (Ok (RunsManager (mg_config mg)), p') →
  rtc (activity ParseQuantity getenv others mg) (reconciler mg w) r →
  Reconcile (RetrieveAuthorization (mg_registry mg)) ParseQuantity getenv req r = (Ok tt, r') →
  builds_of (r_world r) !! req = Some cib → st_State (cib_Status cib) = "" →
  objs_of r !! (KJob, cib_key cib) = None →
  jc_EnableIstioSupport jobs = false → plain_values jobs cib →
  ∃ pod c, job_pod (objs_of r' !! (KJob, cib_key cib)) = Some pod ∧ ps_Containers pod = [c] ∧
    ct_Image c = jc_Image jobs ∧ ct_Command c = ["/bin/sh"] ∧
    ∀ v : V, dispatch pod_image pod_env (inr ns) suggestions
               (tail (container_command sh_words (ct_Args c))) v =
      (Ok (RunsBuild (mkConfig (cib_Name cib) ns (build_broker jobs cib)
             (if bool_decide (jc_PreparerPluginPath jobs ≠ "") then jc_PreparerPluginPath jobs
              else filepath_Join [GetStateDir pod_env; "plugins"])
             (jc_EnableLayerCaching jobs) false)), v).
Proof. apply reconciled_job_runs. Qed.
End flags_to_job.

(** ** An example *)

Module EndToEndSample.
Import Sample.

(** AWS returns one token. *)
#[local] Instance clouds : CloudHost cluster :=
  CloudSample.clouds [Some (EncodeToString "AWS:token")] CloudSample.header.
Definition registries : CloudRegistry := CloudSample.all.
Definition reconciled : outcome unit * Reconciler cluster :=
  Reconcile (Cloud.RetrieveAuthorization registries) ParseQuantity getenv (mkKey "ns" "b") start.

Definition server : string := "1.dkr.ecr.us-west-2.amazonaws.com".

(** The file system of the pod. *)
Definition pod : jobhost :=
  mkJobHost ∅
    {[ DynamicCredentialsFilepath :=
         Document (marshal_docker_config {[ server := basic_auth "AWS" "token" ]}) ]} [] [].

Definition configs : list RegistryConfig := [mkRegistryConfig server false "AWS" "token"].

Lemma cloud_credentials_reach_driver_witness :
  (buildRegistryConfigs [registry] pod).1 = Ok configs ∧
  ∃ ac w w', Cloud.RetrieveAuthorization registries server w = (Ok (Some ac), w') ∧
    (generateRegistryFunc configs).1 server = Ok (ac_Username ac, ac_Password ac).
Proof.
  split; [vm_compute; reflexivity|].
  destruct (cloud_credentials_reach_driver (CH := clouds) (CA := CloudSample.clouds_always _ _ _ same_cluster_preorder)
              (JH := jobhost_calls) (JR := jobhost_reads) registries ParseQuantity getenv
              (mkKey "ns" "b") (build "b" "" 1) start reconciled.2)
    as (ps & Hpod & H).
  - exact (run_split _ _ _ eq_refl).
  - reflexivity.
  - reflexivity.
  - reflexivity.
  - reflexivity.
  - apply (H pod configs (buildRegistryConfigs [registry] pod).2 server).
    + apply (f_equal (option_map secret_files)) in Hpod. unfold mounted.
      assert (option_map secret_files
                (job_pod (objs_of reconciled.2 !! (KJob, mkKey "ns" "b")))
              = Some [mkSecretFile DynamicCredentialsFilepath "b-dynamic-cloud-credentials"
                        DockerConfigJsonKey]) as E by (vm_compute; reflexivity).
      assert (Some (secret_files ps) = Some [mkSecretFile DynamicCredentialsFilepath
                 "b-dynamic-cloud-credentials" DockerConfigJsonKey]) as E2
        by exact (eq_trans (eq_sym Hpod) E).
      injection E2 as ->. constructor; [|constructor]. vm_compute. reflexivity.
    + apply run_split. vm_compute. reflexivity.
    + apply list_elem_of_singleton. reflexivity.
    + constructor; [|constructor]. intros _. split; reflexivity.
Defined.

(** A controller that caches layers and has a broker. *)
Definition line : list string :=
  ["--enable-layer-caching"; "--message-broker=AMQP"; "--amqp-uri"; "amqp://u:p@h"; "--amqp-queue=q";
   "--build-job-image=forge:2"].
Definition flags : root_flags :=
  mkRootFlags false "default" ":8080" false (30 * Minute) 5 "forge:2" "" "" "/tmp/forge/plugins" ∅ "" ∅ ∅
    "" "" false true false "" "AMQP" "amqp://u:p@h" "q".
Definition mg : manager :=
  mkManager (controller_config flags (Some (mkOptions "amqp" "amqp://u:p@h" "q")) no_advanced) registries true.
Definition r0 : Reconciler cluster := Manager.reconciler mg (Sample.server [build "b" "" 1] []).
Definition idle : ManagerSample.process := RootSample.idle.

Lemma flags_reach_job_witness :
  ∃ pod c,
    job_pod (objs_of (Reconcile (Cloud.RetrieveAuthorization registries) ParseQuantity getenv
                        (mkKey "ns" "b") r0).2 !! (KJob, mkKey "ns" "b")) = Some pod ∧
    ps_Containers pod = [c] ∧ ct_Image c = "forge:2" ∧ ct_Command c = ["/bin/sh"] ∧
    ∀ v, dispatch (MH:=ManagerSample.process_host) "" (λ _, "") (inr "ns")
           RootSample.no_suggestions (tail (container_command CmdSample.words (ct_Args c))) v =
         (Ok (RunsBuild (mkConfig "b" "ns" (Some (mkOptions "amqp" "amqp://u:p@h" "q"))
                "/tmp/forge/plugins" true false)), v).
Proof.
  refine (flags_reach_job (PM:=ManagerSample.process_host) (CH:=clouds)
            (CA := CloudSample.clouds_always _ _ _ same_cluster_preorder)
            (VM:=ManagerSample.process_host)
            ParseQuantity RootSample.no_suggestions CmdSample.words CmdSample.words_plain (λ _ _, False) mg
            "forge:1" (λ _, "") (inl (New "no such file")) "" (λ _, "") "ns" line idle idle
            (Sample.server [build "b" "" 1] []) r0 (mkKey "ns" "b") (build "b" "" 1) _ _ (rtc_refl _ _)
            (run_split _ _ _ _) _ _ _ _ _); try (vm_compute; reflexivity).
  split; [|split]; [|intros _|split_and!]; by apply (bool_decide_unpack _).
Defined.
End EndToEndSample.
