(* ===== verification/Lifecycle.v ===== *)
(** * Lifecycle: from a submitted build to its end

    A user submits a build to a healthy cluster.  The controller reconciles it, the
    container of its job runs the build command, the command constructs a job, and
    the job runs.  The theorem composes [RootCmd], [Manager], [Controller], [Cmd],
    [Setup] and [BuildJob]: the build reaches a final state. *)
From stdpp Require Import gmap strings list.
From Stdlib Require Import ZArith.
From S2P Require Import Prelude Go GoStd Types Config Kube Credentials Resources Controller RegistryConfig BuildJob Cloud GarbageCollection Flags Cmd Setup Manager RootCmd EndToEnd.
#[local] Open Scope forge_scope.

(** ** The job of a configuration *)

(** What [Run] sees of the job that [New] returns. *)
Definition job_of (nj : NewJob) : BuildJob.Job :=
  mkJob (nj_name nj) (nj_namespace nj) (bool_decide (is_Some (nj_producer nj))).

Lemma NewBuildJob_job {U : Type} {SH : SetupHost U} getenv cfg (u : U) nj u' :
  NewBuildJob getenv cfg u = (Ok nj, u') →
  job_of nj = mkJob (cfg_ResourceName cfg) (cfg_ResourceNamespace cfg)
                (bool_decide (is_Some (cfg_BrokerOpts cfg))).
Proof.
  unfold NewBuildJob. intros (? & u1 & _ & H)%bind_Ok_inv.
  apply bind_Ok_inv in H as (? & u2 & _ & H). apply bind_Ok_inv in H as (? & u3 & _ & H).
  apply bind_Ok_inv in H as (producer & u4 & Hp & H).
  apply bind_Ok_inv in H as ([ps [err|]] & u5 & _ & H); [done|].
  apply bind_Ok_inv in H as (b & u6 & _ & [= <- <-]). unfold job_of. cbn. f_equal.
  destruct (cfg_BrokerOpts cfg) as [opts|].
  - apply bind_Ok_inv in Hp as (n & u7 & _ & [= <- <-]). by rewrite !bool_decide_eq_true_2 by eauto.
  - by injection Hp as <- <-.
Qed.

(** ** A submitted build ends *)

Section lifecycle.
(** The process of the controller while it starts, and the cluster. *)
Context {P : Type} {PM : ManagerHost P}.
Context {W : Type} {KC : KubeClient W} {KS : KubeServer W} {FR : FreshReads W} {SS : SortSlice}.
Context {KP : KubeProgress W} {CH : CloudHost W}.
Context {CA : CloudAlways (λ w w' : W, objects_of w' = objects_of w ∧ builds_of w' = builds_of w)}.
(** The process in the pod of the job while it reads its command line, while it
    constructs its job, and while it runs. *)
Context {D : Type} {DM : ManagerHost D}.
Context {U : Type} {SH : SetupHost U}.
Context {V : Type} {JC : JobClients V} {JH : JobHost V} {JR : JobReads V} {JS : JobServer V}.
Context {JL : JobLive V}.
Context (ParseQuantity : string → outcome Quantity).
Context (suggestions : string → string).
Context (sh_words : string → list string).
Hypothesis sh_plain : ∀ words, words ≠ [] → Forall plain words →
  sh_words (strings_Join words " ") = words.
Context (others : relation W) (mg : manager).
Context (image : string) (getenv : string → string) (namespace_file : error + string).
Context (pod_image : string) (pod_env : string → string).

#[local] Notation jobs := (cc_JobConfig (mg_config mg)).
(** What the build command runs with. *)
Definition build_config (cib : ContainerImageBuild) : Config :=
  mkConfig (cib_Name cib) (cib_Namespace cib) (build_broker jobs cib)
    (if bool_decide (jc_PreparerPluginPath jobs ≠ "") then jc_PreparerPluginPath jobs
     else filepath_Join [GetStateDir pod_env; "plugins"])
    (jc_EnableLayerCaching jobs) false.
#[local] Notation cloud := (RetrieveAuthorization (mg_registry mg)).

(** C2: Liveness, from the submission of a build to its end.  The controller was
    started by any command line, any activities took place, and the cluster is
    healthy, with reads that are up to date.  A new build is there that has no job; its quantities parse, its cloud
    registries answer, its values are plain words, and the jobs run without Istio
    support.  Then its reconciliation
    succeeds, its job is in the cluster, the program in the one container of this
    job runs the build command, and once this command has constructed its job, the
    run of this job against the builds of the cluster, with an API server and a
    broker that answer and a builder that does not panic, returns and leaves the submitted build completed, or failed
    with the error of the run. *)
Theorem submitted_build_ends args (p p' : P) w r req cib :
  dispatch image getenv namespace_file suggestions args p = (Ok (RunsManager (mg_config mg)), p') →
  rtc (activity ParseQuantity getenv others mg) (reconciler mg w) r →
  healthy (r_world r) → well_keyed (builds_of (r_world r)) →
  builds_of (r_world r) !! req = Some cib → st_State (cib_Status cib) = "" →
  objs_of r !! (KJob, cib_key cib) = None →
  is_Ok (job_resources ParseQuantity (cib_Spec cib)) = true →
  cloud_answers cloud (spec_Registries (cib_Spec cib)) →
  jc_EnableIstioSupport jobs = false → plain_values jobs cib →
  ∃ r' pod c,
    Reconcile cloud ParseQuantity getenv req r = (Ok tt, r') ∧
    job_pod (objs_of r' !! (KJob, cib_key cib)) = Some pod ∧ ps_Containers pod = [c] ∧
    (∀ d : D, dispatch pod_image pod_env (inr (cib_Namespace cib)) suggestions
                (tail (container_command sh_words (ct_Args c))) d = (Ok (RunsBuild (build_config cib)), d)) ∧
    ∀ (u u' : U) nj (v : V),
      NewBuildJob pod_env (build_config cib) u = (Ok nj, u') →
      builds_at v = builds_of (r_world r') → serving v →
      ∃ o v' c', Run (job_of nj) v = (o, v') ∧ builds_at v' !! req = Some c' ∧ ended o c'.
Proof.
  intros Hd Hr Hh Hk Hcib Hs HnJ Hq Hcl Hi Hp.
  destruct (Reconcile_succeeds cloud ParseQuantity getenv req cib r Hh Hcib Hq Hcl) as ([] & r' & H & _).
  destruct (reconciled_job_runs ParseQuantity suggestions sh_words sh_plain others mg image getenv
    namespace_file pod_image pod_env (cib_Namespace cib) args p p' w r req cib r')
    as (pod & c & Hpod & Hc & _ & _ & Hrun); [done..|].
  destruct (Reconcile_effect _ _ _ (cloud_reads mg) _ _ _ _ H) as [HB _].
  exists r', pod, c. split_and!; [done..|exact Hrun|].
  intros u u' nj v Hj%NewBuildJob_job Hv Hsv. rewrite Hj, <- (Hk _ _ Hcib).
  apply (Run_reaches_end (mkJob _ _ _) v cib); [done|by rewrite Hv, HB|].
  rewrite Hv, HB. change (mkKey _ _) with (cib_key cib). by rewrite (Hk _ _ Hcib).
Qed.
End lifecycle.

(** ** An example *)

Module LifecycleSample.
Import Sample EndToEndSample.

(** The objects the controller has stored are there when the job runs. *)
Definition image : Image := mkImage ["reg.io/img:latest"] 42.
Definition running : jobworld :=
  mkJobWorld {[ mkKey "ns" "b" := build "b" "" 1 ]} [] pod 100 [] (λ _, Ok image) [].
Definition constructed : NewJob :=
  mkNewJob "b" "ns" (Some 1) [2; 3]
    (mkNewDriver (mkBkClient OverlayFSBackend "/tmp/forge") [2; 3] true)
    [CloseProducer 1; KillPlugins [2; 3]].

Lemma submitted_build_ends_witness :
  ∃ r', Reconcile (Cloud.RetrieveAuthorization (CH:=clouds) registries) ParseQuantity getenv
          (mkKey "ns" "b") r0 = (Ok tt, r') ∧
    ∃ o v' c', Run (job_of constructed) running = (o, v') ∧
      builds_at v' !! mkKey "ns" "b" = Some c' ∧ ended o c'.
Proof.
  destruct (submitted_build_ends (PM:=ManagerSample.process_host) (CH:=clouds)
            (CA := CloudSample.clouds_always _ _ _ same_cluster_preorder)
            (DM:=ManagerSample.process_host) (SH:=SetupSample.host_calls) (V:=jobworld)
            ParseQuantity RootSample.no_suggestions CmdSample.words CmdSample.words_plain (λ _ _, False) mg
            "forge:1" (λ _, "") (inl (New "no such file")) "" (λ _, "") line idle idle
            (Sample.server [build "b" "" 1] []) r0 (mkKey "ns" "b") (build "b" "" 1))
    as (r' & ps & c & H & _ & _ & _ & Hrun);
    [vm_compute; reflexivity|apply rtc_refl|reflexivity
    |exact (proj2 (map_Forall_singleton _ (mkKey "ns" "b") _) eq_refl)
    |reflexivity|reflexivity|reflexivity|reflexivity| | | |].
  - intros reg w Hreg _ Hw. apply list_elem_of_singleton in Hreg as ->. eexists _, w.
    split; [reflexivity|exact Hw].
  - reflexivity.
  - split; [|split]; [|intros _|split_and!]; by apply (bool_decide_unpack _).
  - exists r'. split; [exact H|].
    apply (Hrun SetupSample.fresh (NewBuildJob (SH:=SetupSample.host_calls) (λ _, "") SetupSample.cfg
             SetupSample.fresh).2).
    + vm_compute. reflexivity.
    + apply (f_equal (λ x, builds_of (r_world x.2))) in H. etrans; [|exact H]. vm_compute. reflexivity.
    + split; [reflexivity|discriminate].
Defined.

(** In this run the build is completed, and two messages were sent. *)
Example completed_run :
  (λ c, st_State (cib_Status c)) <$> (builds_at (Run (job_of constructed) running).2 !! mkKey "ns" "b")
  = Some BuildStateCompleted ∧
  su_CurrentState <$> published (Run (job_of constructed) running).2 = ["Building"; "Completed"].
Proof. split; vm_compute; reflexivity. Qed.
End LifecycleSample.
